(* ===== verification/_CoqProject ===== *)
-Q . S2P
Prelude.v
Codec.v
Netip.v
Schema.v
Wireauth.v
Artifact.v
Observation.v
Registry.v
Leasing.v
Upload.v
Server.v
Trust.v
Consensus.v
Rollup.v
Outbox.v
Advisor.v
Routing.v
Distribution.v
Builder.v
WellFormed.v
Probe.v
StateDir.v
FSStore.v
Migrate.v
Config.v
Admin.v
Console.v
Ticker.v
Website.v
Client.v
Executor.v
Agent.v
Fleet.v
Vapn.v
Startup.v
Serving.v
Loops.v
WorkerLoops.v
LoadTest.v
