(* ===== verification/Prelude.v ===== *)
(** Verification of the VPS Advisor probe network: a coordinator that leases
    probe assignments to untrusted workers, an aggregator that turns their
    signed observations into consensus verdicts, a builder that turns routing
    dumps into signed snapshots, and the synchronization with the VPS Advisor
    website.  All services share one PostgreSQL database.

    * How the program is modelled

    The database is a record of tables ([Schema.database]); a table with a
    generated identity is a list of rows in insertion order, a keyed table is
    a [gmap].  Each SQL statement is a total function on it.  Calls run in the
    state-and-error monad [M] of this file: a [world] is the state, the clock
    of the call and a fault schedule that says which of the following
    statements fail; [tx] is a transaction that restores the tables on any
    error.  A theorem that quantifies over a world therefore covers every
    point at which a statement, [Begin] or [Commit] can fail.  Services with
    state beyond the database run in the same monad over a larger record
    ([Artifact.sys]: database, object store, kill switch and manifest cache;
    [Outbox.pub]: database and what the website received).

    [Respects R m] (this file) says that every run of [m], whatever fails,
    relates the tables before and after by the preorder [R]; the tactic
    [respects] reduces it to one fact per statement, which is how the
    invariants of whole handlers are proved.  [inv_ok] decomposes a run that
    succeeded.

    Times and durations are [Z] nanoseconds (64-bit where it matters, in
    Wireauth); SQL doubles are exact rationals [Q]; address counts are
    unsigned 64-bit with wrap-around written out (Distribution).  Ed25519,
    SHA-256, JSON texts, RFC 3339, URL and duration syntax, the SQLite format,
    MRT decoding, the GeoIP database and the website's server are parameters
    with law classes; each has a concrete instance (the [Toy*] modules) on
    which the witnesses evaluate.

    * Files, in dependency order

    - Prelude: the monad, tables, two-state reasoning, generic lemmas.
    - Codec: hex, base64 and string joining, with their round trips.
    - Netip: [net/netip] addresses and prefixes.
    - Schema: the tables of migrations/*.sql.
    - Wireauth: internal/wireauth; Observation: internal/observation.
    - Artifact: internal/artifact (manifest.go, publisher.go, sqlite.go, the
      Store interface): publication proves its own readback, rollback and
      pruning never lose what workers may be using.
    - Registry: internal/registry, one definition per [Store] method; the
      class [StorePromise] states what every call promises, and the
      lifecycle, token and key invariants are instances of it.
    - Leasing: internal/scheduler and the lease and release transactions of
      internal/coordinator/measurement.go, as a step relation [sstep] with an
      invariant over reachable states.
    - Upload: observation intake of measurement.go.
    - Server: internal/coordinator/server.go, rotation.go and the
      state-changing part of admin.go; [serve] dispatches as [New] does, and
      the theorems are about arbitrary request sequences ([run_steps]).
    - Trust: internal/trust.  Consensus and Rollup: internal/aggregate.
    - Outbox: internal/publisher.
    - Advisor: internal/advisor and internal/coordinator/advisorsync.go.
    - Routing: internal/routing (bogon, mrtreader, geo).
    - Distribution: internal/builder/distribution.go; the class [GeoRecords]
      is the interface to the GeoIP source, discharged for [geo.Enricher].
    - Builder: internal/builder/builder.go, the whole of [Run].
    - WellFormed: the constraints of migrations/*.sql (foreign keys, unique
      keys, sequences, checks) as a predicate on [database], kept by every
      statement of every service; [service] is one step of any of them.
    - Probe: internal/probe; an ICMP socket delivers arbitrary datagrams.
    - StateDir: internal/worker/state.go and status.go, over a file system
      whose writes land byte by byte and may stop at any byte.
    - FSStore: the directory store of internal/artifact/store.go, which
      refines the object store of Artifact.
    - Migrate: internal/platform/migrate; Config: internal/platform/config and
      internal/artifact/storeconfig.go.
    - Admin: the read-only reports of internal/coordinator/admin.go, with the
      parsing of their query strings, and the collector of metrics.go.
    - Console: cmd/vapnctl, from flags through URL parsing and the routes of
      [New] to the handlers of Server and Admin and back to printed rows.
    - Ticker: [time.Ticker] and the [for]-[select] loops over tickers that the
      services share; a pass of a loop is one [turn].
    - Website: the HTTP client of internal/advisor (client.go, results.go) and
      the stand-in site of internal/mockadvisor, linked to each other.
    - Client: internal/worker/client.go; the class [Network] is whatever is at
      the other end, so what is proved over it holds against any coordinator.
    - Executor: internal/worker/executor.go; the lease pass, the probe loops
      and the uploader are steps ([estep]) over the shared queue.
    - Agent: internal/worker/agent.go and the wiring of cmd/worker/main.go;
      [pstep] interleaves ticks, executor steps, crashes and restarts.
    - Fleet: the worker's client linked to the coordinator's handlers through
      the routes of [New] ([route], [answer]).
    - Vapn: cmd/vapn, the operator's command line, over a host with its
      configuration, the worker's state directory and docker.
    - Startup: internal/platform/db and httpserver, internal/builder/download.go
      and the [main] functions of cmd/coordinator, aggregator, builder,
      worker, migrate and keygen, as functions from the environment to an exit
      code, a panic or the configured service.
    - Serving: the multiplexer and health pages of
      internal/platform/httpserver, the container health check against them,
      and cmd/mockadvisor with its fixture file.
    - Loops: the goroutines the coordinator and the aggregator start
      ([Scheduler.Run], [Scorer.Run], [Engine.Run], [Publisher.Run],
      [StartMaintenance], [StartAdvisorSync]) over the shared state.  [run]
      plays a sequence of passes, requests, builds and restarts and accepts
      it when the tickers allow it; it refines [WellFormed.service].
    - WorkerLoops: the same for the worker process ([Agent.Run],
      [Executor.Run], [probeLoop], [uploader]); it refines [Agent.pstep].
    - LoadTest: cmd/loadtest, its statistics and a simulated worker.

    * What the theorems show

    Scheduling: an assignment never has two live leases and no worker two
    replicas of a target, in any interleaving; a reconcile pass reaches the
    configured redundancy and is idempotent.  Identity: authentication is
    sound, replays are rejected, tokens are redeemed once, retirement revokes
    every key, rotation overlaps exactly.  Measurement: uploads are atomic,
    idempotent and store exactly the admissible observations; windows are
    conservative and final; a weighted majority decides; scores stay in
    [0, 1]; status follows the newest window.  Publication: the outbox
    delivers at least once and makes progress below 44 attempts (above, it
    blocks: [Outbox.poison_row_blocks]).  Snapshots: extraction is exact,
    address space is counted exactly and once, targets keep their budgets and
    are spread over countries, and a run of the builder is safe under every
    failure.  Workers: only snapshots vouched for by the pinned key are
    installed, only targets they list are probed, a rotation or a restart
    never changes the identity by accident, every observation is accounted
    for and delivered in order; composed with the coordinator, a flush stores
    what the worker measured and pausing stops it.  Operations: migrations
    run in order and once, the directory store is as good as the abstract
    one, configuration problems are all reported and secrets not dumped; the
    operator's commands keep the worker's identity, write configuration that
    reads back, change nothing before their checks pass, and an update ends
    healthy or rolled back.  The database: no interleaving of services and
    failures violates a constraint of the schema.  Administration: reports
    change nothing, every admin write is audited, a console command that fails
    changes nothing and one that succeeds has taken effect, query strings and
    cursors arrive unchanged.  Start-up: a service waits for its database for
    a bounded time, the coordinator runs exactly when its environment allows
    it and never with an empty admin token, generated keys fit together, the
    routing dump is replaced completely or not at all, and the builder's exit
    code tells what happened.  Running: whatever is delayed, fails or is
    restarted, the loops of the services keep every invariant of the calls
    they make; a window is settled while its successor lasts or never, and
    while ticks are processed in time no window is skipped; the probes of an
    assignment never overlap and do not come faster than its interval allows.

    Delays are inputs: when the runtime delivers a tick, which ready case a
    [select] takes and how long a call takes are part of an event, so the
    theorems on the loops hold for all of them.  The calls of different
    processes are atomic here; Leasing and Executor treat the finer
    interleavings of transactions and channel operations.

    Loops over data are structural.  Loops the program bounds by a counter
    keep the code's own bound: 1000 pages in [fetchPages], 30 attempts in
    [Agent.register], 64 foreign packets in [Probe.awaitReply].  The upload
    loop has one round per pending observation, which is enough because every
    successful round removes at least one ([Executor.flush_delivers] proves
    that it ends with nothing pending or at a failed upload).  The wait for
    the database has one round per two seconds of its limit and one more
    ([Startup.database_wait]).

    Findings are stated as theorems where they are behaviour of the model:
    [Wireauth.far_future_accepted], [Artifact.rollback_publishes_unbuilt],
    [Registry.activated_without_approval], [Outbox.poison_row_blocks],
    [Advisor.cursor_skips_failed_decision],
    [Advisor.restart_undoes_suspension], [Distribution.units_of_default_route],
    [Fleet.stale_key_loses_measurements], [Executor.bad_interval_crashes],
    [StateDir.interrupted_first_boot], [StateDir.install_not_atomic],
    [Agent.running_not_rechecked], [Probe.foreign_reply_counts],
    [Probe.cancelled_probe_reports_down], [Vapn.config_lost_silently],
    [Vapn.unregister_creates_key], [Vapn.mask_reveals], [Vapn.doctor_panics],
    [Console.plus_becomes_space], [Console.limit_falls_back],
    [Startup.zero_interval_panics],
    [Startup.negative_retention_reports_failure],
    [Loops.window_settled_in_time] (missed windows are not made up for) and
    [Serving.healthcheck_exact].

    * Not modelled

    Logging and its levels, metric descriptions, the connection pool, the
    HTTP and S3 transports, gzip and MRT decoding and the encoding of ICMP
    messages are I/O of the platform or of libraries; the theorems hold for
    every result they can give.  An S3 write that reports an error but took
    effect is not covered.  Audit details and ids, the creation time of
    snapshots, the padding of printed tables, the client's limit on the size
    of a response and the ramp-up of the load generator's fleet are left out,
    since no decision of the program depends on them. *)
From stdpp Require Import base gmap strings list option sorting.
From Stdlib Require Import ZArith Lia.

Declare Scope vapn_scope.
Delimit Scope vapn_scope with vapn.
Open Scope vapn_scope.
Open Scope Z_scope.

(** * Time

    [time.Time] and [timestamptz] values, and [time.Duration], are [Z]
    nanoseconds. *)
Definition Second : Z := 1000000000.
Definition Minute : Z := 60 * Second.
Definition Hour : Z := 60 * Minute.

(** * Errors

    The error values the modelled functions return.  [EDatabase] is any
    infrastructure failure of a statement (connection lost, timeout); the
    sentinel errors of [internal/registry] have a constructor each. *)
Inductive error : Type :=
| EDatabase
| ENoRows
| EConstraint (name : string)
| EBadToken
| EUnknownWorker
| EBadTransition (from to : string)
| EMsg (msg : string).

#[global] Instance error_eq_dec : EqDecision error.
Proof. solve_decision. Defined.

Inductive result (A : Type) : Type :=
| Ok (a : A)
| Err (e : error).
Arguments Ok {A} a.
Arguments Err {A} e.

Definition is_ok {A} (r : result A) : bool :=
  match r with Ok _ => true | Err _ => false end.

Definition of_option {A} (e : error) (o : option A) : result A :=
  match o with Some a => Ok a | None => Err e end.

(** * The database monad

    A [world] is the database, the clock ([now()], fixed for the duration of
    one call) and a fault schedule: the [n]-th element says whether the [n]-th
    statement from here fails with an infrastructure error.  An exhausted
    schedule means no further failures. *)
Record world (D : Type) : Type := World {
  w_db : D;
  w_now : Z;
  w_faults : list bool
}.
Arguments World {D} _ _ _.
Arguments w_db {D} _.
Arguments w_now {D} _.
Arguments w_faults {D} _.

Definition M (D A : Type) : Type := world D -> result A * world D.

Definition ret {D A} (a : A) : M D A := fun w => (Ok a, w).
Definition throw {D A} (e : error) : M D A := fun w => (Err e, w).

Definition bindM {D A B} (m : M D A) (k : A -> M D B) : M D B := fun w =>
  match m w with
  | (Ok a, w') => k a w'
  | (Err e, w') => (Err e, w')
  end.

Notation "'let!' x := m 'in' k" := (bindM m (fun x => k))
  (at level 10, x binder, m at level 99, k at level 200) : vapn_scope.
Notation "'do!' m ;; k" := (bindM m (fun _ => k))
  (at level 10, m at level 99, k at level 200) : vapn_scope.

(** One statement: it fails when the schedule says so, otherwise it runs [f]
    on the clock and the tables; a constraint violation ([Err]) changes
    nothing. *)
Definition stmt {D A} (f : Z -> D -> result (A * D)) : M D A := fun w =>
  match w_faults w with
  | true :: fs => (Err EDatabase, World (w_db w) (w_now w) fs)
  | fs =>
      match f (w_now w) (w_db w) with
      | Ok (a, d) => (Ok a, World d (w_now w) (tail fs))
      | Err e => (Err e, World (w_db w) (w_now w) (tail fs))
      end
  end.

Definition exec {D} (f : Z -> D -> D) : M D unit := stmt (fun n d => Ok (tt, f n d)).
Definition query {D A} (f : Z -> D -> A) : M D A := stmt (fun n d => Ok (f n d, d)).
Definition query_row {D A} (f : Z -> D -> option A) : M D A :=
  stmt (fun n d => match f n d with Some a => Ok (a, d) | None => Err ENoRows end).

(** [Pool.Begin] ... [tx.Commit] with [defer tx.Rollback]: any error of the
    body, of [Begin] or of [Commit] restores the tables. *)
Definition begin_commit {D} : M D unit := stmt (fun _ d => Ok (tt, d)).

Definition tx {D A} (body : M D A) : M D A := fun w =>
  match (do! begin_commit ;; let! a := body in do! begin_commit ;; ret a) w with
  | (Ok a, w') => (Ok a, w')
  | (Err e, w') => (Err e, World (w_db w) (w_now w') (w_faults w'))
  end.

(** [defer tx.Rollback] around a hand-written transaction: an error restores
    the tables. *)
Definition rollback {D A} (m : M D A) : M D A := fun w =>
  match m w with
  | (Ok a, w') => (Ok a, w')
  | (Err e, w') => (Err e, World (w_db w) (w_now w') (w_faults w'))
  end.

(** Run a call whose error is handled by the caller. *)
Definition attempt {D A} (m : M D A) : M D (result A) := fun w =>
  let (r, w') := m w in (Ok r, w').

Fixpoint forM {D A} (l : list A) (f : A -> M D unit) : M D unit :=
  match l with
  | [] => ret tt
  | x :: l' => do! f x ;; forM l' f
  end.

(** * Tables

    A table with a generated identity is a list of rows in insertion order;
    the SQL verbs on it. *)
Definition select {A} (p : A -> bool) (t : list A) : list A := List.filter p t.
Definition update_where {A} (p : A -> bool) (f : A -> A) (t : list A) : list A :=
  map (fun r => if p r then f r else r) t.
Definition delete_where {A} (p : A -> bool) (t : list A) : list A :=
  List.filter (fun r => negb (p r)) t.
Definition exists_row {A} (p : A -> bool) (t : list A) : bool := existsb p t.
Definition count_rows {A} (p : A -> bool) (t : list A) : nat := length (select p t).
(** [insert ... on conflict do nothing] on a keyed table; the boolean is
    [RowsAffected() > 0]. *)
Definition insert_nothing {K V} `{Countable K} (k : K) (v : V) (t : gmap K V) : bool * gmap K V :=
  match t !! k with
  | Some _ => (false, t)
  | None => (true, <[k := v]> t)
  end.

(** [distinct on (key)] over rows already in the statement's order: the first
    row of each key. *)
Fixpoint distinct_on_aux {A K} `{EqDecision K} (key : A -> K) (seen : list K) (l : list A) : list A :=
  match l with
  | [] => []
  | x :: l' =>
      if decide (key x ∈ seen) then distinct_on_aux key seen l'
      else x :: distinct_on_aux key (key x :: seen) l'
  end.
Definition distinct_on {A K} `{EqDecision K} (key : A -> K) (l : list A) : list A :=
  distinct_on_aux key [] l.

Definition is_some {A} (o : option A) : bool := match o with Some _ => true | None => false end.
Definition is_none {A} (o : option A) : bool := match o with Some _ => false | None => true end.

Definition sumZ {A} (f : A -> Z) (l : list A) : Z := foldr (fun x acc => f x + acc) 0 l.

(** * Monad lemmas *)
Section Monad.
Context {D : Type}.

Lemma bindM_Ok {A B} (m : M D A) (k : A -> M D B) w b w' :
  bindM m k w = (Ok b, w') -> exists a w1, m w = (Ok a, w1) /\ k a w1 = (Ok b, w').
Proof. unfold bindM. destruct (m w) as [[a|e] w1]; intros H; [eauto | congruence]. Qed.

Lemma stmt_Ok {A} (f : Z -> D -> result (A * D)) w a w' :
  stmt f w = (Ok a, w') ->
  f (w_now w) (w_db w) = Ok (a, w_db w') /\ w_now w' = w_now w.
Proof.
  unfold stmt. destruct (w_faults w) as [|[] fs]; intros H; try discriminate;
    destruct (f (w_now w) (w_db w)) as [[a0 d]|e]; simplify_eq; done.
Qed.

Lemma stmt_now {A} (f : Z -> D -> result (A * D)) w r w' :
  stmt f w = (r, w') -> w_now w' = w_now w.
Proof.
  unfold stmt. destruct (w_faults w) as [|[] fs]; intros H; simplify_eq; try done;
    destruct (f (w_now w) (w_db w)) as [[a0 d]|e]; simplify_eq; done.
Qed.

Lemma stmt_Err {A} (f : Z -> D -> result (A * D)) w e w' :
  stmt f w = (Err e, w') -> w_db w' = w_db w /\ w_now w' = w_now w.
Proof.
  unfold stmt. destruct (w_faults w) as [|[] fs]; intros H; simplify_eq; try done;
    destruct (f (w_now w) (w_db w)) as [[a0 d]|e']; simplify_eq; done.
Qed.

Lemma exec_Ok (f : Z -> D -> D) w a w' :
  exec f w = (Ok a, w') -> w_db w' = f (w_now w) (w_db w) /\ w_now w' = w_now w.
Proof. intros [H ?]%stmt_Ok. by simplify_eq. Qed.

Lemma query_Ok {A} (f : Z -> D -> A) w a w' :
  query f w = (Ok a, w') ->
  a = f (w_now w) (w_db w) /\ w_db w' = w_db w /\ w_now w' = w_now w.
Proof. intros [H ?]%stmt_Ok. by simplify_eq. Qed.

Lemma query_row_Ok {A} (f : Z -> D -> option A) w a w' :
  query_row f w = (Ok a, w') ->
  f (w_now w) (w_db w) = Some a /\ w_db w' = w_db w /\ w_now w' = w_now w.
Proof. intros [H ?]%stmt_Ok. destruct (f _ _) eqn:E; by simplify_eq. Qed.

Lemma begin_commit_Ok (w : world D) u w' : begin_commit w = (Ok u, w') -> w_db w' = w_db w /\ w_now w' = w_now w.
Proof. intros [H ?]%stmt_Ok. by simplify_eq. Qed.

(** Rollback: a transaction that reports an error leaves every table as it
    was, wherever the failure happened. *)
Lemma tx_Err {A} (body : M D A) w e w' : tx body w = (Err e, w') -> w_db w' = w_db w.
Proof. unfold tx. destruct (bindM _ _ w) as [[a|e'] w1]; intros H; by simplify_eq. Qed.

Lemma tx_Ok {A} (body : M D A) w a w' :
  tx body w = (Ok a, w') ->
  exists w1 w2, w_db w1 = w_db w /\ w_now w1 = w_now w /\
    body w1 = (Ok a, w2) /\ w_db w' = w_db w2 /\ w_now w' = w_now w2.
Proof.
  unfold tx. destruct (bindM _ _ w) as [[a0|e'] w1] eqn:E; intros H; simplify_eq.
  apply bindM_Ok in E as (u & w1 & H1 & E). apply stmt_Ok in H1 as [H1 Hn]. simplify_eq.
  apply bindM_Ok in E as (a1 & w2 & H2 & E).
  apply bindM_Ok in E as (u2 & w3 & H3 & E). apply stmt_Ok in H3 as [H3 Hn3].
  unfold ret in E. simplify_eq. exists w1, w2. split_and!; congruence.
Qed.

Lemma stmt_nofault {A} (f : Z -> D -> result (A * D)) d n :
  stmt f (World d n []) =
    match f n d with
    | Ok (a, d') => (Ok a, World d' n [])
    | Err e => (Err e, World d n [])
    end.
Proof. done. Qed.

Lemma tx_nofault {A} (body : M D A) d n :
  tx body (World d n []) =
    match body (World d n []) with
    | (Ok a, w') =>
        match begin_commit w' with
        | (Ok _, w'') => (Ok a, w'')
        | (Err e, w'') => (Err e, World d (w_now w'') (w_faults w''))
        end
    | (Err e, w') => (Err e, World d (w_now w') (w_faults w'))
    end.
Proof.
  unfold tx, begin_commit. unfold bindM at 1. rewrite stmt_nofault. unfold bindM, ret.
  destruct (body _) as [[a|e] w1]; [|done].
  destruct (stmt _ w1) as [[[]|e] w2]; done.
Qed.
End Monad.

Lemma bind_cases {D A B} (m : M D A) (k : A -> M D B) w r w' : bindM m k w = (r, w') ->
  (exists e, m w = (Err e, w') /\ r = Err e) \/ (exists a w1, m w = (Ok a, w1) /\ k a w1 = (r, w')).
Proof. unfold bindM. destruct (m w) as [[a|e] w1]; intros H; [right; eauto | left; simplify_eq; eauto]. Qed.

Lemma attempt_run {D A} (m : M D A) w r w' : attempt m w = (r, w') -> exists r0, r = Ok r0 /\ m w = (r0, w').
Proof. unfold attempt. destruct (m w) as [r0 w0]. intros [= <- <-]. eauto. Qed.

(** Decompose a hypothesis [m w = (Ok a, w')] into its statements. *)
Ltac inv_ok :=
  repeat match goal with
  | H : bindM _ _ _ = (Ok _, _) |- _ =>
      let a := fresh "r" in let w1 := fresh "w" in
      apply bindM_Ok in H as (a & w1 & ? & H)
  | H : tx _ _ = (Ok _, _) |- _ =>
      let w1 := fresh "w" in let w2 := fresh "w" in
      apply tx_Ok in H as (w1 & w2 & ? & ? & H & ? & ?)
  | H : begin_commit _ = (Ok _, _) |- _ => apply begin_commit_Ok in H as [? ?]
  | H : exec _ _ = (Ok _, _) |- _ => apply exec_Ok in H as [? ?]
  | H : query _ _ = (Ok _, _) |- _ => apply query_Ok in H as (? & ? & ?)
  | H : query_row _ _ = (Ok _, _) |- _ => apply query_row_Ok in H as (? & ? & ?)
  | H : stmt _ _ = (Ok _, _) |- _ => apply stmt_Ok in H as [? ?]
  | H : ret _ _ = (Ok _, _) |- _ => unfold ret in H
  | H : throw _ _ = (Ok _, _) |- _ => discriminate H
  | H : (Ok _, _) = (Ok _, _) |- _ => injection H as ? ?; subst
  | H : Ok _ = Ok _ |- _ => injection H as ?; subst
  | H : Err _ = Ok _ |- _ => discriminate H
  end.

(** Eliminate the intermediate worlds of a decomposed run. *)
Ltac worlds :=
  repeat match goal with
  | H : w_now ?x = _ |- _ => is_var x; try rewrite H in *; clear H
  | H : w_db ?x = _ |- _ => is_var x; try rewrite H in *; clear H
  | H : _ = w_db ?x |- _ => is_var x; try rewrite <- H in *; clear H
  end.

(** * Table lemmas *)
Section Tables.
Context {A : Type}.
Implicit Types (p q : A -> bool) (t : list A).

Lemma select_In p t x : In x (select p t) <-> In x t /\ p x = true.
Proof. apply filter_In. Qed.

Lemma delete_where_In p t x : In x (delete_where p t) <-> In x t /\ p x = false.
Proof. unfold delete_where. rewrite filter_In, negb_true_iff. done. Qed.

Lemma update_where_In p f t x :
  In x (update_where p f t) <-> exists y, In y t /\ x = if p y then f y else y.
Proof. unfold update_where. rewrite in_map_iff. split; intros (y & ? & ?); exists y; auto. Qed.

Lemma update_where_length p f t : length (update_where p f t) = length t.
Proof. apply length_map. Qed.

Lemma update_where_app p f t1 t2 :
  update_where p f (t1 ++ t2) = update_where p f t1 ++ update_where p f t2.
Proof. apply map_app. Qed.

Lemma select_app p t1 t2 : select p (t1 ++ t2) = select p t1 ++ select p t2.
Proof. apply List.filter_app. Qed.

Lemma count_app p t1 t2 : count_rows p (t1 ++ t2) = (count_rows p t1 + count_rows p t2)%nat.
Proof. unfold count_rows. by rewrite select_app, length_app. Qed.

Lemma count_cons p x t : count_rows p (x :: t) = ((if p x then 1 else 0) + count_rows p t)%nat.
Proof. unfold count_rows. simpl. by destruct (p x). Qed.

Lemma count_ext p q t : (forall x, In x t -> p x = q x) -> count_rows p t = count_rows q t.
Proof.
  induction t as [|x t IH]; intros H; [done|]. rewrite !count_cons, IH by (intros; apply H; by right).
  by rewrite (H x (or_introl eq_refl)).
Qed.

Lemma count_le p q t : (forall x, In x t -> p x = true -> q x = true) ->
  (count_rows p t <= count_rows q t)%nat.
Proof.
  induction t as [|x t IH]; intros H; [done|]. rewrite !count_cons.
  specialize (IH (fun y Hy => H y (or_intror Hy))). specialize (H x (or_introl eq_refl)).
  destruct (p x); [rewrite H by done|]; destruct (q x); lia.
Qed.

Lemma count_zero p t : count_rows p t = 0%nat <-> forall x, In x t -> p x = false.
Proof.
  induction t as [|x t IH]; [naive_solver|]. rewrite count_cons. simpl. split.
  - destruct (p x) eqn:E; intros H; [lia|]. intros y [<-|Hy]; [done|]. by apply IH.
  - intros H. rewrite (H x (or_introl eq_refl)). apply IH. auto.
Qed.

Lemma select_none p t : (forall x, In x t -> p x = false) -> select p t = [].
Proof. intros H%count_zero. by apply nil_length_inv. Qed.

Lemma count_update p q f t :
  count_rows p (update_where q f t) = count_rows (fun r => p (if q r then f r else r)) t.
Proof.
  induction t as [|x t IH]; [done|].
  change (update_where q f (x :: t)) with ((if q x then f x else x) :: update_where q f t).
  by rewrite !count_cons, IH.
Qed.

Lemma update_where_id p f t : (forall x, In x t -> p x = true -> f x = x) -> update_where p f t = t.
Proof.
  induction t as [|x t IH]; intros H; [done|]. simpl. rewrite IH by (intros; apply H; [by right|done]).
  destruct (p x) eqn:E; [rewrite (H x); [done | by left | done] | done].
Qed.

Lemma exists_row_true p t : exists_row p t = true <-> exists x, In x t /\ p x = true.
Proof. apply existsb_exists. Qed.

Lemma exists_row_false p t : exists_row p t = false <-> forall x, In x t -> p x = false.
Proof.
  rewrite <- not_true_iff_false, exists_row_true. split.
  - intros H x Hx. destruct (p x) eqn:E; [|done]. destruct H. eauto.
  - intros H (x & Hx & E). rewrite H in E; done.
Qed.
End Tables.

Section DistinctOn.
Context {A K : Type} `{EqDecision K} (key : A -> K).

Lemma distinct_on_aux_In seen l x :
  In x (distinct_on_aux key seen l) -> In x l /\ key x ∉ seen.
Proof.
  revert seen. induction l as [|y l IH]; intros seen; [done|]. simpl. case_decide as E.
  - intros [H1 H2]%IH. auto.
  - intros [->|[H1 H2]%IH]; [auto|]. split; [auto|]. set_solver.
Qed.

Lemma distinct_on_In l x : In x (distinct_on key l) -> In x l.
Proof. intros H. by apply distinct_on_aux_In in H as [? _]. Qed.

Lemma distinct_on_aux_NoDup seen l : NoDup (map key (distinct_on_aux key seen l)).
Proof.
  revert seen. induction l as [|y l IH]; intros seen; simpl; [constructor|]. case_decide; [done|].
  simpl. constructor; [|done]. rewrite list_elem_of_In, in_map_iff.
  intros (x & Hk & [_ H2]%distinct_on_aux_In). set_solver.
Qed.

Lemma distinct_on_NoDup l : NoDup (map key (distinct_on key l)).
Proof. apply distinct_on_aux_NoDup. Qed.

Lemma distinct_on_aux_cover seen l x :
  In x l -> key x ∉ seen -> exists y, In y (distinct_on_aux key seen l) /\ key y = key x.
Proof.
  revert seen. induction l as [|z l IH]; intros seen; [done|]. simpl. intros [->|Hx] Hs.
  - rewrite decide_False by done. exists x. simpl. auto.
  - case_decide as E; [by apply IH|].
    destruct (decide (key x = key z)) as [Hk|Hk]; [exists z; simpl; auto|].
    destruct (IH (key z :: seen)) as (y & Hy & Hky); [done | set_solver |].
    exists y. simpl. auto.
Qed.

Lemma distinct_on_cover l x : In x l -> exists y, In y (distinct_on key l) /\ key y = key x.
Proof. intros H. apply distinct_on_aux_cover; [done | set_solver]. Qed.
End DistinctOn.

Lemma insert_nothing_spec {K V} `{Countable K} (k : K) (v : V) (t : gmap K V) b t' :
  insert_nothing k v t = (b, t') ->
  (b = true /\ t !! k = None /\ t' = <[k := v]> t) \/ (b = false /\ is_Some (t !! k) /\ t' = t).
Proof. unfold insert_nothing. destruct (t !! k) eqn:E; intros ?; simplify_eq; eauto. Qed.

(** Automation shared by the components. *)
Create HintDb vapn.
#[export] Hint Resolve distinct_on_In distinct_on_NoDup : vapn.
#[export] Hint Rewrite @update_where_length @count_update @count_app @select_app @update_where_app : vapn.

(** Turn boolean tests into propositions. *)
Ltac btrue :=
  repeat match goal with
  | H : _ && _ = true |- _ => apply andb_true_iff in H as [? ?]
  | H : _ || _ = false |- _ => apply orb_false_iff in H as [? ?]
  | H : negb _ = true |- _ => apply negb_true_iff in H
  | H : negb _ = false |- _ => apply negb_false_iff in H
  | H : bool_decide _ = true |- _ => apply bool_decide_eq_true in H
  | H : bool_decide _ = false |- _ => apply bool_decide_eq_false in H
  | H : (_ <=? _) = true |- _ => apply Z.leb_le in H
  | H : (_ <=? _) = false |- _ => apply Z.leb_gt in H
  | H : (_ <? _) = true |- _ => apply Z.ltb_lt in H
  | H : (_ <? _) = false |- _ => apply Z.ltb_ge in H
  | H : (_ =? _) = true |- _ => apply Z.eqb_eq in H
  | H : (_ =? _) = false |- _ => apply Z.eqb_neq in H
  end.

(** * Two-state properties of a call

    [Respects R m]: every run of [m], whatever statements fail and whatever it
    returns, relates the tables before and after by [R] (which may mention the
    clock).  With [R] a preorder this composes along the monad, so that a fact
    about a whole handler reduces to one fact per statement. *)
Class PreOrderAt {D} (R : Z -> D -> D -> Prop) : Prop := {
  at_refl : forall n d, R n d d;
  at_trans : forall n d1 d2 d3, R n d1 d2 -> R n d2 d3 -> R n d1 d3
}.

Definition Respects {D A} (R : Z -> D -> D -> Prop) (m : M D A) : Prop :=
  forall w r w', m w = (r, w') -> w_now w' = w_now w /\ R (w_now w) (w_db w) (w_db w').

(** An invariant as a two-state property. *)
Definition Keeps {D} (I : D -> Prop) : Z -> D -> D -> Prop := fun _ d d' => I d -> I d'.

#[global] Instance Keeps_preorder {D} (I : D -> Prop) : PreOrderAt (Keeps I).
Proof. split; unfold Keeps; auto. Qed.

Section RespectsRules.
Context {D : Type} (R : Z -> D -> D -> Prop) `{!PreOrderAt R}.

Lemma respects_ret {A} (a : A) : Respects R (ret a).
Proof. intros w r w' E. unfold ret in E. simplify_eq. split; [done|apply at_refl]. Qed.

Lemma respects_throw {A} e : Respects R (@throw D A e).
Proof. intros w r w' E. unfold throw in E. simplify_eq. split; [done|apply at_refl]. Qed.

Lemma respects_bind {A B} (m : M D A) (k : A -> M D B) :
  Respects R m -> (forall a, Respects R (k a)) -> Respects R (bindM m k).
Proof.
  intros Hm Hk w r w' E. unfold bindM in E. destruct (m w) as [[a|e] w1] eqn:E1; simplify_eq.
  - destruct (Hm _ _ _ E1) as [Hn1 H1]. destruct (Hk a _ _ _ E) as [Hn2 H2].
    rewrite Hn1 in *. split; [congruence|]. by eapply at_trans.
  - by apply Hm in E1.
Qed.

Lemma respects_stmt {A} (f : Z -> D -> result (A * D)) :
  (forall n d a d', f n d = Ok (a, d') -> R n d d') -> Respects R (stmt f).
Proof.
  intros Hf w r w' E. split; [by eapply stmt_now|]. destruct r as [a|e].
  - apply stmt_Ok in E as [E _]. eauto.
  - apply stmt_Err in E as [-> _]. apply at_refl.
Qed.

Lemma respects_exec (f : Z -> D -> D) : (forall n d, R n d (f n d)) -> Respects R (exec f).
Proof. intros Hf. apply respects_stmt. intros n d a d' E. by simplify_eq. Qed.

Lemma respects_query {A} (f : Z -> D -> A) : Respects R (query f).
Proof. apply respects_stmt. intros n d a d' E. simplify_eq. apply at_refl. Qed.

Lemma respects_query_row {A} (f : Z -> D -> option A) : Respects R (query_row f).
Proof. apply respects_stmt. intros n d a d' E. destruct (f n d); simplify_eq. apply at_refl. Qed.

Lemma respects_tx {A} (body : M D A) : Respects R body -> Respects R (tx body).
Proof.
  intros Hb w r w' E. unfold tx in E.
  assert (Respects R (do! begin_commit ;; let! a := body in do! begin_commit ;; ret a)) as Hr.
  { apply respects_bind; [|intros _; apply respects_bind; [done|]; intros a; apply respects_bind].
    - apply respects_stmt. intros; simplify_eq; apply at_refl.
    - apply respects_stmt. intros; simplify_eq; apply at_refl.
    - intros _. apply respects_ret. }
  destruct (bindM _ _ w) as [[a|e] w1] eqn:E1; simplify_eq; apply Hr in E1 as [Hn H1]; [done|].
  split; [done|]. apply at_refl.
Qed.

Lemma respects_rollback {A} (m : M D A) : Respects R m -> Respects R (rollback m).
Proof.
  intros Hm w r w' E. unfold rollback in E. destruct (m w) as [[a|e] w1] eqn:E1; simplify_eq;
    apply Hm in E1 as [Hn H1]; [done|]. split; [done|]. apply at_refl.
Qed.

Lemma respects_attempt {A} (m : M D A) : Respects R m -> Respects R (attempt m).
Proof.
  intros Hm w r w' E. unfold attempt in E. destruct (m w) as [r1 w1] eqn:E1. simplify_eq. by eapply Hm.
Qed.

Lemma respects_forM {A} (l : list A) (f : A -> M D unit) :
  (forall x, Respects R (f x)) -> Respects R (forM l f).
Proof.
  intros Hf. induction l as [|x l IH]; simpl; [apply respects_ret|].
  apply respects_bind; [done|]. by intros _.
Qed.
End RespectsRules.

(** Reduce [Respects R m] to the statements of [m]. *)
Ltac respects :=
  repeat match goal with
  | |- forall _, _ => intros ?
  | |- Respects _ (ret _) => apply respects_ret
  | |- Respects _ (throw _) => apply respects_throw
  | |- Respects _ (bindM _ _) => apply respects_bind; [apply _| |]
  | |- Respects _ (tx _) => apply respects_tx; [apply _|]
  | |- Respects _ (rollback _) => apply respects_rollback; [apply _|]
  | |- Respects _ (attempt _) => apply respects_attempt
  | |- Respects _ (forM _ _) => apply respects_forM; [apply _|]
  | |- Respects _ (query _) => apply respects_query; apply _
  | |- Respects _ (query_row _) => apply respects_query_row; apply _
  | |- Respects _ (exec _) => apply respects_exec; [apply _|]
  | |- Respects _ (stmt _) => apply respects_stmt; [apply _|]
  | |- Respects _ (if ?b then _ else _) => destruct b
  | |- Respects _ (match ?x with _ => _ end) => destruct x
  | |- Respects _ (let '(_, _) := ?x in _) => destruct x
  | |- PreOrderAt _ => apply _
  end.

(** The clock of the current call ([time.Now()]). *)
Definition clock {D} : M D Z := fun w => (Ok (w_now w), w).

Lemma respects_clock {D} (R : Z -> D -> D -> Prop) `{!PreOrderAt R} : Respects R clock.
Proof. intros w r w' E. unfold clock in E. simplify_eq. split; [done|apply at_refl]. Qed.

Lemma clock_Ok {D} (w : world D) a w' : clock w = (Ok a, w') -> a = w_now w /\ w' = w.
Proof. unfold clock. intros ?. by simplify_eq. Qed.

(** A transaction whose statements depend on what earlier ones read: relate
    the tables of a committed run. *)
Lemma respects_tx_Ok {D A} (R : Z -> D -> D -> Prop) `{!PreOrderAt R} (body : M D A) :
  Respects (fun _ _ _ => True) body ->
  (forall w a w', body w = (Ok a, w') -> R (w_now w) (w_db w) (w_db w')) -> Respects R (tx body).
Proof.
  intros Hn Hb w r w' E.
  assert (w_now w' = w_now w) as Hw.
  { refine (proj1 (respects_tx (fun _ _ _ => True) body Hn w r w' E)). split; done. }
  split; [done|]. destruct r as [a|e].
  - apply tx_Ok in E as (w1 & w2 & E1 & E2 & E3 & E4 & E5). apply Hb in E3. by rewrite E1, E2, <- E4 in E3.
  - apply tx_Err in E. rewrite E. apply at_refl.
Qed.

#[global] Instance True_preorder {D} : PreOrderAt (D := D) (fun _ _ _ => True).
Proof. split; done. Qed.

(** * Runs in which no call fails *)
Definition Calm {S A} (m : M S A) : Prop := forall w r w', m w = (r, w') -> w_faults w = [] -> w_faults w' = [].
Lemma calm_ret {S A} (a : A) : Calm (S := S) (ret a).
Proof. by intros w r w' [= <- <-]. Qed.
Lemma calm_throw {S A} e : Calm (S := S) (A := A) (throw e).
Proof. by intros w r w' [= <- <-]. Qed.
Lemma calm_bind {S A B} (m : M S A) (k : A -> M S B) : Calm m -> (forall a, Calm (k a)) -> Calm (bindM m k).
Proof. intros Hm Hk w r w' [(e & E & _)|(a & w1 & E1 & E)]%bind_cases H; [by eapply Hm|]. eapply Hk; [exact E|]. by eapply Hm. Qed.
Lemma calm_attempt {S A} (m : M S A) : Calm m -> Calm (attempt m).
Proof. intros Hm w r w' (r0 & _ & E)%attempt_run. by eapply Hm. Qed.
Lemma calm_stmt {S A} (f : Z -> S -> result (A * S)) : Calm (stmt f).
Proof. intros [d n fs] r w' E. simpl. intros ->. rewrite stmt_nofault in E. destruct (f n d) as [[a d']|]; by simplify_eq. Qed.
Lemma calm_forM {S A} (l : list A) (f : A -> M S unit) : (forall a, Calm (f a)) -> Calm (forM l f).
Proof. intros Hf. induction l as [|a l IH]; simpl; [apply calm_ret|]. by apply calm_bind. Qed.
Lemma calm_clock {S} : Calm (S := S) clock.
Proof. by intros w r w' [= <- <-]. Qed.
Lemma calm_tx {S A} (m : M S A) : Calm m -> Calm (tx m).
Proof.
  intros Hm w r w' E H. unfold tx in E.
  assert (Calm (do! begin_commit ;; let! a := m in do! begin_commit ;; ret a)) as Hb.
  { unfold begin_commit. apply calm_bind; [apply calm_stmt|]. intros _. apply calm_bind; [done|]. intros a.
    apply calm_bind; [apply calm_stmt|]. intros _. apply calm_ret. }
  destruct (bindM _ _ w) as [[a|e] w1] eqn:E1; simplify_eq; exact (Hb _ _ _ E1 H).
Qed.

(** [Calm] of a program by its structure; [tac] knows the program's own
    operations. *)
Ltac calm_with tac :=
  repeat first
    [ tac | apply calm_ret | apply calm_throw | apply calm_attempt | apply calm_stmt | apply calm_clock | apply calm_tx
    | apply calm_bind; [|intros ?] | apply calm_forM; intros ?
    | match goal with |- Calm (match ?x with _ => _ end) => destruct x end ].

(** * Which errors a program can end with *)
Definition Throws {S A} (P : error -> Prop) (m : M S A) : Prop := forall w e w', m w = (Err e, w') -> P e.
Section Throws.
Context {S : Type} (P : error -> Prop).
Lemma throws_ret {A} (a : A) : Throws (S := S) P (ret a).
Proof. by intros w e w' E. Qed.
Lemma throws_throw {A} e : P e -> Throws (S := S) (A := A) P (throw e).
Proof. by intros H w e' w' [= <- <-]. Qed.
Lemma throws_clock : Throws (S := S) P clock.
Proof. by intros w e w' E. Qed.
Lemma throws_bind {A B} (m : M S A) (k : A -> M S B) : Throws P m -> (forall a, Throws P (k a)) -> Throws P (bindM m k).
Proof.
  intros Hm Hk w e w' [(e' & E & E')|(a & w1 & E1 & E)]%bind_cases; [injection E' as ->; by eapply Hm | by eapply Hk].
Qed.
Lemma throws_stmt {A} (f : Z -> S -> result (A * S)) : P EDatabase -> (forall n d e, f n d = Err e -> P e) -> Throws P (stmt f).
Proof.
  intros Hd Hf [d n fs] e w'. unfold stmt. simpl.
  destruct fs as [|[] fs]; [|by intros [= <- <-]|]; (destruct (f n d) as [[]|] eqn:E; [done|]); intros [= <- <-]; by eapply Hf.
Qed.
Lemma throws_exec (f : Z -> S -> S) : P EDatabase -> Throws P (exec f).
Proof. intros H. by apply throws_stmt. Qed.
Lemma throws_query {A} (f : Z -> S -> A) : P EDatabase -> Throws P (query f).
Proof. intros H. by apply throws_stmt. Qed.
Lemma throws_query_row {A} (f : Z -> S -> option A) : P EDatabase -> P ENoRows -> Throws P (query_row f).
Proof. intros H1 H2. apply throws_stmt; [done|]. intros n d e. by destruct (f n d); intros [= <-]. Qed.
Lemma throws_attempt {A} (m : M S A) : Throws P (attempt m).
Proof. intros w e w' E. unfold attempt in E. by destruct (m w). Qed.
Lemma throws_forM {A} (l : list A) (f : A -> M S unit) : (forall a, Throws P (f a)) -> Throws P (forM l f).
Proof. intros Hf. induction l as [|a l IH]; simpl; [apply throws_ret|]. by apply throws_bind. Qed.
Lemma throws_tx {A} (m : M S A) : P EDatabase -> Throws P m -> Throws P (tx m).
Proof.
  intros Hd Hm w e w' E. unfold tx in E.
  assert (Throws P (do! begin_commit ;; let! a := m in do! begin_commit ;; ret a)) as Hb.
  { unfold begin_commit. apply throws_bind; [by apply throws_stmt|]. intros _. apply throws_bind; [done|]. intros a.
    apply throws_bind; [by apply throws_stmt|]. intros _. apply throws_ret. }
  destruct (bindM _ _ w) as [[a|e'] w1] eqn:E1; simplify_eq. exact (Hb _ _ _ E1).
Qed.
End Throws.
(** [Throws] of a program by its structure. *)
Ltac throws_with tac :=
  repeat first
    [ tac | apply throws_ret | apply throws_clock | by apply throws_query | by apply throws_query_row | by apply throws_exec
    | by apply throws_throw | apply throws_attempt | apply throws_tx; [done|] | apply throws_bind; [|intros ?]
    | apply throws_forM; intros ?
    | match goal with |- Throws _ (match ?x with _ => _ end) => destruct x eqn:? end ].

(** * Sorting

    [order by] and the sorts of package sort. *)
Section Sort.
Context {A : Type} (le : A -> A -> bool).
Fixpoint insert_by (x : A) (l : list A) : list A :=
  match l with
  | [] => [x]
  | y :: l' => if le x y then x :: l else y :: insert_by x l'
  end.
Definition sort_by (l : list A) : list A := foldr insert_by [] l.
End Sort.

Lemma insert_by_perm {A} le (x : A) l : Permutation (insert_by le x l) (x :: l).
Proof.
  induction l as [|y l IH]; simpl; [done|]. destruct (le x y); [done|]. rewrite IH. apply Permutation_swap.
Qed.
Lemma sort_by_perm {A} le (l : list A) : Permutation (sort_by le l) l.
Proof. induction l as [|x l IH]; simpl; [done|]. rewrite insert_by_perm. by rewrite IH. Qed.

Lemma sort_by_sorted {A} (le : A -> A -> bool) l :
  (forall x y, le x y = false -> le y x = true) -> (forall x y z, le x y = true -> le y z = true -> le x z = true) ->
  StronglySorted (fun x y => le x y = true) (sort_by le l).
Proof.
  intros Ht Htr. assert (forall x l, StronglySorted (fun x y => le x y = true) l ->
    StronglySorted (fun x y => le x y = true) (insert_by le x l)) as Hins.
  { intros x l0 Hs. induction Hs as [|y l0 Hs IH Hall]; simpl; [repeat constructor|].
    destruct (le x y) eqn:E.
    - constructor; [by constructor|]. constructor; [done|]. eapply Forall_impl; [exact Hall|]. intros z. by apply Htr.
    - constructor; [done|]. rewrite insert_by_perm. constructor; [by apply Ht | done]. }
  induction l as [|x l IH]; [constructor | by apply Hins].
Qed.

(** Bytewise string order, of [sort.Strings] and of SQL text columns. *)
Definition string_leb (s t : string) : bool :=
  match String.compare s t with Gt => false | _ => true end.

Lemma string_leb_total s t : string_leb s t = false -> string_leb t s = true.
Proof. unfold string_leb. rewrite (String.compare_antisym s t). by destruct (String.compare t s). Qed.

Lemma string_leb_trans s t u : string_leb s t = true -> string_leb t u = true -> string_leb s u = true.
Proof.
  unfold string_leb. revert t u. induction s as [|a s IH]; intros [|b t] [|c u]; simpl; try done.
  destruct (Ascii.compare a b) eqn:Eab; [|intros _|done]; destruct (Ascii.compare b c) eqn:Ebc; try done.
  all: unfold Ascii.compare in *; first [apply N.compare_eq in Eab|rewrite N.compare_lt_iff in Eab];
       first [apply N.compare_eq in Ebc|rewrite N.compare_lt_iff in Ebc].
  1: by intros H1 H2; rewrite Eab, Ebc, N.compare_refl; exact (IH _ _ H1 H2).
  all: intros; assert (Ascii.N_of_ascii a < Ascii.N_of_ascii c)%N as Hac by lia; rewrite <- N.compare_lt_iff in Hac; by rewrite Hac.
Qed.

(** The iteration order of Go maps. *)
Class MapOrder : Type := { shuffle : forall {A : Type}, list A -> list A }.
Class MapOrderLaws `{MapOrder} : Prop := { shuffle_perm : forall {A} (l : list A), shuffle l ≡ₚ l }.

(** ** Sorting strings *)
Lemma string_leb_antisym s t : string_leb s t = true -> string_leb t s = true -> s = t.
Proof.
  unfold string_leb. rewrite (String.compare_antisym s t). destruct (String.compare t s) eqn:E; try done.
  intros _ _. symmetry. by apply String.compare_eq_iff.
Qed.

Lemma sort_strings_perm l1 l2 : l1 ≡ₚ l2 -> sort_by string_leb l1 = sort_by string_leb l2.
Proof.
  intros H. eapply (StronglySorted_unique_strong (fun x y => string_leb x y = true)).
  - intros x y _ _. apply string_leb_antisym.
  - apply sort_by_sorted; [apply string_leb_total|apply string_leb_trans].
  - apply sort_by_sorted; [apply string_leb_total|apply string_leb_trans].
  - by rewrite !sort_by_perm.
Qed.
