(* ===== verification/Codec.v ===== *)
(** The standard-library encodings the program uses: [encoding/hex],
    [encoding/base64.StdEncoding], and [strings.Join].  Byte slices and strings
    are both [string] (a sequence of bytes). *)
From stdpp Require Import base strings list.
From Stdlib Require Import ZArith NArith Ascii String Lia DecimalPos.
From S2P Require Import Prelude.
Open Scope Z_scope.

Definition byte_val (c : ascii) : Z := Z.of_N (N_of_ascii c).
Definition byte_of (z : Z) : ascii := ascii_of_N (Z.to_N z).
Definition bytes (s : string) : list Z := map byte_val (list_ascii_of_string s).
Definition of_bytes (l : list Z) : string := string_of_list_ascii (map byte_of l).

(** * Hexadecimal *)
Definition hex_digit (v : Z) : ascii := byte_of (if v <? 10 then 48 + v else 87 + v).
Definition hex_value (c : ascii) : option Z :=
  let v := byte_val c in
  if (48 <=? v) && (v <=? 57) then Some (v - 48)
  else if (97 <=? v) && (v <=? 102) then Some (v - 87)
  else if (65 <=? v) && (v <=? 70) then Some (v - 55)
  else None.

(** [hex.EncodeToString]. *)
Fixpoint hex_encode (s : string) : string :=
  match s with
  | EmptyString => EmptyString
  | String c s' =>
      String (hex_digit (byte_val c / 16)) (String (hex_digit (byte_val c mod 16)) (hex_encode s'))
  end.

(** [hex.DecodeString]: an odd length or a character outside the alphabet is
    an error. *)
Fixpoint hex_decode (s : string) : option string :=
  match s with
  | EmptyString => Some EmptyString
  | String h (String l s') =>
      match hex_value h, hex_value l, hex_decode s' with
      | Some vh, Some vl, Some r => Some (String (byte_of (16 * vh + vl)) r)
      | _, _, _ => None
      end
  | String _ EmptyString => None
  end.

(** * Base64 (standard alphabet, padded) *)
Definition b64_char (v : Z) : ascii :=
  byte_of (if v <? 26 then 65 + v
           else if v <? 52 then 71 + v
           else if v <? 62 then v - 4
           else if v =? 62 then 43 else 47).
Definition b64_value (c : ascii) : option Z :=
  let v := byte_val c in
  if (65 <=? v) && (v <=? 90) then Some (v - 65)
  else if (97 <=? v) && (v <=? 122) then Some (v - 71)
  else if (48 <=? v) && (v <=? 57) then Some (v + 4)
  else if v =? 43 then Some 62
  else if v =? 47 then Some 63
  else None.

Definition pad : ascii := byte_of 61.

Fixpoint b64_encode_list (l : list Z) : list ascii :=
  match l with
  | a :: b :: c :: l' =>
      b64_char (a / 4) :: b64_char ((a mod 4) * 16 + b / 16)
      :: b64_char ((b mod 16) * 4 + c / 64) :: b64_char (c mod 64) :: b64_encode_list l'
  | [a; b] =>
      [b64_char (a / 4); b64_char ((a mod 4) * 16 + b / 16); b64_char ((b mod 16) * 4); pad]
  | [a] => [b64_char (a / 4); b64_char ((a mod 4) * 16); pad; pad]
  | [] => []
  end.

Fixpoint b64_decode_list (l : list ascii) : option (list Z) :=
  match l with
  | [] => Some []
  | w :: x :: y :: z :: l' =>
      match b64_value w, b64_value x with
      | Some vw, Some vx =>
          match b64_value y, b64_value z with
          | Some vy, Some vz =>
              match b64_decode_list l' with
              | Some r =>
                  Some (vw * 4 + vx / 16 :: (vx mod 16) * 16 + vy / 4 :: (vy mod 4) * 64 + vz :: r)
              | None => None
              end
          | Some vy, None =>
              if decide (z = pad /\ l' = []) then Some [vw * 4 + vx / 16; (vx mod 16) * 16 + vy / 4]
              else None
          | None, _ =>
              if decide (y = pad /\ z = pad /\ l' = []) then Some [vw * 4 + vx / 16] else None
          end
      | _, _ => None
      end
  | _ => None
  end.

Definition plain64 (c : ascii) : bool :=
  negb (bool_decide (c = byte_of 10) || bool_decide (c = byte_of 13)).

(** [base64.StdEncoding.EncodeToString]. *)
Definition b64_encode (s : string) : string := string_of_list_ascii (b64_encode_list (bytes s)).
(** [base64.StdEncoding.DecodeString]: carriage returns and newlines are
    skipped, anything else outside the padded alphabet is an error. *)
Definition b64_decode (s : string) : option string :=
  of_bytes <$> b64_decode_list
    (List.filter plain64 (list_ascii_of_string s)).

(** [strings.Join]. *)
Fixpoint join (sep : string) (l : list string) : string :=
  match l with
  | [] => ""
  | [s] => s
  | s :: l' => s +:+ sep +:+ join sep l'
  end.

(** [strings.TrimSpace]: ASCII white space and the UTF-8 forms of the other
    characters of [unicode.IsSpace] (U+0085, U+00A0, U+1680, U+2000 to U+200A,
    U+2028, U+2029, U+202F, U+205F, U+3000). *)
Definition space1 (c : ascii) : bool :=
  let v := byte_val c in ((9 <=? v) && (v <=? 13)) || (v =? 32).
Definition space2 (c1 c2 : ascii) : bool :=
  (byte_val c1 =? 194) && ((byte_val c2 =? 133) || (byte_val c2 =? 160)).
Definition space3 (c1 c2 c3 : ascii) : bool :=
  let '(v1, v2, v3) := (byte_val c1, byte_val c2, byte_val c3) in
  ((v1 =? 225) && (v2 =? 154) && (v3 =? 128))
  || ((v1 =? 226) && (v2 =? 128) && (((128 <=? v3) && (v3 <=? 138)) || (v3 =? 168) || (v3 =? 169) || (v3 =? 175)))
  || ((v1 =? 226) && (v2 =? 129) && (v3 =? 159))
  || ((v1 =? 227) && (v2 =? 128) && (v3 =? 128)).
Fixpoint trim (s2 : ascii -> ascii -> bool) (s3 : ascii -> ascii -> ascii -> bool) (l : list ascii) : list ascii :=
  match l with
  | [] => []
  | c1 :: r1 =>
      if space1 c1 then trim s2 s3 r1
      else
        match r1 with
        | [] => l
        | c2 :: r2 =>
            if s2 c1 c2 then trim s2 s3 r2
            else match r2 with
                 | [] => l
                 | c3 :: r3 => if s3 c1 c2 c3 then trim s2 s3 r3 else l
                 end
        end
  end.
Definition trim_left : list ascii -> list ascii := trim space2 space3.
Definition trim_right (l : list ascii) : list ascii :=
  rev (trim (fun a b => space2 b a) (fun a b c => space3 c b a) (rev l)).
Definition TrimSpace (s : string) : string :=
  string_of_list_ascii (trim_left (trim_right (list_ascii_of_string s))).

(** Whether the byte [c] occurs in [s]. *)
Definition has_byte (c : ascii) (s : string) : bool :=
  existsb (fun x => bool_decide (x = c)) (list_ascii_of_string s).

(** * Lemmas *)
Lemma byte_val_range c : 0 <= byte_val c < 256.
Proof. unfold byte_val. pose proof (N_ascii_bounded c). lia. Qed.

Lemma byte_of_val c : byte_of (byte_val c) = c.
Proof. unfold byte_of, byte_val. by rewrite N2Z.id, ascii_N_embedding. Qed.

Lemma of_bytes_bytes s : of_bytes (bytes s) = s.
Proof.
  unfold of_bytes, bytes. rewrite map_map.
  rewrite (map_ext _ id) by (intros; apply byte_of_val). rewrite map_id.
  apply string_of_list_ascii_of_string.
Qed.

(** Exhaustive checks of a decidable statement over an initial segment of the
    integers. *)
Lemma forall_below (n : nat) (P : Z -> bool) :
  forallb P (map Z.of_nat (seq 0 n)) = true -> forall v, 0 <= v < Z.of_nat n -> P v = true.
Proof.
  rewrite forallb_forall. intros H v Hv. apply H. rewrite in_map_iff. exists (Z.to_nat v).
  split; [lia|]. apply in_seq. lia.
Qed.

Lemma hex_value_digit v : 0 <= v < 16 -> hex_value (hex_digit v) = Some v.
Proof.
  intros H. enough (bool_decide (hex_value (hex_digit v) = Some v) = true) by by apply bool_decide_eq_true in H0.
  revert v H. apply (forall_below 16 (fun v => bool_decide (hex_value (hex_digit v) = Some v))).
  vm_compute. reflexivity.
Qed.

(** Hex decoding inverts hex encoding. *)
Lemma hex_roundtrip s : hex_decode (hex_encode s) = Some s.
Proof.
  induction s as [|c s IH]; [done|]. simpl. pose proof (byte_val_range c).
  rewrite !hex_value_digit, IH by
    (pose proof (Z.mod_pos_bound (byte_val c) 16); pose proof (Z.div_lt_upper_bound (byte_val c) 16 16);
     pose proof (Z.div_pos (byte_val c) 16); lia).
  rewrite <- Z.div_mod by lia. by rewrite byte_of_val.
Qed.

Lemma hex_encode_length s : String.length (hex_encode s) = (2 * String.length s)%nat.
Proof. induction s as [|c s IH]; [done|]. simpl. rewrite IH. lia. Qed.

Lemma b64_char_ok v : 0 <= v < 64 ->
  b64_value (b64_char v) = Some v /\ plain64 (b64_char v) = true.
Proof.
  intros H.
  enough (bool_decide (b64_value (b64_char v) = Some v) && plain64 (b64_char v) = true) as E
    by (apply andb_true_iff in E as [?%bool_decide_eq_true ?]; done).
  revert v H.
  apply (forall_below 64 (fun v => bool_decide (b64_value (b64_char v) = Some v) && plain64 (b64_char v))).
  vm_compute. reflexivity.
Qed.

Lemma b64_pad_value : b64_value pad = None.
Proof. reflexivity. Qed.

(** Induction by groups of three. *)
Lemma list_ind3 {A} (P : list A -> Prop) :
  P [] -> (forall a, P [a]) -> (forall a b, P [a; b]) ->
  (forall a b c l, P l -> P (a :: b :: c :: l)) -> forall l, P l.
Proof.
  intros H0 H1 H2 H3. fix IH 1. intros [|a [|b [|c l]]]; [done | done | done | apply H3, IH].
Qed.

Ltac six_bits :=
  repeat match goal with
  | |- context [b64_value (b64_char ?v)] =>
      rewrite (proj1 (b64_char_ok v ltac:(Z.div_mod_to_equations; lia)))
  end.

Lemma b64_list_roundtrip l :
  Forall (fun b => 0 <= b < 256) l -> b64_decode_list (b64_encode_list l) = Some l.
Proof.
  induction l as [|a|a b|a b c l IH] using list_ind3; intros H; [done | | |];
    repeat match goal with H : Forall _ (_ :: _) |- _ => apply Forall_cons in H as [? H] end.
  - cbn [b64_encode_list b64_decode_list]. six_bits. rewrite b64_pad_value.
    rewrite decide_True by done. repeat f_equal. Z.div_mod_to_equations; lia.
  - cbn [b64_encode_list b64_decode_list]. six_bits. rewrite b64_pad_value.
    rewrite decide_True by done. repeat f_equal; Z.div_mod_to_equations; lia.
  - cbn [b64_encode_list b64_decode_list]. six_bits. rewrite IH by done.
    repeat f_equal; Z.div_mod_to_equations; lia.
Qed.

(** What holds of the alphabet and the padding holds of every encoded byte. *)
Lemma b64_encode_all (P : ascii -> Prop) l :
  P pad -> (forall v, 0 <= v < 64 -> P (b64_char v)) ->
  Forall (fun b => 0 <= b < 256) l -> Forall P (b64_encode_list l).
Proof.
  intros Hp Hc. induction l as [|a|a b|a b c l IH] using list_ind3; intros H;
    repeat match goal with H : Forall _ (_ :: _) |- _ => apply Forall_cons in H as [? H] end;
    cbn [b64_encode_list]; repeat constructor; auto;
    apply Hc; Z.div_mod_to_equations; lia.
Qed.

Lemma b64_encode_plain l :
  Forall (fun b => 0 <= b < 256) l -> Forall (fun c => plain64 c = true) (b64_encode_list l).
Proof. apply b64_encode_all; [done|]. intros v. apply b64_char_ok. Qed.

Lemma bytes_range s : Forall (fun b => 0 <= b < 256) (bytes s).
Proof.
  apply Forall_forall. intros b Hb%list_elem_of_In. unfold bytes in Hb.
  apply in_map_iff in Hb as (c & <- & _). apply byte_val_range.
Qed.

Lemma filter_all {A} (p : A -> bool) l : Forall (fun x => p x = true) l -> List.filter p l = l.
Proof. induction 1 as [|x l Hx _ IH]; [done|]. simpl. by rewrite Hx, IH. Qed.

(** Base64 decoding inverts base64 encoding. *)
Lemma b64_roundtrip s : b64_decode (b64_encode s) = Some s.
Proof.
  unfold b64_decode, b64_encode. rewrite list_ascii_of_string_of_list_ascii.
  pose proof (bytes_range s) as Hb. rewrite (filter_all _ _ (b64_encode_plain _ Hb)), b64_list_roundtrip by done.
  simpl. by rewrite of_bytes_bytes.
Qed.

Lemma b64_encode_nonempty s : s <> ""%string -> b64_encode s <> ""%string.
Proof.
  intros Hs E. apply Hs. pose proof (b64_roundtrip s) as H. rewrite E in H. vm_compute in H. congruence.
Qed.

Lemma has_byte_cons c x s : has_byte c (String x s) = bool_decide (x = c) || has_byte c s.
Proof. done. Qed.

(** A separator byte that occurs in neither field splits a concatenation in
    one way only. *)
Lemma split_at_byte c s1 s2 r1 r2 :
  has_byte c s1 = false -> has_byte c s2 = false ->
  (s1 +:+ String c r1 = s2 +:+ String c r2)%string -> s1 = s2 /\ r1 = r2.
Proof.
  revert s2. induction s1 as [|x s1 IH]; intros [|y s2] H1 H2 E.
  - injection E as ->. done.
  - injection E as E1 E2. subst. rewrite has_byte_cons, bool_decide_true in H2 by done. done.
  - injection E as E1 E2. subst. rewrite has_byte_cons, bool_decide_true in H1 by done. done.
  - injection E as E1 E2. subst. rewrite has_byte_cons in H1, H2. btrue.
    destruct (IH s2) as [-> ->]; done.
Qed.

(** ** Trimming *)
(** A visible ASCII character. *)
Definition graphic (c : ascii) : bool := (33 <=? byte_val c) && (byte_val c <=? 126).

Lemma graphic_not_space c : graphic c = true -> space1 c = false.
Proof.
  unfold graphic, space1. intros H. destruct (_ && _) eqn:E1 at 1; btrue; [lia|].
  destruct (_ && _) eqn:E2; btrue; [lia|]. destruct (_ =? _) eqn:E3; btrue; [lia|done].
Qed.

Lemma trim_graphic s2 s3 l :
  (forall c d, graphic c = true -> s2 c d = false) -> (forall c d e, graphic c = true -> s3 c d e = false) ->
  Forall (fun c => graphic c = true) l -> trim s2 s3 l = l.
Proof.
  intros H2 H3 H. destruct H as [|c l Hc H]; [done|]. cbn [trim]. rewrite graphic_not_space by done.
  destruct l as [|d [|e l]]; [done|by rewrite H2|by rewrite H2, H3].
Qed.

Ltac not_space :=
  unfold graphic, space2, space3; intros;
  repeat match goal with |- context [?a =? ?b] => let E := fresh in destruct (a =? b) eqn:E; btrue; simpl; try lia end; done.

Lemma TrimSpace_line s : Forall (fun c => graphic c = true) (list_ascii_of_string s) ->
  TrimSpace (s +:+ String (byte_of 10) "") = s.
Proof.
  intros H. unfold TrimSpace, trim_right, trim_left.
  assert (list_ascii_of_string (s +:+ String (byte_of 10) "") = list_ascii_of_string s ++ [byte_of 10]) as ->.
  { clear H. induction s as [|c s IH]; [done|]. simpl. by rewrite IH. }
  rewrite rev_app_distr. cbn [rev app trim]. change (space1 (byte_of 10)) with true. cbn iota.
  rewrite (trim_graphic (fun a b => space2 b a) (fun a b c => space3 c b a) (rev (list_ascii_of_string s)));
    [|not_space..|by apply Forall_rev].
  rewrite rev_involutive, trim_graphic; [|not_space..|done]. apply string_of_list_ascii_of_string.
Qed.

Lemma b64_encode_graphic s : Forall (fun c => graphic c = true) (list_ascii_of_string (b64_encode s)).
Proof.
  unfold b64_encode. rewrite list_ascii_of_string_of_list_ascii. apply b64_encode_all; [done| |apply bytes_range].
  apply (forall_below 64 (fun v => graphic (b64_char v))). vm_compute. reflexivity.
Qed.

(** [strings.HasSuffix]. *)
Definition has_suffix (suffix s : string) : bool :=
  let l := list_ascii_of_string s in
  bool_decide (drop (List.length l - String.length suffix) l = list_ascii_of_string suffix).

Lemma list_ascii_app s t : list_ascii_of_string (s +:+ t) = list_ascii_of_string s ++ list_ascii_of_string t.
Proof. induction s as [|c s IH]; [done|]. exact (f_equal (cons c) IH). Qed.

Lemma has_suffix_app s t : has_suffix t (s +:+ t) = true.
Proof.
  unfold has_suffix. rewrite list_ascii_app, length_app. apply bool_decide_eq_true.
  assert (List.length (list_ascii_of_string t) = String.length t) as Ht by (induction t; simpl; congruence).
  rewrite <- Ht, Nat.add_sub. apply drop_app_length.
Qed.

Lemma has_suffix_tail t s u : (String.length t <= List.length (list_ascii_of_string u))%nat ->
  has_suffix t (s +:+ u) = has_suffix t u.
Proof.
  intros H. unfold has_suffix. rewrite list_ascii_app, length_app, drop_app_ge by lia. apply bool_decide_ext.
  replace (_ + _ - _ - _)%nat with (List.length (list_ascii_of_string u) - String.length t)%nat by lia. done.
Qed.

(** [strings.Split] at a one-byte separator. *)
Fixpoint split_on (sep : ascii) (s : string) : list string :=
  match s with
  | EmptyString => [""%string]
  | String c s' =>
      if bool_decide (c = sep) then ""%string :: split_on sep s'
      else match split_on sep s' with
           | x :: l => String c x :: l
           | [] => [String c ""]
           end
  end.
(** [strings.Cut] at a one-byte separator. *)
Fixpoint cut (sep : ascii) (s : string) : option (string * string) :=
  match s with
  | EmptyString => None
  | String c s' => if bool_decide (c = sep) then Some (""%string, s') else prod_map (String c) id <$> cut sep s'
  end.

Section Split.
Context (sep : ascii).

Lemma split_on_ne s : split_on sep s <> [].
Proof. destruct s as [|c s]; simpl; [done|]. case_bool_decide; [done|]. by destruct (split_on sep s). Qed.

Lemma split_on_app s t : split_on sep (s +:+ String sep "" +:+ t) = split_on sep s ++ split_on sep t.
Proof.
  induction s as [|c s IH]; [simpl; by rewrite bool_decide_eq_true_2|].
  change (String c s +:+ String sep "" +:+ t) with (String c (s +:+ String sep "" +:+ t)). cbn [split_on]. rewrite IH.
  case_bool_decide; [done|]. pose proof (split_on_ne s). by destruct (split_on sep s).
Qed.

Lemma join_split_on s : join (String sep "") (split_on sep s) = s.
Proof.
  induction s as [|c s IH]; [done|]. cbn [split_on]. pose proof (split_on_ne s). case_bool_decide as Hc.
  - subst c. destruct (split_on sep s) as [|x l]; [done|].
    change (join (String sep "") ("" :: x :: l)) with (String sep (join (String sep "") (x :: l))). by rewrite IH.
  - destruct (split_on sep s) as [|x l]; [done|]. rewrite <- IH. by destruct l.
Qed.

Lemma split_on_plain s : has_byte sep s = false -> split_on sep s = [s].
Proof.
  induction s as [|c s IH]; [done|]. rewrite has_byte_cons. intros [Hc Hs]%orb_false_iff. simpl. by rewrite Hc, IH.
Qed.

Lemma cut_app s t : has_byte sep s = false -> cut sep (s +:+ String sep "" +:+ t) = Some (s, t).
Proof.
  induction s as [|c s IH]; [simpl; by rewrite bool_decide_eq_true_2|]. rewrite has_byte_cons.
  intros [Hc Hs]%orb_false_iff. change (String c s +:+ String sep "" +:+ t) with (String c (s +:+ String sep "" +:+ t)).
  simpl. by rewrite Hc, IH.
Qed.
End Split.

(** ** [TrimSpace] of what it returned *)
Section Trim.
Context (s2 : ascii -> ascii -> bool) (s3 : ascii -> ascii -> ascii -> bool).

(** Nothing to trim at the head. *)
Definition trimmed (l : list ascii) : bool :=
  match l with
  | [] => true
  | c1 :: r1 =>
      negb (space1 c1) &&
      match r1 with
      | [] => true
      | c2 :: r2 => negb (s2 c1 c2) && match r2 with [] => true | c3 :: _ => negb (s3 c1 c2 c3) end
      end
  end.

Lemma trim_id l : trimmed l = true -> trim s2 s3 l = l.
Proof.
  destruct l as [|c1 [|c2 [|c3 l]]]; simpl; intros; btrue;
    repeat match goal with H : _ = false |- _ => rewrite H; clear H end; done.
Qed.
Lemma trim_suffix l : exists p, l = p ++ trim s2 s3 l.
Proof.
  induction l as [l IH] using (well_founded_ind (well_founded_ltof _ (@List.length ascii))).
  destruct l as [|c1 r1]; [by exists []|]. cbn [trim]. destruct (space1 c1).
  { destruct (IH r1) as [p Hp]; [unfold ltof; simpl; lia|]. exists (c1 :: p). simpl. by rewrite <- Hp. }
  destruct r1 as [|c2 r2]; [by exists []|]. destruct (s2 c1 c2).
  { destruct (IH r2) as [p Hp]; [unfold ltof; simpl; lia|]. exists (c1 :: c2 :: p). simpl. by rewrite <- Hp. }
  destruct r2 as [|c3 r3]; [by exists []|]. destruct (s3 c1 c2 c3); [|by exists []].
  destruct (IH r3) as [p Hp]; [unfold ltof; simpl; lia|]. exists (c1 :: c2 :: c3 :: p). simpl. by rewrite <- Hp.
Qed.
Lemma trim_trimmed l : trimmed (trim s2 s3 l) = true.
Proof.
  induction l as [l IH] using (well_founded_ind (well_founded_ltof _ (@List.length ascii))).
  destruct l as [|c1 r1]; [done|]. cbn [trim]. destruct (space1 c1) eqn:E1; [apply IH; unfold ltof; simpl; lia|].
  destruct r1 as [|c2 r2]; [simpl; by rewrite E1|].
  destruct (s2 c1 c2) eqn:E2; [apply IH; unfold ltof; simpl; lia|].
  destruct r2 as [|c3 r3]; [simpl; by rewrite E1, E2|].
  destruct (s3 c1 c2 c3) eqn:E3; [apply IH; unfold ltof; simpl; lia|]. simpl. by rewrite E1, E2, E3.
Qed.
Lemma trimmed_prefix l m : trimmed (l ++ m) = true -> trimmed l = true.
Proof. destruct l as [|c1 [|c2 [|c3 l]]]; simpl; intros; btrue; simplify_eq; rewrite ?H, ?H0, ?H1; done. Qed.
End Trim.

Abbreviation trimmed_left := (trimmed space2 space3).
Abbreviation trimmed_right l := (trimmed (fun a b => space2 b a) (fun a b c => space3 c b a) (rev l)).

(** The fixed points of [TrimSpace]. *)
Lemma TrimSpace_fixed s : TrimSpace s = s <->
  trimmed_left (list_ascii_of_string s) = true /\ trimmed_right (list_ascii_of_string s) = true.
Proof.
  unfold TrimSpace. split.
  - intros H. apply (f_equal list_ascii_of_string) in H. rewrite list_ascii_of_string_of_list_ascii in H.
    destruct (trim_suffix space2 space3 (trim_right (list_ascii_of_string s))) as [p Hp]. fold trim_left in Hp.
    assert (trim_right (list_ascii_of_string s) = list_ascii_of_string s) as Hr.
    { unfold trim_right in *.
      destruct (trim_suffix (fun a b => space2 b a) (fun a b c => space3 c b a) (rev (list_ascii_of_string s))) as [q Hq].
      rewrite H in Hp. apply (f_equal (@List.length _)) in Hp as Hl. apply (f_equal (@List.length _)) in Hq as Hl'.
      rewrite length_app in Hl, Hl'. rewrite !length_rev in *. assert (q = []) as -> by (destruct q; [done|simpl in *; lia]).
      simpl in Hq. rewrite <- Hq. apply rev_involutive. }
    split.
    + rewrite <- H. apply trim_trimmed.
    + rewrite <- Hr. unfold trim_right. rewrite rev_involutive. apply trim_trimmed.
  - intros [H1 H2]. unfold trim_right. rewrite (trim_id _ _ _ H2), rev_involutive. unfold trim_left.
    rewrite (trim_id _ _ _ H1). apply string_of_list_ascii_of_string.
Qed.

Lemma TrimSpace_idem s : TrimSpace (TrimSpace s) = TrimSpace s.
Proof.
  apply TrimSpace_fixed. unfold TrimSpace. rewrite list_ascii_of_string_of_list_ascii.
  split; [apply trim_trimmed|]. destruct (trim_suffix space2 space3 (trim_right (list_ascii_of_string s))) as [p Hp].
  fold trim_left in Hp.
  pose proof (trim_trimmed (fun a b => space2 b a) (fun a b c => space3 c b a) (rev (list_ascii_of_string s))) as Ht.
  unfold trim_right in Hp at 1. apply (f_equal (@rev _)) in Hp. rewrite rev_involutive, rev_app_distr in Hp.
  rewrite Hp in Ht. by apply trimmed_prefix in Ht.
Qed.

(** Trimming only removes bytes. *)
Lemma TrimSpace_has_byte c s : has_byte c s = false -> has_byte c (TrimSpace s) = false.
Proof.
  unfold has_byte, TrimSpace. rewrite list_ascii_of_string_of_list_ascii. intros H.
  destruct (trim_suffix space2 space3 (trim_right (list_ascii_of_string s))) as [p Hp].
  destruct (trim_suffix (fun a b => space2 b a) (fun a b c => space3 c b a) (rev (list_ascii_of_string s))) as [q Hq].
  apply not_true_iff_false. intros Ht. apply not_true_iff_false in H. destruct H. apply existsb_exists in Ht as (x & Hx & Hc).
  apply existsb_exists. exists x. split; [|done]. apply in_rev. rewrite Hq. apply in_or_app. right.
  apply in_rev. fold (trim_right (list_ascii_of_string s)). rewrite Hp. apply in_or_app. by right.
Qed.

(** ** Lines and fields *)
Lemma split_on_elems sep s : Forall (fun x => has_byte sep x = false) (split_on sep s).
Proof.
  induction s as [|c s IH]; simpl; [by constructor|]. case_bool_decide as Hc; [by constructor|].
  destruct (split_on sep s) as [|x l]; [by repeat constructor; rewrite has_byte_cons, bool_decide_eq_false_2|].
  inversion IH as [|?? Hx Hl]. constructor; [|done]. by rewrite has_byte_cons, bool_decide_eq_false_2, Hx.
Qed.

Lemma cut_Some sep s k v : cut sep s = Some (k, v) -> s = k +:+ String sep "" +:+ v /\ has_byte sep k = false.
Proof.
  revert k. induction s as [|c s IH]; simpl; intros k H; [done|]. case_bool_decide as Hc.
  - injection H as <- <-. by rewrite Hc.
  - destruct (cut sep s) as [[k' v']|]; [|done]. injection H as <- <-. destruct (IH k' eq_refl) as [-> Hk].
    split; [done|]. by rewrite has_byte_cons, bool_decide_eq_false_2, Hk.
Qed.

Lemma has_byte_app c s t : has_byte c (s +:+ t) = has_byte c s || has_byte c t.
Proof. unfold has_byte. by rewrite list_ascii_app, existsb_app. Qed.

(** ** Decimal integers *)
Lemma to_int_not_nil z : Z.to_int z <> Decimal.Pos Decimal.Nil /\ Z.to_int z <> Decimal.Neg Decimal.Nil.
Proof.
  pose proof DecimalPos.Unsigned.to_uint_nonnil as Hp.
  destruct z as [|p|p]; split; intros E; try discriminate E; injection E as E; by apply Hp in E.
Qed.
