(* ===== verification/Netip.v ===== *)
(** [net/netip] as the platform uses it: addresses of either family as
    unsigned integers of 32 or 128 bits, and CIDR prefixes over them.

    The operations follow the standard library's documentation:
    [Contains], [Overlaps] and [Masked] compare the leading bits, addresses of
    different families are never related, and [Addr.Less] orders IPv4 before
    IPv6 and then by value.  Zones are not modelled (no address in the program
    carries one). *)
From S2P Require Import Prelude.
From stdpp Require Import base countable gmap.
From Stdlib Require Import ZArith Lia.
Open Scope Z_scope.

Inductive family : Type := V4 | V6.

#[global] Instance family_eq_dec : EqDecision family.
Proof. solve_decision. Defined.
#[global] Instance family_countable : Countable family.
Proof.
  refine (inj_countable' (fun f => match f with V4 => true | V6 => false end)
                         (fun b : bool => if b then V4 else V6) _).
  by intros [].
Defined.

Record addr : Type := Addr { addr_fam : family; addr_val : Z }.

#[global] Instance addr_eq_dec : EqDecision addr.
Proof. solve_decision. Defined.
#[global] Instance addr_countable : Countable addr.
Proof.
  refine (inj_countable' (fun a => (addr_fam a, addr_val a)) (fun '(f, v) => Addr f v) _).
  by intros [].
Defined.

Definition BitLen (a : addr) : Z := match addr_fam a with V4 => 32 | V6 => 128 end.
Definition Is4 (a : addr) : bool := match addr_fam a with V4 => true | V6 => false end.
Definition Is6 (a : addr) : bool := negb (Is4 a).
(** [Addr.Less]: by bit length, then by value. *)
Definition addr_Less (a b : addr) : bool :=
  (BitLen a <? BitLen b) || ((BitLen a =? BitLen b) && (addr_val a <? addr_val b)).

Record prefix : Type := Prefix { pfx_addr : addr; pfx_bits : Z }.

#[global] Instance prefix_eq_dec : EqDecision prefix.
Proof. solve_decision. Defined.
#[global] Instance prefix_countable : Countable prefix.
Proof.
  refine (inj_countable' (fun p => (pfx_addr p, pfx_bits p)) (fun '(a, b) => Prefix a b) _).
  by intros [].
Defined.

Definition host_bits (p : prefix) : Z := BitLen (pfx_addr p) - pfx_bits p.
(** The size of [p] in addresses. *)
Definition prefix_size (p : prefix) : Z := 2 ^ host_bits p.
(** [Prefix.Masked]: the host bits cleared. *)
Definition Masked (p : prefix) : prefix :=
  Prefix (Addr (addr_fam (pfx_addr p))
               (Z.shiftl (Z.shiftr (addr_val (pfx_addr p)) (host_bits p)) (host_bits p)))
         (pfx_bits p).
(** [Prefix.Contains]. *)
Definition Contains (p : prefix) (a : addr) : bool :=
  bool_decide (addr_fam (pfx_addr p) = addr_fam a) &&
  (Z.shiftr (addr_val a) (host_bits p) =? Z.shiftr (addr_val (pfx_addr p)) (host_bits p)).
(** [Prefix.Overlaps]: equal leading bits up to the shorter length. *)
Definition Overlaps (p q : prefix) : bool :=
  bool_decide (addr_fam (pfx_addr p) = addr_fam (pfx_addr q)) &&
  (let h := BitLen (pfx_addr p) - Z.min (pfx_bits p) (pfx_bits q) in
   Z.shiftr (addr_val (pfx_addr p)) h =? Z.shiftr (addr_val (pfx_addr q)) h).

(** A valid prefix: the length fits the family and the address is in range. *)
Definition valid_addr (a : addr) : Prop := 0 <= addr_val a < 2 ^ BitLen a.
Definition valid_prefix (p : prefix) : Prop :=
  valid_addr (pfx_addr p) /\ 0 <= pfx_bits p <= BitLen (pfx_addr p).
Definition masked_prefix (p : prefix) : Prop := valid_prefix p /\ Masked p = p.

(** The address range a prefix covers. *)
Definition lo (p : prefix) : Z := addr_val (pfx_addr (Masked p)).
Definition hi (p : prefix) : Z := lo p + prefix_size p.

Lemma shiftl_shiftr_range v h : 0 <= h ->
  Z.shiftl (Z.shiftr v h) h <= v < Z.shiftl (Z.shiftr v h) h + 2 ^ h.
Proof.
  intros Hh. rewrite Z.shiftl_mul_pow2, Z.shiftr_div_pow2 by done.
  pose proof (Z.pow_pos_nonneg 2 h ltac:(lia) Hh).
  pose proof (Z.div_mod v (2 ^ h) ltac:(lia)). pose proof (Z.mod_pos_bound v (2 ^ h) ltac:(lia)). lia.
Qed.

Lemma valid_host_bits p : valid_prefix p -> 0 <= host_bits p.
Proof. intros [_ ?]. unfold host_bits. lia. Qed.

Lemma prefix_size_pos p : valid_prefix p -> 0 < prefix_size p.
Proof. intros H%valid_host_bits. unfold prefix_size. by apply Z.pow_pos_nonneg. Qed.

(** [Contains] is membership of the covered range. *)
Lemma Contains_range p a : valid_prefix p ->
  Contains p a = true <-> addr_fam (pfx_addr p) = addr_fam a /\ lo p <= addr_val a < hi p.
Proof.
  intros Hp. pose proof (valid_host_bits p Hp) as Hh. unfold Contains, hi, lo, prefix_size. simpl.
  rewrite andb_true_iff, bool_decide_eq_true, Z.eqb_eq.
  set (h := host_bits p) in *. split.
  - intros [? E]. split; [done|]. rewrite <- E. by apply shiftl_shiftr_range.
  - intros [? E]. split; [done|].
    rewrite Z.shiftl_mul_pow2 in E by done. rewrite !Z.shiftr_div_pow2 in * by done.
    symmetry. apply Z.div_unique with (r := addr_val a - (addr_val (pfx_addr p) / 2 ^ h) * 2 ^ h); lia.
Qed.

(** Two overlapping prefixes of one family are nested: the one with the
    longer length lies inside the other. *)
Lemma Overlaps_nested p q : valid_prefix p -> valid_prefix q ->
  pfx_bits p <= pfx_bits q ->
  Overlaps p q = Contains p (pfx_addr q).
Proof.
  intros Hp Hq Hle. unfold Overlaps, Contains. rewrite Z.min_l by done.
  destruct (decide (addr_fam (pfx_addr p) = addr_fam (pfx_addr q))) as [E|E].
  - rewrite bool_decide_true by done. simpl. unfold host_bits. by rewrite Z.eqb_sym.
  - by rewrite bool_decide_false.
Qed.

Lemma Overlaps_sym p q : valid_prefix p -> valid_prefix q -> Overlaps p q = Overlaps q p.
Proof.
  intros _ _. unfold Overlaps.
  destruct (decide (addr_fam (pfx_addr p) = addr_fam (pfx_addr q))) as [E|E].
  - rewrite !bool_decide_true by done. simpl. unfold BitLen. rewrite E, Z.min_comm. by rewrite Z.eqb_sym.
  - by rewrite !bool_decide_false.
Qed.
