(* ===== verification/Schema.v ===== *)
(** The PostgreSQL schema the services share ([migrations/*.sql]): a record
    per table row, the tables of all six schemas as one [database], and the
    default column values.

    A table keyed by a natural key is a [gmap]; a table with a generated
    identity is a list in insertion order, with a sequence counter
    ([db_*_seq]) where a statement names the identity.  [uuid] and [bytea]
    values are byte strings, [double precision] and [numeric] values are
    rationals, [jsonb] is [json]. *)
From stdpp Require Import base countable gmap strings list.
From Stdlib Require Import ZArith QArith Lia.
From S2P Require Import Prelude Netip.
Open Scope Z_scope.

Inductive json : Type :=
| JNull
| JBool (b : bool)
| JNum (q : Q)
| JStr (s : string)
| JArr (l : list json)
| JObj (l : list (string * json)).

(** The worker lifecycle states of the [registry.worker.state] check. *)
Inductive worker_state : Type := Pending | Active | Suspended | Quarantined | Retired.
#[global] Instance worker_state_eq_dec : EqDecision worker_state.
Proof. solve_decision. Defined.

Definition state_name (s : worker_state) : string :=
  match s with
  | Pending => "pending"
  | Active => "active"
  | Suspended => "suspended"
  | Quarantined => "quarantined"
  | Retired => "retired"
  end.

Record worker_row : Type := WorkerRow {
  w_operator : string;
  w_name : string;
  w_state : worker_state;
  w_reason : option string;
  w_version : option string;
  w_source_asn : option Z;
  w_enrolled_at : Z;
  w_approved_at : option Z;
  w_retired_at : option Z;
  w_heartbeat_at : option Z;
  w_config : gmap string json
}.

Record key_row : Type := KeyRow {
  k_id : Z;
  k_worker : string;
  k_public : string;
  k_from : Z;
  k_until : option Z;
  k_revoked : option Z;
  k_reason : option string
}.

Record token_row : Type := TokenRow {
  t_worker : string;
  t_expires : Z;
  t_used : option Z
}.

Record trust_row : Type := TrustRow {
  ts_score : Q;
  ts_availability : Q;
  ts_tenure : Q;
  ts_agreement : Q;
  ts_penalty : Q;
  ts_computed_at : Z
}.

Record trust_event_row : Type := TrustEventRow {
  te_worker : string;
  te_type : string;
  te_detail : list (string * string);
  te_actor : string;
  te_created_at : Z
}.

Inductive snapshot_status : Type := Building | Published | Superseded | Failed.
#[global] Instance snapshot_status_eq_dec : EqDecision snapshot_status.
Proof. solve_decision. Defined.

Record snapshot_row : Type := SnapshotRow {
  sn_id : Z;
  sn_version : string;
  sn_status : snapshot_status;
  sn_asn_count : option Z;
  sn_count_v4 : option Z;
  sn_count_v6 : option Z;
  sn_sha256 : option string;
  sn_size : option Z;
  sn_signature : option string;
  sn_built_at : option Z;
  sn_published_at : option Z
}.

Record provider_row : Type := ProviderRow {
  p_name : string;
  p_monitoring_enabled : bool;
  p_priority : Z;
  p_synced_at : Z;
  p_delisted_at : option Z
}.

Record asn_row : Type := AsnRow { an_provider : string; an_synced_at : Z }.

(** [routing.prefix]; the [flags] object has the keys the builder writes. *)
Record prefix_row : Type := PrefixRow {
  pr_id : Z;
  pr_snapshot : Z;
  pr_prefix : prefix;
  pr_origin : Z;
  pr_country : option string;
  pr_city : option string;
  pr_peer_count : Z;
  pr_other_origins : list Z;
  pr_long : bool
}.

Record target_row : Type := TargetRow {
  tg_id : Z;
  tg_snapshot : Z;
  tg_provider : string;
  tg_prefix : Z;
  tg_address : addr;
  tg_active : bool;
  tg_country : option string;
  tg_city : option string
}.

Record geo_row : Type := GeoRow {
  pg_name : option string;
  pg_continent_code : option string;
  pg_continent : option string;
  pg_ipv4 : Z;
  pg_net64s : Z;
  pg_share : Q;
  pg_count_v4 : Z;
  pg_count_v6 : Z;
  pg_targets : Z
}.

Inductive assignment_status : Type := SOpen | SLeased | SDraining | SClosed.
#[global] Instance assignment_status_eq_dec : EqDecision assignment_status.
Proof. solve_decision. Defined.

Record assignment_row : Type := AssignmentRow {
  a_id : Z;
  a_target : Z;
  a_provider : string;
  a_probe : string;
  a_interval : Z;
  a_group : string;
  a_status : assignment_status;
  a_closed_at : option Z
}.

Record lease_row : Type := LeaseRow {
  l_assignment : Z;
  l_worker : string;
  l_leased_at : Z;
  l_expires : Z;
  l_released : option Z;
  l_reason : option string
}.

Record observation_row : Type := ObservationRow {
  o_worker : string;
  o_assignment : Z;
  o_provider : string;
  o_target : addr;
  o_probe : string;
  o_measured_at : Z;
  o_ok : bool;
  o_rtt : option Q;
  o_sent : Z;
  o_lost : Z;
  o_signature : string
}.

Record batch_row : Type := BatchRow { b_worker : string; b_received_at : Z; b_count : Z }.

Inductive verdict : Type := Healthy | Degraded | Outage | InsufficientData.
#[global] Instance verdict_eq_dec : EqDecision verdict.
Proof. solve_decision. Defined.

Record window_row : Type := WindowRow {
  cw_provider : string;
  cw_region : string;
  cw_probe : string;
  cw_start : Z;
  cw_seconds : Z;
  cw_verdict : verdict;
  cw_confidence : Q;
  cw_workers : Z;
  cw_dissent : Q;
  cw_loss : option Q;
  cw_p50 : option Q;
  cw_p95 : option Q;
  cw_p99 : option Q;
  cw_measured_targets : Z;
  cw_up_targets : Z
}.

Record status_row : Type := StatusRow {
  ps_verdict : verdict;
  ps_confidence : Q;
  ps_since : Z;
  ps_metrics : json;
  ps_updated_at : Z
}.

Record target_status_row : Type := TargetStatusRow {
  tst_region : string;
  tst_prefix : option prefix;
  tst_origin : option Z;
  tst_city : option string;
  tst_verdict : verdict;
  tst_availability : Q;
  tst_loss : Q;
  tst_p50 : option Q;
  tst_p95 : option Q;
  tst_workers : Z;
  tst_measured_at : Z;
  tst_updated_at : Z
}.

Record anomaly_row : Type := AnomalyRow {
  an_provider_id : string;
  an_kind : string;
  an_region : string;
  an_severity : string;
  an_opened_at : Z;
  an_resolved_at : option Z;
  an_evidence : json
}.

Record outbox_row : Type := OutboxRow {
  ob_id : Z;
  ob_kind : string;
  ob_payload : json;
  ob_created_at : Z;
  ob_attempts : Z;
  ob_next_attempt : Z;
  ob_acked_at : option Z
}.

Record agreement_row : Type := AgreementRow { ag_agreement : Q; ag_targets : Z }.

Record audit_row : Type := AuditRow {
  au_category : string;
  au_actor : string;
  au_action : string;
  au_subject : string;
  au_created_at : Z
}.

Record database : Type := Database {
  db_worker : gmap string worker_row;
  db_worker_key : list key_row;
  db_key_seq : Z;
  db_token : gmap string token_row;
  db_trust_score : gmap string trust_row;
  db_trust_event : list trust_event_row;
  db_nonce : gmap (string * string) Z;
  db_snapshot : list snapshot_row;
  db_snapshot_seq : Z;
  db_provider : gmap string provider_row;
  db_asn : gmap Z asn_row;
  db_prefix : list prefix_row;
  db_prefix_seq : Z;
  db_target : list target_row;
  db_target_seq : Z;
  db_provider_geo : gmap (Z * string * string) geo_row;
  db_assignment : list assignment_row;
  db_assignment_seq : Z;
  db_lease : list lease_row;
  db_observation : list observation_row;
  db_batch : gmap string batch_row;
  db_window : list window_row;
  db_provider_status : gmap (string * string) status_row;
  db_target_status : gmap (string * addr) target_status_row;
  db_anomaly : list anomaly_row;
  db_outbox : list outbox_row;
  db_outbox_seq : Z;
  db_agreement : gmap (string * Z) agreement_row;
  db_audit : list audit_row
}.

Definition empty_db : database := {|
  db_worker := ∅;
  db_worker_key := [];
  db_key_seq := 1;
  db_token := ∅;
  db_trust_score := ∅;
  db_trust_event := [];
  db_nonce := ∅;
  db_snapshot := [];
  db_snapshot_seq := 1;
  db_provider := ∅;
  db_asn := ∅;
  db_prefix := [];
  db_prefix_seq := 1;
  db_target := [];
  db_target_seq := 1;
  db_provider_geo := ∅;
  db_assignment := [];
  db_assignment_seq := 1;
  db_lease := [];
  db_observation := [];
  db_batch := ∅;
  db_window := [];
  db_provider_status := ∅;
  db_target_status := ∅;
  db_anomaly := [];
  db_outbox := [];
  db_outbox_seq := 1;
  db_agreement := ∅;
  db_audit := []
|}.

Definition set_worker (f : gmap string worker_row -> gmap string worker_row) (d : database) : database := {|
  db_worker := f (db_worker d); db_worker_key := db_worker_key d; db_key_seq := db_key_seq d;
  db_token := db_token d; db_trust_score := db_trust_score d; db_trust_event := db_trust_event d;
  db_nonce := db_nonce d; db_snapshot := db_snapshot d; db_snapshot_seq := db_snapshot_seq d;
  db_provider := db_provider d; db_asn := db_asn d; db_prefix := db_prefix d;
  db_prefix_seq := db_prefix_seq d; db_target := db_target d; db_target_seq := db_target_seq d;
  db_provider_geo := db_provider_geo d; db_assignment := db_assignment d; db_assignment_seq := db_assignment_seq d;
  db_lease := db_lease d; db_observation := db_observation d; db_batch := db_batch d;
  db_window := db_window d; db_provider_status := db_provider_status d; db_target_status := db_target_status d;
  db_anomaly := db_anomaly d; db_outbox := db_outbox d; db_outbox_seq := db_outbox_seq d;
  db_agreement := db_agreement d; db_audit := db_audit d
|}.
Definition set_worker_key (f : list key_row -> list key_row) (d : database) : database := {|
  db_worker := db_worker d; db_worker_key := f (db_worker_key d); db_key_seq := db_key_seq d;
  db_token := db_token d; db_trust_score := db_trust_score d; db_trust_event := db_trust_event d;
  db_nonce := db_nonce d; db_snapshot := db_snapshot d; db_snapshot_seq := db_snapshot_seq d;
  db_provider := db_provider d; db_asn := db_asn d; db_prefix := db_prefix d;
  db_prefix_seq := db_prefix_seq d; db_target := db_target d; db_target_seq := db_target_seq d;
  db_provider_geo := db_provider_geo d; db_assignment := db_assignment d; db_assignment_seq := db_assignment_seq d;
  db_lease := db_lease d; db_observation := db_observation d; db_batch := db_batch d;
  db_window := db_window d; db_provider_status := db_provider_status d; db_target_status := db_target_status d;
  db_anomaly := db_anomaly d; db_outbox := db_outbox d; db_outbox_seq := db_outbox_seq d;
  db_agreement := db_agreement d; db_audit := db_audit d
|}.
Definition set_key_seq (f : Z -> Z) (d : database) : database := {|
  db_worker := db_worker d; db_worker_key := db_worker_key d; db_key_seq := f (db_key_seq d);
  db_token := db_token d; db_trust_score := db_trust_score d; db_trust_event := db_trust_event d;
  db_nonce := db_nonce d; db_snapshot := db_snapshot d; db_snapshot_seq := db_snapshot_seq d;
  db_provider := db_provider d; db_asn := db_asn d; db_prefix := db_prefix d;
  db_prefix_seq := db_prefix_seq d; db_target := db_target d; db_target_seq := db_target_seq d;
  db_provider_geo := db_provider_geo d; db_assignment := db_assignment d; db_assignment_seq := db_assignment_seq d;
  db_lease := db_lease d; db_observation := db_observation d; db_batch := db_batch d;
  db_window := db_window d; db_provider_status := db_provider_status d; db_target_status := db_target_status d;
  db_anomaly := db_anomaly d; db_outbox := db_outbox d; db_outbox_seq := db_outbox_seq d;
  db_agreement := db_agreement d; db_audit := db_audit d
|}.
Definition set_token (f : gmap string token_row -> gmap string token_row) (d : database) : database := {|
  db_worker := db_worker d; db_worker_key := db_worker_key d; db_key_seq := db_key_seq d;
  db_token := f (db_token d); db_trust_score := db_trust_score d; db_trust_event := db_trust_event d;
  db_nonce := db_nonce d; db_snapshot := db_snapshot d; db_snapshot_seq := db_snapshot_seq d;
  db_provider := db_provider d; db_asn := db_asn d; db_prefix := db_prefix d;
  db_prefix_seq := db_prefix_seq d; db_target := db_target d; db_target_seq := db_target_seq d;
  db_provider_geo := db_provider_geo d; db_assignment := db_assignment d; db_assignment_seq := db_assignment_seq d;
  db_lease := db_lease d; db_observation := db_observation d; db_batch := db_batch d;
  db_window := db_window d; db_provider_status := db_provider_status d; db_target_status := db_target_status d;
  db_anomaly := db_anomaly d; db_outbox := db_outbox d; db_outbox_seq := db_outbox_seq d;
  db_agreement := db_agreement d; db_audit := db_audit d
|}.
Definition set_trust_score (f : gmap string trust_row -> gmap string trust_row) (d : database) : database := {|
  db_worker := db_worker d; db_worker_key := db_worker_key d; db_key_seq := db_key_seq d;
  db_token := db_token d; db_trust_score := f (db_trust_score d); db_trust_event := db_trust_event d;
  db_nonce := db_nonce d; db_snapshot := db_snapshot d; db_snapshot_seq := db_snapshot_seq d;
  db_provider := db_provider d; db_asn := db_asn d; db_prefix := db_prefix d;
  db_prefix_seq := db_prefix_seq d; db_target := db_target d; db_target_seq := db_target_seq d;
  db_provider_geo := db_provider_geo d; db_assignment := db_assignment d; db_assignment_seq := db_assignment_seq d;
  db_lease := db_lease d; db_observation := db_observation d; db_batch := db_batch d;
  db_window := db_window d; db_provider_status := db_provider_status d; db_target_status := db_target_status d;
  db_anomaly := db_anomaly d; db_outbox := db_outbox d; db_outbox_seq := db_outbox_seq d;
  db_agreement := db_agreement d; db_audit := db_audit d
|}.
Definition set_trust_event (f : list trust_event_row -> list trust_event_row) (d : database) : database := {|
  db_worker := db_worker d; db_worker_key := db_worker_key d; db_key_seq := db_key_seq d;
  db_token := db_token d; db_trust_score := db_trust_score d; db_trust_event := f (db_trust_event d);
  db_nonce := db_nonce d; db_snapshot := db_snapshot d; db_snapshot_seq := db_snapshot_seq d;
  db_provider := db_provider d; db_asn := db_asn d; db_prefix := db_prefix d;
  db_prefix_seq := db_prefix_seq d; db_target := db_target d; db_target_seq := db_target_seq d;
  db_provider_geo := db_provider_geo d; db_assignment := db_assignment d; db_assignment_seq := db_assignment_seq d;
  db_lease := db_lease d; db_observation := db_observation d; db_batch := db_batch d;
  db_window := db_window d; db_provider_status := db_provider_status d; db_target_status := db_target_status d;
  db_anomaly := db_anomaly d; db_outbox := db_outbox d; db_outbox_seq := db_outbox_seq d;
  db_agreement := db_agreement d; db_audit := db_audit d
|}.
Definition set_nonce (f : gmap (string * string) Z -> gmap (string * string) Z) (d : database) : database := {|
  db_worker := db_worker d; db_worker_key := db_worker_key d; db_key_seq := db_key_seq d;
  db_token := db_token d; db_trust_score := db_trust_score d; db_trust_event := db_trust_event d;
  db_nonce := f (db_nonce d); db_snapshot := db_snapshot d; db_snapshot_seq := db_snapshot_seq d;
  db_provider := db_provider d; db_asn := db_asn d; db_prefix := db_prefix d;
  db_prefix_seq := db_prefix_seq d; db_target := db_target d; db_target_seq := db_target_seq d;
  db_provider_geo := db_provider_geo d; db_assignment := db_assignment d; db_assignment_seq := db_assignment_seq d;
  db_lease := db_lease d; db_observation := db_observation d; db_batch := db_batch d;
  db_window := db_window d; db_provider_status := db_provider_status d; db_target_status := db_target_status d;
  db_anomaly := db_anomaly d; db_outbox := db_outbox d; db_outbox_seq := db_outbox_seq d;
  db_agreement := db_agreement d; db_audit := db_audit d
|}.
Definition set_snapshot (f : list snapshot_row -> list snapshot_row) (d : database) : database := {|
  db_worker := db_worker d; db_worker_key := db_worker_key d; db_key_seq := db_key_seq d;
  db_token := db_token d; db_trust_score := db_trust_score d; db_trust_event := db_trust_event d;
  db_nonce := db_nonce d; db_snapshot := f (db_snapshot d); db_snapshot_seq := db_snapshot_seq d;
  db_provider := db_provider d; db_asn := db_asn d; db_prefix := db_prefix d;
  db_prefix_seq := db_prefix_seq d; db_target := db_target d; db_target_seq := db_target_seq d;
  db_provider_geo := db_provider_geo d; db_assignment := db_assignment d; db_assignment_seq := db_assignment_seq d;
  db_lease := db_lease d; db_observation := db_observation d; db_batch := db_batch d;
  db_window := db_window d; db_provider_status := db_provider_status d; db_target_status := db_target_status d;
  db_anomaly := db_anomaly d; db_outbox := db_outbox d; db_outbox_seq := db_outbox_seq d;
  db_agreement := db_agreement d; db_audit := db_audit d
|}.
Definition set_snapshot_seq (f : Z -> Z) (d : database) : database := {|
  db_worker := db_worker d; db_worker_key := db_worker_key d; db_key_seq := db_key_seq d;
  db_token := db_token d; db_trust_score := db_trust_score d; db_trust_event := db_trust_event d;
  db_nonce := db_nonce d; db_snapshot := db_snapshot d; db_snapshot_seq := f (db_snapshot_seq d);
  db_provider := db_provider d; db_asn := db_asn d; db_prefix := db_prefix d;
  db_prefix_seq := db_prefix_seq d; db_target := db_target d; db_target_seq := db_target_seq d;
  db_provider_geo := db_provider_geo d; db_assignment := db_assignment d; db_assignment_seq := db_assignment_seq d;
  db_lease := db_lease d; db_observation := db_observation d; db_batch := db_batch d;
  db_window := db_window d; db_provider_status := db_provider_status d; db_target_status := db_target_status d;
  db_anomaly := db_anomaly d; db_outbox := db_outbox d; db_outbox_seq := db_outbox_seq d;
  db_agreement := db_agreement d; db_audit := db_audit d
|}.
Definition set_provider (f : gmap string provider_row -> gmap string provider_row) (d : database) : database := {|
  db_worker := db_worker d; db_worker_key := db_worker_key d; db_key_seq := db_key_seq d;
  db_token := db_token d; db_trust_score := db_trust_score d; db_trust_event := db_trust_event d;
  db_nonce := db_nonce d; db_snapshot := db_snapshot d; db_snapshot_seq := db_snapshot_seq d;
  db_provider := f (db_provider d); db_asn := db_asn d; db_prefix := db_prefix d;
  db_prefix_seq := db_prefix_seq d; db_target := db_target d; db_target_seq := db_target_seq d;
  db_provider_geo := db_provider_geo d; db_assignment := db_assignment d; db_assignment_seq := db_assignment_seq d;
  db_lease := db_lease d; db_observation := db_observation d; db_batch := db_batch d;
  db_window := db_window d; db_provider_status := db_provider_status d; db_target_status := db_target_status d;
  db_anomaly := db_anomaly d; db_outbox := db_outbox d; db_outbox_seq := db_outbox_seq d;
  db_agreement := db_agreement d; db_audit := db_audit d
|}.
Definition set_asn (f : gmap Z asn_row -> gmap Z asn_row) (d : database) : database := {|
  db_worker := db_worker d; db_worker_key := db_worker_key d; db_key_seq := db_key_seq d;
  db_token := db_token d; db_trust_score := db_trust_score d; db_trust_event := db_trust_event d;
  db_nonce := db_nonce d; db_snapshot := db_snapshot d; db_snapshot_seq := db_snapshot_seq d;
  db_provider := db_provider d; db_asn := f (db_asn d); db_prefix := db_prefix d;
  db_prefix_seq := db_prefix_seq d; db_target := db_target d; db_target_seq := db_target_seq d;
  db_provider_geo := db_provider_geo d; db_assignment := db_assignment d; db_assignment_seq := db_assignment_seq d;
  db_lease := db_lease d; db_observation := db_observation d; db_batch := db_batch d;
  db_window := db_window d; db_provider_status := db_provider_status d; db_target_status := db_target_status d;
  db_anomaly := db_anomaly d; db_outbox := db_outbox d; db_outbox_seq := db_outbox_seq d;
  db_agreement := db_agreement d; db_audit := db_audit d
|}.
Definition set_prefix (f : list prefix_row -> list prefix_row) (d : database) : database := {|
  db_worker := db_worker d; db_worker_key := db_worker_key d; db_key_seq := db_key_seq d;
  db_token := db_token d; db_trust_score := db_trust_score d; db_trust_event := db_trust_event d;
  db_nonce := db_nonce d; db_snapshot := db_snapshot d; db_snapshot_seq := db_snapshot_seq d;
  db_provider := db_provider d; db_asn := db_asn d; db_prefix := f (db_prefix d);
  db_prefix_seq := db_prefix_seq d; db_target := db_target d; db_target_seq := db_target_seq d;
  db_provider_geo := db_provider_geo d; db_assignment := db_assignment d; db_assignment_seq := db_assignment_seq d;
  db_lease := db_lease d; db_observation := db_observation d; db_batch := db_batch d;
  db_window := db_window d; db_provider_status := db_provider_status d; db_target_status := db_target_status d;
  db_anomaly := db_anomaly d; db_outbox := db_outbox d; db_outbox_seq := db_outbox_seq d;
  db_agreement := db_agreement d; db_audit := db_audit d
|}.
Definition set_prefix_seq (f : Z -> Z) (d : database) : database := {|
  db_worker := db_worker d; db_worker_key := db_worker_key d; db_key_seq := db_key_seq d;
  db_token := db_token d; db_trust_score := db_trust_score d; db_trust_event := db_trust_event d;
  db_nonce := db_nonce d; db_snapshot := db_snapshot d; db_snapshot_seq := db_snapshot_seq d;
  db_provider := db_provider d; db_asn := db_asn d; db_prefix := db_prefix d;
  db_prefix_seq := f (db_prefix_seq d); db_target := db_target d; db_target_seq := db_target_seq d;
  db_provider_geo := db_provider_geo d; db_assignment := db_assignment d; db_assignment_seq := db_assignment_seq d;
  db_lease := db_lease d; db_observation := db_observation d; db_batch := db_batch d;
  db_window := db_window d; db_provider_status := db_provider_status d; db_target_status := db_target_status d;
  db_anomaly := db_anomaly d; db_outbox := db_outbox d; db_outbox_seq := db_outbox_seq d;
  db_agreement := db_agreement d; db_audit := db_audit d
|}.
Definition set_target (f : list target_row -> list target_row) (d : database) : database := {|
  db_worker := db_worker d; db_worker_key := db_worker_key d; db_key_seq := db_key_seq d;
  db_token := db_token d; db_trust_score := db_trust_score d; db_trust_event := db_trust_event d;
  db_nonce := db_nonce d; db_snapshot := db_snapshot d; db_snapshot_seq := db_snapshot_seq d;
  db_provider := db_provider d; db_asn := db_asn d; db_prefix := db_prefix d;
  db_prefix_seq := db_prefix_seq d; db_target := f (db_target d); db_target_seq := db_target_seq d;
  db_provider_geo := db_provider_geo d; db_assignment := db_assignment d; db_assignment_seq := db_assignment_seq d;
  db_lease := db_lease d; db_observation := db_observation d; db_batch := db_batch d;
  db_window := db_window d; db_provider_status := db_provider_status d; db_target_status := db_target_status d;
  db_anomaly := db_anomaly d; db_outbox := db_outbox d; db_outbox_seq := db_outbox_seq d;
  db_agreement := db_agreement d; db_audit := db_audit d
|}.
Definition set_target_seq (f : Z -> Z) (d : database) : database := {|
  db_worker := db_worker d; db_worker_key := db_worker_key d; db_key_seq := db_key_seq d;
  db_token := db_token d; db_trust_score := db_trust_score d; db_trust_event := db_trust_event d;
  db_nonce := db_nonce d; db_snapshot := db_snapshot d; db_snapshot_seq := db_snapshot_seq d;
  db_provider := db_provider d; db_asn := db_asn d; db_prefix := db_prefix d;
  db_prefix_seq := db_prefix_seq d; db_target := db_target d; db_target_seq := f (db_target_seq d);
  db_provider_geo := db_provider_geo d; db_assignment := db_assignment d; db_assignment_seq := db_assignment_seq d;
  db_lease := db_lease d; db_observation := db_observation d; db_batch := db_batch d;
  db_window := db_window d; db_provider_status := db_provider_status d; db_target_status := db_target_status d;
  db_anomaly := db_anomaly d; db_outbox := db_outbox d; db_outbox_seq := db_outbox_seq d;
  db_agreement := db_agreement d; db_audit := db_audit d
|}.
Definition set_provider_geo (f : gmap (Z * string * string) geo_row -> gmap (Z * string * string) geo_row) (d : database) : database := {|
  db_worker := db_worker d; db_worker_key := db_worker_key d; db_key_seq := db_key_seq d;
  db_token := db_token d; db_trust_score := db_trust_score d; db_trust_event := db_trust_event d;
  db_nonce := db_nonce d; db_snapshot := db_snapshot d; db_snapshot_seq := db_snapshot_seq d;
  db_provider := db_provider d; db_asn := db_asn d; db_prefix := db_prefix d;
  db_prefix_seq := db_prefix_seq d; db_target := db_target d; db_target_seq := db_target_seq d;
  db_provider_geo := f (db_provider_geo d); db_assignment := db_assignment d; db_assignment_seq := db_assignment_seq d;
  db_lease := db_lease d; db_observation := db_observation d; db_batch := db_batch d;
  db_window := db_window d; db_provider_status := db_provider_status d; db_target_status := db_target_status d;
  db_anomaly := db_anomaly d; db_outbox := db_outbox d; db_outbox_seq := db_outbox_seq d;
  db_agreement := db_agreement d; db_audit := db_audit d
|}.
Definition set_assignment (f : list assignment_row -> list assignment_row) (d : database) : database := {|
  db_worker := db_worker d; db_worker_key := db_worker_key d; db_key_seq := db_key_seq d;
  db_token := db_token d; db_trust_score := db_trust_score d; db_trust_event := db_trust_event d;
  db_nonce := db_nonce d; db_snapshot := db_snapshot d; db_snapshot_seq := db_snapshot_seq d;
  db_provider := db_provider d; db_asn := db_asn d; db_prefix := db_prefix d;
  db_prefix_seq := db_prefix_seq d; db_target := db_target d; db_target_seq := db_target_seq d;
  db_provider_geo := db_provider_geo d; db_assignment := f (db_assignment d); db_assignment_seq := db_assignment_seq d;
  db_lease := db_lease d; db_observation := db_observation d; db_batch := db_batch d;
  db_window := db_window d; db_provider_status := db_provider_status d; db_target_status := db_target_status d;
  db_anomaly := db_anomaly d; db_outbox := db_outbox d; db_outbox_seq := db_outbox_seq d;
  db_agreement := db_agreement d; db_audit := db_audit d
|}.
Definition set_assignment_seq (f : Z -> Z) (d : database) : database := {|
  db_worker := db_worker d; db_worker_key := db_worker_key d; db_key_seq := db_key_seq d;
  db_token := db_token d; db_trust_score := db_trust_score d; db_trust_event := db_trust_event d;
  db_nonce := db_nonce d; db_snapshot := db_snapshot d; db_snapshot_seq := db_snapshot_seq d;
  db_provider := db_provider d; db_asn := db_asn d; db_prefix := db_prefix d;
  db_prefix_seq := db_prefix_seq d; db_target := db_target d; db_target_seq := db_target_seq d;
  db_provider_geo := db_provider_geo d; db_assignment := db_assignment d; db_assignment_seq := f (db_assignment_seq d);
  db_lease := db_lease d; db_observation := db_observation d; db_batch := db_batch d;
  db_window := db_window d; db_provider_status := db_provider_status d; db_target_status := db_target_status d;
  db_anomaly := db_anomaly d; db_outbox := db_outbox d; db_outbox_seq := db_outbox_seq d;
  db_agreement := db_agreement d; db_audit := db_audit d
|}.
Definition set_lease (f : list lease_row -> list lease_row) (d : database) : database := {|
  db_worker := db_worker d; db_worker_key := db_worker_key d; db_key_seq := db_key_seq d;
  db_token := db_token d; db_trust_score := db_trust_score d; db_trust_event := db_trust_event d;
  db_nonce := db_nonce d; db_snapshot := db_snapshot d; db_snapshot_seq := db_snapshot_seq d;
  db_provider := db_provider d; db_asn := db_asn d; db_prefix := db_prefix d;
  db_prefix_seq := db_prefix_seq d; db_target := db_target d; db_target_seq := db_target_seq d;
  db_provider_geo := db_provider_geo d; db_assignment := db_assignment d; db_assignment_seq := db_assignment_seq d;
  db_lease := f (db_lease d); db_observation := db_observation d; db_batch := db_batch d;
  db_window := db_window d; db_provider_status := db_provider_status d; db_target_status := db_target_status d;
  db_anomaly := db_anomaly d; db_outbox := db_outbox d; db_outbox_seq := db_outbox_seq d;
  db_agreement := db_agreement d; db_audit := db_audit d
|}.
Definition set_observation (f : list observation_row -> list observation_row) (d : database) : database := {|
  db_worker := db_worker d; db_worker_key := db_worker_key d; db_key_seq := db_key_seq d;
  db_token := db_token d; db_trust_score := db_trust_score d; db_trust_event := db_trust_event d;
  db_nonce := db_nonce d; db_snapshot := db_snapshot d; db_snapshot_seq := db_snapshot_seq d;
  db_provider := db_provider d; db_asn := db_asn d; db_prefix := db_prefix d;
  db_prefix_seq := db_prefix_seq d; db_target := db_target d; db_target_seq := db_target_seq d;
  db_provider_geo := db_provider_geo d; db_assignment := db_assignment d; db_assignment_seq := db_assignment_seq d;
  db_lease := db_lease d; db_observation := f (db_observation d); db_batch := db_batch d;
  db_window := db_window d; db_provider_status := db_provider_status d; db_target_status := db_target_status d;
  db_anomaly := db_anomaly d; db_outbox := db_outbox d; db_outbox_seq := db_outbox_seq d;
  db_agreement := db_agreement d; db_audit := db_audit d
|}.
Definition set_batch (f : gmap string batch_row -> gmap string batch_row) (d : database) : database := {|
  db_worker := db_worker d; db_worker_key := db_worker_key d; db_key_seq := db_key_seq d;
  db_token := db_token d; db_trust_score := db_trust_score d; db_trust_event := db_trust_event d;
  db_nonce := db_nonce d; db_snapshot := db_snapshot d; db_snapshot_seq := db_snapshot_seq d;
  db_provider := db_provider d; db_asn := db_asn d; db_prefix := db_prefix d;
  db_prefix_seq := db_prefix_seq d; db_target := db_target d; db_target_seq := db_target_seq d;
  db_provider_geo := db_provider_geo d; db_assignment := db_assignment d; db_assignment_seq := db_assignment_seq d;
  db_lease := db_lease d; db_observation := db_observation d; db_batch := f (db_batch d);
  db_window := db_window d; db_provider_status := db_provider_status d; db_target_status := db_target_status d;
  db_anomaly := db_anomaly d; db_outbox := db_outbox d; db_outbox_seq := db_outbox_seq d;
  db_agreement := db_agreement d; db_audit := db_audit d
|}.
Definition set_window (f : list window_row -> list window_row) (d : database) : database := {|
  db_worker := db_worker d; db_worker_key := db_worker_key d; db_key_seq := db_key_seq d;
  db_token := db_token d; db_trust_score := db_trust_score d; db_trust_event := db_trust_event d;
  db_nonce := db_nonce d; db_snapshot := db_snapshot d; db_snapshot_seq := db_snapshot_seq d;
  db_provider := db_provider d; db_asn := db_asn d; db_prefix := db_prefix d;
  db_prefix_seq := db_prefix_seq d; db_target := db_target d; db_target_seq := db_target_seq d;
  db_provider_geo := db_provider_geo d; db_assignment := db_assignment d; db_assignment_seq := db_assignment_seq d;
  db_lease := db_lease d; db_observation := db_observation d; db_batch := db_batch d;
  db_window := f (db_window d); db_provider_status := db_provider_status d; db_target_status := db_target_status d;
  db_anomaly := db_anomaly d; db_outbox := db_outbox d; db_outbox_seq := db_outbox_seq d;
  db_agreement := db_agreement d; db_audit := db_audit d
|}.
Definition set_provider_status (f : gmap (string * string) status_row -> gmap (string * string) status_row) (d : database) : database := {|
  db_worker := db_worker d; db_worker_key := db_worker_key d; db_key_seq := db_key_seq d;
  db_token := db_token d; db_trust_score := db_trust_score d; db_trust_event := db_trust_event d;
  db_nonce := db_nonce d; db_snapshot := db_snapshot d; db_snapshot_seq := db_snapshot_seq d;
  db_provider := db_provider d; db_asn := db_asn d; db_prefix := db_prefix d;
  db_prefix_seq := db_prefix_seq d; db_target := db_target d; db_target_seq := db_target_seq d;
  db_provider_geo := db_provider_geo d; db_assignment := db_assignment d; db_assignment_seq := db_assignment_seq d;
  db_lease := db_lease d; db_observation := db_observation d; db_batch := db_batch d;
  db_window := db_window d; db_provider_status := f (db_provider_status d); db_target_status := db_target_status d;
  db_anomaly := db_anomaly d; db_outbox := db_outbox d; db_outbox_seq := db_outbox_seq d;
  db_agreement := db_agreement d; db_audit := db_audit d
|}.
Definition set_target_status (f : gmap (string * addr) target_status_row -> gmap (string * addr) target_status_row) (d : database) : database := {|
  db_worker := db_worker d; db_worker_key := db_worker_key d; db_key_seq := db_key_seq d;
  db_token := db_token d; db_trust_score := db_trust_score d; db_trust_event := db_trust_event d;
  db_nonce := db_nonce d; db_snapshot := db_snapshot d; db_snapshot_seq := db_snapshot_seq d;
  db_provider := db_provider d; db_asn := db_asn d; db_prefix := db_prefix d;
  db_prefix_seq := db_prefix_seq d; db_target := db_target d; db_target_seq := db_target_seq d;
  db_provider_geo := db_provider_geo d; db_assignment := db_assignment d; db_assignment_seq := db_assignment_seq d;
  db_lease := db_lease d; db_observation := db_observation d; db_batch := db_batch d;
  db_window := db_window d; db_provider_status := db_provider_status d; db_target_status := f (db_target_status d);
  db_anomaly := db_anomaly d; db_outbox := db_outbox d; db_outbox_seq := db_outbox_seq d;
  db_agreement := db_agreement d; db_audit := db_audit d
|}.
Definition set_anomaly (f : list anomaly_row -> list anomaly_row) (d : database) : database := {|
  db_worker := db_worker d; db_worker_key := db_worker_key d; db_key_seq := db_key_seq d;
  db_token := db_token d; db_trust_score := db_trust_score d; db_trust_event := db_trust_event d;
  db_nonce := db_nonce d; db_snapshot := db_snapshot d; db_snapshot_seq := db_snapshot_seq d;
  db_provider := db_provider d; db_asn := db_asn d; db_prefix := db_prefix d;
  db_prefix_seq := db_prefix_seq d; db_target := db_target d; db_target_seq := db_target_seq d;
  db_provider_geo := db_provider_geo d; db_assignment := db_assignment d; db_assignment_seq := db_assignment_seq d;
  db_lease := db_lease d; db_observation := db_observation d; db_batch := db_batch d;
  db_window := db_window d; db_provider_status := db_provider_status d; db_target_status := db_target_status d;
  db_anomaly := f (db_anomaly d); db_outbox := db_outbox d; db_outbox_seq := db_outbox_seq d;
  db_agreement := db_agreement d; db_audit := db_audit d
|}.
Definition set_outbox (f : list outbox_row -> list outbox_row) (d : database) : database := {|
  db_worker := db_worker d; db_worker_key := db_worker_key d; db_key_seq := db_key_seq d;
  db_token := db_token d; db_trust_score := db_trust_score d; db_trust_event := db_trust_event d;
  db_nonce := db_nonce d; db_snapshot := db_snapshot d; db_snapshot_seq := db_snapshot_seq d;
  db_provider := db_provider d; db_asn := db_asn d; db_prefix := db_prefix d;
  db_prefix_seq := db_prefix_seq d; db_target := db_target d; db_target_seq := db_target_seq d;
  db_provider_geo := db_provider_geo d; db_assignment := db_assignment d; db_assignment_seq := db_assignment_seq d;
  db_lease := db_lease d; db_observation := db_observation d; db_batch := db_batch d;
  db_window := db_window d; db_provider_status := db_provider_status d; db_target_status := db_target_status d;
  db_anomaly := db_anomaly d; db_outbox := f (db_outbox d); db_outbox_seq := db_outbox_seq d;
  db_agreement := db_agreement d; db_audit := db_audit d
|}.
Definition set_outbox_seq (f : Z -> Z) (d : database) : database := {|
  db_worker := db_worker d; db_worker_key := db_worker_key d; db_key_seq := db_key_seq d;
  db_token := db_token d; db_trust_score := db_trust_score d; db_trust_event := db_trust_event d;
  db_nonce := db_nonce d; db_snapshot := db_snapshot d; db_snapshot_seq := db_snapshot_seq d;
  db_provider := db_provider d; db_asn := db_asn d; db_prefix := db_prefix d;
  db_prefix_seq := db_prefix_seq d; db_target := db_target d; db_target_seq := db_target_seq d;
  db_provider_geo := db_provider_geo d; db_assignment := db_assignment d; db_assignment_seq := db_assignment_seq d;
  db_lease := db_lease d; db_observation := db_observation d; db_batch := db_batch d;
  db_window := db_window d; db_provider_status := db_provider_status d; db_target_status := db_target_status d;
  db_anomaly := db_anomaly d; db_outbox := db_outbox d; db_outbox_seq := f (db_outbox_seq d);
  db_agreement := db_agreement d; db_audit := db_audit d
|}.
Definition set_agreement (f : gmap (string * Z) agreement_row -> gmap (string * Z) agreement_row) (d : database) : database := {|
  db_worker := db_worker d; db_worker_key := db_worker_key d; db_key_seq := db_key_seq d;
  db_token := db_token d; db_trust_score := db_trust_score d; db_trust_event := db_trust_event d;
  db_nonce := db_nonce d; db_snapshot := db_snapshot d; db_snapshot_seq := db_snapshot_seq d;
  db_provider := db_provider d; db_asn := db_asn d; db_prefix := db_prefix d;
  db_prefix_seq := db_prefix_seq d; db_target := db_target d; db_target_seq := db_target_seq d;
  db_provider_geo := db_provider_geo d; db_assignment := db_assignment d; db_assignment_seq := db_assignment_seq d;
  db_lease := db_lease d; db_observation := db_observation d; db_batch := db_batch d;
  db_window := db_window d; db_provider_status := db_provider_status d; db_target_status := db_target_status d;
  db_anomaly := db_anomaly d; db_outbox := db_outbox d; db_outbox_seq := db_outbox_seq d;
  db_agreement := f (db_agreement d); db_audit := db_audit d
|}.
Definition set_audit (f : list audit_row -> list audit_row) (d : database) : database := {|
  db_worker := db_worker d; db_worker_key := db_worker_key d; db_key_seq := db_key_seq d;
  db_token := db_token d; db_trust_score := db_trust_score d; db_trust_event := db_trust_event d;
  db_nonce := db_nonce d; db_snapshot := db_snapshot d; db_snapshot_seq := db_snapshot_seq d;
  db_provider := db_provider d; db_asn := db_asn d; db_prefix := db_prefix d;
  db_prefix_seq := db_prefix_seq d; db_target := db_target d; db_target_seq := db_target_seq d;
  db_provider_geo := db_provider_geo d; db_assignment := db_assignment d; db_assignment_seq := db_assignment_seq d;
  db_lease := db_lease d; db_observation := db_observation d; db_batch := db_batch d;
  db_window := db_window d; db_provider_status := db_provider_status d; db_target_status := db_target_status d;
  db_anomaly := db_anomaly d; db_outbox := db_outbox d; db_outbox_seq := db_outbox_seq d;
  db_agreement := db_agreement d; db_audit := f (db_audit d)
|}.

(** The monad of the services' database calls. *)
Abbreviation DB := (M database).
Abbreviation dbworld := (world database).
