(* ===== verification/Wireauth.v ===== *)
(** [internal/wireauth]: the worker/coordinator request signing scheme, and
    the primitives of the Go standard library it rests on.

    [crypto/ed25519], [crypto/sha256] and the RFC 3339 text form of a time are
    parameters ([Crypto], [TimeText]); what is relied on is stated by the law
    classes.  Durations are kept at their 64-bit width: [Time.Sub] saturates
    and negation wraps, as the language defines. *)
From stdpp Require Import base strings list.
From Stdlib Require Import ZArith Lia DecimalString DecimalZ.
From S2P Require Import Prelude Codec.
Open Scope Z_scope.

Class Crypto : Type := {
  PrivateKey : Type;
  Public : PrivateKey -> string;
  ed25519_Sign : PrivateKey -> string -> string;
  ed25519_Verify : string -> string -> string -> bool;
  sha256 : string -> string
}.

(** Documented behaviour of [crypto/ed25519] and [crypto/sha256]: signatures
    verify under the matching key, and the sizes are the published constants. *)
Class CryptoLaws `{Crypto} : Prop := {
  verify_sign : forall k m, ed25519_Verify (Public k) m (ed25519_Sign k m) = true;
  signature_size : forall k m, String.length (ed25519_Sign k m) = 64%nat;
  public_size : forall k, String.length (Public k) = 32%nat;
  sha256_size : forall m, String.length (sha256 m) = 32%nat
}.

(** [time.RFC3339] has second resolution, and writes the years 0 to 9999. *)
Class TimeText : Type := {
  Format_RFC3339 : Z -> string;
  Parse_RFC3339 : string -> option Z
}.
Definition rfc3339_range (t : Z) : Prop := - 62167219200 * Second <= t < 253402300800 * Second.
Class TimeTextLaws `{TimeText} : Prop := {
  parse_format : forall t, rfc3339_range t -> Parse_RFC3339 (Format_RFC3339 t) = Some (t - t mod Second);
  format_nonempty : forall t, Format_RFC3339 t <> ""%string
}.

Definition PublicKeySize : nat := 32.

(** * Durations *)
Definition minDuration : Z := - 2 ^ 63.
Definition maxDuration : Z := 2 ^ 63 - 1.
(** [Time.Sub]: saturating. *)
Definition time_Sub (t u : Z) : Z :=
  let d := t - u in
  if d <? minDuration then minDuration else if maxDuration <? d then maxDuration else d.
(** Two's complement negation of an [int64]. *)
Definition neg_int64 (d : Z) : Z := if d =? minDuration then minDuration else - d.

(** [wireauth.MaxSkew]. *)
Definition MaxSkew : Z := 2 * Minute.

Record auth_headers : Type := AuthHeaders {
  HeaderWorkerID : string;
  HeaderTimestamp : string;
  HeaderNonce : string;
  HeaderSignature : string
}.

Section Wireauth.
Context {cr : Crypto} {tm : TimeText}.

(** The field separator. *)
Definition pipe : Ascii.ascii := Ascii.ascii_of_nat 124.

Definition canonical (method path timestamp nonce body : string) : string :=
  join "|" [method; path; timestamp; nonce; hex_encode (sha256 body)].

(** [Sign]; [nonceRaw] is the outcome of [rand.Read], [now] the signer's clock. *)
Definition Sign (method path workerID : string) (key : PrivateKey) (body : string)
    (nonceRaw : option string) (now : Z) : result auth_headers :=
  match nonceRaw with
  | None => Err (EMsg "rand")
  | Some raw =>
      let ts := Format_RFC3339 now in
      let nonce := hex_encode raw in
      let sig := ed25519_Sign key (canonical method path ts nonce body) in
      Ok (AuthHeaders workerID ts nonce (b64_encode sig))
  end.

Definition Verify (method path : string) (header : auth_headers) (body pub : string) (now : Z)
    : result string :=
  let ts := HeaderTimestamp header in
  let nonce := HeaderNonce header in
  let sigB64 := HeaderSignature header in
  if bool_decide (ts = "") || bool_decide (nonce = "") || bool_decide (sigB64 = "")
  then Err (EMsg "missing signature headers")
  else
    match Parse_RFC3339 ts with
    | None => Err (EMsg "bad timestamp")
    | Some t =>
        let skew := time_Sub now t in
        let skew := if skew <? 0 then neg_int64 skew else skew in
        if MaxSkew <? skew then Err (EMsg "timestamp outside accepted window")
        else
          match b64_decode sigB64 with
          | None => Err (EMsg "bad signature encoding")
          | Some sig =>
              if ed25519_Verify pub (canonical method path ts nonce body) sig
              then Ok nonce
              else Err (EMsg "signature verification failed")
          end
    end.

(** What an accepted request carries. *)
Definition authentic (method path : string) (header : auth_headers) (body pub nonce : string) : Prop :=
  nonce <> ""%string /\ HeaderNonce header = nonce /\
  exists sig, b64_decode (HeaderSignature header) = Some sig /\
    ed25519_Verify pub (canonical method path (HeaderTimestamp header) nonce body) sig = true.

(** The request's timestamp is representable as a distance from [now]. *)
Definition near (now t : Z) : Prop := minDuration < now - t <= maxDuration.

Lemma skew_abs now t : near now t ->
  (let skew := time_Sub now t in if skew <? 0 then neg_int64 skew else skew) = Z.abs (now - t).
Proof.
  intros [H1 H2]. unfold time_Sub. cbv zeta.
  rewrite (proj2 (Z.ltb_ge (now - t) minDuration)) by lia.
  rewrite (proj2 (Z.ltb_ge maxDuration (now - t))) by lia.
  destruct (now - t <? 0) eqn:E; btrue; [|lia].
  unfold neg_int64. rewrite (proj2 (Z.eqb_neq (now - t) minDuration)) by lia. lia.
Qed.

Lemma Verify_Ok method path header body pub now nonce :
  Verify method path header body pub now = Ok nonce ->
  authentic method path header body pub nonce /\
  exists t, Parse_RFC3339 (HeaderTimestamp header) = Some t /\
    (near now t -> Z.abs (now - t) <= MaxSkew).
Proof.
  unfold Verify. destruct (_ || _ || _) eqn:E0; [done|]. btrue.
  destruct (Parse_RFC3339 _) as [t|] eqn:Et; [|done]. cbv zeta.
  destruct (MaxSkew <? _) eqn:Es; [done|]. btrue.
  destruct (b64_decode _) as [sig|] eqn:Eb; [|done].
  destruct (ed25519_Verify _ _ _) eqn:Ev; [|done]. intros E. simplify_eq.
  split; [split; [done|]; split; [done|]; eauto|].
  exists t. split; [done|]. intros Hn. pose proof (skew_abs now t Hn) as Ha. cbv zeta in Ha. lia.
Qed.

(** The order of the checks: which error is reported when. *)
Lemma Verify_stale method path header body pub now t :
  HeaderTimestamp header <> ""%string -> HeaderNonce header <> ""%string ->
  HeaderSignature header <> ""%string ->
  Parse_RFC3339 (HeaderTimestamp header) = Some t -> near now t -> MaxSkew < Z.abs (now - t) ->
  Verify method path header body pub now = Err (EMsg "timestamp outside accepted window").
Proof.
  intros H1 H2 H3 Et Hn Hs. unfold Verify. rewrite !bool_decide_false by done. simpl. rewrite Et.
  pose proof (skew_abs now t Hn) as Ha. cbv zeta in Ha. rewrite Ha. apply Z.ltb_lt in Hs. by rewrite Hs.
Qed.
End Wireauth.

Section Laws.
Context {cr : Crypto} {crl : @CryptoLaws cr} {tm : TimeText} {tml : @TimeTextLaws tm}.

Lemma Sign_Verify_near method path workerID key body raw now_w now_c hdr :
  Sign method path workerID key body (Some raw) now_w = Ok hdr ->
  raw <> ""%string -> rfc3339_range now_w ->
  - MaxSkew <= now_c - now_w <= MaxSkew - Second ->
  Verify method path hdr body (Public key) now_c = Ok (hex_encode raw).
Proof.
  unfold Sign. intros E Hraw Hr Hc. injection E as <-. unfold Verify. cbn [HeaderTimestamp HeaderNonce HeaderSignature].
  assert (ed25519_Sign key (canonical method path (Format_RFC3339 now_w) (hex_encode raw) body) <> ""%string) as Hs.
  { intros E. pose proof (signature_size key (canonical method path (Format_RFC3339 now_w) (hex_encode raw) body)) as Hl.
    by rewrite E in Hl. }
  rewrite !bool_decide_false by (try apply format_nonempty; try apply b64_encode_nonempty; try done;
    intros E; destruct raw; done).
  cbn [orb]. rewrite parse_format by done.
  pose proof (Z.mod_pos_bound now_w Second ltac:(done)) as Hm.
  unfold MaxSkew, Minute, Second in *.
  pose proof (skew_abs now_c (now_w - now_w mod 1000000000)) as Ha. cbv zeta in Ha.
  rewrite Ha by (unfold near, minDuration, maxDuration; lia).
  rewrite (proj2 (Z.ltb_ge _ _)) by lia.
  by rewrite b64_roundtrip, verify_sign.
Qed.

(** A request stamped by [Sign] passes [Verify] under the signer's public
    key and yields the nonce that was sent, whenever the two clocks differ by
    at most [MaxSkew] less the one second the timestamp text drops. *)
Theorem sign_then_verify method path workerID key body raw now_w now_c hdr :
  Sign method path workerID key body (Some raw) now_w = Ok hdr ->
  raw <> ""%string -> rfc3339_range now_w ->
  - MaxSkew <= now_c - now_w <= MaxSkew - Second ->
  Verify method path hdr body (Public key) now_c = Ok (hex_encode raw).
Proof. apply Sign_Verify_near. Qed.

Lemma str_app_length s t : String.length (s +:+ t) = (String.length s + String.length t)%nat.
Proof. induction s as [|c s IH]; [done|]. simpl. by rewrite IH. Qed.

(** Equal-length suffixes of equal strings are equal. *)
Lemma str_app_inj_suffix s1 s2 t1 t2 :
  String.length t1 = String.length t2 -> (s1 +:+ t1 = s2 +:+ t2)%string -> s1 = s2 /\ t1 = t2.
Proof.
  intros Hl. revert s2. induction s1 as [|c s1 IH]; intros [|d s2] E; simpl in E.
  - done.
  - exfalso. apply (f_equal String.length) in E. rewrite !str_app_length in E. simpl in E. lia.
  - exfalso. apply (f_equal String.length) in E. rewrite !str_app_length in E. simpl in E. lia.
  - injection E as -> E. destruct (IH _ E) as [-> ->]. done.
Qed.

Lemma pipe_app s : ("|" +:+ s)%string = String pipe s.
Proof. reflexivity. Qed.

(** The signed string determines every field: two requests with the same
    canonical string have the same method, path, timestamp and nonce, and
    bodies with the same SHA-256, provided the first three fields contain no
    separator.  The nonce may contain one: the digest's fixed width still
    delimits it. *)
Theorem canonical_injective m p t n b m' p' t' n' b' :
  has_byte pipe m = false -> has_byte pipe p = false -> has_byte pipe t = false ->
  has_byte pipe m' = false -> has_byte pipe p' = false -> has_byte pipe t' = false ->
  canonical m p t n b = canonical m' p' t' n' b' ->
  m = m' /\ p = p' /\ t = t' /\ n = n' /\ sha256 b = sha256 b'.
Proof.
  intros Hm Hp Ht Hm' Hp' Ht' E. unfold canonical in E. cbn [join] in E. rewrite !pipe_app in E.
  do 3 (apply split_at_byte in E as [-> E]; [|done|done]).
  apply str_app_inj_suffix in E as [-> E].
  - split_and!; try done. injection E as E.
    assert (Some (sha256 b) = Some (sha256 b')) as E'
      by (rewrite <- (hex_roundtrip (sha256 b)), <- (hex_roundtrip (sha256 b')); by rewrite E).
    congruence.
  - simpl. by rewrite !hex_encode_length, !sha256_size.
Qed.

(** The timestamp window fails open beyond the range of a [Duration]: a
    correctly signed request dated 2^63 nanoseconds (292 years) or more ahead
    of the coordinator's clock is accepted, because the saturated difference
    is [math.MinInt64] and stays negative when negated. *)
Theorem far_future_accepted method path header body pub now t sig :
  HeaderTimestamp header <> ""%string -> HeaderNonce header <> ""%string ->
  HeaderSignature header <> ""%string ->
  Parse_RFC3339 (HeaderTimestamp header) = Some t -> now + 2 ^ 63 <= t ->
  b64_decode (HeaderSignature header) = Some sig ->
  ed25519_Verify pub (canonical method path (HeaderTimestamp header) (HeaderNonce header) body) sig = true ->
  Verify method path header body pub now = Ok (HeaderNonce header).
Proof.
  intros H1 H2 H3 Et Hf Hb Hv. unfold Verify. rewrite !bool_decide_false by done. cbn [orb]. rewrite Et.
  assert (time_Sub now t = minDuration) as ->.
  { unfold time_Sub, minDuration, maxDuration in *. cbv zeta.
    destruct (now - t <? - 2 ^ 63) eqn:E; [done|]. btrue.
    destruct (2 ^ 63 - 1 <? now - t) eqn:E'; btrue; lia. }
  cbv zeta. change (MaxSkew <? (if minDuration <? 0 then neg_int64 minDuration else minDuration)) with false.
  cbn iota. by rewrite Hb, Hv.
Qed.
End Laws.

(** A concrete instance of the interfaces: keys are strings, a signature is
    the tagged message, a digest is padded, times are seconds since the epoch
    in decimal.  It shows that the laws can hold, and lets the witnesses
    evaluate. *)
Module Toy.
Definition pad_to (n : nat) (s : string) : string :=
  String.substring 0 n (s +:+ String.concat "" (replicate n "."%string)).

Definition key32 (k : string) : string := pad_to 32 k.
(** 64 bytes: a checksum-like tag of the message under the key. *)
Definition sig64 (pub m : string) : string := pad_to 64 (pub +:+ m).

#[export] Instance toy_crypto : Crypto := {|
  PrivateKey := string;
  Public := key32;
  ed25519_Sign k m := sig64 (key32 k) m;
  ed25519_Verify pub m s := bool_decide (s = sig64 pub m);
  sha256 m := pad_to 32 m
|}.

Lemma concat_dots_length n :
  String.length (String.concat "" (replicate n "."%string)) = n.
Proof.
  induction n as [|n IH]; [done|]. simpl. destruct (replicate n "."%string) eqn:E.
  - destruct n; done.
  - rewrite <- E in *. simpl in *. f_equal. rewrite E in IH |- *. exact IH.
Qed.

Lemma substring_length n s : (n <= String.length s)%nat -> String.length (String.substring 0 n s) = n.
Proof.
  revert s. induction n as [|n IH]; intros [|c s] Hl; simpl in *; try done; try lia.
  rewrite IH; lia.
Qed.

Lemma pad_to_length n s : String.length (pad_to n s) = n.
Proof. apply substring_length. rewrite str_app_length, concat_dots_length. lia. Qed.

#[export] Instance toy_crypto_laws : CryptoLaws.
Proof.
  split.
  - intros k m. by apply bool_decide_eq_true.
  - intros k m. apply pad_to_length.
  - intros k. apply pad_to_length.
  - intros m. apply pad_to_length.
Qed.

(** Seconds since the epoch, in decimal. *)
Definition toy_format (t : Z) : string := "T" +:+ NilZero.string_of_int (Z.to_int (t / Second)).
Definition toy_parse (s : string) : option Z :=
  match s with
  | String _ r => (fun d => Z.of_int d * Second) <$> NilZero.int_of_string r
  | EmptyString => None
  end.
#[export] Instance toy_time : TimeText := {|
  Format_RFC3339 := toy_format;
  Parse_RFC3339 := toy_parse
|}.

#[export] Instance toy_time_laws : TimeTextLaws.
Proof.
  split; [|done]. intros t _.
  change (((fun d => Z.of_int d * Second) <$> NilZero.int_of_string (NilZero.string_of_int (Z.to_int (t / Second))))
    = Some (t - t mod Second)).
  destruct (to_int_not_nil (t / Second)). rewrite NilZero.isi by done.
  simpl. rewrite DecimalZ.of_to. f_equal. unfold Second. pose proof (Z.div_mod t 1000000000 ltac:(done)). lia.
Qed.

Definition alice : @PrivateKey toy_crypto := "alice"%string.
End Toy.

(** * Witnesses *)
Section Witnesses.
#[local] Existing Instance Toy.toy_crypto.
#[local] Existing Instance Toy.toy_time.

Definition toy_stamp : auth_headers :=
  match Sign "GET" "/api/v1/worker/me" "w1" Toy.alice "" (Some "n1"%string) (60 * Second) with
  | Ok h => h
  | Err _ => AuthHeaders "" "" "" ""
  end.

Lemma sign_then_verify_witness :
  Verify "GET" "/api/v1/worker/me" toy_stamp "" (Public Toy.alice) (120 * Second) = Ok "6e31"%string.
Proof.
  apply (sign_then_verify (crl := Toy.toy_crypto_laws) (tml := Toy.toy_time_laws)
    "GET" "/api/v1/worker/me" "w1" Toy.alice "" "n1" (60 * Second) (120 * Second) toy_stamp).
  - vm_compute. reflexivity.
  - discriminate.
  - unfold rfc3339_range, Second. lia.
  - unfold MaxSkew, Minute, Second. lia.
Defined.

Lemma canonical_injective_witness :
  canonical "GET" "/p" "T1" "a|b" "x" = canonical "GET" "/p" "T1" "a|b" "x" /\ sha256 "x" = sha256 "x".
Proof.
  split; [reflexivity|].
  apply (canonical_injective (crl := Toy.toy_crypto_laws) "GET" "/p" "T1" "a|b" "x" "GET" "/p" "T1" "a|b" "x");
    vm_compute; reflexivity.
Defined.

(** Stamped 300 years ahead. *)
Definition toy_future : auth_headers :=
  match Sign "GET" "/api/v1/worker/me" "w1" Toy.alice "" (Some "n1"%string) (300 * 366 * 24 * Hour) with
  | Ok h => h
  | Err _ => AuthHeaders "" "" "" ""
  end.

Lemma far_future_accepted_witness :
  Verify "GET" "/api/v1/worker/me" toy_future "" (Public Toy.alice) 0 = Ok (HeaderNonce toy_future).
Proof.
  apply (far_future_accepted "GET" "/api/v1/worker/me" toy_future "" (Public Toy.alice) 0 (300 * 366 * 24 * Hour)
    (ed25519_Sign Toy.alice (canonical "GET" "/api/v1/worker/me" (HeaderTimestamp toy_future) (HeaderNonce toy_future) "")));
    try (vm_compute; discriminate); vm_compute; reflexivity.
Defined.
End Witnesses.
