(* ===== verification/Artifact.v ===== *)
(** [internal/artifact]: signed snapshot manifests, the SQLite export, the
    object store, publication with readback, rollback and retention pruning.

    The state of the platform processes is [sys]: the shared database, the
    object store, and the coordinator's memory (kill switch, manifest cache).
    An object of the store is kept in the form it was marshalled from; the
    SQLite file format is a parameter ([SQLiteFormat]). *)
From stdpp Require Import base gmap strings list.
From Stdlib Require Import ZArith QArith Lia.
From S2P Require Import Prelude Codec Netip Schema Wireauth.
Open Scope Z_scope.

Record Manifest : Type := MkManifest {
  Version : string;
  CreatedAt : Z;
  ObjectKey : string;
  SHA256 : string;
  SizeBytes : Z;
  PrefixCountV4 : Z;
  PrefixCountV6 : Z;
  TargetCount : Z;
  MinWorkerVersion : string;
  Signature : string
}.

#[global] Instance Manifest_eq_dec : EqDecision Manifest.
Proof. solve_decision. Defined.

Record Pointer : Type := MkPointer {
  ptr_Version : string;
  ptr_ManifestKey : string;
  ptr_UpdatedAt : Z
}.

(** An object of the store, by what was marshalled into it. *)
Inductive object : Type :=
| OPointer (p : Pointer)
| OManifest (m : Manifest)
| OBlob (content : string).

(** [json.NewDecoder(rc).Decode(&ptr)]: unknown fields are ignored and missing
    ones stay zero, so a manifest decodes as a pointer with its version and no
    key, and conversely; an artifact is not JSON. *)
Definition decode_pointer (o : object) : option Pointer :=
  match o with
  | OPointer p => Some p
  | OManifest m => Some (MkPointer (Version m) "" 0)
  | OBlob _ => None
  end.
Definition decode_manifest (o : object) : option Manifest :=
  match o with
  | OPointer p => Some (MkManifest (ptr_Version p) 0 "" "" 0 0 0 0 "" "")
  | OManifest m => Some m
  | OBlob _ => None
  end.

Record sys : Type := Sys {
  sys_db : database;
  sys_store : gmap string object;
  sys_paused : bool;
  sys_cached : option Manifest;
  sys_fetched : Z
}.

Definition set_sys_db (d : database) (s : sys) : sys :=
  Sys d (sys_store s) (sys_paused s) (sys_cached s) (sys_fetched s).
Definition set_sys_store (f : gmap string object -> gmap string object) (s : sys) : sys :=
  Sys (sys_db s) (f (sys_store s)) (sys_paused s) (sys_cached s) (sys_fetched s).
Definition set_paused (b : bool) (s : sys) : sys :=
  Sys (sys_db s) (sys_store s) b (sys_cached s) (sys_fetched s).
Definition set_cache (m : option Manifest) (t : Z) (s : sys) : sys :=
  Sys (sys_db s) (sys_store s) (sys_paused s) m t.

Abbreviation SM := (M sys).
Abbreviation sysworld := (world sys).

(** A database call made by a process. *)
Definition lift {A} (m : DB A) : SM A := fun w =>
  let (r, w') := m (World (sys_db (w_db w)) (w_now w) (w_faults w)) in
  (r, World (set_sys_db (w_db w') (w_db w)) (w_now w') (w_faults w')).

(** A change of the process's own memory. *)
Definition memory (f : Z -> sys -> sys) : SM unit := fun w =>
  (Ok tt, World (f (w_now w) (w_db w)) (w_now w) (w_faults w)).
Definition read {A} (f : Z -> sys -> A) : SM A := fun w => (Ok (f (w_now w) (w_db w)), w).

(** * The object store: [Put], [Get] and [Delete] of the [Store] interface.
    A call may fail like any other I/O; deleting a missing key is not an
    error. *)
Definition Put (key : string) (o : object) : SM unit :=
  exec (fun _ => set_sys_store (<[key := o]>)).
Definition Get (key : string) : SM object :=
  stmt (fun _ s => match sys_store s !! key with
                   | Some o => Ok (o, s)
                   | None => Err (EMsg "no such object")
                   end).
Definition Delete (key : string) : SM unit := exec (fun _ => set_sys_store (delete key)).

(** * Manifests *)
Definition with_sig (s : string) (m : Manifest) : Manifest :=
  MkManifest (Version m) (CreatedAt m) (ObjectKey m) (SHA256 m) (SizeBytes m) (PrefixCountV4 m)
    (PrefixCountV6 m) (TargetCount m) (MinWorkerVersion m) s.

Class ManifestJSON : Type := { marshal_manifest : Manifest -> option string }.

Section Manifest.
Context {cr : Crypto} {mj : ManifestJSON}.

Definition payload (m : Manifest) : result string :=
  of_option (EMsg "json") (marshal_manifest (with_sig "" m)).

(** [ParsePublicKey]. *)
Definition ParsePublicKey (b64 : string) : result string :=
  match b64_decode b64 with
  | None => Err (EMsg "public key is not valid base64")
  | Some raw =>
      if Nat.eqb (String.length raw) PublicKeySize then Ok raw
      else Err (EMsg "public key must be 32 bytes")
  end.

Definition PublicKeyBase64 (key : PrivateKey) : string := b64_encode (Public key).

Definition Sign (m : Manifest) (key : PrivateKey) : result Manifest :=
  match payload m with
  | Err e => Err e
  | Ok p => Ok (with_sig (b64_encode (ed25519_Sign key p)) m)
  end.

Definition Verify (m : Manifest) (pub : string) : result unit :=
  if bool_decide (Signature m = "") then Err (EMsg "manifest is unsigned")
  else
    match b64_decode (Signature m) with
    | None => Err (EMsg "signature is not valid base64")
    | Some sig =>
        match payload m with
        | Err e => Err e
        | Ok p =>
            if ed25519_Verify pub p sig then Ok tt
            else Err (EMsg "manifest signature verification failed")
        end
    end.

(** [HashFile] on a file's content. *)
Definition HashFile (content : string) : string * Z :=
  (hex_encode (sha256 content), Z.of_nat (String.length content)).

(** [VerifyFile]: size first, then checksum. *)
Definition VerifyFile (content : string) (m : Manifest) : result unit :=
  let (sum, size) := HashFile content in
  if negb (size =? SizeBytes m) then Err (EMsg "artifact size does not match manifest")
  else if negb (bool_decide (sum = SHA256 m)) then Err (EMsg "artifact checksum does not match manifest")
  else Ok tt.
End Manifest.

Definition ObjectKeySQLite (version : string) : string := "snapshots/" +:+ version +:+ "/routing.sqlite".
Definition ObjectKeyManifest (version : string) : string := "snapshots/" +:+ version +:+ "/manifest.json".
Definition PointerKey : string := "snapshots/current.json".

(** * The SQLite export *)
Record sqlite_file : Type := SQLite {
  sq_meta : list (string * string);
  sq_prefixes : list (prefix * Z * string * option string * option string);
  sq_targets : list (addr * string * prefix * option string * option string)
}.
Class SQLiteFormat : Type := { sqlite_bytes : sqlite_file -> string }.

Fixpoint has_dup {A} `{EqDecision A} (l : list A) : bool :=
  match l with [] => false | x :: l' => bool_decide (x ∈ l') || has_dup l' end.

Definition find_prefix (id : Z) (d : database) : option prefix_row :=
  List.find (fun p => pr_id p =? id) (db_prefix d).

(** [select ... from routing.prefix p join routing.asn a on a.asn = p.origin_asn]. *)
Definition export_prefixes (snapshotID : Z) (d : database)
    : list (prefix * Z * string * option string * option string) :=
  omap (fun p => (fun a => (pr_prefix p, pr_origin p, an_provider a, pr_country p, pr_city p))
                 <$> db_asn d !! pr_origin p)
       (select (fun p => pr_snapshot p =? snapshotID) (db_prefix d)).

(** [... from routing.probe_target t join routing.prefix p on p.id = t.prefix_id
    where t.snapshot_id = $1 and t.active]. *)
Definition export_targets (snapshotID : Z) (d : database)
    : list (addr * string * prefix * option string * option string) :=
  omap (fun t => (fun p => (tg_address t, tg_provider t, pr_prefix p, tg_country t, tg_city t))
                 <$> find_prefix (tg_prefix t) d)
       (select (fun t => (tg_snapshot t =? snapshotID) && tg_active t) (db_target d)).

(** [ExportSQLite]: both queries, with the primary keys of the artifact's
    tables. *)
Definition ExportSQLite (snapshotID : Z) (version minWorkerVersion : string) : SM (sqlite_file * Z) :=
  let! prefixes := lift (query (fun _ d => export_prefixes snapshotID d)) in
  if has_dup (map (fun '(p, o, _, _, _) => (p, o)) prefixes) then throw (EConstraint "prefixes")
  else
    let! targets := lift (query (fun _ d => export_targets snapshotID d)) in
    if has_dup (map (fun '(a, _, _, _, _) => a) targets) then throw (EConstraint "targets")
    else ret (SQLite [("version"%string, version); ("min_worker_version"%string, minWorkerVersion)]
                prefixes targets,
              Z.of_nat (length targets)).

(** * The publisher *)
Section Publisher.
Context {cr : Crypto} {mj : ManifestJSON} {sf : SQLiteFormat}.
Variables (Key : PrivateKey) (MinVersion : string).

Definition verifyReadback (m : Manifest) : SM unit :=
  let! rc := Get (ObjectKeyManifest (Version m)) in
  match decode_manifest rc with
  | None => throw (EMsg "json")
  | Some got =>
      match Verify got (Public Key) with
      | Err e => throw e
      | Ok _ =>
          if negb (bool_decide (SHA256 got = SHA256 m)) then throw (EMsg "stored manifest hash mismatch")
          else
            let! obj := Get (ObjectKey m) in
            match obj with
            | OBlob content =>
                match VerifyFile content got with Ok _ => ret tt | Err e => throw e end
            | _ => throw (EMsg "artifact size does not match manifest")
            end
      end
  end.

Definition snapshot_counts (id : Z) (d : database) : option (Z * Z) :=
  (fun s => (default 0 (sn_count_v4 s), default 0 (sn_count_v6 s)))
  <$> List.find (fun s => sn_id s =? id) (db_snapshot d).

Definition set_artifact (m : Manifest) (s : snapshot_row) : snapshot_row :=
  SnapshotRow (sn_id s) (sn_version s) (sn_status s) (sn_asn_count s) (sn_count_v4 s) (sn_count_v6 s)
    (Some (SHA256 m)) (Some (SizeBytes m)) (Some (Signature m)) (sn_built_at s) (sn_published_at s).

Definition Publish (snapshotID : Z) (version : string) : SM Manifest :=
  let! export := ExportSQLite snapshotID version MinVersion in
  let content := sqlite_bytes export.1 in
  let (sum, size) := HashFile content in
  let! counts := lift (query_row (fun _ d => snapshot_counts snapshotID d)) in
  let! now := clock in
  let m0 := MkManifest version now (ObjectKeySQLite version) sum size counts.1 counts.2 export.2 MinVersion "" in
  match Sign m0 Key with
  | Err e => throw e
  | Ok m =>
      do! Put (ObjectKey m) (OBlob content) ;;
      do! Put (ObjectKeyManifest version) (OManifest m) ;;
      do! verifyReadback m ;;
      do! lift (exec (fun _ => set_snapshot (update_where (fun s => sn_id s =? snapshotID) (set_artifact m)))) ;;
      ret m
  end.

Definition SetCurrent (version : string) : SM unit :=
  let! now := clock in
  Put PointerKey (OPointer (MkPointer version (ObjectKeyManifest version) now)).

Definition with_status (st : snapshot_status) (s : snapshot_row) : snapshot_row :=
  SnapshotRow (sn_id s) (sn_version s) st (sn_asn_count s) (sn_count_v4 s) (sn_count_v6 s)
    (sn_sha256 s) (sn_size s) (sn_signature s) (sn_built_at s) (sn_published_at s).
Definition publish_row (now : Z) (s : snapshot_row) : snapshot_row :=
  SnapshotRow (sn_id s) (sn_version s) Published (sn_asn_count s) (sn_count_v4 s) (sn_count_v6 s)
    (sn_sha256 s) (sn_size s) (sn_signature s) (sn_built_at s) (Some now).

Definition is_published (s : snapshot_row) : bool := bool_decide (sn_status s = Published).

(** Supersede every published snapshot but [id], publish [id]: the two
    statements shared by [RollbackTo] and the builder's [publish]. *)
Definition flip (id : Z) : DB unit :=
  tx (do! exec (fun _ => set_snapshot (update_where
             (fun s => is_published s && negb (sn_id s =? id)) (with_status Superseded))) ;;
      exec (fun now => set_snapshot (update_where (fun s => sn_id s =? id) (publish_row now)))).

Definition RollbackTo (version : string) : SM unit :=
  let! found := attempt (lift (query_row (fun _ d =>
      List.find (fun s => bool_decide (sn_version s = version)) (db_snapshot d)))) in
  match found with
  | Err _ => throw (EMsg "unknown snapshot version")
  | Ok s =>
      let id := sn_id s in
      let! prefixes := lift (query (fun _ d => count_rows (fun p => pr_snapshot p =? id) (db_prefix d))) in
      if Nat.eqb prefixes 0 then throw (EMsg "snapshot has been pruned; cannot roll back to it")
      else
        do! lift (flip id) ;;
        SetCurrent version
  end.

(** [order by id desc offset retain] over the superseded snapshots. *)
Definition victims (retain : nat) (d : database) : list snapshot_row :=
  drop retain (rev (select (fun s => bool_decide (sn_status s = Superseded)) (db_snapshot d))).

Definition target_of (id : Z) (d : database) : option target_row :=
  List.find (fun t => tg_id t =? id) (db_target d).
Definition in_snapshot (snap : Z) (d : database) (target : Z) : bool :=
  match target_of target d with Some t => tg_snapshot t =? snap | None => false end.
Definition assignment_in (snap : Z) (d : database) (a : Z) : bool :=
  exists_row (fun r => (a_id r =? a) && in_snapshot snap d (a_target r)) (db_assignment d).

Definition prune_one (v : snapshot_row) : SM unit :=
  do! lift (exec (fun _ d => set_lease (delete_where (fun l => assignment_in (sn_id v) d (l_assignment l))) d)) ;;
  do! lift (exec (fun _ d => set_assignment (delete_where (fun a => in_snapshot (sn_id v) d (a_target a))) d)) ;;
  do! lift (exec (fun _ => set_target (delete_where (fun t => tg_snapshot t =? sn_id v)))) ;;
  do! lift (exec (fun _ => set_provider_geo (filter (fun kv : (Z * string * string) * geo_row => kv.1.1.1 <> sn_id v)))) ;;
  do! lift (exec (fun _ => set_prefix (delete_where (fun p => pr_snapshot p =? sn_id v)))) ;;
  do! attempt (Delete (ObjectKeySQLite (sn_version v))) ;;
  do! attempt (Delete (ObjectKeyManifest (sn_version v))) ;;
  ret tt.

(** A negative offset is an error of the query. *)
Definition Prune (retain : Z) : SM unit :=
  if retain <? 0 then throw (EMsg "OFFSET must not be negative")
  else
    let! vs := lift (query (fun _ d => victims (Z.to_nat retain) d)) in
    forM vs prune_one.
End Publisher.

(** * Lemmas *)
Lemma lift_run {A} (m : DB A) w r w' :
  lift m w = (r, w') ->
  exists dw', m (World (sys_db (w_db w)) (w_now w) (w_faults w)) = (r, dw') /\
    w_db w' = set_sys_db (w_db dw') (w_db w) /\ w_now w' = w_now dw'.
Proof. unfold lift. destruct (m _) as [r1 dw] eqn:E. intros H. simplify_eq. eauto. Qed.

Lemma lift_exec_Ok f w u w' :
  lift (exec f) w = (Ok u, w') ->
  w_db w' = set_sys_db (f (w_now w) (sys_db (w_db w))) (w_db w) /\ w_now w' = w_now w.
Proof. intros (dw & [E1 E2]%exec_Ok & E3 & E4)%lift_run. simpl in *. rewrite E1 in E3. split; congruence. Qed.

Lemma set_sys_db_id s : set_sys_db (sys_db s) s = s.
Proof. by destruct s. Qed.

Lemma lift_query_Ok {A} (f : Z -> database -> A) w a w' :
  lift (query f) w = (Ok a, w') ->
  a = f (w_now w) (sys_db (w_db w)) /\ w_db w' = w_db w /\ w_now w' = w_now w.
Proof.
  intros (dw & (E1 & E2 & E3)%query_Ok & E4 & E5)%lift_run. simpl in *.
  rewrite E2, set_sys_db_id in E4. split_and!; congruence.
Qed.

Lemma lift_query_row_Ok {A} (f : Z -> database -> option A) w a w' :
  lift (query_row f) w = (Ok a, w') ->
  f (w_now w) (sys_db (w_db w)) = Some a /\ w_db w' = w_db w /\ w_now w' = w_now w.
Proof.
  intros (dw & (E1 & E2 & E3)%query_row_Ok & E4 & E5)%lift_run. simpl in *.
  rewrite E2, set_sys_db_id in E4. split_and!; congruence.
Qed.

(** A property of the tables that a database call respects is respected by
    the process making the call. *)
Definition OnDB (R : Z -> database -> database -> Prop) : Z -> sys -> sys -> Prop :=
  fun n s s' => R n (sys_db s) (sys_db s').

#[global] Instance OnDB_preorder R `{!PreOrderAt R} : PreOrderAt (OnDB R).
Proof. split; unfold OnDB; intros; [apply at_refl | by eapply at_trans]. Qed.

Lemma respects_lift {A} R (m : DB A) : Respects R m -> Respects (OnDB R) (lift m).
Proof.
  intros Hm w r w' (dw & E1 & E2 & E3)%lift_run. apply Hm in E1 as [Hn HR]. simpl in *.
  unfold OnDB. rewrite E2. split; [congruence | done].
Qed.

Lemma respects_memory (R : Z -> sys -> sys -> Prop) f : (forall n s, R n s (f n s)) -> Respects R (memory f).
Proof. intros Hf w r w' E. unfold memory in E. simplify_eq. split; [done | apply Hf]. Qed.

Lemma respects_read {A} (R : Z -> sys -> sys -> Prop) `{!PreOrderAt R} (f : Z -> sys -> A) : Respects R (read f).
Proof. intros w r w' E. unfold read in E. simplify_eq. split; [done | apply at_refl]. Qed.

Lemma read_Ok {A} (f : Z -> sys -> A) w a w' : read f w = (Ok a, w') -> a = f (w_now w) (w_db w) /\ w' = w.
Proof. unfold read. intros. by simplify_eq. Qed.

Lemma Get_Ok key w o w' : Get key w = (Ok o, w') ->
  sys_store (w_db w) !! key = Some o /\ w_db w' = w_db w /\ w_now w' = w_now w.
Proof. unfold Get. intros [H Hn]%stmt_Ok. destruct (sys_store _ !! key) eqn:E; by simplify_eq. Qed.

Ltac inv_sys :=
  repeat (inv_ok; match goal with
  | H : lift (exec _) _ = (Ok _, _) |- _ => apply lift_exec_Ok in H as [? ?]
  | H : lift (query _) _ = (Ok _, _) |- _ => apply lift_query_Ok in H as (? & ? & ?)
  | H : lift (query_row _) _ = (Ok _, _) |- _ => apply lift_query_row_Ok in H as (? & ? & ?)
  | H : Get _ _ = (Ok _, _) |- _ => apply Get_Ok in H as (? & ? & ?)
  | H : Put _ _ _ = (Ok _, _) |- _ => unfold Put in H; apply exec_Ok in H as [? ?]
  | H : clock _ = (Ok _, _) |- _ => apply clock_Ok in H as [? ?]; subst
  | H : read _ _ = (Ok _, _) |- _ => apply read_Ok in H as [? ?]; subst
  end); inv_ok.

(** The three kinds of key never collide. *)
Lemma key_lengths v :
  String.length (ObjectKeySQLite v) = (25 + String.length v)%nat /\
  String.length (ObjectKeyManifest v) = (24 + String.length v)%nat.
Proof. unfold ObjectKeySQLite, ObjectKeyManifest. rewrite !str_app_length. simpl. lia. Qed.

Lemma sqlite_not_pointer v : ObjectKeySQLite v <> PointerKey.
Proof. intros E. pose proof (key_lengths v) as [H _]. rewrite E in H. vm_compute in H. lia. Qed.
Lemma manifest_not_pointer v : ObjectKeyManifest v <> PointerKey.
Proof. intros E. pose proof (key_lengths v) as [_ H]. rewrite E in H. vm_compute in H. lia. Qed.

Lemma str_app_assoc s t u : (s +:+ (t +:+ u) = (s +:+ t) +:+ u)%string.
Proof. induction s as [|c s IH]; [done|]. unfold String.append. fold String.append. by rewrite IH. Qed.

Lemma sqlite_not_manifest v v' : ObjectKeySQLite v <> ObjectKeyManifest v'.
Proof.
  unfold ObjectKeySQLite, ObjectKeyManifest. intros E.
  change "/routing.sqlite"%string with ("/routing.sq" +:+ "lite")%string in E.
  change "/manifest.json"%string with ("/manifest." +:+ "json")%string in E.
  rewrite !str_app_assoc in E. by apply str_app_inj_suffix in E as [_ ?].
Qed.

Lemma manifest_key_inj v v' : ObjectKeyManifest v = ObjectKeyManifest v' -> v = v'.
Proof.
  unfold ObjectKeyManifest. rewrite !str_app_assoc. intros [E _]%str_app_inj_suffix; [|done].
  by apply (inj (String.append "snapshots/")) in E.
Qed.
Lemma sqlite_key_inj v v' : ObjectKeySQLite v = ObjectKeySQLite v' -> v = v'.
Proof.
  unfold ObjectKeySQLite. rewrite !str_app_assoc. intros [E _]%str_app_inj_suffix; [|done].
  by apply (inj (String.append "snapshots/")) in E.
Qed.

Section ManifestLemmas.
Context {cr : Crypto} {crl : CryptoLaws} {mj : ManifestJSON}.

Lemma Sign_Ok m key m' : Sign m key = Ok m' ->
  exists p, payload m = Ok p /\ m' = with_sig (b64_encode (ed25519_Sign key p)) m.
Proof. unfold Sign. destruct (payload m) as [p|e]; intros E; [injection E as <-; eauto | done]. Qed.

Lemma Sign_Verify m key m' : Sign m key = Ok m' -> Verify m' (Public key) = Ok tt.
Proof.
  intros (p & Hp & ->)%Sign_Ok. unfold Verify. cbn [Signature with_sig].
  rewrite bool_decide_false.
  - rewrite b64_roundtrip. change (payload (with_sig (b64_encode (ed25519_Sign key p)) m)) with (payload m).
    by rewrite Hp, verify_sign.
  - apply b64_encode_nonempty. intros E. pose proof (signature_size key p) as Hl. by rewrite E in Hl.
Qed.

Lemma VerifyFile_Ok content m : VerifyFile content m = Ok tt <->
  Z.of_nat (String.length content) = SizeBytes m /\ hex_encode (sha256 content) = SHA256 m.
Proof.
  unfold VerifyFile, HashFile. destruct (_ =? _) eqn:E1; btrue; simpl; [|naive_solver].
  destruct (bool_decide _) eqn:E2; btrue; simpl; naive_solver.
Qed.
End ManifestLemmas.

(** * Properties of the publisher *)
Section PublisherProperties.
Context {cr : Crypto} {mj : ManifestJSON} {sf : SQLiteFormat}.
Variables (Key : PrivateKey) (MinVersion : string).

Lemma verifyReadback_Ok m w u w' :
  verifyReadback Key m w = (Ok u, w') ->
  w_db w' = w_db w /\ w_now w' = w_now w /\
  exists o got content, sys_store (w_db w) !! ObjectKeyManifest (Version m) = Some o /\
    decode_manifest o = Some got /\ Verify got (Public Key) = Ok tt /\ SHA256 got = SHA256 m /\
    sys_store (w_db w) !! ObjectKey m = Some (OBlob content) /\ VerifyFile content got = Ok tt.
Proof.
  intros H. unfold verifyReadback in H. inv_sys.
  destruct (decode_manifest r) as [got|] eqn:Ed; inv_ok.
  destruct (Verify got _) as [[]|] eqn:Ev; inv_ok.
  destruct (bool_decide (SHA256 got = SHA256 m)) eqn:Es; simpl in H; inv_ok; btrue.
  inv_sys. destruct r0 as [| |content]; inv_ok.
  destruct (VerifyFile content got) as [[]|] eqn:Ef; inv_ok. worlds.
  split_and!; try done. eauto 10.
Qed.

Lemma ExportSQLite_Ok id v mv w e w' :
  ExportSQLite id v mv w = (Ok e, w') -> w_db w' = w_db w /\ w_now w' = w_now w.
Proof.
  intros H. unfold ExportSQLite in H. inv_sys. destruct (has_dup _); inv_ok. inv_sys.
  destruct (has_dup _); inv_ok. worlds. done.
Qed.

Lemma Publish_Ok id v m w w' :
  Publish Key MinVersion id v w = (Ok m, w') ->
  Version m = v /\ ObjectKey m = ObjectKeySQLite v /\
  sys_store (w_db w') !! ObjectKeyManifest v = Some (OManifest m) /\
  (exists content, sys_store (w_db w') !! ObjectKeySQLite v = Some (OBlob content) /\
    VerifyFile content m = Ok tt) /\
  Verify m (Public Key) = Ok tt /\
  sys_store (w_db w') !! PointerKey = sys_store (w_db w) !! PointerKey /\
  sys_db (w_db w') =
    set_snapshot (update_where (fun s => sn_id s =? id) (set_artifact m)) (sys_db (w_db w)).
Proof.
  intros H. unfold Publish in H. inv_ok. apply ExportSQLite_Ok in H0 as [Ed En].
  destruct (HashFile _) as [sum size] eqn:Eh. inv_sys.
  destruct (Sign _ Key) as [m'|] eqn:Es; inv_ok. inv_sys.
  match goal with Hv : verifyReadback _ _ _ = _ |- _ =>
    apply verifyReadback_Ok in Hv as (E1 & E2 & o & got & content & Hm & Hd & Hv & Hs & Hc & Hf) end.
  apply Sign_Ok in Es as (p & Hp & ->). worlds. simpl in *.
  rewrite lookup_insert_eq in Hm. injection Hm as <-. simpl in Hd. injection Hd as <-.
  rewrite lookup_insert_ne, lookup_insert_eq in Hc
    by (intros E; by apply (sqlite_not_manifest v v)).
  injection Hc as <-. split_and!; try done.
  - by rewrite lookup_insert_eq.
  - eexists. split; [|exact Hf]. by rewrite lookup_insert_ne, lookup_insert_eq
      by (intros E; by apply (sqlite_not_manifest v v)).
  - rewrite !lookup_insert_ne; [done | apply sqlite_not_pointer | apply manifest_not_pointer].
Qed.

(** A publication that reports success has been proved to round-trip: the
    store holds the returned manifest and, under its object key, a file; the
    manifest verifies under the publisher's public key and the file matches
    it, so a worker's own checks accept both.  The current pointer is not
    moved, and nothing but the snapshot's row changes in the database. *)
Theorem publish_round_trips id v m w w' :
  Publish Key MinVersion id v w = (Ok m, w') ->
  Version m = v /\ ObjectKey m = ObjectKeySQLite v /\
  sys_store (w_db w') !! ObjectKeyManifest v = Some (OManifest m) /\
  (exists content, sys_store (w_db w') !! ObjectKeySQLite v = Some (OBlob content) /\
    VerifyFile content m = Ok tt) /\
  Verify m (Public Key) = Ok tt /\
  sys_store (w_db w') !! PointerKey = sys_store (w_db w) !! PointerKey /\
  sys_db (w_db w') =
    set_snapshot (update_where (fun s => sn_id s =? id) (set_artifact m)) (sys_db (w_db w)).
Proof. apply Publish_Ok. Qed.

(** The published rows of the snapshot table are rows of [id]. *)
Definition only_published (id : Z) (d : database) : Prop :=
  forall s, In s (db_snapshot d) -> sn_status s = Published -> sn_id s = id.

Definition flip_rows (now id : Z) (t : list snapshot_row) : list snapshot_row :=
  update_where (fun s => sn_id s =? id) (publish_row now)
    (update_where (fun s => is_published s && negb (sn_id s =? id)) (with_status Superseded) t).

Lemma flip_Ok id w u w' : flip id w = (Ok u, w') ->
  w_db w' = set_snapshot (fun _ => flip_rows (w_now w) id (db_snapshot (w_db w))) (w_db w) /\
  w_now w' = w_now w.
Proof. intros H. unfold flip in H. inv_ok. worlds. done. Qed.

Lemma flip_rows_status now id t s' :
  In s' (flip_rows now id t) -> exists s, In s t /\ sn_id s' = sn_id s /\ sn_version s' = sn_version s /\
    sn_status s' = (if sn_id s =? id then Published
                    else if is_published s then Superseded else sn_status s).
Proof.
  intros (s1 & (s & Hin & ->)%update_where_In & ->)%update_where_In. exists s.
  assert (sn_id (if is_published s && negb (sn_id s =? id) then with_status Superseded s else s) = sn_id s) as E
    by (by destruct (_ && _)).
  rewrite E. destruct (sn_id s =? id) eqn:Ei; destruct (is_published s); simpl; done.
Qed.

Lemma flip_rows_only now id t s' :
  In s' (flip_rows now id t) -> (sn_status s' = Published <-> sn_id s' = id).
Proof.
  intros (s & _ & -> & _ & ->)%flip_rows_status. destruct (sn_id s =? id) eqn:E; btrue; [done|].
  unfold is_published. case_bool_decide; naive_solver.
Qed.

(** Rolling back publishes exactly the named version: on success the
    version exists and still has routing data, it is the only published
    snapshot, and the store's pointer names it.  On failure either nothing
    changed in the database, or only the last step failed: the database has
    flipped and the pointer has not moved. *)
Theorem rollback_spec version w r w' :
  RollbackTo version w = (r, w') ->
  match r with
  | Ok _ =>
      (exists s, In s (db_snapshot (sys_db (w_db w))) /\ sn_version s = version /\
        count_rows (fun p => pr_snapshot p =? sn_id s) (db_prefix (sys_db (w_db w))) <> 0%nat /\
        forall s', In s' (db_snapshot (sys_db (w_db w'))) ->
          (sn_status s' = Published <-> sn_id s' = sn_id s)) /\
      sys_store (w_db w') !! PointerKey =
        Some (OPointer (MkPointer version (ObjectKeyManifest version) (w_now w)))
  | Err _ =>
      sys_store (w_db w') = sys_store (w_db w) /\
      (sys_db (w_db w') = sys_db (w_db w) \/
       exists s, In s (db_snapshot (sys_db (w_db w))) /\ sn_version s = version /\
         only_published (sn_id s) (sys_db (w_db w')))
  end.
Proof.
  intros H. unfold RollbackTo in H. unfold bindM at 1 in H. unfold attempt in H.
  destruct (lift (query_row _) w) as [r0 w0] eqn:E0.
  apply lift_run in E0 as (dw & E0 & Ed & En).
  assert (w_db dw = sys_db (w_db w) /\ w_now dw = w_now w) as [Edw Enw].
  { destruct r0; [by apply query_row_Ok in E0 as (_ & ? & ?) | by apply stmt_Err in E0]. }
  rewrite Edw, set_sys_db_id in Ed. rewrite Enw in En.
  destruct r0 as [s|e]; [|unfold throw in H; simplify_eq; rewrite Ed; auto].
  apply query_row_Ok in E0 as (Ef & _). simpl in Ef. apply List.find_some in Ef as [Hin Hv]. btrue.
  unfold bindM at 1 in H. destruct (lift (query _) w0) as [[n|e] w1] eqn:E1.
  2:{ simplify_eq. apply lift_run in E1 as (dw1 & [E1 _]%stmt_Err & Ed1 & _). simpl in *.
      rewrite Ed1. simpl. rewrite E1, Ed. auto. }
  apply lift_query_Ok in E1 as (-> & Ed1 & En1). rewrite Ed in *. rewrite En in *.
  destruct (Nat.eqb _ 0) eqn:Ec; [unfold throw in H; simplify_eq; rewrite Ed1; auto|].
  apply Nat.eqb_neq in Ec. unfold bindM at 1 in H.
  destruct (lift (flip (sn_id s)) w1) as [[u|e] w2] eqn:E2.
  2:{ simplify_eq. apply lift_run in E2 as (dw2 & E2 & Ed2 & _). unfold flip in E2. apply tx_Err in E2.
      simpl in *. rewrite Ed2. simpl. rewrite E2, Ed1. auto. }
  apply lift_run in E2 as (dw2 & [E2 En2]%flip_Ok & Ed2 & En2'). simpl in *. rewrite Ed1, En1 in *.
  unfold SetCurrent, bindM, clock in H. destruct (Put PointerKey _ w2) as [[[]|e] w3] eqn:E3; simplify_eq.
  - unfold Put in E3. apply exec_Ok in E3 as [E3 _]. rewrite E3. simpl. split.
    + exists s. split_and!; try done. rewrite Ed2. simpl. rewrite E2. simpl. intros s'.
      apply flip_rows_only.
    + rewrite lookup_insert_eq. congruence.
  - unfold Put in E3. apply stmt_Err in E3 as [E3 _]. rewrite E3, Ed2. simpl. split; [done|].
    right. exists s. split_and!; [done | done |]. rewrite E2. intros s' Hs' Hp.
    exact (proj1 (flip_rows_only _ _ _ _ Hs') Hp).
Qed.
(** What pruning the snapshots [vs] may touch. *)
Definition PruneOnly (vs : list snapshot_row) (n : Z) (s s' : sys) : Prop :=
  db_snapshot (sys_db s') = db_snapshot (sys_db s) /\
  (forall p, In p (db_prefix (sys_db s)) -> (forall v, In v vs -> sn_id v <> pr_snapshot p) ->
     In p (db_prefix (sys_db s'))) /\
  (forall t, In t (db_target (sys_db s)) -> (forall v, In v vs -> sn_id v <> tg_snapshot t) ->
     In t (db_target (sys_db s'))) /\
  (forall p, In p (db_prefix (sys_db s')) -> In p (db_prefix (sys_db s))) /\
  (forall t, In t (db_target (sys_db s')) -> In t (db_target (sys_db s))) /\
  (forall key, (forall v, In v vs -> key <> ObjectKeySQLite (sn_version v) /\ key <> ObjectKeyManifest (sn_version v)) ->
     sys_store s' !! key = sys_store s !! key).

#[local] Instance PruneOnly_preorder vs : PreOrderAt (PruneOnly vs).
Proof.
  split; [intros n s; unfold PruneOnly; auto 10|].
  intros n s1 s2 s3 (A1 & B1 & C1 & D1 & E1 & F1) (A2 & B2 & C2 & D2 & E2 & F2). split_and!; try (by eauto).
  - congruence.
  - intros key Hk. rewrite F2, F1; done.
Qed.

Lemma PruneOnly_same vs n s s' :
  db_snapshot (sys_db s') = db_snapshot (sys_db s) -> db_prefix (sys_db s') = db_prefix (sys_db s) ->
  db_target (sys_db s') = db_target (sys_db s) -> sys_store s' = sys_store s -> PruneOnly vs n s s'.
Proof. intros E1 E2 E3 E4. unfold PruneOnly. rewrite E1, E2, E3, E4. auto 10. Qed.

Lemma respects_lift_exec (R : Z -> sys -> sys -> Prop) `{!PreOrderAt R} f :
  (forall n s, R n s (set_sys_db (f n (sys_db s)) s)) -> Respects R (lift (exec f)).
Proof.
  intros Hf w r w' E. destruct r.
  - apply lift_exec_Ok in E as [-> ->]. auto.
  - apply lift_run in E as (dw & [E1 E2]%stmt_Err & -> & ->). simpl in *. rewrite E1, set_sys_db_id.
    split; [done | apply at_refl].
Qed.

Lemma prune_one_respects vs v : In v vs -> Respects (PruneOnly vs) (prune_one v).
Proof.
  intros Hv. unfold prune_one. respects; try (apply respects_lift_exec; [apply _|]; intros n s);
    try (by apply PruneOnly_same).
  - split_and!; try done; simpl.
    + intros t Ht Hne. apply delete_where_In. split; [done|]. apply Z.eqb_neq. intros E. by apply (Hne v).
    + intros t [? _]%delete_where_In. done.
  - split_and!; try done; simpl.
    + intros p Hp Hne. apply delete_where_In. split; [done|]. apply Z.eqb_neq. intros E. by apply (Hne v).
    + intros p [? _]%delete_where_In. done.
  - unfold Delete. respects. split_and!; try done. simpl. intros key Hk.
    rewrite lookup_delete_ne; [done|]. destruct (Hk v Hv). congruence.
  - unfold Delete. respects. split_and!; try done. simpl. intros key Hk.
    rewrite lookup_delete_ne; [done|]. destruct (Hk v Hv). congruence.
Qed.

Lemma forM_prune_respects vs l : (forall v, In v l -> In v vs) -> Respects (PruneOnly vs) (forM l prune_one).
Proof.
  induction l as [|v l IH]; intros Hl; simpl; [apply respects_ret; apply _|].
  apply respects_bind; [apply _| |intros _; apply IH; intros; apply Hl; by right].
  apply prune_one_respects, Hl. by left.
Qed.

Lemma prune_one_gone v w u w' : prune_one v w = (Ok u, w') ->
  (forall p, In p (db_prefix (sys_db (w_db w'))) -> pr_snapshot p <> sn_id v) /\
  (forall t, In t (db_target (sys_db (w_db w'))) -> tg_snapshot t <> sn_id v).
Proof.
  intros H. unfold prune_one in H. inv_sys.
  repeat match goal with
  | Ha : attempt (Delete ?k) ?x = (Ok _, ?y) |- _ =>
      assert (sys_db (w_db y) = sys_db (w_db x)) by
        (unfold attempt, Delete in Ha; destruct (exec _ x) as [[[]|e] z] eqn:Ez; simplify_eq;
         [by apply exec_Ok in Ez as [-> _] | by apply stmt_Err in Ez as [-> _]]); clear Ha
  end.
  repeat match goal with He : sys_db (w_db ?x) = _ |- _ => rewrite He in *; clear He end.
  worlds. simpl. split.
  - intros p [_ Hp]%delete_where_In. by apply Z.eqb_neq.
  - intros t [_ Ht]%delete_where_In. by apply Z.eqb_neq.
Qed.

Lemma forM_prune_gone l : forall w u w' v, forM l prune_one w = (Ok u, w') -> In v l ->
  (forall p, In p (db_prefix (sys_db (w_db w'))) -> pr_snapshot p <> sn_id v) /\
  (forall t, In t (db_target (sys_db (w_db w'))) -> tg_snapshot t <> sn_id v).
Proof.
  induction l as [|v0 l IH]; intros w u w' v H Hin; [done|]. simpl in H. inv_ok.
  destruct Hin as [->|Hin]; [|by eapply IH].
  apply prune_one_gone in H0 as [Hp Ht].
  apply (forM_prune_respects l l) in H as [_ (_ & _ & _ & Dp & Dt & _)]; [|done]. split; eauto.
Qed.

Definition superseded_desc (d : database) : list snapshot_row :=
  rev (select (fun s => bool_decide (sn_status s = Superseded)) (db_snapshot d)).

Lemma victims_superseded retain d v : In v (victims retain d) ->
  In v (db_snapshot d) /\ sn_status v = Superseded.
Proof.
  unfold victims. intros H%list_elem_of_In. apply list_elem_of_lookup in H as [i Hi].
  rewrite lookup_drop in Hi. apply list_elem_of_lookup_2, list_elem_of_In in Hi.
  rewrite <- in_rev, select_In in Hi. destruct Hi. btrue. done.
Qed.

Lemma NoDup_filter_map {A B} (f : A -> B) p l : NoDup (map f l) -> NoDup (map f (List.filter p l)).
Proof.
  induction l as [|x l IH]; simpl; [done|]. intros [Hx Hl]%NoDup_cons.
  destruct (p x); simpl; [|by apply IH]. apply NoDup_cons. split; [|by apply IH].
  intros [y [Hy [Hin _]%filter_In]]%list_elem_of_In%in_map_iff. apply Hx, list_elem_of_In, in_map_iff. eauto.
Qed.

(** A kept snapshot shares its id and version with no victim. *)
Lemma kept_not_victim retain d s (g : snapshot_row -> Z) :
  NoDup (map g (db_snapshot d)) -> In s (db_snapshot d) ->
  sn_status s <> Superseded \/ In s (take retain (superseded_desc d)) ->
  forall v, In v (victims retain d) -> v <> s.
Proof.
  intros Hnd Hin Hk v Hv ->. destruct Hk as [Hk|Hk].
  - by apply victims_superseded in Hv as [_ ?].
  - assert (NoDup (superseded_desc d)) as Hn.
    { unfold superseded_desc. apply NoDup_ListNoDup, NoDup_rev, NoDup_ListNoDup.
      apply (NoDup_fmap_1 g). by apply NoDup_filter_map. }
    rewrite <- (take_drop retain) in Hn. apply NoDup_app in Hn as (_ & Hn & _).
    apply (Hn s); apply list_elem_of_In; done.
Qed.

Lemma NoDup_map_inj {A B} (f : A -> B) l x y :
  NoDup (map f l) -> In x l -> In y l -> f x = f y -> x = y.
Proof.
  induction l as [|z l IH]; [done|]. intros [Hz Hl]%NoDup_cons Hx Hy E.
  assert (forall u, In u l -> f u <> f z) as Hne.
  { intros u Hu Eu. apply Hz, list_elem_of_In, in_map_iff. eauto. }
  destruct Hx as [->|Hx], Hy as [->|Hy]; [done | | | by apply IH].
  - by destruct (Hne y Hy).
  - by destruct (Hne x Hx).
Qed.

Lemma Prune_only retain w r w' : Prune retain w = (r, w') ->
  PruneOnly (victims (Z.to_nat retain) (sys_db (w_db w))) 0 (w_db w) (w_db w').
Proof.
  unfold Prune. destruct (retain <? 0); [intros H; unfold throw in H; simplify_eq; by apply PruneOnly_same|].
  unfold bindM. destruct (lift (query _) w) as [[vs|e] w1] eqn:E1; intros H.
  - apply lift_query_Ok in E1 as (-> & E1 & En).
    apply (forM_prune_respects (victims (Z.to_nat retain) (sys_db (w_db w)))) in H as [_ H]; [|done]. by rewrite E1 in H.
  - simplify_eq. apply lift_run in E1 as (dw & [E1 _]%stmt_Err & E2 & _). simpl in E1.
    rewrite E1, set_sys_db_id in E2. rewrite E2. apply at_refl.
Qed.

(** Pruning is safe and complete.  Whatever fails on the way, a snapshot
    that is not superseded (in particular the published one) or is among the
    newest [retain] superseded ones keeps its prefixes, targets and store
    objects; the pointer and the summary rows stay.  If pruning succeeds, no
    routing data of any older superseded snapshot is left. *)
Theorem prune_spec retain w r w' :
  Prune retain w = (r, w') ->
  NoDup (map sn_id (db_snapshot (sys_db (w_db w)))) ->
  NoDup (map sn_version (db_snapshot (sys_db (w_db w)))) ->
  let d := sys_db (w_db w) in
  let d' := sys_db (w_db w') in
  (forall s, In s (db_snapshot d) ->
     sn_status s <> Superseded \/ In s (take (Z.to_nat retain) (superseded_desc d)) ->
     (forall p, In p (db_prefix d) -> pr_snapshot p = sn_id s -> In p (db_prefix d')) /\
     (forall t, In t (db_target d) -> tg_snapshot t = sn_id s -> In t (db_target d')) /\
     sys_store (w_db w') !! ObjectKeyManifest (sn_version s) = sys_store (w_db w) !! ObjectKeyManifest (sn_version s) /\
     sys_store (w_db w') !! ObjectKeySQLite (sn_version s) = sys_store (w_db w) !! ObjectKeySQLite (sn_version s)) /\
  sys_store (w_db w') !! PointerKey = sys_store (w_db w) !! PointerKey /\
  db_snapshot d' = db_snapshot d /\
  (is_ok r = true -> forall v, In v (victims (Z.to_nat retain) d) ->
     (forall p, In p (db_prefix d') -> pr_snapshot p <> sn_id v) /\
     (forall t, In t (db_target d') -> tg_snapshot t <> sn_id v)).
Proof.
  intros H Hid Hver d d'.
  destruct (Prune_only retain w r w' H) as (HA & HB & HC & _ & _ & HF).
  split_and!; [| | done |].
  - intros s Hs Hk.
    assert (forall v, In v (victims (Z.to_nat retain) d) -> sn_id v <> sn_id s /\ sn_version v <> sn_version s) as Hne.
    { intros v Hv. pose proof (kept_not_victim (Z.to_nat retain) d s sn_id Hid Hs Hk v Hv) as Hvs.
      apply victims_superseded in Hv as [Hv _]. split; intros E; apply Hvs.
      - by eapply (NoDup_map_inj sn_id).
      - by eapply (NoDup_map_inj sn_version). }
    split_and!.
    + intros p Hp Ep. apply HB; [done|]. intros v Hv. destruct (Hne v Hv). congruence.
    + intros t Ht Et. apply HC; [done|]. intros v Hv. destruct (Hne v Hv). congruence.
    + apply HF. intros v Hv. destruct (Hne v Hv) as [_ Hv']. split.
      * intros E. by apply (sqlite_not_manifest (sn_version v) (sn_version s)).
      * intros E%manifest_key_inj. congruence.
    + apply HF. intros v Hv. destruct (Hne v Hv) as [_ Hv']. split.
      * intros E%sqlite_key_inj. congruence.
      * apply sqlite_not_manifest.
  - apply HF. intros v _. split; apply not_eq_sym; [apply sqlite_not_pointer | apply manifest_not_pointer].
  - intros Hok v Hv. destruct r as [u|]; [|done]. unfold Prune in H. destruct (retain <? 0); [done|]. inv_sys.
    apply (forM_prune_gone _ _ _ _ v H). subst. done.
Qed.
End PublisherProperties.

(** * Findings *)
(** [RollbackTo] reads the status of the named snapshot and never looks at it:
    a snapshot held in 'building' by the sanity gate, for which no artifact
    was ever uploaded, is published, and the pointer then names a manifest the
    store does not have. *)
Example rollback_publishes_unbuilt :
  let sn := SnapshotRow 1 "v1" Building None (Some 1) None None None None None None in
  let p := PrefixRow 1 1 (Prefix (Addr V4 16909060) 24) 64500 None None 1 [] false in
  let d := set_prefix (fun _ => [p]) (set_snapshot (fun _ => [sn]) empty_db) in
  let w := (RollbackTo "v1" (World (Sys d ∅ false None 0) 5 [])).2 in
  map sn_status (db_snapshot (sys_db (w_db w))) = [Published] /\
  sys_store (w_db w) !! PointerKey = Some (OPointer (MkPointer "v1" (ObjectKeyManifest "v1") 5)) /\
  sys_store (w_db w) !! ObjectKeyManifest "v1" = None.
Proof. vm_compute. auto. Qed.

(** * Witnesses *)
Module ToyArtifact.
Import Toy.
#[export] Instance toy_manifest_json : ManifestJSON := {| marshal_manifest m := Some (Version m +:+ SHA256 m) |}.
#[export] Instance toy_sqlite : SQLiteFormat := {| sqlite_bytes f := String.concat ";" (map snd (sq_meta f)) |}.

(** Three superseded snapshots of which one is still retained, and the
    published one. *)
Definition toy_snapshot (id : Z) (v : string) (st : snapshot_status) : snapshot_row :=
  SnapshotRow id v st None (Some 1) None None None None None None.
Definition toy_prefix (id snap : Z) : prefix_row :=
  PrefixRow id snap (Prefix (Addr V4 16909060) 24) 64500 None None 1 [] false.
Definition toy_target (id snap : Z) : target_row := TargetRow id snap "p" id (Addr V4 (16909060 + id)) true None None.
Definition toy_database : database :=
  set_target (fun _ => [toy_target 1 1; toy_target 2 2; toy_target 3 3])
    (set_prefix (fun _ => [toy_prefix 1 1; toy_prefix 2 2; toy_prefix 3 3])
       (set_snapshot (fun _ => [toy_snapshot 1 "v1" Superseded; toy_snapshot 2 "v2" Superseded;
                                toy_snapshot 3 "v3" Published]) empty_db)).
Definition toy_before : sysworld := World (Sys toy_database ∅ false None 0) 7 [].
Definition toy_published : sysworld := (Publish (cr:=toy_crypto) alice "1.0" 3 "v3" toy_before).2.
Definition toy_signed : Manifest :=
  match (Publish (cr:=toy_crypto) alice "1.0" 3 "v3" toy_before).1 with
  | Ok m => m
  | Err _ => MkManifest "" 0 "" "" 0 0 0 0 "" ""
  end.
Definition toy_rolled_back : sysworld := (RollbackTo "v2" toy_before).2.
Definition toy_pruned : sysworld := (Prune 1 toy_before).2.
End ToyArtifact.
Import Toy ToyArtifact.

Lemma publish_round_trips_witness :
  Publish (cr:=toy_crypto) alice "1.0" 3 "v3" toy_before = (Ok toy_signed, toy_published) /\
  Verify (cr:=toy_crypto) toy_signed (Public (Crypto:=toy_crypto) alice) = Ok tt.
Proof.
  assert (Publish (cr:=toy_crypto) alice "1.0" 3 "v3" toy_before = (Ok toy_signed, toy_published)) as E
    by (vm_compute; reflexivity).
  split; [exact E|].
  destruct (publish_round_trips (cr:=toy_crypto) alice "1.0" 3 "v3" toy_signed toy_before toy_published E)
    as (_ & _ & _ & _ & H & _).
  exact H.
Defined.

Lemma rollback_spec_witness :
  RollbackTo "v2" toy_before = (Ok tt, toy_rolled_back) /\
  sys_store (w_db toy_rolled_back) !! PointerKey = Some (OPointer (MkPointer "v2" (ObjectKeyManifest "v2") 7)).
Proof.
  assert (RollbackTo "v2" toy_before = (Ok tt, toy_rolled_back)) as E by (vm_compute; reflexivity).
  split; [exact E|]. exact (proj2 (rollback_spec "v2" toy_before (Ok tt) toy_rolled_back E)).
Defined.

Lemma prune_spec_witness :
  Prune 1 toy_before = (Ok tt, toy_pruned) /\
  In (toy_prefix 2 2) (db_prefix (sys_db (w_db toy_pruned))) /\
  forall p, In p (db_prefix (sys_db (w_db toy_pruned))) -> pr_snapshot p <> 1.
Proof.
  assert (Prune 1 toy_before = (Ok tt, toy_pruned)) as E by (vm_compute; reflexivity).
  destruct (prune_spec 1 toy_before (Ok tt) toy_pruned E) as (Hk & _ & _ & Hg).
  - apply (bool_decide_unpack _). vm_compute. exact I.
  - apply (bool_decide_unpack _). vm_compute. exact I.
  - split; [exact E|]. split.
    + assert (In (toy_snapshot 2 "v2" Superseded) (db_snapshot toy_database)) as H1 by (vm_compute; auto).
      assert (In (toy_snapshot 2 "v2" Superseded) (take 1 (superseded_desc toy_database))) as H2 by (vm_compute; auto).
      assert (In (toy_prefix 2 2) (db_prefix toy_database)) as H3 by (vm_compute; auto).
      exact (proj1 (Hk _ H1 (or_intror H2)) _ H3 eq_refl).
    + assert (In (toy_snapshot 1 "v1" Superseded) (victims 1 toy_database)) as H1 by (vm_compute; auto).
      exact (proj1 (Hg eq_refl _ H1)).
Defined.
