(* ===== verification/Observation.v ===== *)
(** [internal/observation]: the individually signed measurement record. *)
From stdpp Require Import base strings list.
From Stdlib Require Import ZArith QArith Lia.
From S2P Require Import Prelude Codec Wireauth Netip Schema.
Open Scope Z_scope.

Record Observation : Type := MkObservation {
  AssignmentID : Z;
  Target : string;
  ProbeType : string;
  MeasuredAt : Z;
  OK : bool;
  RTTMillis : option Q;
  PacketsSent : Z;
  PacketsLost : Z;
  Metrics : json;
  Signature : string
}.

Definition with_signature (s : string) (o : Observation) : Observation :=
  MkObservation (AssignmentID o) (Target o) (ProbeType o) (MeasuredAt o) (OK o) (RTTMillis o)
    (PacketsSent o) (PacketsLost o) (Metrics o) s.

(** [json.Marshal] of an observation: a parameter; it fails on values JSON
    cannot carry. *)
Class ObservationJSON : Type := { marshal_observation : Observation -> option string }.

Section Observation.
Context {cr : Crypto} {oj : ObservationJSON}.

Definition payload (o : Observation) : result string :=
  of_option (EMsg "json") (marshal_observation (with_signature "" o)).

(** [observation.Sign]. *)
Definition Sign (o : Observation) (key : PrivateKey) : result Observation :=
  match payload o with
  | Err e => Err e
  | Ok p => Ok (with_signature (b64_encode (ed25519_Sign key p)) o)
  end.

(** [observation.Verify]; [Ok tt] is a nil error. *)
Definition Verify (o : Observation) (pub : string) : result unit :=
  if bool_decide (Signature o = "") then Err (EMsg "observation is unsigned")
  else
    match b64_decode (Signature o) with
    | None => Err (EMsg "bad signature encoding")
    | Some sig =>
        match payload o with
        | Err e => Err e
        | Ok p =>
            if ed25519_Verify pub p sig then Ok tt
            else Err (EMsg "observation signature verification failed")
        end
    end.

Lemma payload_signature s o : payload (with_signature s o) = payload o.
Proof. done. Qed.

Context {crl : CryptoLaws}.

Lemma observation_sign_verify o key o' : Sign o key = Ok o' -> Verify o' (Public key) = Ok tt.
Proof.
  unfold Sign. destruct (payload o) as [p|e] eqn:Ep; [|done]. intros E. injection E as <-.
  unfold Verify. cbn [Signature with_signature].
  rewrite bool_decide_false.
  - rewrite b64_roundtrip, payload_signature, Ep, verify_sign. done.
  - apply b64_encode_nonempty. intros E. pose proof (signature_size key p) as Hl. by rewrite E in Hl.
Qed.
End Observation.
