(* ===== verification/Registry.v ===== *)
(** [internal/registry]: worker identity and lifecycle in the registry schema
    (enrollment tokens, keys, state transitions, heartbeats, replay nonces).

    One definition per [Store] method, statement by statement; each method is
    a database call of the monad, so any statement may fail and a transaction
    rolls back.  Random bytes and generated uuids are arguments. *)
From stdpp Require Import base gmap strings list sorting relations.
From Stdlib Require Import ZArith Lia.
From S2P Require Import Prelude Codec Wireauth Netip Schema.
Open Scope Z_scope.

Definition DevOperatorID : string := "00000000-0000-0000-0000-000000000001".

(** [registry.Worker]. *)
Record Worker : Type := MkWorker {
  ID : string;
  Name : string;
  State : worker_state;
  StateReason : string;
  SoftwareVersion : string;
  LastHeartbeat : option Z;
  Config : gmap string json
}.

(** * Row updates *)
Definition new_worker (operatorID name : string) (now : Z) : worker_row :=
  WorkerRow operatorID name Pending None None None now None None None ∅.

Definition with_state (s : worker_state) (reason : string) (approved retired : option Z)
    (r : worker_row) : worker_row :=
  WorkerRow (w_operator r) (w_name r) s (Some reason) (w_version r) (w_source_asn r)
    (w_enrolled_at r) approved retired (w_heartbeat_at r) (w_config r).
Definition with_version (v : string) (r : worker_row) : worker_row :=
  WorkerRow (w_operator r) (w_name r) (w_state r) (w_reason r) (Some v) (w_source_asn r)
    (w_enrolled_at r) (w_approved_at r) (w_retired_at r) (w_heartbeat_at r) (w_config r).
Definition with_heartbeat (now : Z) (r : worker_row) : worker_row :=
  WorkerRow (w_operator r) (w_name r) (w_state r) (w_reason r) (w_version r) (w_source_asn r)
    (w_enrolled_at r) (w_approved_at r) (w_retired_at r) (Some now) (w_config r).
Definition with_config (f : gmap string json -> gmap string json) (r : worker_row) : worker_row :=
  WorkerRow (w_operator r) (w_name r) (w_state r) (w_reason r) (w_version r) (w_source_asn r)
    (w_enrolled_at r) (w_approved_at r) (w_retired_at r) (w_heartbeat_at r) (f (w_config r)).
Definition with_asn (asn : Z) (r : worker_row) : worker_row :=
  WorkerRow (w_operator r) (w_name r) (w_state r) (w_reason r) (w_version r) (Some asn)
    (w_enrolled_at r) (w_approved_at r) (w_retired_at r) (w_heartbeat_at r) (w_config r).

Definition use_token (now : Z) (t : token_row) : token_row :=
  TokenRow (t_worker t) (t_expires t) (Some now).

Definition revoke_key (now : Z) (reason : string) (k : key_row) : key_row :=
  KeyRow (k_id k) (k_worker k) (k_public k) (k_from k) (k_until k) (Some now) (Some reason).
Definition expire_key (until : Z) (k : key_row) : key_row :=
  KeyRow (k_id k) (k_worker k) (k_public k) (k_from k) (Some until) (k_revoked k) (k_reason k).

(** The partial unique index [one_current_key]. *)
Definition current_key (workerID : string) (k : key_row) : bool :=
  bool_decide (k_worker k = workerID) && is_none (k_until k) && is_none (k_revoked k).

(** * Statements *)
Definition insert_worker (id operatorID name : string) : DB unit :=
  stmt (fun now d =>
    match db_worker d !! id with
    | Some _ => Err (EConstraint "worker_pkey")
    | None => Ok (tt, set_worker (<[id := new_worker operatorID name now]>) d)
    end).

Definition insert_token (hash workerID : string) (expires : Z) : DB unit :=
  stmt (fun _ d =>
    match db_token d !! hash with
    | Some _ => Err (EConstraint "enrollment_token_pkey")
    | None => Ok (tt, set_token (<[hash := TokenRow workerID expires None]>) d)
    end).

Definition insert_key (workerID pub : string) : DB unit :=
  stmt (fun now d =>
    if exists_row (current_key workerID) (db_worker_key d) then Err (EConstraint "one_current_key")
    else Ok (tt, set_key_seq Z.succ (set_worker_key
      (fun t => t ++ [KeyRow (db_key_seq d) workerID pub now None None None]) d))).

Definition insert_trust_event (workerID eventType : string) (detail : list (string * string))
    (actor : string) : DB unit :=
  stmt (fun now d =>
    match db_worker d !! workerID with
    | None => Err (EConstraint "trust_event_worker_id_fkey")
    | Some _ => Ok (tt, set_trust_event
        (fun t => t ++ [TrustEventRow workerID eventType detail actor now]) d)
    end).

(** * Operations *)
Section Store.
Context {cr : Crypto}.

(** [raw] is the outcome of [rand.Read], [uuid] that of [uuid.NewString]. *)
Definition CreateWorker (operatorID name : string) (tokenTTL : Z) (raw : option string)
    (uuid : string) : DB (string * string) :=
  match raw with
  | None => throw (EMsg "rand")
  | Some raw =>
      let token := hex_encode raw in
      let hash := sha256 token in
      let workerID := uuid in
      tx (do! insert_worker workerID operatorID name ;;
          let! now := clock in
          do! insert_token hash workerID (now + tokenTTL) ;;
          ret (workerID, token))
  end.

Definition Register (token pub softwareVersion : string) : DB (string * worker_state) :=
  let hash := sha256 token in
  tx (let! workerID := stmt (fun now d =>
        match db_token d !! hash with
        | Some t =>
            if is_none (t_used t) && (now <? t_expires t)
            then Ok (t_worker t, set_token (<[hash := use_token now t]>) d)
            else Err EBadToken
        | None => Err EBadToken
        end) in
      do! insert_key workerID pub ;;
      let! state := stmt (fun _ d =>
        match db_worker d !! workerID with
        | Some r => Ok (w_state r, set_worker (<[workerID := with_version softwareVersion r]>) d)
        | None => Err ENoRows
        end) in
      do! insert_trust_event workerID "registered" [] "system" ;;
      ret (workerID, state)).

Definition transitions (s : worker_state) : list worker_state :=
  match s with
  | Pending => [Active; Suspended; Retired]
  | Active => [Suspended; Quarantined; Retired]
  | Suspended => [Active; Retired]
  | Quarantined => [Active; Suspended; Retired]
  | Retired => []
  end.

(** The target state named by [newState], when the table allows it. *)
Definition allowed (current : worker_state) (newState : string) : option worker_state :=
  List.find (fun t => bool_decide (state_name t = newState)) (transitions current).

Definition approved_col (current new : worker_state) (now : Z) (r : worker_row) : option Z :=
  match new, current with
  | Active, Pending => Some now
  | _, _ => w_approved_at r
  end.
Definition retired_col (new : worker_state) (now : Z) (r : worker_row) : option Z :=
  match new with Retired => Some now | _ => w_retired_at r end.

Definition SetState (workerID newState reason actor : string) : DB unit :=
  tx (let! current := stmt (fun _ d =>
        match db_worker d !! workerID with
        | Some r => Ok (w_state r, d)
        | None => Err EUnknownWorker
        end) in
      match allowed current newState with
      | None => throw (EBadTransition (state_name current) newState)
      | Some new =>
          do! exec (fun now => set_worker (alter (fun r =>
                with_state new reason (approved_col current new now r) (retired_col new now r) r) workerID)) ;;
          do! (if bool_decide (new = Retired)
               then exec (fun now => set_worker_key (update_where
                      (fun k => bool_decide (k_worker k = workerID) && is_none (k_revoked k))
                      (revoke_key now "worker retired")))
               else ret tt) ;;
          insert_trust_event workerID ("state:" +:+ newState)
            [("from"%string, state_name current); ("reason"%string, reason)] actor
      end).

Definition Heartbeat (workerID softwareVersion : string) : DB Worker :=
  stmt (fun now d =>
    match db_worker d !! workerID with
    | None => Err EUnknownWorker
    | Some r =>
        let r' := with_version softwareVersion (with_heartbeat now r) in
        Ok (MkWorker workerID (w_name r') (w_state r') (default "" (w_reason r')) softwareVersion
              None (w_config r'),
            set_worker (<[workerID := r']>) d)
    end).

(** Valid at [now]: not revoked, started, and not past its overlap. *)
Definition key_valid (now : Z) (k : key_row) : bool :=
  is_none (k_revoked k) && (k_from k <=? now) &&
  match k_until k with None => true | Some u => now <? u end.

Definition active_key_rows (now : Z) (workerID : string) (d : database) : list key_row :=
  rev (select (fun k => bool_decide (k_worker k = workerID) && key_valid now k) (db_worker_key d)).

Definition active_keys_of (now : Z) (workerID : string) (d : database) : list string :=
  select (fun key => Nat.eqb (String.length key) PublicKeySize)
         (map k_public (active_key_rows now workerID d)).

Definition ActiveKeys (workerID : string) : DB (list string * worker_state) :=
  stmt (fun now d =>
    match db_worker d !! workerID with
    | None => Err EUnknownWorker
    | Some r =>
        match active_keys_of now workerID d with
        | [] => Err EUnknownWorker
        | keys => Ok ((keys, w_state r), d)
        end
    end).

Definition RotateKey (workerID nextPub : string) (overlap : Z) : DB unit :=
  tx (do! exec (fun now => set_worker_key (update_where
          (fun k => bool_decide (k_worker k = workerID) && is_none (k_revoked k) && is_none (k_until k))
          (expire_key (now + overlap)))) ;;
      do! insert_key workerID nextPub ;;
      do! exec (fun _ => set_worker (alter (with_config (delete "rotate_requested"%string)) workerID)) ;;
      insert_trust_event workerID "key_rotated" [] "worker").

Definition RequestRotation (workerID : string) : DB unit :=
  stmt (fun _ d =>
    match db_worker d !! workerID with
    | None => Err EUnknownWorker
    | Some r => Ok (tt, set_worker
        (<[workerID := with_config (<["rotate_requested"%string := JBool true]>) r]>) d)
    end).

Definition SeenNonce (workerID nonce : string) : DB bool :=
  stmt (fun now d =>
    match db_worker d !! workerID with
    | None => Err (EConstraint "replay_nonce_worker_id_fkey")
    | Some _ =>
        let (inserted, t) := insert_nothing (workerID, nonce) now (db_nonce d) in
        Ok (negb inserted, set_nonce (fun _ => t) d)
    end).

Definition PruneNonces (window : Z) : DB Z :=
  stmt (fun now d =>
    let keep := filter (fun kv : (string * string) * Z => now - window <= kv.2) (db_nonce d) in
    Ok (Z.of_nat (size (db_nonce d)) - Z.of_nat (size keep), set_nonce (fun _ => keep) d)).

Definition IngestEnrollment (workerID operatorID name tokenHashHex : string) (expiresAt : Z) : DB bool :=
  match hex_decode tokenHashHex with
  | Some hash =>
      if Nat.eqb (String.length hash) 32 then
        tx (let! created := stmt (fun now d =>
              let (inserted, t) := insert_nothing workerID (new_worker operatorID name now) (db_worker d) in
              Ok (inserted, set_worker (fun _ => t) d)) in
            do! stmt (fun _ d =>
              let (_, t) := insert_nothing hash (TokenRow workerID expiresAt None) (db_token d) in
              Ok (tt, set_token (fun _ => t) d)) ;;
            ret created)
      else throw (EMsg "token_hash must be hex sha256")
  | None => throw (EMsg "token_hash must be hex sha256")
  end.

(** Any error of the first lookup is reported as [ErrUnknownWorker]. *)
Definition ApplyDecision (workerID state reason : string) : DB unit :=
  let! found := attempt (query_row (fun _ d => w_state <$> db_worker d !! workerID)) in
  match found with
  | Err _ => throw EUnknownWorker
  | Ok current =>
      if bool_decide (state_name current = state) then ret tt
      else SetState workerID state reason "advisor-admin"
  end.

(** Best effort: the insert's error is dropped. *)
Definition RecordTrustEvent (workerID eventType actor : string) : DB unit :=
  do! attempt (insert_trust_event workerID eventType [] actor) ;; ret tt.

(** [List]: newest enrollment first. *)
Definition newer (x y : string * worker_row) : Prop :=
  w_enrolled_at y.2 <= w_enrolled_at x.2.
#[global] Instance newer_dec x y : Decision (newer x y).
Proof. unfold newer. apply _. Defined.
Definition List_ : DB (list Worker) :=
  query (fun _ d => map (fun '(id, r) =>
      MkWorker id (w_name r) (w_state r) (default "" (w_reason r)) (default "" (w_version r))
        (w_heartbeat_at r) (w_config r))
    (merge_sort newer (map_to_list (db_worker d)))).
End Store.

(** * The store as an interface

    Every call a client can make on the store, and [StorePromise R]: all of
    them respect the two-state property [R].  Clients are verified against the
    promise; the instances below discharge it. *)
Section Interface.
Context {cr : Crypto}.

Inductive store_op : Type :=
| OpCreateWorker (operatorID name : string) (ttl : Z) (raw : option string) (uuid : string)
| OpRegister (token pub version : string)
| OpSetState (workerID newState reason actor : string)
| OpHeartbeat (workerID version : string)
| OpActiveKeys (workerID : string)
| OpRotateKey (workerID pub : string) (overlap : Z)
| OpRequestRotation (workerID : string)
| OpSeenNonce (workerID nonce : string)
| OpPruneNonces
| OpIngestEnrollment (workerID operatorID name hash : string) (expires : Z)
| OpApplyDecision (workerID state reason : string)
| OpRecordTrustEvent (workerID eventType actor : string)
| OpList.

Definition done {A} (m : DB A) : DB unit := do! m ;; ret tt.

Definition run_op (op : store_op) : DB unit :=
  match op with
  | OpCreateWorker o n t raw u => done (CreateWorker o n t raw u)
  | OpRegister t p v => done (Register t p v)
  | OpSetState w s r a => SetState w s r a
  | OpHeartbeat w v => done (Heartbeat w v)
  | OpActiveKeys w => done (ActiveKeys w)
  | OpRotateKey w p o => RotateKey w p o
  | OpRequestRotation w => RequestRotation w
  | OpSeenNonce w n => done (SeenNonce w n)
  | OpPruneNonces => done (PruneNonces (2 * MaxSkew))
  | OpIngestEnrollment w o n h e => done (IngestEnrollment w o n h e)
  | OpApplyDecision w s r => ApplyDecision w s r
  | OpRecordTrustEvent w e a => RecordTrustEvent w e a
  | OpList => done List_
  end.

Class StorePromise (R : Z -> database -> database -> Prop) : Prop :=
  store_respects : forall op, Respects R (run_op op).

Lemma respects_done {A} R (m : DB A) : Respects R (done m) -> Respects R m.
Proof.
  intros H w r w' E. specialize (H w). unfold done, bindM, ret in H. rewrite E in H.
  destruct r; by eapply H.
Qed.

Section Derived.
Context (R : Z -> database -> database -> Prop) `{!StorePromise R}.
Lemma CreateWorker_respects o n t raw u : Respects R (CreateWorker o n t raw u).
Proof. apply respects_done, (store_respects (OpCreateWorker o n t raw u)). Qed.
Lemma Register_respects t p v : Respects R (Register t p v).
Proof. apply respects_done, (store_respects (OpRegister t p v)). Qed.
Lemma SetState_respects w s r a : Respects R (SetState w s r a).
Proof. apply (store_respects (OpSetState w s r a)). Qed.
Lemma Heartbeat_respects w v : Respects R (Heartbeat w v).
Proof. apply respects_done, (store_respects (OpHeartbeat w v)). Qed.
Lemma ActiveKeys_respects w : Respects R (ActiveKeys w).
Proof. apply respects_done, (store_respects (OpActiveKeys w)). Qed.
Lemma RotateKey_respects w p o : Respects R (RotateKey w p o).
Proof. apply (store_respects (OpRotateKey w p o)). Qed.
Lemma RequestRotation_respects w : Respects R (RequestRotation w).
Proof. apply (store_respects (OpRequestRotation w)). Qed.
Lemma SeenNonce_respects w n : Respects R (SeenNonce w n).
Proof. apply respects_done, (store_respects (OpSeenNonce w n)). Qed.
Lemma IngestEnrollment_respects w o n h e : Respects R (IngestEnrollment w o n h e).
Proof. apply respects_done, (store_respects (OpIngestEnrollment w o n h e)). Qed.
Lemma ApplyDecision_respects w s r : Respects R (ApplyDecision w s r).
Proof. apply (store_respects (OpApplyDecision w s r)). Qed.
Lemma RecordTrustEvent_respects w e a : Respects R (RecordTrustEvent w e a).
Proof. apply (store_respects (OpRecordTrustEvent w e a)). Qed.
Lemma PruneNonces_respects : Respects R (PruneNonces (2 * MaxSkew)).
Proof. apply respects_done, (store_respects OpPruneNonces). Qed.
Lemma List_respects : Respects R List_.
Proof. apply respects_done, (store_respects OpList). Qed.
End Derived.
End Interface.

#[export] Hint Resolve CreateWorker_respects Register_respects SetState_respects Heartbeat_respects
  ActiveKeys_respects RotateKey_respects RequestRotation_respects SeenNonce_respects
  IngestEnrollment_respects ApplyDecision_respects RecordTrustEvent_respects
  PruneNonces_respects List_respects respects_clock : vapn.

(** Unfold an operation down to its statements; what is left is one goal per
    statement. *)
Ltac store_stmts :=
  unfold run_op, done, CreateWorker, Register, ApplyDecision, SetState, Heartbeat, ActiveKeys,
    RotateKey, RequestRotation, SeenNonce, PruneNonces, IngestEnrollment, RecordTrustEvent, List_,
    insert_worker, insert_token, insert_key, insert_trust_event;
  respects; try (apply respects_clock; apply _).

(** A statement's successful outcome, opened. *)
Ltac open_stmt :=
  repeat match goal with
  | H : Ok _ = Ok _ |- _ => injection H as ? ?; subst
  | H : Err _ = Ok _ |- _ => discriminate H
  | H : match ?x with _ => _ end = Ok _ |- _ => destruct x eqn:?
  | H : (if ?x then _ else _) = Ok _ |- _ => destruct x eqn:?
  end.

(** * The lifecycle *)
Definition edge (s s' : worker_state) : Prop := s' ∈ transitions s.

(** Worker rows are never deleted, change state along the table only, and
    start pending. *)
Definition Lifecycle (n : Z) (d d' : database) : Prop :=
  forall id,
    match db_worker d !! id, db_worker d' !! id with
    | Some r, Some r' => rtc edge (w_state r) (w_state r')
    | None, Some r' => rtc edge Pending (w_state r')
    | Some _, None => False
    | None, None => True
    end.

#[global] Instance Lifecycle_preorder : PreOrderAt Lifecycle.
Proof.
  split.
  - intros n d id. destruct (db_worker d !! id); [apply rtc_refl | done].
  - intros n d1 d2 d3 H1 H2 id. specialize (H1 id). specialize (H2 id).
    destruct (db_worker d1 !! id), (db_worker d2 !! id), (db_worker d3 !! id);
      try done; try (by etrans).
Qed.

Lemma Lifecycle_same n d d' : db_worker d' = db_worker d -> Lifecycle n d d'.
Proof. intros E id. rewrite E. destruct (db_worker d !! id); [apply rtc_refl | done]. Qed.

Lemma Lifecycle_insert n d id r' :
  match db_worker d !! id with
  | Some r => rtc edge (w_state r) (w_state r')
  | None => rtc edge Pending (w_state r')
  end -> Lifecycle n d (set_worker (<[id := r']>) d).
Proof.
  intros H i. simpl. destruct (decide (i = id)) as [->|Hne].
  - rewrite lookup_insert_eq. by destruct (db_worker d !! id).
  - rewrite lookup_insert_ne by done. destruct (db_worker d !! i); [apply rtc_refl | done].
Qed.

Lemma allowed_edge current s new : allowed current s = Some new -> edge current new /\ state_name new = s.
Proof.
  unfold allowed. intros [Hin Hs]%List.find_some. btrue. split; [|done]. by apply list_elem_of_In.
Qed.

Lemma edge_pending_start s : rtc edge Pending s.
Proof.
  destruct s; [apply rtc_refl| | | |].
  - apply rtc_once. unfold edge. simpl. set_solver.
  - apply rtc_once. unfold edge. simpl. set_solver.
  - apply (rtc_l _ _ Active); [unfold edge; simpl; set_solver|]. apply rtc_once. unfold edge. simpl. set_solver.
  - apply rtc_once. unfold edge. simpl. set_solver.
Qed.

Lemma retired_terminal s : rtc edge Retired s -> s = Retired.
Proof.
  intros H. remember Retired as r eqn:Er. induction H as [|x y z H1 H2 IH]; [done|].
  subst. by apply not_elem_of_nil in H1.
Qed.

(** The tables after a committed [SetState]. *)
Definition set_state_db (now : Z) (id : string) (cur new : worker_state) (reason newState actor : string)
    (d : database) : database :=
  let d1 := set_worker (alter (fun r =>
    with_state new reason (approved_col cur new now r) (retired_col new now r) r) id) d in
  let d2 := if bool_decide (new = Retired)
    then set_worker_key (update_where (fun k => bool_decide (k_worker k = id) && is_none (k_revoked k))
           (revoke_key now "worker retired")) d1
    else d1 in
  set_trust_event (fun t => t ++ [TrustEventRow id ("state:" +:+ newState)
    [("from"%string, state_name cur); ("reason"%string, reason)] actor now]) d2.

Lemma SetState_Ok w id newState reason actor u w' :
  SetState id newState reason actor w = (Ok u, w') ->
  exists r new, db_worker (w_db w) !! id = Some r /\ allowed (w_state r) newState = Some new /\
    w_now w' = w_now w /\
    w_db w' = set_state_db (w_now w) id (w_state r) new reason newState actor (w_db w).
Proof.
  intros H. unfold SetState in H. inv_ok. destruct (db_worker _ !! id) as [r0|] eqn:Er; inv_ok.
  destruct (allowed (w_state r0) newState) as [new|] eqn:Ea; inv_ok.
  exists r0, new. unfold insert_trust_event in H. inv_ok.
  destruct (db_worker (w_db _) !! id) eqn:E3 in H; [|done]. simplify_eq.
  unfold set_state_db.
  destruct (bool_decide (new = Retired)); inv_ok; worlds; done.
Qed.

Lemma SetState_respects_of (R : Z -> database -> database -> Prop) `{!PreOrderAt R} id newState reason actor :
  (forall n d r new, db_worker d !! id = Some r -> allowed (w_state r) newState = Some new ->
     R n d (set_state_db n id (w_state r) new reason newState actor d)) ->
  Respects R (SetState id newState reason actor).
Proof.
  intros HR w r w' E. destruct r as [u|e].
  - apply SetState_Ok in E as (r & new & H1 & H2 & H3 & H4). rewrite H4. auto.
  - split; [|unfold SetState in E; apply tx_Err in E; rewrite E; apply at_refl].
    refine (proj1 ((_ : Respects (fun _ _ _ => True) (SetState id newState reason actor)) _ _ _ E)).
    unfold SetState, insert_trust_event. respects; done.
Qed.

Section Promises.
Context {cr : Crypto}.

Lemma Lifecycle_set_state n d id r new reason newState actor :
  db_worker d !! id = Some r -> allowed (w_state r) newState = Some new ->
  Lifecycle n d (set_state_db n id (w_state r) new reason newState actor d).
Proof.
  intros Hr [He _]%allowed_edge i. unfold set_state_db.
  assert (forall d0, db_worker (if bool_decide (new = Retired) then set_worker_key (update_where
     (fun k => bool_decide (k_worker k = id) && is_none (k_revoked k)) (revoke_key n "worker retired")) d0 else d0)
     = db_worker d0) as Hk by (intros; by destruct (bool_decide _)).
  simpl. rewrite Hk. simpl. destruct (decide (i = id)) as [->|Hne].
  - rewrite Hr, lookup_alter_eq, Hr. simpl. by apply rtc_once.
  - rewrite lookup_alter_ne by done. destruct (db_worker d !! i); [apply rtc_refl | done].
Qed.

Lemma Lifecycle_alter n d id f :
  (forall r, w_state (f r) = w_state r) -> Lifecycle n d (set_worker (alter f id) d).
Proof.
  intros Hf i. simpl. destruct (decide (i = id)) as [->|Hne].
  - rewrite lookup_alter_eq. destruct (db_worker d !! id); simpl; [rewrite Hf; apply rtc_refl | done].
  - rewrite lookup_alter_ne by done. destruct (db_worker d !! i); [apply rtc_refl | done].
Qed.

#[export] Instance Lifecycle_store : StorePromise Lifecycle.
Proof.
  assert (forall s, rtc edge s s) as Hrefl by (intros; apply rtc_refl).
  intros []; try (apply SetState_respects_of; [apply _|]; intros; by apply Lifecycle_set_state);
    try (unfold run_op, done, CreateWorker, Register, Heartbeat, ActiveKeys, RotateKey,
      RequestRotation, SeenNonce, PruneNonces, IngestEnrollment, RecordTrustEvent, List_,
      insert_worker, insert_token, insert_key, insert_trust_event; respects;
      try (apply respects_clock; apply _);
      try (intros; open_stmt; try (by apply Lifecycle_same);
        try (apply Lifecycle_insert; simplify_option_eq; try case_match; simplify_eq; by try apply Hrefl))).
  - by apply Lifecycle_alter.
  - unfold insert_nothing in *. case_match; simplify_eq; [by apply Lifecycle_same|].
    intros i. simpl. destruct (decide (i = workerID)) as [->|]; simplify_map_eq; [done|].
    destruct (db_worker d !! i); done.
  - unfold run_op, ApplyDecision. respects. apply SetState_respects_of; [apply _|].
    intros; by apply Lifecycle_set_state.
Qed.
End Promises.

(** * Enrollment tokens *)
(** A token's worker and expiry never change, and a redeemed token stays
    redeemed with the same time. *)
Definition TokensOnce (n : Z) (d d' : database) : Prop :=
  forall h t, db_token d !! h = Some t ->
    exists t', db_token d' !! h = Some t' /\ t_worker t' = t_worker t /\ t_expires t' = t_expires t /\
      (t_used t = None \/ t_used t' = t_used t).

#[global] Instance TokensOnce_preorder : PreOrderAt TokensOnce.
Proof.
  split; [intros n d h t; eauto 10|].
  intros n d1 d2 d3 H1 H2 h t Ht.
  destruct (H1 h t Ht) as (t1 & Ht1 & Hw1 & He1 & Hu1). destruct (H2 h t1 Ht1) as (t2 & Ht2 & Hw2 & He2 & Hu2).
  exists t2. split_and!; [done | congruence | congruence |].
  destruct Hu1 as [?|Hu1]; [by left|]. destruct Hu2 as [?|Hu2]; [left|right]; congruence.
Qed.

Lemma TokensOnce_same n d d' : db_token d' = db_token d -> TokensOnce n d d'.
Proof. intros E h t. rewrite E. eauto 10. Qed.

Lemma TokensOnce_use n d h t :
  db_token d !! h = Some t -> t_used t = None ->
  TokensOnce n d (set_token (<[h := use_token n t]>) d).
Proof.
  intros Ht Hu h' t' Ht'. simpl. destruct (decide (h' = h)) as [->|Hne].
  - rewrite lookup_insert_eq. simplify_eq. eexists. split; [done|]. simpl. auto.
  - rewrite lookup_insert_ne by done. eauto 10.
Qed.

Lemma TokensOnce_new n d h r :
  db_token d !! h = None -> TokensOnce n d (set_token (<[h := r]>) d).
Proof.
  intros Hn h' t' Ht'. simpl. rewrite lookup_insert_ne by congruence. eauto 10.
Qed.

(** * Keys *)
(** Key rows are never deleted or rewritten: identity and validity start are
    fixed, an expiry once set is final, a revocation once recorded is final. *)
Definition key_le (k k' : key_row) : Prop :=
  k_id k' = k_id k /\ k_worker k' = k_worker k /\ k_public k' = k_public k /\ k_from k' = k_from k /\
  (k_until k = None \/ k_until k' = k_until k) /\ (k_revoked k = None \/ k_revoked k' = k_revoked k).

#[global] Instance key_le_preorder : PreOrder key_le.
Proof.
  split; [intros k; unfold key_le; auto 10|].
  unfold key_le. intros k1 k2 k3 (?&?&?&?&Hu1&Hr1) (?&?&?&?&Hu2&Hr2). split_and!; try congruence.
  - destruct Hu1 as [?|Hu1]; [by left|]. destruct Hu2; [left|right]; congruence.
  - destruct Hr1 as [?|Hr1]; [by left|]. destruct Hr2; [left|right]; congruence.
Qed.

Definition KeysFinal (n : Z) (d d' : database) : Prop :=
  exists more, exists ks, db_worker_key d' = ks ++ more /\ Forall2 key_le (db_worker_key d) ks.

Lemma KeysFinal_same n d d' : db_worker_key d' = db_worker_key d -> KeysFinal n d d'.
Proof. intros E. exists [], (db_worker_key d). rewrite E, app_nil_r. split; [done|]. reflexivity. Qed.

#[global] Instance KeysFinal_preorder : PreOrderAt KeysFinal.
Proof.
  split; [intros n d; by apply KeysFinal_same|].
  intros n d1 d2 d3 (m1 & k1 & E1 & F1) (m2 & k2 & E2 & F2). rewrite E1 in F2.
  apply Forall2_app_inv_l in F2 as (a & b & Fa & Fb & ->).
  exists (b ++ m2), a. rewrite E2, app_assoc. split; [done|]. by etrans.
Qed.

Lemma KeysFinal_update n d p f :
  (forall k, p k = true -> key_le k (f k)) ->
  KeysFinal n d (set_worker_key (update_where p f) d).
Proof.
  intros Hf. exists [], (update_where p f (db_worker_key d)). rewrite app_nil_r. split; [done|].
  unfold update_where. induction (db_worker_key d) as [|k l IH]; simpl; constructor; [|done].
  destruct (p k) eqn:E; [by apply Hf | reflexivity].
Qed.

Lemma KeysFinal_append n d k g :
  KeysFinal n d (set_key_seq g (set_worker_key (fun t => t ++ [k]) d)).
Proof. exists [k], (db_worker_key d). split; [done | reflexivity]. Qed.

(** The unique index [one_current_key]: at most one key per worker is neither
    revoked nor expiring. *)
Definition OneCurrentKey (d : database) : Prop :=
  forall id, (count_rows (current_key id) (db_worker_key d) <= 1)%nat.

Lemma OneCurrentKey_same d d' : db_worker_key d' = db_worker_key d -> Keeps OneCurrentKey 0 d d'.
Proof. unfold Keeps, OneCurrentKey. by intros ->. Qed.

Lemma OneCurrentKey_update n d p f :
  (forall id k, p k = true -> current_key id (f k) = true -> current_key id k = true) ->
  Keeps OneCurrentKey n d (set_worker_key (update_where p f) d).
Proof.
  intros Hf HI id. simpl. rewrite count_update. etrans; [|apply (HI id)]. apply count_le.
  intros k _. destruct (p k) eqn:E; [by apply Hf | done].
Qed.

Lemma OneCurrentKey_append n d k g :
  exists_row (current_key (k_worker k)) (db_worker_key d) = false ->
  Keeps OneCurrentKey n d (set_key_seq g (set_worker_key (fun t => t ++ [k]) d)).
Proof.
  intros He HI id. simpl. rewrite count_app. specialize (HI id). rewrite count_cons. simpl.
  destruct (decide (id = k_worker k)) as [->|Hne].
  - rewrite (proj2 (count_zero _ _)).
    + unfold count_rows. simpl. destruct (current_key _ k); lia.
    + by apply exists_row_false.
  - assert (current_key id k = false) as ->; [|unfold count_rows in *; simpl; lia].
    unfold current_key. by rewrite bool_decide_false.
Qed.

(** Statement goals of a store promise whose table the statement leaves
    alone. *)
Ltac store_goals same :=
  unfold run_op, done, CreateWorker, Register, Heartbeat, ActiveKeys, RotateKey,
    RequestRotation, SeenNonce, PruneNonces, IngestEnrollment, RecordTrustEvent, List_,
    insert_worker, insert_token, insert_key, insert_trust_event;
  respects; try (apply respects_clock; apply _);
  intros; open_stmt; try (apply same; reflexivity).

Lemma set_state_token n id cur new reason s actor d :
  db_token (set_state_db n id cur new reason s actor d) = db_token d.
Proof. unfold set_state_db. by destruct (bool_decide _). Qed.

Lemma set_state_keys n id cur new reason s actor d :
  db_worker_key (set_state_db n id cur new reason s actor d) =
    if bool_decide (new = Retired)
    then update_where (fun k => bool_decide (k_worker k = id) && is_none (k_revoked k))
           (revoke_key n "worker retired") (db_worker_key d)
    else db_worker_key d.
Proof. unfold set_state_db. by destruct (bool_decide _). Qed.

Lemma key_le_revoke n reason k : is_none (k_revoked k) = true -> key_le k (revoke_key n reason k).
Proof. intros E. unfold key_le. simpl. destruct (k_revoked k); [done|]. auto 10. Qed.

Lemma key_le_expire u k : is_none (k_until k) = true -> key_le k (expire_key u k).
Proof. intros E. unfold key_le. simpl. destruct (k_until k); [done|]. auto 10. Qed.

Section MorePromises.
Context {cr : Crypto}.

#[export] Instance TokensOnce_store : StorePromise TokensOnce.
Proof.
  assert (forall id s r a, Respects TokensOnce (SetState id s r a)) as Hset.
  { intros. apply SetState_respects_of; [apply _|]. intros. apply TokensOnce_same, set_state_token. }
  intros []; try (unfold run_op, ApplyDecision; respects; by apply Hset); store_goals TokensOnce_same.
  - by apply TokensOnce_new.
  - btrue. apply TokensOnce_use; [done|]. by destruct (t_used _).
  - unfold insert_nothing in *. case_match; simplify_eq; [by apply TokensOnce_same|].
    by apply (TokensOnce_new n d).
Qed.

#[export] Instance KeysFinal_store : StorePromise KeysFinal.
Proof.
  assert (forall id s r a, Respects KeysFinal (SetState id s r a)) as Hset.
  { intros id s r a. apply SetState_respects_of; [apply _|]. intros n d r0 new _ _.
    unfold set_state_db. case_bool_decide; [|by apply KeysFinal_same].
    apply (at_trans _ _ (set_worker_key (update_where (fun k => bool_decide (k_worker k = id) && is_none (k_revoked k))
      (revoke_key n "worker retired")) d)); [|by apply KeysFinal_same].
    apply KeysFinal_update. intros k ?. btrue. by apply key_le_revoke. }
  intros []; try (unfold run_op, ApplyDecision; respects; by apply Hset); store_goals KeysFinal_same;
    try apply KeysFinal_append.
  apply KeysFinal_update. intros k ?. btrue. by apply key_le_expire.
Qed.

#[export] Instance OneCurrentKey_store : StorePromise (Keeps OneCurrentKey).
Proof.
  assert (forall id s r a, Respects (Keeps OneCurrentKey) (SetState id s r a)) as Hset.
  { intros id s r a. apply SetState_respects_of; [apply _|]. intros n d r0 new _ _.
    intros HI i. rewrite set_state_keys. case_bool_decide; [|apply HI].
    refine (OneCurrentKey_update n d _ _ _ HI i). unfold current_key. simpl. intros. btrue. done. }
  intros []; try (unfold run_op, ApplyDecision; respects; by apply Hset);
    store_goals OneCurrentKey_same; try (by apply OneCurrentKey_append).
  apply OneCurrentKey_update. unfold current_key. simpl. intros. btrue. done.
Qed.
End MorePromises.

(** * Replay nonces *)
(** A nonce seen within the last two skew windows is remembered, with the time
    it was first seen. *)
Definition NonceKept (n : Z) (d d' : database) : Prop :=
  forall k t, db_nonce d !! k = Some t -> n - 2 * MaxSkew <= t -> db_nonce d' !! k = Some t.

#[global] Instance NonceKept_preorder : PreOrderAt NonceKept.
Proof. split; unfold NonceKept; eauto. Qed.

Lemma NonceKept_same n d d' : db_nonce d' = db_nonce d -> NonceKept n d d'.
Proof. intros E k t. by rewrite E. Qed.

Lemma set_state_nonce n id cur new reason s actor d :
  db_nonce (set_state_db n id cur new reason s actor d) = db_nonce d.
Proof. unfold set_state_db. by destruct (bool_decide _). Qed.

#[export] Instance NonceKept_store {cr : Crypto} : StorePromise NonceKept.
Proof.
  assert (forall id s r a, Respects NonceKept (SetState id s r a)) as Hset.
  { intros. apply SetState_respects_of; [apply _|]. intros. apply NonceKept_same, set_state_nonce. }
  intros []; try (unfold run_op, ApplyDecision; respects; by apply Hset); store_goals NonceKept_same.
  - intros k t Ht _. simpl. destruct (insert_nothing_spec _ _ _ _ _ Heqp) as [(_ & Hn & ->)|(_ & _ & ->)]; [|done].
    rewrite lookup_insert_ne; [done|]. intros <-. congruence.
  - intros k t Ht Hw. simpl. apply map_lookup_filter_Some. done.
Qed.

(** * Sequences of calls *)
Record call : Type := Call { c_now : Z; c_faults : list bool; c_op : store_op }.

Definition run_call {cr : Crypto} (d : database) (c : call) : database :=
  w_db (run_op (c_op c) (World d (c_now c) (c_faults c))).2.
Definition run_calls {cr : Crypto} (d : database) (cs : list call) : database := foldl run_call d cs.

Section Traces.
Context {cr : Crypto}.

(** A promise that does not mention the clock extends to any sequence of
    calls, at any times, with any failures. *)
Lemma promise_calls (R : database -> database -> Prop) `{!PreOrderAt (fun _ => R)}
    `{!StorePromise (fun _ => R)} d cs : R d (run_calls d cs).
Proof.
  revert d. induction cs as [|c cs IH]; intros d; [apply (at_refl (R := fun _ => R) 0)|].
  simpl. apply (at_trans (R := fun _ => R) 0) with (run_call d c); [|apply IH].
  unfold run_call. destruct (run_op _ _) as [r w'] eqn:E.
  by apply (store_respects (R := fun _ => R)) in E as [_ ?].
Qed.

Lemma Lifecycle_calls d cs : Lifecycle 0 d (run_calls d cs).
Proof. exact (promise_calls (Lifecycle 0) d cs). Qed.
Lemma TokensOnce_calls d cs : TokensOnce 0 d (run_calls d cs).
Proof. exact (promise_calls (TokensOnce 0) d cs). Qed.
Lemma KeysFinal_calls d cs : KeysFinal 0 d (run_calls d cs).
Proof. exact (promise_calls (KeysFinal 0) d cs). Qed.
Lemma OneCurrentKey_calls d cs : OneCurrentKey d -> OneCurrentKey (run_calls d cs).
Proof. exact (promise_calls (Keeps OneCurrentKey 0) d cs). Qed.

(** What a committed [Register] did. *)
Lemma Register_Ok w token pub v id st w' :
  Register token pub v w = (Ok (id, st), w') ->
  exists t r, db_token (w_db w) !! sha256 token = Some t /\ t_used t = None /\ w_now w < t_expires t /\
    t_worker t = id /\ db_worker (w_db w) !! id = Some r /\ st = w_state r /\
    exists_row (current_key id) (db_worker_key (w_db w)) = false /\
    db_token (w_db w') = <[sha256 token := use_token (w_now w) t]> (db_token (w_db w)) /\
    db_worker (w_db w') = <[id := with_version v r]> (db_worker (w_db w)) /\
    db_worker_key (w_db w') = db_worker_key (w_db w) ++
      [KeyRow (db_key_seq (w_db w)) id pub (w_now w) None None None].
Proof.
  intros H. unfold Register, insert_key, insert_trust_event in H. repeat (inv_ok; open_stmt). btrue.
  worlds. simpl in *. do 2 eexists. split_and!; try done. by destruct (t_used _).
Qed.
End Traces.

(** * Properties *)
Section Properties.
Context {cr : Crypto}.

(** [Register] is all or nothing.  If it reports an error, at whichever
    statement, no table changed.  If it succeeds, the token existed, was
    unused and unexpired and is now used; its worker exists, keeps its
    lifecycle state (which is what is returned) and gains exactly one key row,
    current from now on, and it had no current key before. *)
Theorem register_spec w token pub v r w' :
  Register token pub v w = (r, w') ->
  match r with
  | Err _ => w_db w' = w_db w
  | Ok (id, st) =>
      exists t wr, db_token (w_db w) !! sha256 token = Some t /\ t_used t = None /\
        w_now w < t_expires t /\ t_worker t = id /\
        db_worker (w_db w) !! id = Some wr /\ st = w_state wr /\
        exists_row (current_key id) (db_worker_key (w_db w)) = false /\
        db_token (w_db w') = <[sha256 token := use_token (w_now w) t]> (db_token (w_db w)) /\
        db_worker (w_db w') = <[id := with_version v wr]> (db_worker (w_db w)) /\
        db_worker_key (w_db w') = db_worker_key (w_db w) ++
          [KeyRow (db_key_seq (w_db w)) id pub (w_now w) None None None]
  end.
Proof.
  intros H. destruct r as [[id st]|e].
  - by apply Register_Ok in H.
  - unfold Register in H. by apply tx_Err in H.
Qed.

(** An enrollment token is redeemed at most once: after a successful
    [Register] with a token, and any sequence of further store calls at any
    times and with any database failures, no [Register] with that token
    succeeds. *)
Theorem token_redeemed_once w token pub v id st w' cs n fs pub2 v2 r w'' :
  Register token pub v w = (Ok (id, st), w') ->
  Register token pub2 v2 (World (run_calls (w_db w') cs) n fs) = (r, w'') ->
  is_ok r = false.
Proof.
  intros H1 H2. destruct r as [[id2 st2]|e]; [exfalso|done].
  apply Register_Ok in H1 as (t & wr & _ & _ & _ & _ & _ & _ & _ & Ht & _).
  apply Register_Ok in H2 as (t2 & wr2 & Ht2 & Hu2 & _). simpl in Ht2.
  destruct (TokensOnce_calls (w_db w') cs (sha256 token) (use_token (w_now w) t)) as (t' & Ht' & _ & _ & [?|Hu]).
  - by rewrite Ht, lookup_insert_eq.
  - done.
  - rewrite Ht' in Ht2. simplify_eq. simpl in Hu. congruence.
Qed.

(** [SetState] on every branch: an unknown worker and an edge that is not
    in the transition table are reported as such and change nothing; an
    allowed edge commits exactly the row update (with [approved_at] stamped on
    approval from pending and [retired_at] on retirement), the revocation of
    all keys on retirement, and one trust event naming the old state. *)
Theorem set_state_spec id s reason actor d n :
  SetState id s reason actor (World d n []) =
    match db_worker d !! id with
    | None => (Err EUnknownWorker, World d n [])
    | Some r =>
        match allowed (w_state r) s with
        | None => (Err (EBadTransition (state_name (w_state r)) s), World d n [])
        | Some new => (Ok tt, World (set_state_db n id (w_state r) new reason s actor d) n [])
        end
    end.
Proof.
  unfold SetState. rewrite tx_nofault. unfold bindM at 1. rewrite stmt_nofault.
  destruct (db_worker d !! id) as [r|] eqn:Er; [|done].
  destruct (allowed (w_state r) s) as [new|]; [|done].
  unfold bindM, exec, insert_trust_event, set_state_db, begin_commit, stmt, ret.
  destruct (bool_decide (new = Retired)); simpl; rewrite lookup_alter_eq, Er; done.
Qed.

(** Workers only ever move along the transition table, start as pending
    and are never deleted; in particular retirement is terminal.  This holds
    across any sequence of store calls, whatever fails. *)
Theorem lifecycle_sound d cs id r :
  db_worker d !! id = Some r ->
  exists r', db_worker (run_calls d cs) !! id = Some r' /\ rtc edge (w_state r) (w_state r') /\
    (w_state r = Retired -> w_state r' = Retired).
Proof.
  intros Hr. pose proof (Lifecycle_calls d cs id) as H. rewrite Hr in H.
  destruct (db_worker (run_calls d cs) !! id) as [r'|]; [|done].
  exists r'. split_and!; [done | done |]. intros E. rewrite E in H. by apply retired_terminal.
Qed.

(** In every reachable registry at most one key per worker is current
    (neither revoked nor expiring), so the partial unique index of the schema
    is never violated by a committed call. *)
Theorem one_current_key_reachable cs id :
  (count_rows (current_key id) (db_worker_key (run_calls empty_db cs)) <= 1)%nat.
Proof. apply OneCurrentKey_calls. intros i. unfold count_rows. simpl. lia. Qed.

Lemma RotateKey_Ok w id pub ov u w' :
  RotateKey id pub ov w = (Ok u, w') ->
  exists r, db_worker (w_db w) !! id = Some r /\
    db_worker (w_db w') = alter (with_config (delete "rotate_requested"%string)) id (db_worker (w_db w)) /\
    db_worker_key (w_db w') =
      update_where (fun k => bool_decide (k_worker k = id) && is_none (k_revoked k) && is_none (k_until k))
        (expire_key (w_now w + ov)) (db_worker_key (w_db w))
      ++ [KeyRow (db_key_seq (w_db w)) id pub (w_now w) None None None].
Proof.
  intros H. unfold RotateKey, insert_key, insert_trust_event in H. repeat (inv_ok; open_stmt). worlds. simpl in *.
  rewrite lookup_alter_eq in Heqo. destruct (db_worker (w_db w) !! id) as [r0|] eqn:Er; [|done].
  exists r0. split_and!; done.
Qed.

(** After a rotation at time [n] the new key verifies at every later time
    (until something else revokes it), a key that was valid without expiry
    keeps verifying for exactly the overlap, and no other key row changes. *)
Theorem rotate_overlap w id pub ov u w' :
  RotateKey id pub ov w = (Ok u, w') ->
  (forall m, w_now w <= m -> String.length pub = PublicKeySize ->
     pub ∈ active_keys_of m id (w_db w')) /\
  (forall k, In k (db_worker_key (w_db w)) ->
     exists k', In k' (db_worker_key (w_db w')) /\ k_id k' = k_id k /\ k_public k' = k_public k /\
       (forall m, key_valid m k' =
          key_valid m k && (if current_key id k then m <? w_now w + ov else true))).
Proof.
  intros (r & Hr & Hw & Hk)%RotateKey_Ok. split.
  - intros m Hm Hl. unfold active_keys_of, active_key_rows. rewrite list_elem_of_In, select_In. split.
    + apply in_map_iff. exists (KeyRow (db_key_seq (w_db w)) id pub (w_now w) None None None). split; [done|].
      rewrite <- in_rev. rewrite select_In, Hk. split; [apply in_or_app; right; by left|].
      unfold key_valid. simpl. rewrite bool_decide_true by done. rewrite (proj2 (Z.leb_le _ _)) by done. done.
    + apply Nat.eqb_eq. done.
  - intros k Hin. rewrite Hk.
    set (p := fun k : key_row => bool_decide (k_worker k = id) && is_none (k_revoked k) && is_none (k_until k)).
    exists (if p k then expire_key (w_now w + ov) k else k). split.
    { apply in_or_app. left. apply update_where_In. eauto. }
    assert (current_key id k = p k) as -> by (unfold current_key, p; destruct (bool_decide _), (k_until k), (k_revoked k); done).
    destruct (p k) eqn:Ep; unfold p in Ep; btrue; (split_and!; [done | done |]); intros m; unfold key_valid; simpl.
    + destruct (k_until k); [done|]. by rewrite andb_true_r.
    + by rewrite andb_true_r.
Qed.

(** Retirement revokes: after a committed transition to retired no key of
    that worker is valid at any time, so [ActiveKeys] answers unknown worker
    and no request of the worker can authenticate. *)
Theorem retired_no_keys w id reason actor u w' m fs r w'' :
  SetState id "retired" reason actor w = (Ok u, w') ->
  ActiveKeys id (World (w_db w') m fs) = (r, w'') ->
  active_keys_of m id (w_db w') = [] /\ is_ok r = false.
Proof.
  intros H1 H2. assert (active_keys_of m id (w_db w') = []) as Hnil.
  - apply SetState_Ok in H1 as (wr & new & _ & [_ Hn]%allowed_edge & _ & Hd).
    assert (new = Retired) as -> by (by destruct new).
    unfold active_keys_of, active_key_rows. rewrite Hd, set_state_keys, bool_decide_true by done.
    assert (forall t, select (fun k => bool_decide (k_worker k = id) && key_valid m k)
      (update_where (fun k => bool_decide (k_worker k = id) && is_none (k_revoked k))
         (revoke_key (w_now w) "worker retired") t) = []) as ->; [|done].
    induction t as [|k t IH]; [done|]. simpl. unfold select in IH. unfold update_where in IH.
    destruct (bool_decide (k_worker k = id)) eqn:E1; simpl.
    + destruct (k_revoked k) eqn:E2; simpl; rewrite E1; unfold key_valid; simpl; rewrite ?E2; done.
    + by rewrite E1.
  - split; [done|]. unfold ActiveKeys in H2. destruct r as [a|e]; [exfalso|done].
    apply stmt_Ok in H2 as [H2 _]. simpl in H2. rewrite Hnil in H2.
    by destruct (db_worker (w_db w') !! id).
Qed.
End Properties.

(** * Findings *)
(** A worker suspended while pending and then activated is active without an
    approval time: its tenure component stays zero for ever. *)
Example activated_without_approval :
  let id := "w1"%string in
  let d0 := set_worker (<[id := new_worker "op" "w" 0]>) empty_db in
  let d1 := w_db (SetState id "suspended" "" "admin" (World d0 10 [])).2 in
  let d2 := w_db (SetState id "active" "" "admin" (World d1 20 [])).2 in
  (fun r => (w_state r, w_approved_at r)) <$> db_worker d2 !! id = Some (Active, None).
Proof. vm_compute. reflexivity. Qed.

(** * Witnesses *)
Section Witnesses.
#[local] Existing Instance Toy.toy_crypto.

(** A worker with an open token, registered at time 10 with alice's key. *)
Definition toy_key : string := Toy.key32 "alice".
Definition toy_enrolled : database := w_db (CreateWorker "op" "probe" Hour (Some "t"%string) "w1" (World empty_db 0 [])).2.
Definition toy_token : string := hex_encode "t".
Definition toy_open : dbworld := World toy_enrolled 10 [].
Definition toy_registered : dbworld := (Register toy_token toy_key "1.0" toy_open).2.
Definition toy_rotated : dbworld := (RotateKey "w1" (Toy.key32 "alice2") Hour toy_registered).2.
Definition toy_retired : dbworld := (SetState "w1" "retired" "" "admin" toy_registered).2.

Lemma toy_register : Register toy_token toy_key "1.0" toy_open = (Ok ("w1"%string, Pending), toy_registered).
Proof. vm_compute. reflexivity. Qed.

Lemma register_spec_witness :
  exists t, db_token toy_enrolled !! sha256 toy_token = Some t /\ t_used t = None /\
    db_token (w_db toy_registered) = <[sha256 toy_token := use_token 10 t]> (db_token toy_enrolled).
Proof.
  destruct (register_spec toy_open toy_token toy_key "1.0" (Ok ("w1"%string, Pending)) toy_registered toy_register)
    as (t & wr & H1 & H2 & _ & _ & _ & _ & _ & H3 & _).
  exists t. split; [exact H1|]. split; [exact H2 | exact H3].
Defined.

Lemma token_redeemed_once_witness :
  is_ok (Register toy_token (Toy.key32 "mallory") "1.0" (World (w_db toy_retired) 20 [])).1 = false.
Proof.
  apply (token_redeemed_once toy_open toy_token toy_key "1.0" "w1" Pending toy_registered
    [Call 10 [] (OpSetState "w1" "retired" "" "admin")] 20 [] (Toy.key32 "mallory") "1.0" _
    (Register toy_token (Toy.key32 "mallory") "1.0" (World (w_db toy_retired) 20 [])).2).
  - exact toy_register.
  - vm_compute. reflexivity.
Defined.

Lemma lifecycle_sound_witness :
  exists r, db_worker (w_db toy_registered) !! "w1"%string = Some r /\
  exists r', db_worker (run_calls (w_db toy_registered) [Call 10 [] (OpSetState "w1" "retired" "" "admin")]) !! "w1"%string = Some r' /\
    rtc edge (w_state r) (w_state r').
Proof.
  assert (exists r, db_worker (w_db toy_registered) !! "w1"%string = Some r) as [r Hr]
    by (vm_compute; eexists; reflexivity).
  exists r. split; [exact Hr|].
  destruct (lifecycle_sound (w_db toy_registered) [Call 10 [] (OpSetState "w1" "retired" "" "admin")] "w1" r Hr)
    as (r' & H1 & H2 & _).
  exists r'. split; [exact H1 | exact H2].
Defined.

Lemma rotate_overlap_witness :
  RotateKey "w1" (Toy.key32 "alice2") Hour toy_registered = (Ok tt, toy_rotated) /\
  Toy.key32 "alice2" ∈ active_keys_of 11 "w1" (w_db toy_rotated).
Proof.
  assert (RotateKey "w1" (Toy.key32 "alice2") Hour toy_registered = (Ok tt, toy_rotated)) as E
    by (vm_compute; reflexivity).
  split; [exact E|].
  apply (proj1 (rotate_overlap toy_registered "w1" (Toy.key32 "alice2") Hour tt toy_rotated E)).
  - vm_compute. discriminate.
  - apply Toy.pad_to_length.
Defined.

Lemma retired_no_keys_witness : active_keys_of 11 "w1" (w_db toy_retired) = [].
Proof.
  apply (retired_no_keys toy_registered "w1" "" "admin" tt toy_retired 11 [] (Err EUnknownWorker)
    (World (w_db toy_retired) 11 [])); vm_compute; reflexivity.
Defined.
End Witnesses.
