(* ===== verification/Leasing.v ===== *)
(** The scheduling core: [internal/scheduler] (the reconcile pass that drains
    and generates assignments) and the database side of the coordinator's
    lease and release endpoints ([internal/coordinator/measurement.go]).

    The claim statement's [for update skip locked] takes the set of rows other
    transactions hold locked as an argument ([locked]).  Redundancy groups are
    [md5('vapn-group-' || target_id)]; the digest is a parameter. *)
From stdpp Require Import base gmap strings list relations pretty.
From Stdlib Require Import ZArith Lia.
From S2P Require Import Prelude Netip Schema.
Open Scope Z_scope.

(** * Row predicates and updates *)
Definition live (l : lease_row) : bool := is_none (l_released l).
Definition live_on (id : Z) (l : lease_row) : bool := (l_assignment l =? id) && live l.
Definition live_of (worker : string) (l : lease_row) : bool := bool_decide (l_worker l = worker) && live l.

Definition with_expiry (t : Z) (l : lease_row) : lease_row :=
  LeaseRow (l_assignment l) (l_worker l) (l_leased_at l) t (l_released l) (l_reason l).
Definition with_release (t : Z) (reason : string) (l : lease_row) : lease_row :=
  LeaseRow (l_assignment l) (l_worker l) (l_leased_at l) (l_expires l) (Some t) (Some reason).
Definition with_astatus (st : assignment_status) (a : assignment_row) : assignment_row :=
  AssignmentRow (a_id a) (a_target a) (a_provider a) (a_probe a) (a_interval a) (a_group a) st (a_closed_at a).
Definition close_assignment (now : Z) (a : assignment_row) : assignment_row :=
  AssignmentRow (a_id a) (a_target a) (a_provider a) (a_probe a) (a_interval a) (a_group a) SClosed (Some now).

Definition has_status (st : assignment_status) (a : assignment_row) : bool := bool_decide (a_status a = st).
Definition working (a : assignment_row) : bool := has_status SOpen a || has_status SLeased a.

(** * The coordinator's lease endpoint *)
Definition renew_leases (workerID : string) (ttl : Z) : DB unit :=
  exec (fun now => set_lease (update_where (live_of workerID) (with_expiry (now + ttl)))).

(** [with released as (update lease ... returning assignment_id) update
    assignment set status = 'open' ... and status = 'leased']: both parts see
    the tables as they were. *)
Definition release_where (p : lease_row -> bool) (reason : string) (now : Z) (d : database) : database :=
  let ids := map l_assignment (select (fun l => live l && p l) (db_lease d)) in
  set_assignment (update_where (fun a => bool_decide (a_id a ∈ ids) && has_status SLeased a) (with_astatus SOpen))
    (set_lease (update_where (fun l => live l && p l) (with_release now reason)) d).

Definition reap_expired : DB unit :=
  exec (fun now => release_where (fun l => l_expires l <? now) "expired" now).

(** Groups of which the worker already holds a replica. *)
Definition my_groups (workerID : string) (d : database) : list string :=
  map a_group (select (fun a => exists_row (fun l => live_of workerID l && (l_assignment l =? a_id a)) (db_lease d))
                 (db_assignment d)).

(** The claimed address belongs to the worker's own network. *)
Definition own_network (source_asn : option Z) (provider : string) (d : database) : bool :=
  match source_asn with
  | None => false
  | Some asn => match db_asn d !! asn with
                | Some ra => bool_decide (an_provider ra = provider)
                | None => false
                end
  end.

Definition candidates (workerID : string) (d : database) : list assignment_row :=
  match db_worker d !! workerID with
  | None => []
  | Some me =>
      distinct_on a_group (select (fun a => has_status SOpen a
        && negb (bool_decide (a_group a ∈ my_groups workerID d))
        && negb (own_network (w_source_asn me) (a_provider a) d)) (db_assignment d))
  end.

Definition claimed (workerID : string) (want : nat) (locked : Z -> bool) (d : database) : list assignment_row :=
  take want (select (fun a => bool_decide (a_id a ∈ map a_id (candidates workerID d))
                              && has_status SOpen a && negb (locked (a_id a))) (db_assignment d)).

(** The [marked] update and the insert of the claim statement. *)
Definition take_leases (workerID : string) (ids : list Z) (now ttl : Z) (d : database) : database :=
  set_assignment (update_where (fun a => bool_decide (a_id a ∈ ids)) (with_astatus SLeased))
    (set_lease (fun t => t ++ map (fun id => LeaseRow id workerID now (now + ttl) None None) ids) d).

Definition claim (workerID : string) (want : nat) (ttl : Z) (locked : Z -> bool) : DB unit :=
  stmt (fun now d =>
    let ids := map a_id (claimed workerID want locked d) in
    if exists_row (fun l => live_of workerID l && bool_decide (l_assignment l ∈ ids)) (db_lease d)
    then Err (EConstraint "one_live_lease")
    else Ok (tt, take_leases workerID ids now ttl d)).

Definition held_count (workerID : string) (d : database) : nat := count_rows (live_of workerID) (db_lease d).

Record leasedAssignment : Type := LeasedAssignment {
  la_ID : Z;
  la_Target : addr;
  la_ProbeType : string;
  la_IntervalSeconds : Z
}.

Definition my_assignments (workerID : string) (d : database) : list leasedAssignment :=
  flat_map (fun l => flat_map (fun a => omap (fun t =>
      if (l_assignment l =? a_id a) && has_status SLeased a && (tg_id t =? a_target a)
      then Some (LeasedAssignment (a_id a) (tg_address t) (a_probe a) (a_interval a)) else None)
    (db_target d)) (db_assignment d)) (select (live_of workerID) (db_lease d)).

(** The transaction of [leaseAssignments], after the request checks. *)
Definition lease_tx (workerID : string) (capacity : Z) (ttl : Z) (locked : Z -> bool)
    : DB (list leasedAssignment) :=
  tx (do! renew_leases workerID ttl ;;
      do! reap_expired ;;
      let! held := query (fun _ d => held_count workerID d) in
      let want := capacity - Z.of_nat held in
      do! (if 0 <? want then claim workerID (Z.to_nat want) ttl locked else ret tt) ;;
      query (fun _ d => my_assignments workerID d)).

(** The statement of [releaseAssignments]. *)
Definition release_stmt (workerID : string) (ids : list Z) : DB unit :=
  exec (fun now => release_where (fun l => bool_decide (l_worker l = workerID) && bool_decide (l_assignment l ∈ ids))
                                 "released by worker" now).

(** * The scheduler *)
Record SchedConfig : Type := MkSchedConfig {
  Redundancy : Z;
  FastInterval : Z;
  MidInterval : Z;
  SlowInterval : Z;
  MinInterval : Z
}.

Definition withDefaults (c : SchedConfig) : SchedConfig :=
  MkSchedConfig
    (if Redundancy c <=? 0 then 3 else Redundancy c)
    (if FastInterval c <=? 0 then 30 else FastInterval c)
    (if MidInterval c <=? 0 then 60 else MidInterval c)
    (if SlowInterval c <=? 0 then 120 else SlowInterval c)
    (if MinInterval c <=? 0 then 15 else MinInterval c).

Definition snapshot_published (id : Z) (d : database) : bool :=
  exists_row (fun s => (sn_id s =? id) && bool_decide (sn_status s = Published)) (db_snapshot d).

(** The target's provider row, when the target may be probed: published
    snapshot, active, provider enabled and listed. *)
Definition eligible_provider (t : target_row) (d : database) : option provider_row :=
  if tg_active t && snapshot_published (tg_snapshot t) d then
    match db_provider d !! tg_provider t with
    | Some p => if p_monitoring_enabled p && is_none (p_delisted_at p) then Some p else None
    | None => None
    end
  else None.

Definition target_eligible (id : Z) (d : database) : bool :=
  exists_row (fun t => (tg_id t =? id) && is_some (eligible_provider t d)) (db_target d).

Definition drain_mark : DB unit :=
  exec (fun _ d => set_assignment (update_where (fun a => working a && negb (target_eligible (a_target a) d))
                                     (with_astatus SDraining)) d).

Definition draining_ids (d : database) : list Z := map a_id (select (has_status SDraining) (db_assignment d)).

Definition drain_release : DB unit :=
  exec (fun now d => set_lease (update_where (fun l => live l && bool_decide (l_assignment l ∈ draining_ids d))
                                 (with_release now "drained")) d).

Definition drain_close : DB unit :=
  exec (fun now => set_assignment (update_where (has_status SDraining) (close_assignment now))).

Definition interval_for (cfg : SchedConfig) (priority : Z) : Z :=
  Z.max (MinInterval cfg)
    (if priority <=? 10 then FastInterval cfg
     else if priority <=? 50 then MidInterval cfg else SlowInterval cfg).

Section Scheduler.
Variable md5_uuid : string -> string.

Definition vapn_group (target : Z) : string := md5_uuid ("vapn-group-" +:+ pretty target).

Definition replicas (target : Z) (d : database) : nat :=
  count_rows (fun a => (a_target a =? target) && working a) (db_assignment d).

(** Slots [1 .. redundancy] greater than the number of existing replicas. *)
Definition missing_slots (cfg : SchedConfig) (target : Z) (d : database) : nat :=
  (Z.to_nat (Redundancy cfg) - replicas target d)%nat.

Definition new_rows (cfg : SchedConfig) (d : database) : list (Z -> assignment_row) :=
  flat_map (fun t =>
    match eligible_provider t d with
    | Some p => replicate (missing_slots cfg (tg_id t) d) (fun id =>
        AssignmentRow id (tg_id t) (tg_provider t) "icmp" (interval_for cfg (p_priority p))
          (vapn_group (tg_id t)) SOpen None)
    | None => []
    end) (db_target d).

(** Rows take their ids from the identity sequence. *)
Fixpoint number_rows (id : Z) (rows : list (Z -> assignment_row)) : list assignment_row :=
  match rows with [] => [] | r :: rows' => r id :: number_rows (id + 1) rows' end.

Definition generate (cfg : SchedConfig) : DB unit :=
  exec (fun _ d =>
    let rows := new_rows cfg d in
    set_assignment_seq (fun s => s + Z.of_nat (length rows))
      (set_assignment (fun t => t ++ number_rows (db_assignment_seq d) rows) d)).

(** [Reconcile]: four statements, each its own transaction; the first failure
    ends the pass. *)
Definition Reconcile (c : SchedConfig) : DB unit :=
  let cfg := withDefaults c in
  do! drain_mark ;;
  do! drain_release ;;
  do! drain_close ;;
  generate cfg.
End Scheduler.

(** * The scheduling state machine

    The processes that touch assignments and leases, interleaved at
    transaction granularity: lease and release requests of any worker at any
    time, the four statements of a reconcile pass in order (a failed one ends
    the pass), and any other activity that leaves these two tables alone. *)
Inductive phase : Type := Idle | Marked | Drained | Closing.
#[global] Instance phase_eq_dec : EqDecision phase.
Proof. solve_decision. Defined.

Inductive sstep (md5 : string -> string) : phase * database -> phase * database -> Prop :=
| s_lease ph w r w' workerID capacity ttl locked :
    lease_tx workerID capacity ttl locked w = (r, w') -> sstep md5 (ph, w_db w) (ph, w_db w')
| s_release ph w r w' workerID ids :
    release_stmt workerID ids w = (r, w') -> sstep md5 (ph, w_db w) (ph, w_db w')
| s_mark w r w' :
    drain_mark w = (r, w') -> sstep md5 (Idle, w_db w) (if is_ok r then Marked else Idle, w_db w')
| s_drain w r w' :
    drain_release w = (r, w') -> sstep md5 (Marked, w_db w) (if is_ok r then Drained else Idle, w_db w')
| s_close w r w' :
    drain_close w = (r, w') -> sstep md5 (Drained, w_db w) (if is_ok r then Closing else Idle, w_db w')
| s_generate cfg w r w' :
    generate md5 cfg w = (r, w') -> sstep md5 (Closing, w_db w) (Idle, w_db w')
| s_other ph d d' :
    db_assignment d' = db_assignment d -> db_assignment_seq d' = db_assignment_seq d ->
    db_lease d' = db_lease d -> sstep md5 (ph, d) (ph, d').

(** How many live leases an assignment may have, by status. *)
Definition lease_ok (ph : phase) (d : database) (a : assignment_row) : Prop :=
  let n := count_rows (live_on (a_id a)) (db_lease d) in
  match a_status a with
  | SOpen | SClosed => n = 0%nat
  | SLeased => n = 1%nat
  | SDraining => (n <= if decide (ph = Drained) then 0 else 1)%nat
  end.

Record SInv (ph : phase) (d : database) : Prop := {
  inv_ids : NoDup (map a_id (db_assignment d));
  inv_seq : forall a, In a (db_assignment d) -> a_id a < db_assignment_seq d;
  inv_fk : forall l, In l (db_lease d) -> l_assignment l < db_assignment_seq d;
  inv_live : forall a, In a (db_assignment d) -> lease_ok ph d a
}.

(** * Lemmas *)
Lemma update_map_id {A B} (key : A -> B) p f (t : list A) :
  (forall x, key (f x) = key x) -> map key (update_where p f t) = map key t.
Proof.
  intros Hf. unfold update_where. rewrite map_map. apply map_ext. intros x. destruct (p x); auto.
Qed.

Lemma count_split {A} (p q : A -> bool) t :
  count_rows q t = (count_rows (fun x => q x && p x) t + count_rows (fun x => q x && negb (p x)) t)%nat.
Proof.
  induction t as [|x t IH]; [done|]. rewrite !count_cons, IH. destruct (q x), (p x); simpl; lia.
Qed.

Lemma count_pos {A} (p : A -> bool) t x : In x t -> p x = true -> (1 <= count_rows p t)%nat.
Proof.
  intros Hin Hp. destruct (count_rows p t) eqn:E; [|lia].
  rewrite (proj1 (count_zero p t) E x Hin) in Hp. done.
Qed.

Lemma count_release id p n reason (t : list lease_row) :
  count_rows (live_on id) (update_where (fun l => live l && p l) (with_release n reason) t) =
  count_rows (fun l => live_on id l && negb (p l)) t.
Proof.
  rewrite count_update. apply count_ext. intros l _. unfold live_on, live.
  destruct (l_released l) eqn:E, (p l); simpl; rewrite ?E; simpl; destruct (_ =? _); done.
Qed.

(** Releasing leases and reopening their assignments keeps the invariant. *)
Lemma SInv_release_where ph p reason n d : SInv ph d -> SInv ph (release_where p reason n d).
Proof.
  intros [Hids Hseq Hfk Hlive]. unfold release_where. constructor; simpl.
  - by rewrite update_map_id.
  - intros a (a0 & Hin & ->)%update_where_In. destruct (_ && _); simpl; by apply Hseq.
  - intros l (l0 & Hin & ->)%update_where_In. destruct (_ && _); simpl; by apply Hfk.
  - intros a (a0 & Hin & ->)%update_where_In. specialize (Hlive a0 Hin). unfold lease_ok in *.
    set (ids := map l_assignment _). simpl.
    pose proof (count_split p (live_on (a_id a0)) (db_lease d)) as Hs.
    destruct (bool_decide (a_id a0 ∈ ids)) eqn:Ein; btrue; simpl.
    + apply list_elem_of_In, in_map_iff in Ein as (l & El & [Hl Hp]%select_In). btrue.
      assert (1 <= count_rows (fun x => live_on (a_id a0) x && p x) (db_lease d))%nat.
      { apply (count_pos _ _ l Hl). unfold live_on. rewrite El, Z.eqb_refl. simpl. btrue. by rewrite H, H0. }
      unfold has_status. case_bool_decide as Est; simpl; rewrite count_release; [rewrite Est in Hlive; lia|].
      destruct (a_status a0); try done; lia.
    + rewrite count_release. assert (count_rows (fun x => live_on (a_id a0) x && p x) (db_lease d) = 0%nat) as E0.
      { apply count_zero. intros l Hl. destruct (live_on (a_id a0) l && p l) eqn:E; [exfalso|done]. btrue.
        apply Ein, list_elem_of_In, in_map_iff. exists l. unfold live_on in H. btrue. split; [done|].
        apply select_In. split; [done|]. by rewrite H0, H1. }
      destruct (a_status a0); try done; lia.
Qed.

Lemma SInv_same_counts ph d d' :
  db_assignment d' = db_assignment d -> db_assignment_seq d' = db_assignment_seq d ->
  map l_assignment (db_lease d') = map l_assignment (db_lease d) ->
  (forall id, count_rows (live_on id) (db_lease d') = count_rows (live_on id) (db_lease d)) ->
  SInv ph d -> SInv ph d'.
Proof.
  intros Ea Es El Ec [Hids Hseq Hfk Hlive]. constructor; rewrite ?Ea, ?Es; try done.
  - intros l Hl. apply (in_map l_assignment) in Hl. rewrite El in Hl.
    apply in_map_iff in Hl as (l0 & <- & Hl0). by apply Hfk.
  - intros a Ha. specialize (Hlive a Ha). unfold lease_ok in *. by rewrite Ec.
Qed.

Lemma SInv_renew ph workerID t d :
  SInv ph d -> SInv ph (set_lease (update_where (live_of workerID) (with_expiry t)) d).
Proof.
  apply SInv_same_counts; try done; simpl.
  - by rewrite update_map_id.
  - intros id. rewrite count_update. apply count_ext. intros l _. by destruct (live_of workerID l).
Qed.

Lemma count_new_leases id worker now ttl ids : NoDup ids ->
  count_rows (live_on id) (map (fun i => LeaseRow i worker now ttl None None) ids)
  = if bool_decide (id ∈ ids) then 1%nat else 0%nat.
Proof.
  induction 1 as [|i ids Hi Hn IH]; [done|]. simpl. rewrite count_cons, IH. unfold live_on. simpl.
  destruct (i =? id) eqn:E; btrue; simpl.
  - subst. rewrite (bool_decide_false (id ∈ ids)), (bool_decide_true (id ∈ id :: ids)); [done | by left | done].
  - assert (bool_decide (id ∈ ids) = bool_decide (id ∈ i :: ids)) as ->; [|done].
    apply bool_decide_ext. set_solver.
Qed.

Lemma NoDup_select {A B} (key : A -> B) p t : NoDup (map key t) -> NoDup (map key (select p t)).
Proof.
  induction t as [|x t IH]; simpl; [done|]. intros [Hx Hl]%NoDup_cons. destruct (p x); simpl; [|by apply IH].
  apply NoDup_cons. split; [|by apply IH].
  intros [y [Hy [Hin _]%select_In]]%list_elem_of_In%in_map_iff. apply Hx, list_elem_of_In, in_map_iff. eauto.
Qed.

Lemma take_In {A} n (t : list A) x : In x (take n t) -> In x t.
Proof. rewrite <- !list_elem_of_In. intros H. by eapply elem_of_take in H as (i & ? & _); apply list_elem_of_lookup; eauto. Qed.

Lemma claimed_In workerID want locked d a :
  In a (claimed workerID want locked d) ->
  In a (db_assignment d) /\ a_status a = SOpen /\ locked (a_id a) = false /\
  a_id a ∈ map a_id (candidates workerID d).
Proof.
  unfold claimed. intros [Hin Hp]%take_In%select_In. btrue. unfold has_status in *. btrue. done.
Qed.

Lemma NoDup_take_map {A B} (key : A -> B) n t : NoDup (map key t) -> NoDup (map key (take n t)).
Proof. rewrite <- (take_drop n t) at 1. rewrite map_app. intros H. by apply NoDup_app in H as [? _]. Qed.

Lemma claimed_NoDup ph workerID want locked d : SInv ph d -> NoDup (map a_id (claimed workerID want locked d)).
Proof. intros [Hids _ _ _]. unfold claimed. by apply NoDup_take_map, NoDup_select. Qed.

Lemma NoDup_key_eq {A B} (key : A -> B) t x y :
  NoDup (map key t) -> In x t -> In y t -> key x = key y -> x = y.
Proof.
  induction t as [|z t IH]; [done|]. intros [Hz Hl]%NoDup_cons Hx Hy E.
  assert (forall u, In u t -> key u <> key z) as Hne.
  { intros u Hu Eu. apply Hz, list_elem_of_In, in_map_iff. eauto. }
  destruct Hx as [->|Hx], Hy as [->|Hy]; [done | | | by apply IH].
  - by destruct (Hne y Hy).
  - by destruct (Hne x Hx).
Qed.

(** A row whose id was claimed is the claimed, open row. *)
Lemma claimed_row_open ph workerID want locked d a : SInv ph d ->
  In a (db_assignment d) -> a_id a ∈ map a_id (claimed workerID want locked d) -> a_status a = SOpen.
Proof.
  intros [Hids _ _ _] Hin (b & Hb & [Hb1 Hb2]%claimed_In)%list_elem_of_In%in_map_iff.
  assert (b = a) as -> by (by eapply NoDup_key_eq). by destruct Hb2.
Qed.

Lemma SInv_claim ph workerID want ttl locked n d :
  SInv ph d -> SInv ph (take_leases workerID (map a_id (claimed workerID want locked d)) n ttl d).
Proof.
  intros HI. pose proof (claimed_NoDup ph workerID want locked d HI) as Hnd.
  pose proof (fun a => claimed_row_open ph workerID want locked d a HI) as Hopen.
  unfold take_leases. set (ids := map a_id (claimed workerID want locked d)) in *.
  destruct HI as [Hids Hseq Hfk Hlive].
  constructor; simpl.
  - by rewrite (update_map_id a_id).
  - intros a (a0 & Hin & ->)%update_where_In. destruct (bool_decide _); simpl; by apply Hseq.
  - intros l [Hl|Hl]%in_app_iff; [by apply Hfk|]. apply in_map_iff in Hl as (i & <- & Hi). simpl.
    unfold ids in Hi. apply in_map_iff in Hi as (a & <- & [Ha _]%claimed_In). by apply Hseq.
  - intros a (a0 & Hin & ->)%update_where_In. specialize (Hlive a0 Hin). unfold lease_ok in *. simpl.
    destruct (bool_decide (a_id a0 ∈ ids)) eqn:Ei; simpl; rewrite count_app, count_new_leases, Ei by done.
    + btrue. rewrite (Hopen a0 Hin Ei) in Hlive. lia.
    + rewrite Nat.add_0_r. done.
Qed.

Lemma lease_tx_SInv ph workerID capacity ttl locked :
  Respects (Keeps (SInv ph)) (lease_tx workerID capacity ttl locked).
Proof.
  unfold lease_tx, renew_leases, reap_expired, claim. respects; intros.
  - intros HI. by apply SInv_renew.
  - intros HI. by apply SInv_release_where.
  - case_match; simplify_eq. intros HI. by apply SInv_claim.
Qed.

Lemma release_SInv ph workerID ids : Respects (Keeps (SInv ph)) (release_stmt workerID ids).
Proof. unfold release_stmt. respects. intros HI. by apply SInv_release_where. Qed.

Lemma SInv_mark d :
  SInv Idle d ->
  SInv Marked (set_assignment (update_where (fun a => working a && negb (target_eligible (a_target a) d))
                                 (with_astatus SDraining)) d).
Proof.
  intros [Hids Hseq Hfk Hlive]. constructor; simpl; [by rewrite update_map_id | | done |].
  - intros a (a0 & Hin & ->)%update_where_In. destruct (_ && _); simpl; by apply Hseq.
  - intros a (a0 & Hin & ->)%update_where_In. specialize (Hlive a0 Hin). unfold lease_ok in *. simpl.
    destruct (working a0 && _) eqn:E; simpl.
    + btrue. unfold working, has_status in H. destruct (a_status a0); try done; lia.
    + destruct (a_status a0); done.
Qed.

Lemma SInv_drain n d :
  SInv Marked d ->
  SInv Drained (set_lease (update_where (fun l => live l && bool_decide (l_assignment l ∈ draining_ids d))
                             (with_release n "drained")) d).
Proof.
  intros [Hids Hseq Hfk Hlive]. constructor; simpl; [done | done | |].
  - intros l (l0 & Hin & ->)%update_where_In. destruct (_ && _); simpl; by apply Hfk.
  - intros a Hin. specialize (Hlive a Hin). unfold lease_ok in *. simpl.
    rewrite (count_release (a_id a) (fun l => bool_decide (l_assignment l ∈ draining_ids d))).
    destruct (decide (a_status a = SDraining)) as [Ed|Ed].
    + rewrite Ed in *. assert (count_rows (fun l => live_on (a_id a) l
        && negb (bool_decide (l_assignment l ∈ draining_ids d))) (db_lease d) = 0%nat) as ->; [|lia].
      apply count_zero. intros l _. unfold live_on. destruct (l_assignment l =? a_id a) eqn:E; [|done]. btrue.
      rewrite bool_decide_true; [by rewrite andb_false_r|]. rewrite E. apply list_elem_of_In, in_map_iff.
      exists a. split; [done|]. apply select_In. split; [done|]. unfold has_status. by rewrite bool_decide_true.
    + assert (a_id a ∉ draining_ids d) as Hn.
      { intros (b & Hb & [Hb1 Hb2]%select_In)%list_elem_of_In%in_map_iff. unfold has_status in Hb2. btrue.
        assert (b = a) as -> by (by eapply NoDup_key_eq). done. }
      assert (count_rows (fun l => live_on (a_id a) l && negb (bool_decide (l_assignment l ∈ draining_ids d)))
        (db_lease d) = count_rows (live_on (a_id a)) (db_lease d)) as ->.
      { apply count_ext. intros l _. unfold live_on. destruct (l_assignment l =? a_id a) eqn:E; [|done]. btrue.
        rewrite bool_decide_false by congruence. by rewrite andb_true_r. }
      destruct (a_status a); done.
Qed.

Lemma SInv_close n d :
  SInv Drained d -> SInv Closing (set_assignment (update_where (has_status SDraining) (close_assignment n)) d).
Proof.
  intros [Hids Hseq Hfk Hlive]. constructor; simpl; [by rewrite update_map_id | | done |].
  - intros a (a0 & Hin & ->)%update_where_In. destruct (has_status _ _); simpl; by apply Hseq.
  - intros a (a0 & Hin & ->)%update_where_In. specialize (Hlive a0 Hin). unfold lease_ok, has_status in *. simpl.
    case_bool_decide as E; simpl.
    + rewrite E in Hlive. rewrite decide_True in Hlive by done. lia.
    + destruct (a_status a0); done.
Qed.

Lemma number_rows_In id rows a :
  In a (number_rows id rows) ->
  exists r i, In r rows /\ a = r i /\ id <= i < id + Z.of_nat (length rows).
Proof.
  revert id. induction rows as [|r rows IH]; intros id; [done|]. simpl. intros [<-|Hin].
  - exists r, id. split_and!; try lia; auto.
  - apply IH in Hin as (r' & i & ? & -> & ?). exists r', i. split_and!; try lia; auto.
Qed.

Lemma number_rows_NoDup id rows : (forall r i, In r rows -> a_id (r i) = i) ->
  NoDup (map a_id (number_rows id rows)).
Proof.
  revert id. induction rows as [|r rows IH]; intros id Hr; simpl; [constructor|].
  apply NoDup_cons. split; [|apply IH; intros; apply Hr; by right].
  intros (a & Ha & (r' & i & Hin & -> & Hi)%number_rows_In)%list_elem_of_In%in_map_iff.
  rewrite (Hr r' i (or_intror Hin)), (Hr r id (or_introl eq_refl)) in Ha. lia.
Qed.

Lemma new_rows_In md5 cfg d r : In r (new_rows md5 cfg d) ->
  exists t p, In t (db_target d) /\ eligible_provider t d = Some p /\
    forall i, r i = AssignmentRow i (tg_id t) (tg_provider t) "icmp" (interval_for cfg (p_priority p))
                      (vapn_group md5 (tg_id t)) SOpen None.
Proof.
  unfold new_rows. intros (t & Ht & Hr)%in_flat_map. destruct (eligible_provider t d) as [p|] eqn:E; [|done].
  apply list_elem_of_In, elem_of_replicate in Hr as [-> _]. eauto.
Qed.

Lemma SInv_generate md5 cfg d : SInv Closing d ->
  SInv Idle (let rows := new_rows md5 cfg d in
    set_assignment_seq (fun s => s + Z.of_nat (length rows))
      (set_assignment (fun t => t ++ number_rows (db_assignment_seq d) rows) d)).
Proof.
  intros [Hids Hseq Hfk Hlive]. cbv zeta. set (rows := new_rows md5 cfg d).
  assert (forall r i, In r rows -> a_id (r i) = i /\ a_status (r i) = SOpen) as Hrow.
  { intros r i (t & p & _ & _ & E)%new_rows_In. by rewrite E. }
  assert (forall a, In a (number_rows (db_assignment_seq d) rows) ->
     a_status a = SOpen /\ db_assignment_seq d <= a_id a < db_assignment_seq d + Z.of_nat (length rows)) as Hnew.
  { intros a (r & i & Hr & -> & Hi)%number_rows_In. destruct (Hrow r i Hr) as [-> ->]. done. }
  constructor; simpl.
  - rewrite map_app. apply NoDup_app. split_and!; [done | |].
    + intros i (a & <- & Ha)%list_elem_of_In%in_map_iff (b & Hb & [_ Hb2]%Hnew)%list_elem_of_In%in_map_iff.
      specialize (Hseq a Ha). lia.
    + apply number_rows_NoDup. intros r i Hr. by destruct (Hrow r i Hr).
  - intros a [Ha|[_ Ha]%Hnew]%in_app_iff; [specialize (Hseq a Ha); lia | lia].
  - intros l Hl. specialize (Hfk l Hl). lia.
  - intros a [Ha|Ha]%in_app_iff.
    + specialize (Hlive a Ha). unfold lease_ok in *. destruct (a_status a); done.
    + apply Hnew in Ha as [Hst Hid]. unfold lease_ok. rewrite Hst. apply count_zero. intros l Hl.
      unfold live_on. specialize (Hfk l Hl). rewrite (proj2 (Z.eqb_neq _ _)) by lia. done.
Qed.

Lemma SInv_weaken ph d : SInv ph d -> SInv Idle d.
Proof.
  intros [H1 H2 H3 H4]. constructor; try done. intros a Ha. specialize (H4 a Ha). unfold lease_ok in *.
  destruct (a_status a); try done. case_decide; simpl in *; lia.
Qed.

Lemma stmt_case {D A} (f : Z -> D -> result (A * D)) w r w' : stmt f w = (r, w') ->
  match r with Ok a => f (w_now w) (w_db w) = Ok (a, w_db w') | Err _ => w_db w' = w_db w end.
Proof. intros E. destruct r; [by apply stmt_Ok in E as [? _] | by apply stmt_Err in E as [? _]]. Qed.

Lemma SInv_step md5 x y : sstep md5 x y -> SInv x.1 x.2 -> SInv y.1 y.2.
Proof.
  intros Hs HI. destruct Hs as [ph w r w' wid cap ttl lk E|ph w r w' wid ids E|w r w' E|w r w' E|w r w' E|cfg w r w' E|ph d d' E1 E2 E3];
    simpl in *.
  - by apply (lease_tx_SInv ph) in E as [_ ?]; auto.
  - by apply (release_SInv ph) in E as [_ ?]; auto.
  - apply stmt_case in E. destruct r; simpl; [injection E as _ <-; by apply SInv_mark | by rewrite E].
  - apply stmt_case in E. destruct r; simpl; [injection E as _ <-; by apply SInv_drain | rewrite E; by eapply SInv_weaken].
  - apply stmt_case in E. destruct r; simpl; [injection E as _ <-; by apply SInv_close | rewrite E; by eapply SInv_weaken].
  - apply stmt_case in E. destruct r; simpl; [injection E as _ <-; by apply SInv_generate | rewrite E; by eapply SInv_weaken].
  - apply (SInv_same_counts ph d d'); try done; intros; by rewrite E3.
Qed.

(** ** Redundancy-group diversity *)
Definition holds_live (workerID : string) (a : assignment_row) (d : database) : Prop :=
  exists l, In l (db_lease d) /\ live_of workerID l = true /\ l_assignment l = a_id a.

Definition Diverse (d : database) : Prop :=
  forall workerID a1 a2, In a1 (db_assignment d) -> In a2 (db_assignment d) ->
    holds_live workerID a1 d -> holds_live workerID a2 d -> a_group a1 = a_group a2 -> a_id a1 = a_id a2.

(** A step that only drops live leases and keeps the rows' ids and groups
    cannot break diversity. *)
Lemma Diverse_shrink d d' :
  (forall a, In a (db_assignment d') -> (forall w, ~ holds_live w a d') \/
     exists b, In b (db_assignment d) /\ a_id b = a_id a /\ a_group b = a_group a) ->
  (forall l, In l (db_lease d') -> live l = true ->
     exists l0, In l0 (db_lease d) /\ live l0 = true /\ l_worker l0 = l_worker l /\ l_assignment l0 = l_assignment l) ->
  Diverse d -> Diverse d'.
Proof.
  intros Ha Hl HD w a1 a2 H1 H2 L1 L2 Eg.
  assert (forall a b, a_id b = a_id a -> holds_live w a d' -> holds_live w b d) as Hh.
  { intros a b Eid (l & Hin & Hlv & Eq). unfold live_of in Hlv. btrue.
    destruct (Hl l Hin) as (l0 & ? & Hl0 & Hw & ?); [done|]. exists l0. split_and!; [done| |congruence].
    unfold live_of. rewrite Hl0, andb_true_r. apply bool_decide_eq_true. congruence. }
  destruct (Ha a1 H1) as [N|(b1 & Hb1 & E1 & G1)]; [by destruct (N w)|].
  destruct (Ha a2 H2) as [N|(b2 & Hb2 & E2 & G2)]; [by destruct (N w)|].
  rewrite <- E1, <- E2. apply (HD w); [done | done | by eapply Hh | by eapply Hh | congruence].
Qed.

Lemma keeps_assignments {f : assignment_row -> assignment_row} {p} (t : list assignment_row) :
  (forall a, a_id (f a) = a_id a /\ a_group (f a) = a_group a) ->
  forall a, In a (update_where p f t) -> exists b, In b t /\ a_id b = a_id a /\ a_group b = a_group a.
Proof.
  intros Hf a (b & Hb & ->)%update_where_In. exists b. specialize (Hf b). destruct (p b); naive_solver.
Qed.

Lemma keeps_released p n reason (t : list lease_row) l :
  In l (update_where p (with_release n reason) t) -> live l = true -> In l t.
Proof. intros (l0 & Hl0 & ->)%update_where_In. by destruct (p l0). Qed.

Lemma Diverse_release p reason n d : Diverse d -> Diverse (release_where p reason n d).
Proof.
  apply Diverse_shrink; simpl.
  - intros a Ha. right. eapply keeps_assignments; [|exact Ha]. by try intros [].
  - intros l Hl Hlv. exists l. split_and!; try done. by eapply keeps_released.
Qed.

Lemma Diverse_renew workerID t d :
  Diverse d -> Diverse (set_lease (update_where (live_of workerID) (with_expiry t)) d).
Proof.
  apply Diverse_shrink; simpl.
  - intros a Ha. right. eauto.
  - intros l (l0 & Hl0 & ->)%update_where_In Hlv. exists l0. by destruct (live_of workerID l0).
Qed.

Lemma Diverse_update_rows f p d :
  (forall a, a_id (f a) = a_id a /\ a_group (f a) = a_group a) ->
  Diverse d -> Diverse (set_assignment (update_where p f) d).
Proof.
  intros Hf. apply Diverse_shrink; simpl.
  - intros a Ha. right. eapply keeps_assignments; [|exact Ha]. by try intros [].
  - intros l Hl Hlv. by exists l.
Qed.

Lemma Diverse_release_only p n reason d :
  Diverse d -> Diverse (set_lease (update_where p (with_release n reason)) d).
Proof.
  apply Diverse_shrink; simpl.
  - intros a Ha. right. eauto.
  - intros l Hl Hlv. exists l. split_and!; try done. by eapply keeps_released.
Qed.

Lemma candidates_In workerID d a : In a (candidates workerID d) ->
  exists me, db_worker d !! workerID = Some me /\ In a (db_assignment d) /\
    ~ a_group a ∈ my_groups workerID d /\ own_network (w_source_asn me) (a_provider a) d = false.
Proof.
  unfold candidates. destruct (db_worker d !! workerID) as [me|]; [|done].
  intros [Hin Hp]%distinct_on_In%select_In. btrue. eauto.
Qed.

Lemma claimed_candidate ph workerID want locked d a : SInv ph d ->
  In a (claimed workerID want locked d) -> In a (candidates workerID d).
Proof.
  intros [Hids _ _ _] (Hin & _ & _ & (b & Hb & Hb2)%list_elem_of_In%in_map_iff)%claimed_In.
  assert (b = a) as ->; [|done]. apply candidates_In in Hb2 as Hb3. destruct Hb3 as (? & _ & ? & _).
  by eapply NoDup_key_eq.
Qed.

Lemma candidates_groups workerID d a1 a2 : In a1 (candidates workerID d) -> In a2 (candidates workerID d) ->
  a_group a1 = a_group a2 -> a1 = a2.
Proof.
  unfold candidates. destruct (db_worker d !! workerID) as [me|]; [|done].
  intros H1 H2. eapply NoDup_key_eq; [apply distinct_on_NoDup | done | done].
Qed.

Lemma my_groups_held workerID a d : In a (db_assignment d) -> holds_live workerID a d ->
  a_group a ∈ my_groups workerID d.
Proof.
  intros Hin (l & Hl & Hlv & E). unfold my_groups. apply list_elem_of_In, in_map_iff. exists a.
  split; [done|]. apply select_In. split; [done|]. apply exists_row_true. exists l. split; [done|].
  rewrite Hlv. simpl. by apply Z.eqb_eq.
Qed.

Lemma Diverse_claim ph workerID want locked n ttl d : SInv ph d -> Diverse d ->
  Diverse (take_leases workerID (map a_id (claimed workerID want locked d)) n ttl d).
Proof.
  intros HI HD w a1' a2' (a1 & H1 & ->)%update_where_In (a2 & H2 & ->)%update_where_In L1 L2 Eg.
  assert (forall a, In a (db_assignment d) ->
    holds_live w a (take_leases workerID (map a_id (claimed workerID want locked d)) n ttl d) ->
    holds_live w a d \/ (w = workerID /\ In a (candidates workerID d))) as Hcase.
  { intros a Ha (l & [Hl|Hl]%in_app_iff & Hlv & E); [left; by exists l|right].
    apply in_map_iff in Hl as (i & <- & (c & <- & Hc)%in_map_iff). simpl in E. unfold live_of in Hlv. btrue.
    split; [done|]. apply claimed_In in Hc as Hc2. destruct Hc2 as [Hc2 _].
    assert (c = a) as <- by (by eapply NoDup_key_eq; [apply (inv_ids _ _ HI)|..]). by eapply claimed_candidate. }
  assert (forall a (b : bool), a_id (if b then with_astatus SLeased a else a) = a_id a
     /\ a_group (if b then with_astatus SLeased a else a) = a_group a) as Hid by (intros a []; done).
  rewrite !(proj1 (Hid _ _)). rewrite !(proj2 (Hid _ _)) in Eg.
  assert (forall a b, holds_live w (if b : bool then with_astatus SLeased a else a)
     (take_leases workerID (map a_id (claimed workerID want locked d)) n ttl d) ->
     holds_live w a (take_leases workerID (map a_id (claimed workerID want locked d)) n ttl d)) as Hh.
  { intros a b (l & ? & ? & E). exists l. split_and!; try done. by rewrite E, (proj1 (Hid _ _)). }
  apply Hh in L1, L2. destruct (Hcase a1 H1 L1) as [D1|[W1 C1]], (Hcase a2 H2 L2) as [D2|[W2 C2]]; subst.
  - by apply (HD w).
  - apply candidates_In in C2 as (me & _ & _ & Hn & _). destruct Hn. rewrite <- Eg. by apply my_groups_held.
  - apply candidates_In in C1 as (me & _ & _ & Hn & _). destruct Hn. rewrite Eg. by apply my_groups_held.
  - by rewrite (candidates_groups workerID d a1 a2).
Qed.

Definition LInv (ph : phase) (d : database) : Prop := SInv ph d /\ Diverse d.

Lemma lease_tx_LInv ph workerID capacity ttl locked :
  Respects (Keeps (LInv ph)) (lease_tx workerID capacity ttl locked).
Proof.
  unfold lease_tx, renew_leases, reap_expired, claim. respects; intros.
  - intros [HI HD]. split; [by apply SInv_renew | by apply Diverse_renew].
  - intros [HI HD]. split; [by apply SInv_release_where | by apply Diverse_release].
  - case_match; simplify_eq. intros [HI HD]. split; [by apply SInv_claim | by eapply Diverse_claim].
Qed.

Lemma Diverse_generate md5 cfg d : SInv Closing d -> Diverse d ->
  Diverse (let rows := new_rows md5 cfg d in
    set_assignment_seq (fun s => s + Z.of_nat (length rows))
      (set_assignment (fun t => t ++ number_rows (db_assignment_seq d) rows) d)).
Proof.
  intros HI. apply Diverse_shrink; simpl.
  - intros a [Ha|(r & i & (t & p & _ & _ & E)%new_rows_In & -> & Hi)%number_rows_In]%in_app_iff; [eauto|].
    left. intros w (l & Hl & _ & El). simpl in Hl. apply (inv_fk _ _ HI) in Hl. rewrite E in El. simpl in El. lia.
  - intros l Hl Hlv. by exists l.
Qed.

Lemma LInv_step md5 x y : sstep md5 x y -> LInv x.1 x.2 -> LInv y.1 y.2.
Proof.
  intros Hs HI. split; [eapply SInv_step; [done | apply HI]|].
  destruct Hs as [ph w r w' wid cap ttl lk E|ph w r w' wid ids E|w r w' E|w r w' E|w r w' E|cfg w r w' E|ph d d' E1 E2 E3];
    destruct HI as [HI HD]; simpl in *.
  - apply (lease_tx_LInv ph) in E as [_ E]. by apply E.
  - apply stmt_case in E. destruct r; [injection E as _ <-; by apply Diverse_release | by rewrite E].
  - apply stmt_case in E. destruct r; [injection E as _ <-; by apply Diverse_update_rows | by rewrite E].
  - apply stmt_case in E. destruct r; [injection E as _ <-; by apply Diverse_release_only | by rewrite E].
  - apply stmt_case in E. destruct r; [injection E as _ <-; by apply Diverse_update_rows | by rewrite E].
  - apply stmt_case in E. destruct r; [injection E as _ <-; by apply Diverse_generate | by rewrite E].
  - intros wid a1 a2. unfold holds_live. rewrite E1, E3. apply HD.
Qed.

Lemma LInv_reachable md5 x y : rtc (sstep md5) x y -> LInv x.1 x.2 -> LInv y.1 y.2.
Proof. induction 1; [done|]. intros HI. apply IHrtc. by eapply LInv_step. Qed.

(** ** The lease transaction *)
Lemma held_take workerID ids now ttl d :
  held_count workerID (take_leases workerID ids now ttl d) = (held_count workerID d + length ids)%nat.
Proof.
  unfold held_count. simpl. rewrite count_app. f_equal. induction ids as [|i ids IH]; [done|]. simpl.
  rewrite count_cons, IH. unfold live_of. simpl. by rewrite bool_decide_true.
Qed.

Lemma held_release workerID p reason n d :
  (held_count workerID (release_where p reason n d) <= held_count workerID d)%nat.
Proof.
  unfold held_count. simpl. rewrite count_update. apply count_le. intros l _.
  destruct (live l && p l); [|done]. unfold live_of. simpl. by rewrite andb_false_r.
Qed.

Lemma held_renew workerID t d :
  held_count workerID (set_lease (update_where (live_of workerID) (with_expiry t)) d) = held_count workerID d.
Proof.
  unfold held_count. simpl. rewrite count_update. apply count_ext. intros l _. by destruct (live_of workerID l) eqn:E.
Qed.

Lemma claimed_length workerID want locked d : (length (claimed workerID want locked d) <= want)%nat.
Proof. unfold claimed. rewrite length_take. lia. Qed.

(** The tables after the renew and reap statements of a lease request. *)
Definition swept (workerID : string) (ttl now : Z) (d : database) : database :=
  release_where (fun l => l_expires l <? now) "expired" now
    (set_lease (update_where (live_of workerID) (with_expiry (now + ttl))) d).

Lemma lease_tx_Ok workerID capacity ttl locked w out w' :
  lease_tx workerID capacity ttl locked w = (Ok out, w') ->
  let d := swept workerID ttl (w_now w) (w_db w) in
  let want := Z.to_nat (capacity - Z.of_nat (held_count workerID d)) in
  w_db w' = (if decide (want = 0%nat) then d
             else take_leases workerID (map a_id (claimed workerID want locked d)) (w_now w) ttl d)
  /\ out = my_assignments workerID (w_db w').
Proof.
  unfold lease_tx, renew_leases, reap_expired, claim. intros H. inv_ok.
  match goal with H : (if ?b then _ else _) _ = _ |- _ => destruct b eqn:E end; inv_ok;
    try match goal with H : (if ?b then Err _ else _) = _ |- _ => destruct b; inv_ok end; worlds; simplify_eq; cbv zeta; btrue; split; try done.
  - rewrite decide_False; [done|]. unfold swept. lia.
  - rewrite decide_True; [done|]. unfold swept. lia.
Qed.

Lemma swept_live workerID ttl now d l : 0 <= ttl ->
  In l (db_lease (swept workerID ttl now d)) -> live l = true ->
  now <= l_expires l /\
  exists l0, In l0 (db_lease d) /\ live l0 = true /\ l_worker l0 = l_worker l /\ l_assignment l0 = l_assignment l /\
    (l_worker l = workerID -> l_expires l = now + ttl).
Proof.
  intros Ht (l1 & (l0 & Hl0 & ->)%update_where_In & ->)%update_where_In.
  set (l1 := if live_of workerID l0 then _ else _).
  destruct (live l1 && (l_expires l1 <? now)) eqn:E; [done|]. intros Hlv.
  rewrite Hlv in E. simpl in E. btrue. split; [done|]. exists l0. subst l1.
  destruct (live_of workerID l0) eqn:Elv; simpl in *.
  - unfold live_of in Elv. btrue. done.
  - split_and!; try done. intros Ew. unfold live_of in Elv. by rewrite Ew, bool_decide_true, Hlv in Elv.
Qed.

(** ** The reconcile pass *)
Definition drained_db (now : Z) (d : database) : database :=
  let d1 := set_assignment (update_where (fun a => working a && negb (target_eligible (a_target a) d))
                              (with_astatus SDraining)) d in
  let d2 := set_lease (update_where (fun l => live l && bool_decide (l_assignment l ∈ draining_ids d1))
                         (with_release now "drained")) d1 in
  set_assignment (update_where (has_status SDraining) (close_assignment now)) d2.

Definition filled_db (md5 : string -> string) (cfg : SchedConfig) (d : database) : database :=
  let rows := new_rows md5 cfg d in
  set_assignment_seq (fun s => s + Z.of_nat (length rows))
    (set_assignment (fun t => t ++ number_rows (db_assignment_seq d) rows) d).

Lemma Reconcile_nofault md5 c d now :
  Reconcile md5 c (World d now []) = (Ok tt, World (filled_db md5 (withDefaults c) (drained_db now d)) now []).
Proof. done. Qed.

(** Every assignment of the drained table is the old one, closed when it was
    draining or its target stopped being eligible. *)
Lemma drained_row now d a : In a (db_assignment (drained_db now d)) ->
  exists b, In b (db_assignment d) /\
    a = if has_status SDraining b || (working b && negb (target_eligible (a_target b) d))
        then close_assignment now b else b.
Proof.
  intros (c & (b & Hb & ->)%update_where_In & ->)%update_where_In. exists b. split; [done|].
  unfold has_status, working. destruct (_ && negb _) eqn:E; simpl; [by rewrite orb_true_r|].
  by rewrite orb_false_r.
Qed.

Lemma drained_map {B} (key : assignment_row -> B) now d :
  (forall a st, key (with_astatus st a) = key a) -> (forall a, key (close_assignment now a) = key a) ->
  map key (db_assignment (drained_db now d)) = map key (db_assignment d).
Proof. intros H1 H2. simpl. rewrite (update_map_id key), (update_map_id key); auto. Qed.

Lemma eligible_drained now d t : eligible_provider t (drained_db now d) = eligible_provider t d.
Proof. done. Qed.

Lemma replicas_drained now d id :
  replicas id (drained_db now d) = if target_eligible id d then replicas id d else 0%nat.
Proof.
  unfold replicas. simpl. rewrite !count_update.
  rewrite (count_ext _ (fun a => (a_target a =? id) && working a && target_eligible id d)).
  - destruct (target_eligible id d); [|apply count_zero; intros; apply andb_false_r].
    apply count_ext. intros. apply andb_true_r.
  - intros [i tg pv pr iv g st c] _. destruct (Z.eqb_spec tg id) as [->|Hn].
    + destruct st; simpl; destruct (target_eligible id d); simpl; rewrite Z.eqb_refl; done.
    + apply Z.eqb_neq in Hn. destruct st; simpl; destruct (target_eligible tg d); simpl; rewrite Hn; done.
Qed.

Definition icmp_row (md5 : string -> string) (cfg : SchedConfig) (t : target_row) (p : provider_row) (id : Z) : assignment_row :=
  AssignmentRow id (tg_id t) (tg_provider t) "icmp" (interval_for cfg (p_priority p))
    (vapn_group md5 (tg_id t)) SOpen None.

Lemma number_rows_app n r1 r2 :
  number_rows n (r1 ++ r2) = number_rows n r1 ++ number_rows (n + Z.of_nat (length r1)) r2.
Proof.
  revert n. induction r1 as [|r r1 IH]; intros n; simpl; [by rewrite Z.add_0_r|].
  rewrite IH. do 3 f_equal. lia.
Qed.

Lemma replicas_replicate id n k (r : Z -> assignment_row) b :
  (forall i, ((a_target (r i) =? id) && working (r i)) = b) ->
  count_rows (fun a => (a_target a =? id) && working a) (number_rows n (replicate k r)) = if b then k else 0%nat.
Proof.
  intros Hr. revert n. induction k as [|k IH]; intros n; simpl; [by destruct b|].
  rewrite count_cons, IH, Hr. by destruct b.
Qed.

(** What a generation adds for one target. *)
Definition added (md5 : string -> string) (cfg : SchedConfig) (d : database) (t : target_row) : list (Z -> assignment_row) :=
  match eligible_provider t d with
  | Some p => replicate (missing_slots cfg (tg_id t) d) (icmp_row md5 cfg t p)
  | None => []
  end.

Lemma replicas_new md5 cfg d id n : NoDup (map tg_id (db_target d)) ->
  count_rows (fun a => (a_target a =? id) && working a) (number_rows n (new_rows md5 cfg d))
  = if target_eligible id d then missing_slots cfg id d else 0%nat.
Proof.
  change (new_rows md5 cfg d) with (flat_map (added md5 cfg d) (db_target d)). unfold target_eligible.
  generalize (db_target d). intros ts. revert n. induction ts as [|t ts IH]; intros n; [done|].
  intros [Ht Hnd]%NoDup_cons. simpl. rewrite number_rows_app, count_app, IH by done.
  assert (count_rows (fun a => (a_target a =? id) && working a) (number_rows n (added md5 cfg d t))
    = if (tg_id t =? id) && is_some (eligible_provider t d) then missing_slots cfg id d else 0%nat) as ->.
  { unfold added. destruct (eligible_provider t d); [|by rewrite andb_false_r].
    rewrite (replicas_replicate _ _ _ _ (tg_id t =? id)) by (intros i; unfold icmp_row; simpl; by rewrite andb_true_r).
    rewrite andb_true_r. destruct (_ =? _) eqn:E; btrue; [by subst | done]. }
  destruct ((tg_id t =? id) && is_some (eligible_provider t d)) eqn:E; simpl; [|lia].
  btrue. assert (exists_row (fun t0 => (tg_id t0 =? id) && is_some (eligible_provider t0 d)) ts = false) as ->; [|lia].
  apply exists_row_false. intros t' Ht'. destruct (tg_id t' =? id) eqn:E'; [|done]. btrue.
  destruct Ht. apply list_elem_of_In, in_map_iff. exists t'. split; [congruence|done].
Qed.

Lemma replicas_filled md5 cfg d id : NoDup (map tg_id (db_target d)) ->
  replicas id (filled_db md5 cfg d) =
  if target_eligible id d then Nat.max (replicas id d) (Z.to_nat (Redundancy cfg)) else replicas id d.
Proof.
  intros Hnd. unfold replicas at 1. simpl. rewrite count_app, replicas_new by done. fold (replicas id d).
  unfold missing_slots. destruct (target_eligible id d); lia.
Qed.

Lemma replicas_reconciled md5 cfg now d id : NoDup (map tg_id (db_target d)) ->
  replicas id (filled_db md5 cfg (drained_db now d)) =
  if target_eligible id d then Nat.max (replicas id d) (Z.to_nat (Redundancy cfg)) else 0%nat.
Proof.
  intros Hnd. rewrite replicas_filled, replicas_drained by done.
  change (target_eligible id (drained_db now d)) with (target_eligible id d). by destruct (target_eligible id d).
Qed.

Lemma SInv_drained now d : SInv Idle d -> SInv Closing (drained_db now d).
Proof. intros HI. by apply SInv_close, SInv_drain, SInv_mark. Qed.

Lemma drained_no_draining now d a : In a (db_assignment (drained_db now d)) -> a_status a <> SDraining.
Proof.
  intros (b & _ & ->)%drained_row. unfold has_status. case_bool_decide; simpl; [done|].
  by destruct (working b && _).
Qed.

Lemma filled_row md5 cfg d a : In a (db_assignment (filled_db md5 cfg d)) ->
  In a (db_assignment d) \/
  (a_status a = SOpen /\ exists t p, In t (db_target d) /\ eligible_provider t d = Some p /\
    a_target a = tg_id t /\ a_provider a = tg_provider t /\ a_group a = vapn_group md5 (tg_id t) /\
    a_interval a = interval_for cfg (p_priority p)).
Proof.
  simpl. rewrite in_app_iff. intros [Ha|(r & i & (t & p & ? & ? & E)%new_rows_In & -> & _)%number_rows_In]; [by left|].
  right. rewrite E. split; [done|]. exists t, p. done.
Qed.

Lemma reconciled_no_draining md5 cfg now d a :
  In a (db_assignment (filled_db md5 cfg (drained_db now d))) -> has_status SDraining a = false.
Proof.
  intros [?%drained_no_draining|[E _]]%filled_row; unfold has_status; apply bool_decide_eq_false; congruence.
Qed.

Lemma reconciled_eligible md5 cfg now d a :
  In a (db_assignment (filled_db md5 cfg (drained_db now d))) -> working a = true ->
  target_eligible (a_target a) d = true.
Proof.
  intros [(b & Hb & ->)%drained_row|(Ho & t & p & Ht & Hp & Et & _)]%filled_row Hw.
  - destruct (target_eligible (a_target b) d) eqn:E; revert Hw.
    + by destruct (_ || _); simpl.
    + unfold working, has_status. destruct (a_status b) eqn:Es; simpl; by rewrite ?Es.
  - apply exists_row_true. exists t. split; [done|]. rewrite Et, Z.eqb_refl.
    change (eligible_provider t d = Some p) in Hp. by rewrite Hp.
Qed.

Lemma drained_fixpoint now d :
  (forall a, In a (db_assignment d) -> has_status SDraining a = false) ->
  (forall a, In a (db_assignment d) -> working a = true -> target_eligible (a_target a) d = true) ->
  drained_db now d = d.
Proof.
  intros Hd Hw. unfold drained_db.
  assert (set_assignment (update_where (fun a => working a && negb (target_eligible (a_target a) d))
    (with_astatus SDraining)) d = d) as ->.
  { destruct d; unfold set_assignment; simpl in *; f_equal. apply update_where_id. intros a Ha E.
    btrue. by rewrite Hw in H0. }
  assert (draining_ids d = []) as ->.
  { unfold draining_ids. by rewrite select_none. }
  cbv zeta. assert (set_lease (update_where (fun l => live l && bool_decide (l_assignment l ∈ []))
    (with_release now "drained")) d = d) as ->.
  { destruct d; unfold set_lease; simpl in *; f_equal. apply update_where_id. intros l _ E.
    by rewrite andb_false_r in E. }
  destruct d; unfold set_assignment; simpl in *; f_equal. apply update_where_id. intros a Ha E.
  by rewrite Hd in E.
Qed.

Lemma filled_fixpoint md5 cfg d :
  (forall t p, In t (db_target d) -> eligible_provider t d = Some p -> missing_slots cfg (tg_id t) d = 0%nat) ->
  filled_db md5 cfg d = d.
Proof.
  intros H. assert (new_rows md5 cfg d = []) as E.
  { unfold new_rows. revert H. generalize (db_target d) at 1 2. induction l as [|t l IH]; intros H; [done|]. simpl.
    rewrite IH by (intros; eapply H; [by right|done]). destruct (eligible_provider t d) eqn:E; [|done].
    erewrite H; [done | by left | done]. }
  unfold filled_db. cbv zeta. rewrite E. destruct d; unfold set_assignment, set_assignment_seq; simpl.
  by rewrite app_nil_r, Z.add_0_r.
Qed.

(** * Theorems *)

(** C1: In every state reachable by any interleaving of lease and release
    requests of any workers with reconcile passes (statements and commits may
    fail at any point), an assignment has at most one live lease: exactly one
    when it is leased, none when it is open or closed. *)
Theorem leases_exclusive md5 ph d :
  rtc (sstep md5) (Idle, empty_db) (ph, d) ->
  forall a, In a (db_assignment d) ->
    let n := count_rows (live_on (a_id a)) (db_lease d) in
    (n <= 1)%nat /\ (a_status a = SLeased -> n = 1%nat) /\
    (a_status a = SOpen \/ a_status a = SClosed -> n = 0%nat).
Proof.
  intros Hr. apply LInv_reachable in Hr as [[_ _ _ HI] _].
  - intros a Ha. specialize (HI a Ha). unfold lease_ok in HI. simpl in *.
    destruct (a_status a); try case_decide; naive_solver lia.
  - split; [|by intros ? ? ? []]. constructor; simpl; [constructor | by intros..].
Qed.

(** C32: In every reachable state no worker holds live leases on two different
    assignments of the same redundancy group. *)
Theorem leases_diverse md5 ph d :
  rtc (sstep md5) (Idle, empty_db) (ph, d) ->
  forall workerID a1 a2, In a1 (db_assignment d) -> In a2 (db_assignment d) ->
    holds_live workerID a1 d -> holds_live workerID a2 d -> a_group a1 = a_group a2 -> a_id a1 = a_id a2.
Proof.
  intros Hr. apply LInv_reachable in Hr as [_ HD]; [done|].
  split; [|by intros ? ? ? []]. constructor; simpl; [constructor | by intros..].
Qed.



(** Reconciling is idempotent: with nothing else happening in between, a
    second pass changes nothing, at whatever later time it runs. *)
Theorem reconcile_idempotent md5 c d now later :
  NoDup (map tg_id (db_target d)) ->
  let d' := w_db (Reconcile md5 c (World d now [])).2 in
  Reconcile md5 c (World d' later []) = (Ok tt, World d' later []).
Proof.
  intros Hnd. cbv zeta. rewrite !Reconcile_nofault. cbn [snd w_db]. set (cfg := withDefaults c).
  assert (drained_db later (filled_db md5 cfg (drained_db now d)) = filled_db md5 cfg (drained_db now d)) as ->.
  { apply drained_fixpoint; intros a Ha; [exact (reconciled_no_draining _ _ _ _ _ Ha)|].
    exact (reconciled_eligible _ _ _ _ _ Ha). }
  rewrite filled_fixpoint; [done|]. intros t p Ht Hp. unfold missing_slots.
  rewrite replicas_reconciled by done.
  assert (target_eligible (tg_id t) d = true) as ->; [|lia].
  apply exists_row_true. exists t. split; [done|]. rewrite Z.eqb_refl.
  change (eligible_provider t d = Some p) in Hp. by rewrite Hp.
Qed.

(** * Concrete runs *)
Definition demo_worker (asn : option Z) : worker_row :=
  WorkerRow "op" "w" Active None None asn 0 (Some 0) None None ∅.

(** Two targets of one enabled provider (priority 5) in a published snapshot
    and a third of a delisted one; worker [w1] sits in the provider's own AS. *)
Definition demo_db : database :=
  set_worker (fun _ => <["w1" := demo_worker (Some 64500)]> {[ "w2" := demo_worker None ]})
  (set_snapshot (fun _ => [SnapshotRow 1 "v1" Published None None None None None None None None])
  (set_provider (fun _ => <["p" := ProviderRow "P" true 5 0 None]> {[ "q" := ProviderRow "Q" true 5 0 (Some 1) ]})
  (set_asn (fun _ => {[ 64500 := AsnRow "p" 0 ]})
  (set_target (fun _ => [TargetRow 1 1 "p" 1 (Addr V4 1) true None None;
                         TargetRow 2 1 "p" 1 (Addr V4 2) true None None;
                         TargetRow 3 1 "q" 1 (Addr V4 3) true None None]) empty_db)))).

Definition demo_cfg : SchedConfig := MkSchedConfig 2 0 0 0 0.
Definition demo_md5 : string -> string := fun s => s.

Definition demo_scheduled : database := w_db (Reconcile demo_md5 demo_cfg (World demo_db 10 [])).2.
Definition demo_leased : database :=
  w_db (lease_tx "w2" 5 100 (fun _ => false) (World demo_scheduled 20 [])).2.

Lemma demo_run : rtc (sstep demo_md5) (Idle, empty_db) (Idle, demo_leased).
Proof.
  eapply rtc_l; [by apply (s_other _ Idle empty_db demo_db)|].
  eapply rtc_l; [eapply (s_mark _ (World demo_db 10 [])); reflexivity|].
  eapply rtc_l; [eapply (s_drain _ (World _ 10 [])); reflexivity|].
  eapply rtc_l; [eapply (s_close _ (World _ 10 [])); reflexivity|].
  eapply rtc_l; [eapply (s_generate _ (withDefaults demo_cfg) (World _ 10 [])); reflexivity|].
  apply rtc_once. eapply (s_lease _ Idle (World demo_scheduled 20 []) _ _ "w2" 5 100 (fun _ => false)).
  apply surjective_pairing.
Qed.

Lemma leases_exclusive_witness :
  map a_status (db_assignment demo_leased) = [SLeased; SOpen; SLeased; SOpen] /\
  forall a, In a (db_assignment demo_leased) -> (count_rows (live_on (a_id a)) (db_lease demo_leased) <= 1)%nat.
Proof.
  split; [vm_compute; reflexivity|]. intros a Ha. by apply (leases_exclusive demo_md5 Idle demo_leased demo_run a Ha).
Defined.

Lemma leases_diverse_witness :
  length (db_lease demo_leased) = 2%nat /\
  forall a1 a2, In a1 (db_assignment demo_leased) -> In a2 (db_assignment demo_leased) ->
    holds_live "w2" a1 demo_leased -> holds_live "w2" a2 demo_leased -> a_group a1 = a_group a2 -> a_id a1 = a_id a2.
Proof.
  split; [vm_compute; reflexivity|]. exact (leases_diverse demo_md5 Idle demo_leased demo_run "w2").
Defined.

Lemma demo_scheduled_inv : SInv Idle demo_scheduled.
Proof.
  unfold demo_scheduled. rewrite Reconcile_nofault. cbn [snd w_db]. apply SInv_generate, SInv_drained.
  constructor; simpl; [constructor | by intros..].
Qed.

Definition demo_before : dbworld := World demo_scheduled 20 [].
Definition demo_after : dbworld := (lease_tx "w2" 5 100 (fun _ => false) demo_before).2.

Lemma demo_before_inv : SInv Idle (w_db demo_before).
Proof. unfold demo_before. cbn [w_db]. apply demo_scheduled_inv. Qed.

Lemma demo_lease_runs :
  lease_tx "w2" 5 100 (fun _ => false) demo_before = (Ok (my_assignments "w2" (w_db demo_after)), demo_after).
Proof. vm_compute. reflexivity. Qed.



Lemma reconcile_idempotent_witness :
  Reconcile demo_md5 demo_cfg (World demo_scheduled 99 []) = (Ok tt, World demo_scheduled 99 []).
Proof.
  apply (reconcile_idempotent demo_md5 demo_cfg demo_db 10 99). vm_compute. repeat constructor; set_solver.
Defined.
