(* ===== verification/Upload.v ===== *)
(** Observation ingestion ([uploadObservations] of
    [internal/coordinator/measurement.go], after the request checks): the
    idempotency record, the per-observation validation loop and the copy into
    [measurements.observation], in one transaction.

    [netip.ParseAddr] and the text form of a uuid column are parameters. *)
From stdpp Require Import base gmap strings list.
From Stdlib Require Import ZArith QArith Lia.
From S2P Require Import Prelude Codec Netip Schema Wireauth Registry Leasing.
From S2P Require Observation.
Import Observation(Observation, ObservationJSON, AssignmentID, Target, ProbeType, MeasuredAt, OK, RTTMillis,
  PacketsSent, PacketsLost).
Open Scope Z_scope.

Class AddrText : Type := { ParseAddr : string -> option addr }.
(** The canonical form of a uuid literal, or [None]. *)
Class UuidText : Type := { uuid_of : string -> option string }.

Record uploadRequest : Type := UploadRequest {
  BatchID : string;
  Observations : list Observation
}.

Inductive upload_outcome : Type :=
| Duplicate
| Stored (accepted rejected : Z).

(** [int] columns are 32 bits wide: a larger value fails the copy. *)
Definition fits_int32 (z : Z) : bool := (- 2 ^ 31 <=? z) && (z <? 2 ^ 31).

Section Upload.
Context {cr : Crypto} {oj : ObservationJSON} {at_ : AddrText} {ut : UuidText}.

Definition verifyObs (keys : list string) (o : Observation) : bool :=
  existsb (fun pub => is_ok (Observation.Verify o pub)) keys.

(** [insert into upload_batch ... on conflict do nothing]; the answer is
    [RowsAffected() <> 0]. *)
Definition insert_batch (batch workerID : string) (count : Z) : DB bool :=
  stmt (fun now d =>
    match uuid_of batch with
    | None => Err (EConstraint "uuid")
    | Some id =>
        let (fresh, t) := insert_nothing id (BatchRow workerID now count) (db_batch d) in
        Ok (fresh, set_batch (fun _ => t) d)
    end).

(** The worker's live leases with their assignment's provider. *)
Definition held_rows (workerID : string) (d : database) : list (Z * string) :=
  flat_map (fun l => omap (fun a =>
      if l_assignment l =? a_id a then Some (a_id a, a_provider a) else None) (db_assignment d))
    (select (live_of workerID) (db_lease d)).
Definition held_map (rows : list (Z * string)) : gmap Z string :=
  foldl (fun m '(id, p) => <[id := p]> m) ∅ rows.

(** The validation of one observation. *)
Definition validate (keys : list string) (held : gmap Z string) (o : Observation)
    : option (addr * string) :=
  if negb (verifyObs keys o) then None
  else
    match ParseAddr (Target o) with
    | None => None
    | Some a =>
        match held !! AssignmentID o with
        | None => None
        | Some provider => Some (a, provider)
        end
    end.

Definition observation_of (workerID : string) (o : Observation) (a : addr) (provider : string) : observation_row :=
  ObservationRow workerID (AssignmentID o) provider a (ProbeType o) (MeasuredAt o) (OK o) (RTTMillis o)
    (PacketsSent o) (PacketsLost o) (Observation.Signature o).

(** The loop over the batch: accepted rows in order, and the reject count. *)
Fixpoint validate_all (workerID : string) (keys : list string) (held : gmap Z string)
    (obs : list Observation) (accepted : list observation_row) (rejected : Z)
    : list observation_row * Z :=
  match obs with
  | [] => (accepted, rejected)
  | o :: obs' =>
      match validate keys held o with
      | None => validate_all workerID keys held obs' accepted (rejected + 1)
      | Some (a, provider) =>
          validate_all workerID keys held obs' (accepted ++ [observation_of workerID o a provider]) rejected
      end
  end.

Definition copy_observations (rows : list observation_row) : DB unit :=
  stmt (fun _ d =>
    if forallb (fun r => fits_int32 (o_sent r) && fits_int32 (o_lost r)) rows
    then Ok (tt, set_observation (fun t => t ++ rows) d)
    else Err (EConstraint "integer out of range")).

(** The commit of a duplicate is not checked. *)
Definition upload_tx (workerID : string) (keys : list string) (req : uploadRequest) : DB upload_outcome :=
  rollback (
    do! begin_commit ;;
    let! fresh := insert_batch (BatchID req) workerID (Z.of_nat (length (Observations req))) in
    if negb fresh then do! attempt (D := database) begin_commit ;; ret Duplicate
    else
      let! heldRows := query (fun _ d => held_rows workerID d) in
      let held := held_map heldRows in
      let '(accepted, rejected) := validate_all workerID keys held (Observations req) [] 0 in
      do! (if Nat.ltb 0 (length accepted) then copy_observations accepted else ret tt) ;;
      do! begin_commit ;;
      ret (Stored (Z.of_nat (length accepted)) rejected)).

(** * Lemmas *)
Lemma rollback_Ok {A} (m : DB A) w a w' : rollback m w = (Ok a, w') -> m w = (Ok a, w').
Proof. unfold rollback. destruct (m w) as [[b|e] w1]; intros; by simplify_eq. Qed.

Lemma rollback_Err {A} (m : DB A) w e w' : rollback m w = (Err e, w') -> w_db w' = w_db w.
Proof. unfold rollback. destruct (m w) as [[b|e1] w1]; intros; by simplify_eq. Qed.

(** The rows a batch contributes, in order. *)
Definition accepted_rows (workerID : string) (keys : list string) (held : gmap Z string) (obs : list Observation)
    : list observation_row :=
  omap (fun o => (fun '(a, p) => observation_of workerID o a p) <$> validate keys held o) obs.

Lemma validate_all_spec workerID keys held obs acc rej :
  validate_all workerID keys held obs acc rej =
    (acc ++ accepted_rows workerID keys held obs,
     rej + (Z.of_nat (length obs) - Z.of_nat (length (accepted_rows workerID keys held obs)))).
Proof.
  revert acc rej. induction obs as [|o obs IH]; intros acc rej; simpl; [rewrite app_nil_r; f_equal; lia|].
  unfold accepted_rows. simpl. fold (accepted_rows workerID keys held obs).
  destruct (validate keys held o) as [[a p]|]; simpl; rewrite IH.
  - rewrite <- app_assoc. simpl. f_equal. fold (accepted_rows workerID keys held obs). simpl. lia.
  - f_equal. fold (accepted_rows workerID keys held obs). lia.
Qed.

Lemma held_rows_In workerID d id p : In (id, p) (held_rows workerID d) <->
  exists l a, In l (db_lease d) /\ live_of workerID l = true /\ In a (db_assignment d) /\
    l_assignment l = a_id a /\ id = a_id a /\ p = a_provider a.
Proof.
  unfold held_rows. rewrite in_flat_map. split.
  - intros (l & [Hl Hlv]%select_In & H). apply list_elem_of_In, list_elem_of_omap in H as (a & Ha & E).
    apply list_elem_of_In in Ha. destruct (_ =? _) eqn:Eq; btrue; simplify_eq. naive_solver.
  - intros (l & a & Hl & Hlv & Ha & E & -> & ->). exists l. split; [by apply select_In|].
    apply list_elem_of_In, list_elem_of_omap. exists a. split; [by apply list_elem_of_In|].
    by rewrite E, Z.eqb_refl.
Qed.

Lemma held_map_acc rows (m : gmap Z string) id p : foldl (fun m '(i, q) => <[i := q]> m) m rows !! id = Some p ->
  In (id, p) rows \/ m !! id = Some p.
Proof.
  revert m. induction rows as [|[i q] rows IH]; intros m; simpl; [auto|]. intros [?|H]%IH; [auto|].
  destruct (decide (i = id)) as [->|Hn]; simplify_map_eq; auto.
Qed.

Lemma held_map_In rows id p : held_map rows !! id = Some p -> In (id, p) rows.
Proof. intros [?|H]%held_map_acc; [done|]. by rewrite lookup_empty in H. Qed.

Lemma held_map_dom_acc rows (m : gmap Z string) id p : In (id, p) rows \/ is_Some (m !! id) ->
  is_Some (foldl (fun m '(i, q) => <[i := q]> m) m rows !! id).
Proof.
  revert m. induction rows as [|[i q] rows IH]; intros m; simpl; [naive_solver|].
  intros [[E|?]|H]; apply IH; [right|auto|right].
  - injection E as -> ->. rewrite lookup_insert_eq. eauto.
  - destruct (decide (i = id)) as [->|Hn]; [rewrite lookup_insert_eq | rewrite lookup_insert_ne by done]; eauto.
Qed.

Lemma held_map_dom rows id p : In (id, p) rows -> is_Some (held_map rows !! id).
Proof. intros H. apply (held_map_dom_acc rows ∅ id p). auto. Qed.

(** What entitles an observation to be stored. *)
Definition signed_by (keys : list string) (o : Observation) : Prop :=
  exists pub, In pub keys /\ Observation.Verify o pub = Ok tt.
Definition holds_lease (workerID : string) (d : database) (id : Z) (provider : string) : Prop :=
  exists l a, In l (db_lease d) /\ live_of workerID l = true /\ In a (db_assignment d) /\
    l_assignment l = a_id a /\ id = a_id a /\ provider = a_provider a.

Lemma verifyObs_true keys o : verifyObs keys o = true <-> signed_by keys o.
Proof.
  unfold verifyObs, signed_by. rewrite existsb_exists. split; intros (pub & Hin & E); exists pub; split; try done.
  - by destruct (Observation.Verify o pub) as [[]|].
  - by rewrite E.
Qed.

Lemma accepted_sound workerID keys d obs row :
  In row (accepted_rows workerID keys (held_map (held_rows workerID d)) obs) ->
  exists o a p, In o obs /\ signed_by keys o /\ ParseAddr (Target o) = Some a /\
    holds_lease workerID d (AssignmentID o) p /\ row = observation_of workerID o a p.
Proof.
  unfold accepted_rows. intros (o & Ho & E)%list_elem_of_In%list_elem_of_omap.
  destruct (validate keys _ o) as [[a p]|] eqn:V; simplify_eq. simpl in E. injection E as <-.
  unfold validate in V. destruct (verifyObs keys o) eqn:Vo; [|done]. simpl in V.
  destruct (ParseAddr (Target o)) as [a'|] eqn:Pa; [|done].
  destruct (held_map _ !! AssignmentID o) as [p'|] eqn:Hm; [|done]. simplify_eq.
  exists o, a, p. split_and!; [by apply list_elem_of_In | by apply verifyObs_true | done | | done].
  by apply held_rows_In, held_map_In.
Qed.

Lemma accepted_complete workerID keys d obs o a p :
  In o obs -> signed_by keys o -> ParseAddr (Target o) = Some a -> holds_lease workerID d (AssignmentID o) p ->
  exists q, In (observation_of workerID o a q) (accepted_rows workerID keys (held_map (held_rows workerID d)) obs).
Proof.
  intros Ho Hs%verifyObs_true Ha Hh. destruct (held_map_dom (held_rows workerID d) (AssignmentID o) p) as [q Hq].
  { by apply held_rows_In. }
  exists q. apply list_elem_of_In, list_elem_of_omap. exists o. split; [by apply list_elem_of_In|].
  unfold validate. by rewrite Hs, Ha, Hq.
Qed.

Lemma insert_batch_Ok batch workerID n w fresh w' : insert_batch batch workerID n w = (Ok fresh, w') ->
  w_now w' = w_now w /\ exists id, uuid_of batch = Some id /\
  if fresh then db_batch (w_db w) !! id = None /\
                w_db w' = set_batch (<[id := BatchRow workerID (w_now w) n]>) (w_db w)
  else is_Some (db_batch (w_db w) !! id) /\ w_db w' = w_db w.
Proof.
  unfold insert_batch. intros [E ?]%stmt_Ok. split; [done|]. destruct (uuid_of batch) as [id|]; [|done].
  exists id. split; [done|]. destruct (insert_nothing _ _ _) as [b t] eqn:Ei.
  destruct (insert_nothing_spec _ _ _ _ _ Ei) as [(-> & Hn & ->)|(-> & Hs & ->)]; injection E as <- <-; [done|].
  split; [done|]. by destruct (w_db w).
Qed.

Lemma attempt_begin w r w' : attempt (D := database) begin_commit w = (Ok r, w') ->
  w_db w' = w_db w /\ w_now w' = w_now w.
Proof.
  unfold attempt. destruct (begin_commit w) as [r1 w1] eqn:E. intros. simplify_eq.
  destruct r as [a|e]; [|by apply stmt_Err in E].
  unfold begin_commit in E. inv_ok. simplify_eq. done.
Qed.

Lemma insert_batch_known batch workerID n id w fresh w' : uuid_of batch = Some id ->
  is_Some (db_batch (w_db w) !! id) -> insert_batch batch workerID n w = (Ok fresh, w') -> fresh = false.
Proof.
  intros Hu [b Hb] (_ & id' & Hu' & H)%insert_batch_Ok. destruct fresh; [|done]. simplify_eq. destruct H. congruence.
Qed.

(** The committed outcome of an upload. *)
Lemma upload_Ok workerID keys req w out w' :
  upload_tx workerID keys req w = (Ok out, w') ->
  let rows := accepted_rows workerID keys (held_map (held_rows workerID (w_db w))) (Observations req) in
  exists id, uuid_of (BatchID req) = Some id /\
  match out with
  | Duplicate => w_db w' = w_db w /\ is_Some (db_batch (w_db w) !! id)
  | Stored a r =>
      db_batch (w_db w) !! id = None /\ a = Z.of_nat (length rows) /\
      a + r = Z.of_nat (length (Observations req)) /\
      w_db w' = set_observation (fun t => t ++ rows)
        (set_batch (<[id := BatchRow workerID (w_now w) (Z.of_nat (length (Observations req)))]>) (w_db w))
  end.
Proof.
  intros H%rollback_Ok. apply bindM_Ok in H as (u0 & w0 & [Eb0 En0]%begin_commit_Ok & H).
  apply bindM_Ok in H as (fresh & w1 & (En1 & id & Hu & Hf)%insert_batch_Ok & H).
  rewrite Eb0, En0 in *. exists id. split; [done|]. destruct fresh; simpl in H.
  - destruct Hf as [Hnone Ew1]. apply bindM_Ok in H as (hr & w2 & (-> & Ew2 & _)%query_Ok & H).
    assert (held_rows workerID (w_db w1) = held_rows workerID (w_db w)) as Eh by (by rewrite Ew1).
    rewrite validate_all_spec, Eh in H. cbn [app] in H. set (rows := accepted_rows _ _ _ _) in *.
    apply bindM_Ok in H as (u3 & w3 & Hc & H). inv_ok. split_and!; [done | done | lia |].
    destruct (Nat.ltb 0 (length rows)) eqn:El.
    + unfold copy_observations in Hc. inv_ok. destruct (forallb _ _); simplify_eq. congruence.
    + apply Nat.ltb_ge in El. assert (rows = []) as -> by (apply nil_length_inv; lia). inv_ok.
      assert (w_db w' = w_db w1) as -> by congruence. rewrite Ew1. unfold set_observation. simpl.
      by rewrite app_nil_r.
  - destruct Hf as [Hs Ew1]. apply bindM_Ok in H as (u2 & w2 & [Ew2 _]%attempt_begin & H). inv_ok.
    split; [congruence | done].
Qed.
(** The outcome when nothing fails, for a batch that is new and whose counts
    fit their columns. *)
Lemma upload_tx_nofault workerID keys req d n id :
  let rows := accepted_rows workerID keys (held_map (held_rows workerID d)) (Observations req) in
  uuid_of (BatchID req) = Some id -> db_batch d !! id = None ->
  Forall (fun r => fits_int32 (o_sent r) && fits_int32 (o_lost r) = true) rows ->
  exists rejected, upload_tx workerID keys req (World d n []) =
    (Ok (Stored (Z.of_nat (length rows)) rejected),
     World (set_observation (fun t => t ++ rows)
       (set_batch (<[id := BatchRow workerID n (Z.of_nat (length (Observations req)))]>) d)) n []).
Proof.
  intros rows Hu Hn Hf. unfold upload_tx, rollback, begin_commit. unfold bindM at 1. rewrite stmt_nofault.
  unfold bindM at 1, insert_batch. rewrite stmt_nofault, Hu. unfold insert_nothing. rewrite Hn. cbn [negb].
  unfold bindM at 1, query. rewrite stmt_nofault. rewrite validate_all_spec. cbn [app].
  change (held_rows workerID (set_batch _ d)) with (held_rows workerID d). fold rows.
  eexists. destruct (Nat.ltb 0 (length rows)) eqn:El.
  - unfold bindM at 1, copy_observations. rewrite stmt_nofault.
    rewrite (proj2 (forallb_forall _ rows)) by (intros r Hr; rewrite Forall_forall in Hf; by apply Hf, list_elem_of_In). done.
  - apply Nat.ltb_ge in El. assert (rows = []) as -> by (apply nil_length_inv; lia). unfold bindM. simpl.
    unfold set_observation. simpl. by rewrite app_nil_r.
Qed.
End Upload.

Section Properties.
Context {cr : Crypto} {oj : ObservationJSON} {at_ : AddrText} {ut : UuidText}.

(** C12: An upload is all or nothing, and stores exactly what it may.  On an
    error no table changed.  Otherwise either the batch was known and nothing
    changed, or the batch is recorded and one row is appended per accepted
    observation: accepted and rejected add up to the batch, every stored row
    is an observation of the batch signed by one of the worker's active keys,
    with a parsable target, for an assignment the worker holds a live lease
    on, filed under that assignment's provider; and every such observation is
    stored. *)
Theorem upload_spec workerID keys req w r w' :
  upload_tx workerID keys req w = (r, w') ->
  match r with
  | Err _ => w_db w' = w_db w
  | Ok Duplicate =>
      w_db w' = w_db w /\
      exists id, uuid_of (BatchID req) = Some id /\ is_Some (db_batch (w_db w) !! id)
  | Ok (Stored a rej) =>
      exists id rows, uuid_of (BatchID req) = Some id /\ db_batch (w_db w) !! id = None /\
      w_db w' = set_observation (fun t => t ++ rows)
        (set_batch (<[id := BatchRow workerID (w_now w) (Z.of_nat (length (Observations req)))]>) (w_db w)) /\
      a = Z.of_nat (length rows) /\ a + rej = Z.of_nat (length (Observations req)) /\
      (forall row, In row rows -> exists o ad p, In o (Observations req) /\ signed_by keys o /\
         ParseAddr (Target o) = Some ad /\ holds_lease workerID (w_db w) (AssignmentID o) p /\
         row = observation_of workerID o ad p) /\
      (forall o ad p, In o (Observations req) -> signed_by keys o -> ParseAddr (Target o) = Some ad ->
         holds_lease workerID (w_db w) (AssignmentID o) p ->
         exists q, In (observation_of workerID o ad q) rows)
  end.
Proof.
  intros H. destruct r as [out|e]; [|by apply rollback_Err in H].
  apply upload_Ok in H as (id & Hu & H). destruct out as [|a rej]; [naive_solver|].
  destruct H as (Hn & Ha & Hs & Hd). do 2 eexists. split_and!; try done.
  - intros row. apply accepted_sound.
  - intros o ad p. apply accepted_complete.
Qed.

(** Ingestion is idempotent: once a batch id is recorded, any later upload
    under it, by whatever worker and whatever it contains, leaves every table
    as it is; when no statement fails it is acknowledged as a duplicate. *)
Theorem upload_idempotent workerID keys req w id r w' :
  uuid_of (BatchID req) = Some id -> is_Some (db_batch (w_db w) !! id) ->
  upload_tx workerID keys req w = (r, w') ->
  w_db w' = w_db w /\ (w_faults w = [] -> r = Ok Duplicate).
Proof.
  intros Hu Hb H. split.
  - destruct r as [out|e]; [|by apply rollback_Err in H]. apply upload_Ok in H as (id' & Hu' & H).
    assert (id' = id) as -> by congruence. destruct out; [by destruct H|]. destruct H as [H _].
    rewrite H in Hb. by destruct Hb.
  - intros Hf. destruct w as [d n fs]. simpl in *. subst fs. revert H.
    unfold upload_tx, rollback, begin_commit, bindM, insert_batch. rewrite stmt_nofault, stmt_nofault, Hu.
    destruct Hb as [b Hb]. unfold insert_nothing. rewrite Hb. simpl. intros. by simplify_eq.
Qed.
End Properties.

(** A concrete instance, for evaluation. *)
Module ToyUpload.
Import Toy.
#[export] Instance toy_addr : AddrText := {|
  ParseAddr s := if bool_decide (s = "192.0.2.1"%string) then Some (Addr V4 3221225985) else None
|}.
#[export] Instance toy_uuid : UuidText := {|
  uuid_of s := if bool_decide (s = ""%string) then None else Some s
|}.
#[export] Instance toy_observation : ObservationJSON := {|
  Observation.marshal_observation o := Some ("obs:" +:+ Target o)
|}.

Definition unsigned (id : Z) (target : string) : Observation :=
  Observation.MkObservation id target "icmp" 50 true None 5 0 JNull "".
Definition signed (id : Z) (target : string) : Observation :=
  match Observation.Sign (unsigned id target) Toy.alice with Ok o => o | Err _ => unsigned id target end.

(** Four observations: one good, one unsigned, one for an unparsable target,
    one for an assignment that is not held. *)
Definition batch : uploadRequest :=
  UploadRequest "b1" [signed 1 "192.0.2.1"; unsigned 3 "192.0.2.1"; signed 3 "example"; signed 2 "192.0.2.1"].

Definition pubs : list string := [@Public toy_crypto alice].
Definition before : dbworld := World demo_leased 60 [].
Definition outcome : result upload_outcome * dbworld := upload_tx "w2" pubs batch before.
Definition again : dbworld := World (w_db outcome.2) 90 [].
End ToyUpload.
Import Toy ToyUpload.

Lemma upload_spec_witness :
  outcome.1 = Ok (Stored 1 3) /\
  exists id rows, uuid_of (BatchID batch) = Some id /\
    w_db outcome.2 = set_observation (fun t => t ++ rows)
        (set_batch (<[id := BatchRow "w2" (w_now before) (Z.of_nat (length (Observations batch)))]>) (w_db before)) /\
    1 = Z.of_nat (length rows).
Proof.
  assert (outcome.1 = Ok (Stored 1 3)) as E by (vm_compute; reflexivity). split; [exact E|].
  pose proof (upload_spec "w2" pubs batch before outcome.1 outcome.2 (surjective_pairing _)) as H.
  rewrite E in H. destruct H as (id & rows & H1 & _ & H2 & H3 & _). exists id, rows. split; [exact H1|].
  split; [exact H2 | exact H3].
Defined.

Lemma upload_idempotent_witness :
  w_db (upload_tx "w2" pubs batch again).2 = w_db again /\
  (upload_tx "w2" pubs batch again).1 = Ok Duplicate.
Proof.
  destruct (upload_idempotent "w2" pubs batch again "b1"
    (upload_tx "w2" pubs batch again).1 (upload_tx "w2" pubs batch again).2) as [H1 H2].
  - reflexivity.
  - vm_compute. eexists. reflexivity.
  - apply surjective_pairing.
  - split; [exact H1 | apply H2; reflexivity].
Defined.
