(* ===== verification/Server.v ===== *)
(** The coordinator's HTTP surface ([internal/coordinator/server.go],
    [rotation.go], the state-changing part of [admin.go] and the request side
    of [measurement.go]).

    A handler is a computation on [sys] that returns a response: every error
    of a call it makes is turned into a status, as in the code.  [endpoint] is
    the table of [New]; the decoders of JSON request bodies and of textual
    addresses are parameters. *)
From stdpp Require Import base gmap strings list.
From Stdlib Require Import ZArith NArith Lia.
From S2P Require Import Prelude Codec Netip Schema Wireauth Artifact Registry Leasing Upload.
Open Scope Z_scope.

Record Config : Type := MkConfig {
  AdminToken : string;
  HasAudit : bool;
  DevEnrollmentToken : string;
  SnapshotPollTTL : Z;
  LeaseTTL : Z;
  ResolveASN : option (addr -> option Z);
  MaxAssignmentsPerWorker : Z
}.

Record request : Type := Request {
  Method : string;
  Path : string;
  Auth : auth_headers;
  Authorization : string;
  RemoteAddr : string;
  Body : option string
}.

(** What a request reads from outside the program: the random bytes and the
    uuid of a new worker, and the assignment rows other transactions hold
    locked. *)
Record outside : Type := Outside {
  rand_bytes : option string;
  new_uuid : string;
  row_locks : Z -> bool
}.

Inductive body : Type :=
| BNone
| BProblem (detail : string)
| BWorker (id state : string)
| BHeartbeat (state : string) (config : gmap string json) (actions : list string) (snapshot : option string)
| BState (state : string)
| BManifest (m : Manifest)
| BArtifact (o : object) (size : Z)
| BLease (assignments : list leasedAssignment) (paused : bool)
| BUpload (o : upload_outcome)
| BOverlap (seconds : Z)
| BCreated (id token : string)
| BWorkers (l : list Worker)
| BRolledBack (version : string).

Record response : Type := Response { status : Z; content : body }.

Definition problem (st : Z) (detail : string) : SM response := ret (Response st (BProblem detail)).
Definition writeJSON (st : Z) (b : body) : SM response := ret (Response st b).
Definition no_content (st : Z) : SM response := ret (Response st BNone).

(** [io.LimitReader]: at most [n] bytes. *)
Fixpoint limit_reader (n : N) (s : string) : string :=
  match s with
  | EmptyString => EmptyString
  | String c s' => if N.eqb n 0 then EmptyString else String c (limit_reader (N.pred n) s')
  end.

(** A call whose error the handler answers itself. *)
Definition handle {A} (m : SM A) (bad : error -> SM response) (k : A -> SM response) : SM response :=
  let! r := attempt m in
  match r with Ok a => k a | Err e => bad e end.

Record registerRequest : Type := RegisterRequest {
  EnrollmentToken : string;
  PublicKey : string;
  ReqName : string;
  ReqVersion : string
}.

(** [encoding/json] into the request types; [None] is a decode error. *)
Class RequestJSON : Type := {
  decode_register : string -> option registerRequest;
  decode_heartbeat : string -> option string;
  decode_lease : string -> option Z;
  decode_release : string -> option (list Z);
  decode_upload : string -> option uploadRequest;
  decode_rotate : string -> option string;
  decode_create : string -> option (string * string);
  decode_state : string -> option (string * string)
}.
(** [net.SplitHostPort]: the host part. *)
Class HostPort : Type := { SplitHostPort : string -> option string }.

Record workerIdentity : Type := Identity { id_ID : string; id_State : worker_state }.

(** [KeyOverlap] of rotation.go. *)
Definition KeyOverlap : Z := 10 * Minute.

(** Error texts that reach a client. *)
Definition error_text (e : error) : string :=
  match e with
  | EDatabase => "database error"
  | ENoRows => "no rows in result set"
  | EConstraint n => n
  | EBadToken => "enrollment token invalid, used, or expired"
  | EUnknownWorker => "unknown worker"
  | EBadTransition f t => "illegal state transition: " +:+ f +:+ " → " +:+ t
  | EMsg m => m
  end.

Section Server.
Context {cr : Crypto} {tm : TimeText} {oj : Observation.ObservationJSON} {at_ : AddrText} {ut : UuidText}
  {rj : RequestJSON} {hp : HostPort}.
Variable cfg : Config.

Definition leaseTTL : Z := if 0 <? LeaseTTL cfg then LeaseTTL cfg else 5 * Minute.

(** [audit.Logger.Event]: best effort, and nothing on a nil logger. *)
Definition audit_event (category actor action subject : string) : SM unit :=
  if HasAudit cfg then
    do! attempt (lift (exec (fun now => set_audit (fun t =>
          t ++ [AuditRow category actor action subject now])))) ;; ret tt
  else ret tt.

(** ** Authentication *)
(** The first key that verifies the request gives the nonce. *)
Fixpoint verify_keys (method path : string) (h : auth_headers) (b : string) (now : Z) (keys : list string)
    : option string :=
  match keys with
  | [] => None
  | pub :: keys' =>
      match Wireauth.Verify method path h b pub now with
      | Ok nonce => Some nonce
      | Err _ => verify_keys method path h b now keys'
      end
  end.

(** The checks of [signed], up to calling the wrapped handler: either the
    answer that ends the request, or the identity and the body. *)
Definition authenticate (r : request) : SM (response + workerIdentity * string) :=
  let stop st detail := ret (inl (Response st (BProblem detail))) in
  let workerID := HeaderWorkerID (Auth r) in
  if bool_decide (workerID = "") then stop 401 "missing worker identity"
  else
    match Body r with
    | None => stop 400 "unreadable body"
    | Some raw =>
        let b := limit_reader (N.shiftl 8 20) raw in
        let! found := attempt (lift (ActiveKeys workerID)) in
        match found with
        | Err _ => stop 401 "unknown worker or no active key"
        | Ok (keys, state) =>
            let! now := clock in
            match verify_keys (Method r) (Path r) (Auth r) b now keys with
            | None =>
                do! lift (RecordTrustEvent workerID "bad_signature" "system") ;;
                stop 401 "signature verification failed"
            | Some nonce =>
                let! seen := attempt (lift (SeenNonce workerID nonce)) in
                match seen with
                | Err _ => stop 500 "auth check failed"
                | Ok true =>
                    do! lift (RecordTrustEvent workerID "replay" "system") ;;
                    stop 409 "nonce replay detected"
                | Ok false =>
                    match state with
                    | Suspended | Retired => stop 403 ("worker is " +:+ state_name state)
                    | _ => ret (inr (Identity workerID state, b))
                    end
                end
            end
        end
    end.

Definition signed (next : workerIdentity -> string -> SM response) (r : request) : SM response :=
  let! a := authenticate r in
  match a with
  | inl resp => ret resp
  | inr (id, b) => next id b
  end.

Definition admin (next : request -> SM response) (r : request) : SM response :=
  if bool_decide (AdminToken cfg = "") || negb (bool_decide (Authorization r = "Bearer " +:+ AdminToken cfg))
  then problem 401 "invalid admin credential"
  else next r.

(** A request body through [io.LimitReader(r.Body, limit)] and the decoder. *)
Definition read_json {A} (limit : N) (decode : string -> option A) (r : request) : option A :=
  match Body r with
  | None => None
  | Some raw => decode (limit_reader limit raw)
  end.

Definition adminPause (pause : bool) (r : request) : SM response :=
  do! memory (fun _ => set_paused pause) ;;
  let action := if pause then "scheduler_paused"%string else "scheduler_resumed"%string in
  do! audit_event "admin" "admin" action "" ;;
  no_content 204.

(** ** Worker endpoints *)
Definition recordSourceASN (r : request) (workerID : string) : SM unit :=
  match ResolveASN cfg with
  | None => ret tt
  | Some resolve =>
      let host := default (RemoteAddr r) (SplitHostPort (RemoteAddr r)) in
      match ParseAddr host with
      | None => ret tt
      | Some a =>
          match resolve a with
          | None => ret tt
          | Some asn => do! attempt (lift (exec (fun _ => set_worker (alter (with_asn asn) workerID)))) ;; ret tt
          end
      end
  end.

Definition devRegister (o : outside) (r : request) (req : registerRequest) (pub : string) : SM response :=
  let name := if bool_decide (ReqName req = "") then "dev-worker"%string else ReqName req in
  handle (let! c := lift (CreateWorker DevOperatorID name Minute (rand_bytes o) (new_uuid o)) in
          do! lift (Register c.2 pub (ReqVersion req)) ;;
          do! lift (SetState c.1 "active" "dev auto-enrollment" "system:dev") ;;
          ret c.1)
    (fun _ => problem 500 "registration failed")
    (fun workerID =>
      do! recordSourceASN r workerID ;;
      writeJSON 201 (BWorker workerID "active")).

Definition register (o : outside) (r : request) : SM response :=
  match read_json (N.shiftl 1 20) decode_register r with
  | None => problem 400 "invalid JSON body"
  | Some req =>
      match b64_decode (PublicKey req) with
      | None => problem 422 "public_key must be base64 of 32 bytes"
      | Some pub =>
          if negb (Nat.eqb (String.length pub) PublicKeySize)
          then problem 422 "public_key must be base64 of 32 bytes"
          else if negb (bool_decide (DevEnrollmentToken cfg = ""))
                  && bool_decide (EnrollmentToken req = DevEnrollmentToken cfg)
          then devRegister o r req pub
          else
            handle (lift (Register (EnrollmentToken req) pub (ReqVersion req)))
              (fun e => match e with
                        | EBadToken => problem 401 "enrollment token invalid, used, or expired"
                        | _ => problem 500 "registration failed"
                        end)
              (fun ws =>
                do! recordSourceASN r ws.1 ;;
                do! audit_event "auth" ("worker:" +:+ ws.1) "registered" ws.1 ;;
                writeJSON 201 (BWorker ws.1 (state_name ws.2)))
      end
  end.

(** [currentManifestCached]: the cached manifest while it is fresh, otherwise
    the pointer's; any failure keeps the cached one. *)
Definition currentManifestCached : SM (option Manifest) :=
  let ttl := if SnapshotPollTTL cfg =? 0 then 30 * Second else SnapshotPollTTL cfg in
  let! now := clock in
  let! s := read (fun _ s => s) in
  if is_some (sys_cached s) && (now - sys_fetched s <? ttl) then ret (sys_cached s)
  else
    let! p := attempt (Get PointerKey) in
    match p with
    | Err _ => ret (sys_cached s)
    | Ok rc =>
        match decode_pointer rc with
        | None => ret (sys_cached s)
        | Some ptr =>
            let! mo := attempt (Get (ptr_ManifestKey ptr)) in
            match mo with
            | Err _ => ret (sys_cached s)
            | Ok mrc =>
                match decode_manifest mrc with
                | None => ret (sys_cached s)
                | Some m => do! memory (fun t => set_cache (Some m) t) ;; ret (Some m)
                end
            end
        end
    end.

Definition invalidateManifestCache : SM unit :=
  memory (fun _ s => set_cache None (sys_fetched s) s).

Definition rotate_requested (config : gmap string json) : bool :=
  match config !! "rotate_requested"%string with Some (JBool b) => b | _ => false end.

Definition heartbeat (id : workerIdentity) (b : string) : SM response :=
  match decode_heartbeat b with
  | None => problem 400 "invalid JSON body"
  | Some version =>
      handle (lift (Heartbeat (id_ID id) version))
        (fun _ => problem 500 "heartbeat failed")
        (fun wk =>
          let actions := if rotate_requested (Registry.Config wk) then ["rotate_key"%string] else [] in
          let! m := currentManifestCached in
          let snapshot := match m with
                          | Some m => if bool_decide (State wk = Active) then Some (Version m) else None
                          | None => None
                          end in
          writeJSON 200 (BHeartbeat (state_name (State wk)) (Registry.Config wk) actions snapshot))
  end.

Definition me (id : workerIdentity) (b : string) : SM response :=
  writeJSON 200 (BWorker (id_ID id) (state_name (id_State id))).

Definition selfRetire (id : workerIdentity) (b : string) : SM response :=
  handle (lift (SetState (id_ID id) "retired" "operator requested" "worker"))
    (fun e => problem 409 (error_text e))
    (fun _ =>
      do! audit_event "lifecycle" ("worker:" +:+ id_ID id) "self_retire" (id_ID id) ;;
      writeJSON 200 (BState "retired")).

Definition currentManifest (id : workerIdentity) (b : string) : SM response :=
  let! m := currentManifestCached in
  match m with
  | None => problem 404 "no snapshot published yet"
  | Some m => writeJSON 200 (BManifest m)
  end.

Definition downloadArtifact (id : workerIdentity) (b : string) : SM response :=
  let! m := currentManifestCached in
  match m with
  | None => problem 404 "no snapshot published yet"
  | Some m =>
      handle (Get (ObjectKey m)) (fun _ => problem 502 "artifact store unavailable")
        (fun o => writeJSON 200 (BArtifact o (SizeBytes m)))
  end.

Definition leaseAssignments (o : outside) (id : workerIdentity) (b : string) : SM response :=
  match decode_lease b with
  | None => problem 400 "capacity must be a positive integer"
  | Some capacity =>
      if capacity <=? 0 then problem 400 "capacity must be a positive integer"
      else
        let! paused := read (fun _ s => sys_paused s) in
        if paused then writeJSON 200 (BLease [] true)
        else
          let max := MaxAssignmentsPerWorker cfg in
          let capacity := if (0 <? max) && (max <? capacity) then max else capacity in
          handle (lift (lease_tx (id_ID id) capacity leaseTTL (row_locks o)))
            (fun _ => problem 500 "lease failed")
            (fun out => writeJSON 200 (BLease out false))
  end.

Definition releaseAssignments (id : workerIdentity) (b : string) : SM response :=
  match decode_release b with
  | None => problem 400 "invalid JSON body"
  | Some ids =>
      handle (lift (release_stmt (id_ID id) ids)) (fun _ => problem 500 "release failed")
        (fun _ => no_content 204)
  end.

Definition uploadObservations (id : workerIdentity) (b : string) : SM response :=
  match decode_upload (limit_reader (N.shiftl 8 20) b) with
  | None => problem 400 "invalid JSON body"
  | Some req =>
      if bool_decide (BatchID req = "") || Nat.eqb (length (Observations req)) 0
      then problem 422 "batch_id and observations are required"
      else
        handle (lift (ActiveKeys (id_ID id))) (fun _ => problem 401 "no active key")
          (fun ks =>
            handle (lift (upload_tx (id_ID id) ks.1 req)) (fun _ => problem 500 "upload failed")
              (fun out => writeJSON (match out with Duplicate => 200 | Stored _ _ => 202 end) (BUpload out)))
  end.

Definition rotateKey (id : workerIdentity) (b : string) : SM response :=
  match decode_rotate (limit_reader (N.shiftl 1 20) b) with
  | None => problem 400 "invalid JSON body"
  | Some next =>
      match b64_decode next with
      | None => problem 422 "next_public_key must be base64 of 32 bytes"
      | Some raw =>
          if negb (Nat.eqb (String.length raw) PublicKeySize)
          then problem 422 "next_public_key must be base64 of 32 bytes"
          else
            handle (lift (RotateKey (id_ID id) raw KeyOverlap)) (fun _ => problem 500 "rotation failed")
              (fun _ =>
                do! audit_event "auth" ("worker:" +:+ id_ID id) "key_rotated" (id_ID id) ;;
                writeJSON 200 (BOverlap (KeyOverlap / Second)))
      end
  end.

(** ** Admin endpoints *)
Definition adminCreateWorker (o : outside) (r : request) : SM response :=
  match read_json (N.shiftl 1 20) decode_create r with
  | None => problem 400 "name is required"
  | Some (name, operator) =>
      if bool_decide (name = "") then problem 400 "name is required"
      else
        let operator := if bool_decide (operator = "") then DevOperatorID else operator in
        handle (lift (CreateWorker operator name (24 * Hour) (rand_bytes o) (new_uuid o)))
          (fun _ => problem 500 "create failed")
          (fun c => writeJSON 201 (BCreated c.1 c.2))
  end.

Definition adminListWorkers (r : request) : SM response :=
  handle (lift List_) (fun _ => problem 500 "list failed") (fun l => writeJSON 200 (BWorkers l)).

Definition adminSetState (workerID : string) (r : request) : SM response :=
  match read_json (N.shiftl 1 20) decode_state r with
  | None => problem 400 "invalid JSON body"
  | Some (state, reason) =>
      handle (lift (SetState workerID state reason "admin"))
        (fun e => match e with
                  | EUnknownWorker => problem 404 "unknown worker"
                  | EBadTransition _ _ => problem 409 (error_text e)
                  | _ => problem 500 "transition failed"
                  end)
        (fun _ =>
          do! audit_event "admin" "admin" ("worker_state:" +:+ state) workerID ;;
          no_content 204)
  end.

Definition adminRequestRotation (workerID : string) (r : request) : SM response :=
  handle (lift (RequestRotation workerID)) (fun _ => problem 404 "unknown worker")
    (fun _ =>
      do! audit_event "admin" "admin" "rotation_requested" workerID ;;
      no_content 202).

Definition adminRollbackSnapshot (version : string) (r : request) : SM response :=
  handle (RollbackTo version) (fun e => problem 409 (error_text e))
    (fun _ =>
      do! invalidateManifestCache ;;
      do! audit_event "admin" "admin" "snapshot_rollback" version ;;
      writeJSON 200 (BRolledBack version)).

(** ** The routing table of [New] *)
Inductive endpoint : Type :=
| EpRegister | EpHeartbeat | EpMe | EpManifest | EpDownload | EpLease | EpRelease | EpObservations
| EpRotate | EpRetire
| EpAdminCreate | EpAdminList | EpAdminState (id : string) | EpAdminRotate (id : string)
| EpAdminPause | EpAdminResume | EpAdminRollback (version : string).

Definition serve (o : outside) (e : endpoint) (r : request) : SM response :=
  match e with
  | EpRegister => register o r
  | EpHeartbeat => signed heartbeat r
  | EpMe => signed me r
  | EpManifest => signed currentManifest r
  | EpDownload => signed downloadArtifact r
  | EpLease => signed (leaseAssignments o) r
  | EpRelease => signed releaseAssignments r
  | EpObservations => signed uploadObservations r
  | EpRotate => signed rotateKey r
  | EpRetire => signed selfRetire r
  | EpAdminCreate => admin (adminCreateWorker o) r
  | EpAdminList => admin adminListWorkers r
  | EpAdminState id => admin (adminSetState id) r
  | EpAdminRotate id => admin (adminRequestRotation id) r
  | EpAdminPause => admin (adminPause true) r
  | EpAdminResume => admin (adminPause false) r
  | EpAdminRollback version => admin (adminRollbackSnapshot version) r
  end.

(** One tick of [StartMaintenance]. *)
Definition maintenance : SM unit :=
  do! attempt (lift (PruneNonces (2 * MaxSkew))) ;; ret tt.
End Server.

Lemma limit_reader_short n s : (N.of_nat (String.length s) <= n)%N -> limit_reader n s = s.
Proof.
  revert n. induction s as [|c s IH]; intros n Hn; [done|]. simpl in *.
  rewrite (proj2 (N.eqb_neq n 0)) by lia. by rewrite IH by lia.
Qed.

(** * What the handlers promise

    A two-state property of the registry tables that every store call respects
    and that does not look at other tables (nor at a worker's source ASN) is
    respected by every endpoint and by maintenance. *)
Definition strip_asn (r : worker_row) : worker_row :=
  WorkerRow (w_operator r) (w_name r) (w_state r) (w_reason r) (w_version r) None
    (w_enrolled_at r) (w_approved_at r) (w_retired_at r) (w_heartbeat_at r) (w_config r).

Definition registry_view (d : database)
    : gmap string worker_row * list key_row * gmap string token_row * gmap (string * string) Z :=
  (strip_asn <$> db_worker d, db_worker_key d, db_token d, db_nonce d).

Class Tolerant (R : Z -> database -> database -> Prop) : Prop :=
  tolerant : forall n d d', registry_view d' = registry_view d -> R n d d'.

#[global] Instance Lifecycle_tolerant : Tolerant Lifecycle.
Proof.
  intros n d d' E id. injection E as E _ _ _. apply (f_equal (lookup id)) in E. rewrite !lookup_fmap in E.
  destruct (db_worker d !! id) as [r|], (db_worker d' !! id) as [r'|]; simpl in E; try done.
  apply (inj Some), (f_equal w_state) in E. simpl in E. rewrite E. apply rtc_refl.
Qed.
#[global] Instance TokensOnce_tolerant : Tolerant TokensOnce.
Proof. intros n d d' E. injection E as _ _ E _. by apply TokensOnce_same. Qed.
#[global] Instance KeysFinal_tolerant : Tolerant KeysFinal.
Proof. intros n d d' E. injection E as _ E _ _. by apply KeysFinal_same. Qed.
#[global] Instance OneCurrentKey_tolerant : Tolerant (Keeps OneCurrentKey).
Proof. intros n d d' E. injection E as _ E _ _. by apply OneCurrentKey_same. Qed.
#[global] Instance NonceKept_tolerant : Tolerant NonceKept.
Proof. intros n d d' E. injection E as _ _ _ E. by apply NonceKept_same. Qed.

Lemma alter_asn_view asn id d : registry_view (set_worker (alter (with_asn asn) id) d) = registry_view d.
Proof.
  unfold registry_view. simpl. do 3 f_equal. apply map_eq. intros i. rewrite !lookup_fmap.
  destruct (decide (i = id)) as [->|Hn]; [rewrite lookup_alter_eq | by rewrite lookup_alter_ne].
  by destruct (db_worker d !! id).
Qed.

Section Promise.
Context (R : Z -> database -> database -> Prop) {po : PreOrderAt R} {tol : Tolerant R}.

Lemma respects_foreign {A} (f : Z -> database -> result (A * database)) :
  (forall n d a d', f n d = Ok (a, d') -> registry_view d' = registry_view d) -> Respects R (stmt f).
Proof. intros Hf. apply respects_stmt; [done|]. intros. apply tolerant. eauto. Qed.

Lemma lease_tx_tolerant id cap ttl locks : Respects R (lease_tx id cap ttl locks).
Proof.
  unfold lease_tx, renew_leases, reap_expired, claim. respects; try (apply tolerant; done).
  case_match; simplify_eq. by apply tolerant.
Qed.

Lemma upload_tx_tolerant {cr : Crypto} {oj : Observation.ObservationJSON} {at_ : AddrText} {ut : UuidText} id keys req :
  Respects R (upload_tx id keys req).
Proof.
  unfold upload_tx, begin_commit, insert_batch, copy_observations.
  respects; repeat case_match; simplify_eq; by apply tolerant.
Qed.
End Promise.

(** What the endpoints need of the database calls that are not registry
    operations; a [Tolerant] relation has it at once. *)
Class HandlerPromise {cr : Crypto} {oj : Observation.ObservationJSON} {at_ : AddrText} {ut : UuidText}
    (R : Z -> database -> database -> Prop) : Prop := {
  lease_tx_respects : forall id cap ttl locks, Respects R (lease_tx id cap ttl locks);
  release_respects : forall id ids, Respects R (release_stmt id ids);
  upload_tx_respects : forall id keys req, Respects R (upload_tx id keys req);
  flip_respects : forall id, Respects R (flip id);
  audit_rows : forall n d f, R n d (set_audit f d);
  source_asn_rows : forall n d asn id, R n d (set_worker (alter (with_asn asn) id) d)
}.
#[global] Instance tolerant_handlers {cr : Crypto} {oj : Observation.ObservationJSON} {at_ : AddrText} {ut : UuidText}
    R `{!PreOrderAt R} `{!Tolerant R} : HandlerPromise R.
Proof.
  split; intros.
  - by apply lease_tx_tolerant.
  - unfold release_stmt. respects. by apply tolerant.
  - by apply upload_tx_tolerant.
  - unfold flip. respects; by apply tolerant.
  - by apply tolerant.
  - apply tolerant, alter_asn_view.
Qed.

Section SysPromise.
Context (R : Z -> database -> database -> Prop) {po : PreOrderAt R}.

Lemma store_respects_sys (f : gmap string object -> gmap string object) :
  Respects (OnDB R) (exec (fun _ => set_sys_store f)).
Proof. apply respects_exec; [apply _|]. intros n s. unfold OnDB. simpl. apply at_refl. Qed.

Lemma Get_respects key : Respects (OnDB R) (Get key).
Proof. unfold Get. apply respects_stmt; [apply _|]. intros. case_match; simplify_eq. apply at_refl. Qed.

Lemma RollbackTo_respects version : (forall id, Respects R (flip id)) -> Respects (OnDB R) (RollbackTo version).
Proof.
  intros Hf. unfold RollbackTo, SetCurrent, Put.
  repeat first [ apply store_respects_sys | apply respects_lift | apply Hf
               | apply respects_clock; apply _ | progress respects ].
  unfold OnDB. simpl. apply at_refl.
Qed.

Lemma respects_handle {A} (m : SM A) bad k :
  Respects (OnDB R) m -> (forall e, Respects (OnDB R) (bad e)) -> (forall a, Respects (OnDB R) (k a)) ->
  Respects (OnDB R) (handle m bad k).
Proof. intros. unfold handle. respects; auto. Qed.
End SysPromise.

#[export] Hint Resolve lease_tx_respects release_respects upload_tx_respects flip_respects Get_respects
  RollbackTo_respects : vapn.

(** One step of [Respects (OnDB R)] over a handler. *)
Ltac handler_step :=
  match goal with
  | |- Respects _ (handle _ _ _) => apply respects_handle; [apply _| | |]
  | |- Respects _ (lift _) => apply respects_lift
  | |- Respects _ (memory _) => apply respects_memory
  | |- Respects _ (read _) => apply respects_read; apply _
  | |- Respects _ clock => apply respects_clock; apply _
  | |- Respects _ (problem _ _) => unfold problem
  | |- Respects _ (writeJSON _ _) => unfold writeJSON
  | |- Respects _ (no_content _) => unfold no_content
  end.
Ltac handler := repeat first [ solve [eauto with vapn typeclass_instances] | handler_step | progress respects ].

Section Endpoints.
Context {cr : Crypto} {tm : TimeText} {oj : Observation.ObservationJSON} {at_ : AddrText} {ut : UuidText}
  {rj : RequestJSON} {hp : HostPort}.
Variable cfg : Config.
Context (R : Z -> database -> database -> Prop) {po : PreOrderAt R} {sp : StorePromise R} {hpr : HandlerPromise R}.

Lemma audit_respects c a ac s : Respects (OnDB R) (audit_event cfg c a ac s).
Proof. unfold audit_event. handler; apply audit_rows. Qed.

Lemma recordSourceASN_respects r id : Respects (OnDB R) (recordSourceASN cfg r id).
Proof. unfold recordSourceASN. handler; apply source_asn_rows. Qed.

Lemma manifest_respects : Respects (OnDB R) (currentManifestCached cfg).
Proof. unfold currentManifestCached. handler; unfold OnDB; simpl; apply at_refl. Qed.

Lemma authenticate_respects r : Respects (OnDB R) (authenticate r).
Proof. unfold authenticate. handler. Qed.

Lemma signed_respects next r : (forall id b, Respects (OnDB R) (next id b)) -> Respects (OnDB R) (signed next r).
Proof. intros H. unfold signed. respects; [apply authenticate_respects|auto]. Qed.

Lemma admin_respects next r : (forall r, Respects (OnDB R) (next r)) -> Respects (OnDB R) (admin cfg next r).
Proof. intros H. unfold admin. handler. Qed.

Lemma serve_respects o e r : Respects (OnDB R) (serve cfg o e r).
Proof.
  pose proof audit_respects as Ha. pose proof recordSourceASN_respects as Hr. pose proof manifest_respects as Hm.
  destruct e; simpl; try (apply signed_respects; intros); try (apply admin_respects; intros);
    unfold register, devRegister, heartbeat, me, currentManifest, downloadArtifact, leaseAssignments,
      releaseAssignments, uploadObservations, rotateKey, selfRetire, adminCreateWorker, adminListWorkers,
      adminSetState, adminRequestRotation, adminPause, adminRollbackSnapshot, invalidateManifestCache;
    handler; unfold OnDB; simpl; apply at_refl.
Qed.

Lemma maintenance_respects : Respects (OnDB R) maintenance.
Proof. unfold maintenance. handler. Qed.
End Endpoints.

(** * Every request is answered *)
Definition Total {D A} (m : M D A) : Prop := forall w, exists a w', m w = (Ok a, w').

Lemma total_ret {D A} (a : A) : Total (D := D) (ret a).
Proof. intros w. unfold ret. eauto. Qed.
Lemma total_bind {D A B} (m : M D A) (k : A -> M D B) : Total m -> (forall a, Total (k a)) -> Total (bindM m k).
Proof. intros Hm Hk w. unfold bindM. destruct (Hm w) as (a & w1 & ->). apply Hk. Qed.
Lemma total_attempt {D A} (m : M D A) : Total (attempt m).
Proof. intros w. unfold attempt. destruct (m w) as [r w1]. eauto. Qed.
Lemma total_clock {D} : Total (D := D) clock.
Proof. intros w. unfold clock. eauto. Qed.
Lemma total_read {A} (f : Z -> sys -> A) : Total (read f).
Proof. intros w. unfold read. eauto. Qed.
Lemma total_memory f : Total (memory f).
Proof. intros w. unfold memory. eauto. Qed.
Lemma total_lift {A} (m : DB A) : Total m -> Total (lift m).
Proof. intros Hm w. unfold lift. destruct (Hm (World (sys_db (w_db w)) (w_now w) (w_faults w))) as (a & w1 & ->). eauto. Qed.
Lemma total_handle {A} (m : SM A) bad k : (forall e, Total (bad e)) -> (forall a, Total (k a)) -> Total (handle m bad k).
Proof. intros Hb Hk. unfold handle. apply total_bind; [apply total_attempt|]. intros []; auto. Qed.
Lemma total_trust_event id e a : Total (RecordTrustEvent id e a).
Proof. unfold RecordTrustEvent. apply total_bind; [apply total_attempt|]. intros. apply total_ret. Qed.
#[export] Hint Resolve total_ret total_bind total_attempt total_clock total_read total_memory total_lift total_handle
  total_trust_event : vapn.

Ltac total :=
  repeat match goal with
  | |- forall _, _ => intros ?
  | |- Total (problem _ _) => unfold problem
  | |- Total (writeJSON _ _) => unfold writeJSON
  | |- Total (no_content _) => unfold no_content
  | |- Total (bindM _ _) => apply total_bind
  | |- Total (handle _ _ _) => apply total_handle
  | |- Total (match ?x with _ => _ end) => destruct x
  | |- Total (if ?x then _ else _) => destruct x
  | |- Total _ => solve [auto with vapn]
  end.

(** ** What a call may return *)
Definition Returns {D A} (P : A -> Prop) (m : M D A) : Prop := forall w a w', m w = (Ok a, w') -> P a.
Lemma returns_ret {D A} (P : A -> Prop) a : P a -> Returns (D := D) P (ret a).
Proof. intros HP w a' w' E. unfold ret in E. by simplify_eq. Qed.
Lemma returns_bind {D A B} (P : B -> Prop) (m : M D A) (k : A -> M D B) :
  (forall a, Returns P (k a)) -> Returns P (bindM m k).
Proof. intros Hk w b w' (a & w1 & _ & E)%bindM_Ok. by eapply Hk. Qed.

(** * Sequences of requests *)
Section Traces.
Context {cr : Crypto} {tm : TimeText} {oj : Observation.ObservationJSON} {at_ : AddrText} {ut : UuidText}
  {rj : RequestJSON} {hp : HostPort}.
Variable cfg : Config.

(** What can happen between two requests: any request to any endpoint, a
    maintenance tick, or another process writing tables other than the
    registry's. *)
Inductive event : Type :=
| EvRequest (o : outside) (e : endpoint) (r : request)
| EvMaintenance
| EvOther (f : sys -> sys) (Hf : forall s, registry_view (sys_db (f s)) = registry_view (sys_db s)).
Record step : Type := Step { st_now : Z; st_faults : list bool; st_event : event }.

Definition run_step (s : sys) (x : step) : sys :=
  match st_event x with
  | EvRequest o e r => w_db (serve cfg o e r (World s (st_now x) (st_faults x))).2
  | EvMaintenance => w_db (maintenance (World s (st_now x) (st_faults x))).2
  | EvOther f _ => f s
  end.
Definition run_steps (s : sys) (xs : list step) : sys := foldl run_step s xs.

Lemma step_respects R `{!PreOrderAt R} `{!StorePromise R} `{!Tolerant R} s x :
  OnDB R (st_now x) s (run_step s x).
Proof.
  unfold run_step. destruct (st_event x) as [o e r| |f Hf].
  - destruct (serve _ _ _ _ _) as [resp w'] eqn:E. exact (proj2 (serve_respects cfg R o e r _ _ _ E)).
  - destruct (maintenance _) as [resp w'] eqn:E. exact (proj2 (maintenance_respects R _ _ _ E)).
  - unfold OnDB. by apply tolerant.
Qed.

Lemma steps_respect (R : database -> database -> Prop) `{!PreOrderAt (fun _ => R)} `{!StorePromise (fun _ => R)}
    `{!Tolerant (fun _ => R)} s xs : R (sys_db s) (sys_db (run_steps s xs)).
Proof.
  revert s. induction xs as [|x xs IH]; intros s; [apply (at_refl (R := fun _ => R) 0)|].
  simpl. apply (at_trans (R := fun _ => R) 0) with (sys_db (run_step s x)); [|apply IH].
  apply (step_respects (fun _ => R)).
Qed.

Lemma nonce_survives s xs k t :
  db_nonce (sys_db s) !! k = Some t -> (forall x, In x xs -> st_now x - 2 * MaxSkew <= t) ->
  db_nonce (sys_db (run_steps s xs)) !! k = Some t.
Proof.
  revert s. induction xs as [|x xs IH]; intros s Hk Hx; [done|]. simpl. apply IH; [|intros; apply Hx; by right].
  apply (step_respects NonceKept s x k t Hk). apply Hx. by left.
Qed.

(** ** Authentication *)
Lemma lift_Ok {A} (m : DB A) w a w' : lift m w = (Ok a, w') ->
  exists dw', m (World (sys_db (w_db w)) (w_now w) (w_faults w)) = (Ok a, dw') /\
    w_db w' = set_sys_db (w_db dw') (w_db w) /\ w_now w' = w_now dw'.
Proof. apply lift_run. Qed.

Lemma attempt_Ok {D A} (m : M D A) w r w' : attempt m w = (Ok r, w') -> m w = (r, w').
Proof. unfold attempt. destruct (m w). intros. by simplify_eq. Qed.

Lemma verify_keys_Some method path h b now keys nonce :
  verify_keys method path h b now keys = Some nonce ->
  exists pub, In pub keys /\ Wireauth.Verify method path h b pub now = Ok nonce.
Proof.
  induction keys as [|k keys IH]; simpl; [done|]. destruct (Wireauth.Verify _ _ _ _ k _) eqn:E; intros H.
  - simplify_eq. eauto.
  - destruct (IH H) as (pub & ? & ?). eauto.
Qed.

Lemma ActiveKeys_Ok id w keys st w' : ActiveKeys id w = (Ok (keys, st), w') ->
  keys = active_keys_of (w_now w) id (w_db w) /\ w_db w' = w_db w /\ w_now w' = w_now w /\
  exists r, db_worker (w_db w) !! id = Some r /\ st = w_state r.
Proof.
  unfold ActiveKeys. intros [E ?]%stmt_Ok. destruct (db_worker (w_db w) !! id) as [r|]; [|done].
  destruct (active_keys_of _ _ _) eqn:Ek; [done|]. simplify_eq. eauto 6.
Qed.

Lemma SeenNonce_Ok id nonce w seen w' : SeenNonce id nonce w = (Ok seen, w') ->
  w_now w' = w_now w /\
  if seen then is_Some (db_nonce (w_db w) !! (id, nonce)) /\ w_db w' = w_db w
  else db_nonce (w_db w) !! (id, nonce) = None /\
       w_db w' = set_nonce (<[(id, nonce) := w_now w]>) (w_db w).
Proof.
  unfold SeenNonce. intros [E ?]%stmt_Ok. split; [done|]. destruct (db_worker (w_db w) !! id); [|done].
  destruct (insert_nothing _ _ _) as [b t] eqn:Ei.
  destruct (insert_nothing_spec _ _ _ _ _ Ei) as [(-> & Hn & ->)|(-> & Hs & ->)]; simpl in E; injection E as <- <-;
    [done|]. split; [done|]. by destruct (w_db w).
Qed.

(** Everything an authenticated request has shown. *)
Lemma authenticate_inr r w id b w' :
  authenticate r w = (Ok (inr (id, b)), w') ->
  exists wr pub nonce, id = Identity (HeaderWorkerID (Auth r)) (w_state wr) /\
    db_worker (sys_db (w_db w)) !! id_ID id = Some wr /\
    w_state wr <> Suspended /\ w_state wr <> Retired /\
    In pub (active_keys_of (w_now w) (id_ID id) (sys_db (w_db w))) /\
    Wireauth.Verify (Method r) (Path r) (Auth r) b pub (w_now w) = Ok nonce /\
    db_nonce (sys_db (w_db w)) !! (id_ID id, nonce) = None /\ w_now w' = w_now w /\
    w_db w' = set_sys_db (set_nonce (<[(id_ID id, nonce) := w_now w]>) (sys_db (w_db w))) (w_db w).
Proof.
  unfold authenticate. cbv zeta. case_bool_decide; [intros; inv_ok; done|].
  destruct (Body r) as [raw|]; [|intros; inv_ok; done]. intros H0.
  apply bindM_Ok in H0 as (found & w1 & H1 & H0). apply attempt_Ok, lift_run in H1 as (dw & H1 & Ed & En).
  destruct found as [[keys st]|e]; [|inv_ok; done]. apply ActiveKeys_Ok in H1 as (-> & Edw & Enw & wr & Hr & ->).
  simpl in *. rewrite Edw, set_sys_db_id in Ed.
  apply bindM_Ok in H0 as (now & w2 & [-> ->]%clock_Ok & H0). destruct (verify_keys _ _ _ _ _ _) as [nonce|] eqn:Ev; cycle 1.
  { apply bindM_Ok in H0 as (u & w3 & _ & H0). inv_ok. done. }
  apply bindM_Ok in H0 as (seen & w3 & H2 & H0). apply attempt_Ok, lift_run in H2 as (dw2 & H2 & Ed2 & En2).
  destruct seen as [[]|e]; [apply bindM_Ok in H0 as (u & w4 & _ & H0); inv_ok; done | | inv_ok; done].
  apply SeenNonce_Ok in H2 as (Hn2 & Hnone & Hdb). simpl in *.
  apply verify_keys_Some in Ev as (pub & Hin & Hv).
  assert (w_now w1 = w_now w) as Ew1 by congruence. rewrite Ew1, Ed in *.
  destruct (w_state wr) eqn:Es; inv_ok; exists wr, pub, nonce; rewrite Es; simpl;
    (split_and!; [done | done | done | done | done | done | done | congruence |]); rewrite Ed2, Hdb; done.
Qed.
End Traces.

Section Properties.
Context {cr : Crypto} {tm : TimeText} {oj : Observation.ObservationJSON} {at_ : AddrText} {ut : UuidText}
  {rj : RequestJSON} {hp : HostPort}.
Variable cfg : Config.

(** C10: A request that passes the signed middleware comes from a registered
    worker that is neither suspended nor retired, carries a signature over its
    method, path, timestamp, nonce and body under one of the keys valid for
    that worker now, and a nonce not seen before; all the middleware changed
    is that the nonce is now recorded. *)
Theorem authenticate_sound r w id b w' :
  authenticate r w = (Ok (inr (id, b)), w') ->
  exists wr pub nonce, id = Identity (HeaderWorkerID (Auth r)) (w_state wr) /\
    db_worker (sys_db (w_db w)) !! id_ID id = Some wr /\
    w_state wr <> Suspended /\ w_state wr <> Retired /\
    In pub (active_keys_of (w_now w) (id_ID id) (sys_db (w_db w))) /\
    authentic (Method r) (Path r) (Auth r) b pub nonce /\
    db_nonce (sys_db (w_db w)) !! (id_ID id, nonce) = None /\
    w_db w' = set_sys_db (set_nonce (<[(id_ID id, nonce) := w_now w]>) (sys_db (w_db w))) (w_db w).
Proof.
  intros (wr & pub & nonce & E1 & E2 & E3 & E4 & E5 & [E6 _]%Verify_Ok & E7 & _ & E8)%authenticate_inr.
  exists wr, pub, nonce. split_and!; done.
Qed.


(** The admin surface is closed without the credential: with no admin
    token configured, or any other Authorization header, every admin endpoint
    answers 401 and nothing at all changes. *)
Theorem admin_closed o e r w :
  (AdminToken cfg = ""%string \/ Authorization r <> ("Bearer " +:+ AdminToken cfg)%string) ->
  match e with
  | EpAdminCreate | EpAdminList | EpAdminState _ | EpAdminRotate _ | EpAdminPause | EpAdminResume
  | EpAdminRollback _ => serve cfg o e r w = (Ok (Response 401 (BProblem "invalid admin credential")), w)
  | _ => True
  end.
Proof.
  intros H. assert (forall next, admin cfg next r w = (Ok (Response 401 (BProblem "invalid admin credential")), w)) as Ha.
  { intros next. unfold admin. destruct H as [->|H]; [done|]. rewrite (bool_decide_false _ H), orb_true_r. done. }
  destruct e; simpl; auto.
Qed.

(** Every request to every endpoint is answered with a response, whatever
    it carries and whatever calls fail: no error escapes a handler. *)
Theorem serve_total o e r w : exists resp w', serve cfg o e r w = (Ok resp, w').
Proof.
  assert (forall c a ac s, Total (audit_event cfg c a ac s)) as Ha by (unfold audit_event; total).
  assert (forall id, Total (recordSourceASN cfg r id)) as Hr by (unfold recordSourceASN; total).
  assert (Total (currentManifestCached cfg)) as Hm by (unfold currentManifestCached; total).
  assert (Total (authenticate r)) as Hau by (unfold authenticate; total).
  enough (Total (serve cfg o e r)) as Ht by apply Ht.
  destruct e; simpl; unfold signed, admin, register, devRegister, heartbeat, me, currentManifest, downloadArtifact,
    leaseAssignments, releaseAssignments, uploadObservations, rotateKey, selfRetire, adminCreateWorker,
    adminListWorkers, adminSetState, adminRequestRotation, adminPause, adminRollbackSnapshot,
    invalidateManifestCache; total.
Qed.


Lemma authenticate_scheduling r : Respects (OnDB (fun _ d d' =>
  db_lease d' = db_lease d /\ db_assignment d' = db_assignment d)) (authenticate r).
Proof.
  assert (PreOrderAt (fun (_ : Z) d d' => db_lease d' = db_lease d /\ db_assignment d' = db_assignment d)) as Hp
    by (split; naive_solver congruence).
  unfold authenticate, ActiveKeys, RecordTrustEvent, SeenNonce, insert_trust_event. handler;
    repeat case_match; simplify_eq; done.
Qed.

Lemma authenticate_inl r w resp w' : authenticate r w = (Ok (inl resp), w') ->
  exists st detail, resp = Response st (BProblem detail).
Proof.
  enough (Returns (fun a => match a with inl resp => exists st detail, resp = Response st (BProblem detail) | inr _ => True end)
    (authenticate r)) as H by apply H.
  unfold authenticate. cbv zeta.
  repeat match goal with
  | |- forall _, _ => intros ?
  | |- Returns _ (ret _) => apply returns_ret; eauto
  | |- Returns _ (bindM _ _) => apply returns_bind
  | |- Returns _ (match ?x with _ => _ end) => destruct x
  | |- Returns _ (if ?x then _ else _) => destruct x
  end.
Qed.

(** The kill switch: while assignment is paused no lease request changes
    any assignment or lease, and one that is answered with assignments is
    answered with none. *)
Theorem paused_leases_nothing o r w resp w' :
  sys_paused (w_db w) = true ->
  serve cfg o EpLease r w = (Ok resp, w') ->
  db_lease (sys_db (w_db w')) = db_lease (sys_db (w_db w)) /\
  db_assignment (sys_db (w_db w')) = db_assignment (sys_db (w_db w)) /\
  forall l p, content resp = BLease l p -> l = [] /\ p = true.
Proof.
  intros Hp H. simpl in H. unfold signed in H. apply bindM_Ok in H as (a & w1 & H1 & H).
  pose proof (authenticate_scheduling r w _ w1 H1) as [_ [El Ea]].
  destruct a as [resp1|[id b]].
  - inv_ok. apply authenticate_inl in H1 as (st & detail & ->). split_and!; done.
  - apply authenticate_inr in H1 as (wr & pub & nonce & _ & _ & _ & _ & _ & _ & _ & _ & Ed).
    assert (sys_paused (w_db w1) = true) as Hp1 by (by rewrite Ed).
    unfold leaseAssignments, problem, writeJSON in H. destruct (decode_lease b) as [cap|]; [|inv_ok; done].
    destruct (cap <=? 0); [inv_ok; done|]. apply bindM_Ok in H as (p & w2 & [-> ->]%read_Ok & H).
    rewrite Hp1 in H. inv_ok. split_and!; try done. intros l p E. simpl in E. by simplify_eq.
Qed.

Lemma lift_store {A} (m : DB A) w r w' : lift m w = (r, w') -> sys_store (w_db w') = sys_store (w_db w).
Proof. intros (dw & _ & -> & _)%lift_run. done. Qed.

Lemma RollbackTo_store version w u w' : RollbackTo version w = (Ok u, w') ->
  exists t, sys_store (w_db w') = <[PointerKey := OPointer (MkPointer version (ObjectKeyManifest version) t)]>
                                    (sys_store (w_db w)).
Proof.
  unfold RollbackTo. intros H. apply bindM_Ok in H as (found & w1 & E1%attempt_Ok%lift_store & H).
  destruct found as [s|]; [|done]. apply bindM_Ok in H as (n & w2 & E2%lift_store & H).
  destruct (Nat.eqb _ _); [done|]. apply bindM_Ok in H as (v & w3 & E3%lift_store & H).
  unfold SetCurrent in H. inv_sys. exists (w_now w3). match goal with H : w_db w' = _ |- _ => rewrite H end.
  simpl. congruence.
Qed.

Lemma Get_found key o s n : sys_store s !! key = Some o -> Get key (World s n []) = (Ok o, World s n []).
Proof. intros H. unfold Get, stmt. simpl. by rewrite H. Qed.

(** A rollback is visible at once: when it answers success and the store
    holds the version's manifest, the very next manifest lookup, at any time,
    answers that manifest rather than the cached one. *)
Theorem rollback_visible o version r w w' m n :
  serve cfg o (EpAdminRollback version) r w = (Ok (Response 200 (BRolledBack version)), w') ->
  sys_store (w_db w) !! ObjectKeyManifest version = Some (OManifest m) ->
  (currentManifestCached cfg (World (w_db w') n [])).1 = Ok (Some m).
Proof.
  simpl. unfold admin. destruct (_ || _); [unfold problem; intros; inv_ok; done|].
  unfold adminRollbackSnapshot, handle, writeJSON, problem. intros H Hm.
  apply bindM_Ok in H as (res & w1 & E1%attempt_Ok & H). destruct res as [u|e]; [|inv_ok; done].
  apply RollbackTo_store in E1 as (t & E1). apply bindM_Ok in H as (u2 & w2 & E2 & H).
  apply bindM_Ok in H as (u3 & w3 & E3 & H). unfold ret in H. injection H as <-.
  assert (sys_cached (w_db w3) = None /\ sys_store (w_db w3) = sys_store (w_db w1)) as [Ec Es].
  { assert (sys_cached (w_db w2) = None /\ sys_store (w_db w2) = sys_store (w_db w1)) as [Hc2 Hs2].
    { unfold invalidateManifestCache, memory in E2. by simplify_eq. }
    rewrite <- Hs2, <- Hc2. unfold audit_event in E3. destruct (HasAudit cfg); [|by inv_ok].
    apply bindM_Ok in E3 as (a & w4 & E4%attempt_Ok & E5). inv_ok.
    apply lift_run in E4 as (dw & _ & -> & _). done. }
  unfold currentManifestCached, bindM, clock, read. cbn [w_db w_now]. rewrite Ec. cbn [is_some andb]. unfold attempt.
  rewrite (Get_found PointerKey (OPointer (MkPointer version (ObjectKeyManifest version) t)))
    by (rewrite Es, E1; apply lookup_insert_eq).
  cbn [decode_pointer ptr_ManifestKey]. rewrite (Get_found _ (OManifest m)); [done|].
  rewrite Es, E1, lookup_insert_ne; [done|]. intros E. by apply (manifest_not_pointer version).
Qed.
End Properties.

(** A concrete instance, for evaluation. *)
Module ToyServer.
Import Toy ToyUpload.
#[export] Instance toy_requests : RequestJSON := {|
  decode_register _ := None; decode_heartbeat s := Some s;
  decode_lease s := if bool_decide (s = "5"%string) then Some 5 else None;
  decode_release _ := Some []; decode_upload _ := None; decode_rotate _ := None;
  decode_create _ := None; decode_state _ := None
|}.
#[export] Instance toy_hostport : HostPort := {| SplitHostPort _ := None |}.

Definition toy_cfg : Config := MkConfig "s3cret" true "" 0 0 None 0.
Definition toy_outside : outside := Outside None "u1" (fun _ => false).

(** Worker [w2] of the scheduling example, registered with alice's key. *)
Definition toy_db : database :=
  set_worker_key (fun _ => [KeyRow 1 "w2" (@Public toy_crypto alice) 0 None None None]) demo_scheduled.
Definition toy_sys (paused : bool) : sys := Sys toy_db ∅ paused None 0.

Definition toy_headers : auth_headers :=
  match @Wireauth.Sign toy_crypto toy_time "POST" "/api/v1/assignments/lease" "w2" alice "5" (Some "n1"%string) (60 * Second) with
  | Ok h => h
  | Err _ => AuthHeaders "" "" "" ""
  end.
Definition toy_request : request :=
  Request "POST" "/api/v1/assignments/lease" toy_headers "" "198.51.100.7:4000" (Some "5"%string).

Definition toy_world (paused : bool) : sysworld := World (toy_sys paused) (61 * Second) [].
Definition toy_auth : result (response + workerIdentity * string) * sysworld := authenticate toy_request (toy_world false).
Definition toy_identity : workerIdentity := Identity "w2" Active.

(** A minute later, after a maintenance tick. *)
Definition toy_steps : list step := [Step (100 * Second) [] EvMaintenance].
Definition toy_later : sysworld := World (run_steps toy_cfg (w_db toy_auth.2) toy_steps) (121 * Second) [].

Definition toy_manifest : Manifest := MkManifest "v1" 0 "k" "" 0 0 0 0 "" "".
Definition toy_rollback : sysworld :=
  World (Sys (set_prefix (fun _ => [PrefixRow 1 1 (Prefix (Addr V4 0) 8) 1 None None 1 [] false]) demo_db)
           {[ ObjectKeyManifest "v1" := OManifest toy_manifest ]} false
           (Some (MkManifest "v2" 0 "k" "" 0 0 0 0 "" "")) (60 * Second)) (61 * Second) [].
Definition toy_admin : request := Request "POST" "" (AuthHeaders "" "" "" "") "Bearer s3cret" "" None.
Definition toy_rolled : sysworld :=
  (serve toy_cfg toy_outside (EpAdminRollback "v1") toy_admin toy_rollback).2.
End ToyServer.
Import Toy ToyUpload ToyServer.

Lemma toy_auth_runs : authenticate toy_request (toy_world false) = (Ok (inr (toy_identity, "5"%string)), toy_auth.2).
Proof. vm_compute. reflexivity. Qed.

Lemma authenticate_sound_witness :
  exists wr pub nonce, In pub (active_keys_of (61 * Second) "w2" toy_db) /\ w_state wr <> Suspended /\
    authentic "POST" "/api/v1/assignments/lease" toy_headers "5" pub nonce.
Proof.
  destruct (authenticate_sound toy_request (toy_world false) toy_identity "5" toy_auth.2 toy_auth_runs)
    as (wr & pub & nonce & _ & _ & H1 & _ & H2 & H3 & _).
  exists wr, pub, nonce. split; [exact H2|]. split; [exact H1 | exact H3].
Defined.


Lemma admin_closed_witness :
  serve toy_cfg toy_outside (EpAdminRollback "v1") toy_request toy_rollback
  = (Ok (Response 401 (BProblem "invalid admin credential")), toy_rollback).
Proof.
  apply (admin_closed toy_cfg toy_outside (EpAdminRollback "v1") toy_request toy_rollback).
  right. vm_compute. discriminate.
Defined.

Lemma paused_leases_nothing_witness :
  exists resp w', serve toy_cfg toy_outside EpLease toy_request (toy_world true) = (Ok resp, w') /\
    status resp = 200 /\ db_lease (sys_db (w_db w')) = db_lease (sys_db (w_db (toy_world true))).
Proof.
  assert (exists resp, (serve toy_cfg toy_outside EpLease toy_request (toy_world true)).1 = Ok resp /\ status resp = 200)
    as (resp & E & Hs) by (vm_compute; eexists; split; reflexivity).
  assert (serve toy_cfg toy_outside EpLease toy_request (toy_world true)
    = (Ok resp, (serve toy_cfg toy_outside EpLease toy_request (toy_world true)).2)) as E2
    by (rewrite <- E; apply surjective_pairing).
  exists resp, (serve toy_cfg toy_outside EpLease toy_request (toy_world true)).2. split; [exact E2|].
  split; [exact Hs|].
  exact (proj1 (paused_leases_nothing toy_cfg toy_outside toy_request (toy_world true) resp _ eq_refl E2)).
Defined.

Lemma rollback_visible_witness :
  (currentManifestCached toy_cfg (World (w_db toy_rolled) (62 * Second) [])).1 = Ok (Some toy_manifest).
Proof.
  apply (rollback_visible toy_cfg toy_outside "v1" toy_admin toy_rollback toy_rolled).
  - vm_compute. reflexivity.
  - vm_compute. reflexivity.
Defined.
