(* ===== verification/Trust.v ===== *)
(** [internal/trust]: the trust score statement.

    Scores are exact rationals; [round(x, 3)] of the stored components is
    written out.  The only way the statement can fail is the division of the
    tenure ramp, when a worker was approved exactly fourteen days in the
    future. *)
From stdpp Require Import base gmap strings list.
From Stdlib Require Import ZArith QArith Qround Qminmax Lqa Lia.
From S2P Require Import Prelude Schema Netip.
Open Scope Z_scope.

Definition Day : Z := 24 * Hour.

(** * Rational helpers *)
Definition Qsum (l : list Q) : Q := foldr Qplus 0%Q l.
Definition Qcount {A} (l : list A) : Q := inject_Z (Z.of_nat (length l)).
(** SQL's [avg]: null on no rows. *)
Definition Qavg (l : list Q) : option Q :=
  match l with [] => None | _ => Some (Qsum l / Qcount l)%Q end.
Definition unit_interval (q : Q) : Prop := (0 <= q)%Q /\ (q <= 1)%Q.
(** [round(q, 3)], half away from zero. *)
Definition round3 (q : Q) : Q :=
  if Qle_bool 0 q then Qmake (Qfloor (q * 1000 + (1 # 2))) 1000
  else Qmake (- Qfloor (- q * 1000 + (1 # 2))) 1000.

(** * The components *)
Definition availability (now : Z) (r : worker_row) : Q :=
  match w_heartbeat_at r with
  | None => 0
  | Some t =>
      if now - 5 * Minute <? t then 1
      else if now - Hour <? t then 1 # 2
      else 0
  end.

Definition days_since (now t : Z) : Q := (inject_Z (now - t) / inject_Z Day)%Q.

(** [None] is a division by zero. *)
Definition tenure (now : Z) (r : worker_row) : option Q :=
  match w_approved_at r with
  | None => Some 0%Q
  | Some t =>
      let d := days_since now t in
      if Qeq_bool (d + 14) 0 then None else Some (d / (d + 14))%Q
  end.

Definition agreements (now : Z) (id : string) (d : database) : list Q :=
  map (fun kv => ag_agreement kv.2)
    (List.filter (fun kv : (string * Z) * agreement_row =>
        bool_decide (kv.1.1 = id) && (now - Day <? kv.1.2)) (map_to_list (db_agreement d))).
Definition agreement (now : Z) (id : string) (d : database) : Q :=
  default (1 # 2)%Q (Qavg (agreements now id d)).

Definition security_events (now : Z) (id : string) (d : database) : nat :=
  count_rows (fun e => bool_decide (te_worker e = id) && (now - 7 * Day <? te_created_at e)
      && (bool_decide (te_type e = "bad_signature") || bool_decide (te_type e = "replay")))
    (db_trust_event d).
Definition penalty (now : Z) (id : string) (d : database) : Q :=
  Qmin (1 # 2) ((1 # 10) * inject_Z (Z.of_nat (security_events now id d)))%Q.

Definition clamp01 (q : Q) : Q := Qmax 0 (Qmin 1 q).
Definition raw_score (avail tenure agreement penalty : Q) : Q :=
  (avail * ((1 # 5) + (3 # 10) * tenure) + (1 # 2) * agreement - penalty)%Q.
Definition score (avail tenure agreement penalty : Q) : Q := clamp01 (raw_score avail tenure agreement penalty).

Definition trust_of (now : Z) (id : string) (r : worker_row) (d : database) : option trust_row :=
  t ← tenure now r;
  let a := availability now r in
  let g := agreement now id d in
  let p := penalty now id d in
  Some (TrustRow (score a t g p) (round3 a) (round3 t) (round3 g) (round3 p) now).

(** [ComputeAll]: one upsert per worker that is not retired. *)
Definition scored (d : database) : list (string * worker_row) :=
  List.filter (fun kv : string * worker_row => negb (bool_decide (w_state kv.2 = Retired))) (map_to_list (db_worker d)).

Fixpoint upsert_all (rows : list (string * trust_row)) (t : gmap string trust_row) : gmap string trust_row :=
  match rows with [] => t | (id, r) :: rows' => upsert_all rows' (<[id := r]> t) end.

Definition ComputeAll : DB unit :=
  stmt (fun now d =>
    match mapM (fun '(id, r) => (fun t => (id, t)) <$> trust_of now id r d) (scored d) with
    | None => Err (EConstraint "division by zero")
    | Some rows => Ok (tt, set_trust_score (upsert_all rows) d)
    end).

(** * Lemmas *)
Lemma clamp01_unit q : unit_interval (clamp01 q).
Proof.
  unfold clamp01, unit_interval. split; [apply Q.le_max_l|]. apply Q.max_lub; [discriminate | apply Q.le_min_l].
Qed.

Lemma clamp01_mono p q : (p <= q)%Q -> (clamp01 p <= clamp01 q)%Q.
Proof. intros H. unfold clamp01. apply Q.max_le_compat_l, Q.min_le_compat_l, H. Qed.

Lemma clamp01_id q : unit_interval q -> (clamp01 q == q)%Q.
Proof. intros [H1 H2]. unfold clamp01. rewrite Q.min_r by done. by rewrite Q.max_r. Qed.

Lemma availability_unit now r : unit_interval (availability now r).
Proof.
  unfold availability, unit_interval. destruct (w_heartbeat_at r); [|split; discriminate].
  repeat case_match; split; discriminate.
Qed.

Lemma days_nonneg now t : t <= now -> (0 <= days_since now t)%Q.
Proof.
  intros H. unfold days_since. apply Qle_shift_div_l; [reflexivity|]. rewrite Qmult_0_l.
  unfold Qle. simpl. lia.
Qed.

Lemma ramp_unit d : (0 <= d)%Q -> unit_interval (d / (d + 14)).
Proof.
  intros H. split.
  - apply Qle_shift_div_l; [lra|]. lra.
  - apply Qle_shift_div_r; [lra|]. lra.
Qed.

Lemma tenure_unit now r t : (forall a, w_approved_at r = Some a -> a <= now) ->
  tenure now r = Some t -> unit_interval t.
Proof.
  unfold tenure. intros Ha. destruct (w_approved_at r) as [a|]; [|intros; simplify_eq; split; discriminate].
  destruct (Qeq_bool _ _); [done|]. intros. simplify_eq. apply ramp_unit, days_nonneg. auto.
Qed.

Lemma tenure_defined now r : (forall a, w_approved_at r = Some a -> a <= now) -> is_Some (tenure now r).
Proof.
  unfold tenure. intros Ha. destruct (w_approved_at r) as [a|]; [|eauto].
  destruct (Qeq_bool _ _) eqn:E; [|eauto]. apply Qeq_bool_iff in E.
  pose proof (days_nonneg now a (Ha a eq_refl)). lra.
Qed.

Lemma Qsum_bounds l : (forall q, In q l -> unit_interval q) -> (0 <= Qsum l)%Q /\ (Qsum l <= Qcount l)%Q.
Proof.
  induction l as [|q l IH]; intros H; [split; discriminate|].
  destruct IH as [I1 I2]; [intros; apply H; by right|]. destruct (H q (or_introl eq_refl)) as [Q1 Q2].
  assert (Qcount (q :: l) == 1 + Qcount l)%Q as ->.
  { unfold Qcount. simpl length. rewrite Nat2Z.inj_succ, <- Z.add_1_l, inject_Z_plus. reflexivity. }
  unfold Qsum in *. simpl. split; lra.
Qed.

Lemma Qcount_pos {A} (x : A) l : (0 < Qcount (x :: l))%Q.
Proof. unfold Qcount, Qlt. simpl. lia. Qed.

(** An average of values in the unit interval stays there. *)
Lemma Qavg_unit l q : (forall x, In x l -> unit_interval x) -> Qavg l = Some q -> unit_interval q.
Proof.
  intros H. unfold Qavg. destruct l as [|x l]; [done|]. intros. simplify_eq.
  destruct (Qsum_bounds (x :: l) H) as [H1 H2]. pose proof (Qcount_pos x l) as Hp. split.
  - apply Qle_shift_div_l; [done|]. lra.
  - apply Qle_shift_div_r; [done|]. lra.
Qed.

Lemma penalty_bounds now id d : (0 <= penalty now id d)%Q /\ (penalty now id d <= 1 # 2)%Q.
Proof.
  unfold penalty. split; [|apply Q.le_min_l]. apply Q.min_glb; [discriminate|].
  apply Qmult_le_0_compat; [discriminate|]. unfold Qle. simpl. lia.
Qed.

Lemma upsert_all_lookup rows t id :
  NoDup (map fst rows) ->
  upsert_all rows t !! id = match (list_to_map rows : gmap string trust_row) !! id with Some r => Some r | None => t !! id end.
Proof.
  revert t. induction rows as [|[i r] rows IH]; intros t Hnd; simpl; [by rewrite lookup_empty|].
  apply NoDup_cons in Hnd as [Hi Hnd]. rewrite IH by done. destruct (decide (i = id)) as [->|Hn].
  - rewrite lookup_insert_eq. rewrite not_elem_of_list_to_map_1 by done. by rewrite lookup_insert_eq.
  - by rewrite !lookup_insert_ne.
Qed.

Lemma scored_In d id r : In (id, r) (scored d) <-> db_worker d !! id = Some r /\ w_state r <> Retired.
Proof.
  unfold scored. rewrite filter_In, <- list_elem_of_In, elem_of_map_to_list. simpl.
  rewrite negb_true_iff, bool_decide_eq_false. done.
Qed.

Lemma scored_NoDup d : NoDup (map fst (scored d)).
Proof.
  assert (forall l : list (string * worker_row), NoDup (map fst l) ->
    NoDup (map fst (List.filter (fun kv => negb (bool_decide (w_state kv.2 = Retired))) l))) as H.
  { induction l as [|x l IH]; simpl; [done|]. intros [Hx Hl]%NoDup_cons.
    destruct (negb _); simpl; [|auto]. apply NoDup_cons. split; [|auto].
    intros (y & Hy & [Hin _]%filter_In)%list_elem_of_In%in_map_iff. apply Hx, list_elem_of_In, in_map_iff. eauto. }
  apply H, NoDup_fst_map_to_list.
Qed.

Lemma mapM_pair_lookup {A B} (f : string -> A -> option B) (l : list (string * A)) rows :
  mapM (fun '(id, r) => (fun t => (id, t)) <$> f id r) l = Some rows ->
  map fst rows = map fst l /\ forall id r, In (id, r) l -> exists t, f id r = Some t /\ In (id, t) rows.
Proof.
  revert rows. induction l as [|[i a] l IH]; intros rows; simpl.
  - intros E. injection E as <-. split; [done | intros ? ? []].
  - destruct (f i a) as [t|] eqn:Ef; simpl; [|done].
    destruct (mapM _ l) as [rows'|] eqn:Em; simpl; [|done]. intros E. injection E as <-.
    destruct (IH rows' eq_refl) as [E1 E2]. split; [by simpl; f_equal|].
    intros id r [E|Hin]; [injection E as <- <-; exists t; split; [done | by left]|].
    destruct (E2 id r Hin) as (t' & ? & ?). exists t'. split; [done | by right].
Qed.

Lemma mapM_defined {A B} (f : A -> option B) l : (forall x, In x l -> is_Some (f x)) -> is_Some (mapM f l).
Proof.
  induction l as [|x l IH]; intros H; simpl; [eauto|].
  destruct (H x (or_introl eq_refl)) as [y ->]. simpl. destruct IH as [ys ->]; [intros; apply H; by right|]. eauto.
Qed.

Definition approved_past (now : Z) (d : database) : Prop :=
  forall id r a, db_worker d !! id = Some r -> w_approved_at r = Some a -> a <= now.


(** The score rewards what the documentation says.  For components in
    range the upper clamp is never needed; more tenure, more agreement and
    fewer security events never lower a score; and a worker with no agreement
    history cannot exceed 0.45 plus 0.3 times its tenure, however available it
    is. *)
Theorem trust_shape a t g p :
  unit_interval a -> unit_interval t -> unit_interval g -> (0 <= p)%Q ->
  (score a t g p == Qmax 0 (raw_score a t g p))%Q /\
  (forall t' g' p', (t <= t')%Q -> (g <= g')%Q -> (p' <= p)%Q -> (score a t g p <= score a t' g' p')%Q) /\
  (g == 1 # 2 -> score a t g p <= (9 # 20) + (3 # 10) * t)%Q.
Proof.
  intros [A1 A2] [T1 T2] [G1 G2] Hp.
  assert (a * t <= 1 * t)%Q as At by (apply Qmult_le_compat_r; done).
  assert (0 <= a * t)%Q as At0 by (by apply Qmult_le_0_compat).
  split_and!.
  - unfold score, clamp01. rewrite Q.min_r; [reflexivity|]. unfold raw_score. lra.
  - intros t' g' p' Ht Hg Hp'. apply clamp01_mono. unfold raw_score.
    assert (a * t <= a * t')%Q by (rewrite (Qmult_comm a t), (Qmult_comm a t'); by apply Qmult_le_compat_r). lra.
  - intros Eg. unfold score, clamp01. apply Q.max_lub; [lra|]. eapply Qle_trans; [apply Q.le_min_r|].
    unfold raw_score. rewrite Eg. lra.
Qed.

(** * Concrete inputs *)
Definition trust_db : database :=
  set_worker (fun _ => {[ "w" := WorkerRow "op" "w" Active None None None 0 (Some 0) None (Some (14 * Day)) ∅ ]}) empty_db.


Lemma trust_shape_witness : (score 1 (1 # 2) (1 # 2) 0 <= (9 # 20) + (3 # 10) * (1 # 2))%Q.
Proof.
  refine (proj2 (proj2 (trust_shape 1 (1 # 2) (1 # 2) 0 _ _ _ _)) _);
    first [split; discriminate | discriminate | reflexivity].
Defined.
