(* ===== verification/Consensus.v ===== *)
(** [internal/aggregate]: settling a consensus window ([ComputeWindow]) and
    retention.

    The two insert statements are written out CTE by CTE under the names they
    have in the code.  Ratios are exact rationals; [percentile_cont]
    interpolates on the sorted values. *)
From stdpp Require Import base gmap strings list.
From Stdlib Require Import ZArith QArith Qround Qabs Qminmax Lqa Lia.
From S2P Require Import Prelude Netip Schema Leasing Trust.
Open Scope Z_scope.

Record AggConfig : Type := MkAggConfig {
  WindowSeconds : Z;
  MinWorkers : Z;
  HealthyRatio : Q;
  DegradedRatio : Q;
  LatencyFactor : Q;
  TargetWindow : Z;
  RawRetention : Z;
  WindowRetention : Z
}.

Definition withDefaults (c : AggConfig) : AggConfig :=
  MkAggConfig
    (if WindowSeconds c <=? 0 then 300 else WindowSeconds c)
    (if MinWorkers c <=? 0 then 3 else MinWorkers c)
    (if Qle_bool (HealthyRatio c) 0 then 9 # 10 else HealthyRatio c)
    (if Qle_bool (DegradedRatio c) 0 then 1 # 2 else DegradedRatio c)
    (if Qle_bool (LatencyFactor c) 0 then 2 else LatencyFactor c)
    (if TargetWindow c <=? 0 then 24 * Hour else TargetWindow c)
    (if RawRetention c <=? 0 then 14 * 24 * Hour else RawRetention c)
    (if WindowRetention c <=? 0 then 90 * 24 * Hour else WindowRetention c).

(** * Grouping and aggregates *)
Section Group.
Context {A K : Type} {Keq : EqDecision K}.
Definition group_keys (key : A -> K) (l : list A) : list K := remove_dups (map key l).
Definition group (key : A -> K) (k : K) (l : list A) : list A :=
  List.filter (fun x => bool_decide (key x = k)) l.
End Group.

Fixpoint insert_sorted (q : Q) (l : list Q) : list Q :=
  match l with
  | [] => [q]
  | x :: l' => if Qle_bool q x then q :: l else x :: insert_sorted q l'
  end.
Definition sort_Q (l : list Q) : list Q := foldr insert_sorted [] l.
(** [percentile_cont(p) within group (order by x)]. *)
Definition percentile_cont (p : Q) (l : list Q) : option Q :=
  match sort_Q l with
  | [] => None
  | s =>
      let pos := (p * inject_Z (Z.of_nat (length s) - 1))%Q in
      let i := Z.to_nat (Qfloor pos) in
      let lo := nth i s 0%Q in
      let hi := nth (S i) s lo in
      Some (lo + (pos - inject_Z (Qfloor pos)) * (hi - lo))%Q
  end.

Definition bool_Q (b : bool) : Q := if b then 1 else 0.

(** * The shared CTEs *)
Definition region_of (country : option string) : string :=
  match country with
  | Some c => if bool_decide (c = "") then "ZZ" else c
  | None => "ZZ"
  end.

Definition worker_in (states : list worker_state) (id : string) (d : database) : bool :=
  match db_worker d !! id with Some r => bool_decide (w_state r ∈ states) | None => false end.
Definition in_window (from to : Z) (o : observation_row) : bool :=
  (from <=? o_measured_at o) && (o_measured_at o <? to).

(** [tgeo]: the region of every target of a published snapshot. *)
Definition tgeo (d : database) : list (string * addr * string) :=
  map (fun t => (tg_provider t, tg_address t, region_of (tg_country t)))
    (select (fun t => snapshot_published (tg_snapshot t) d) (db_target d)).

Record obs_row : Type := ObsRow {
  ob_provider : string; ob_region : string; ob_target : addr; ob_worker : string;
  ob_ok : bool; ob_rtt : option Q
}.

(** [obs]: the left join yields a row per matching region, or [ZZ]. *)
Definition regions_for (o : observation_row) (d : database) : list string :=
  match omap (fun '(p, a, r) => if bool_decide (p = o_provider o) && bool_decide (a = o_target o)
                                then Some r else None) (tgeo d) with
  | [] => ["ZZ"%string]
  | rs => rs
  end.
Definition obs (from to : Z) (d : database) : list obs_row :=
  flat_map (fun o => map (fun r => ObsRow (o_provider o) r (o_target o) (o_worker o) (o_ok o) (o_rtt o)) (regions_for o d))
    (select (fun o => in_window from to o && worker_in [Active] (o_worker o) d) (db_observation d)).

(** [responsive]: targets that answered anyone in the trailing 24 hours. *)
Definition responsive (from to : Z) (d : database) (provider : string) (target : addr) : bool :=
  exists_row (fun o => in_window (from - 24 * Hour) to o && o_ok o
      && bool_decide (o_provider o = provider) && bool_decide (o_target o = target)) (db_observation d).

Record pwt_row : Type := PwtRow {
  pw_provider : string; pw_region : string; pw_target : addr; pw_worker : string;
  pw_ok_ratio : Q; pw_weight : Q
}.

(** The trust weight, floor 0.1. *)
Definition weight (worker : string) (d : database) : Q :=
  match db_trust_score d !! worker with Some ts => Qmax (ts_score ts) (1 # 10) | None => 1 # 10 end.
Definition ok_ratio (l : list bool) : Q := default 0%Q (Qavg (map bool_Q l)).

(** [per_worker_target] with [weighted]. *)
Definition weighted (from to : Z) (d : database) : list pwt_row :=
  let key := fun o => (ob_provider o, ob_region o, ob_target o, ob_worker o) in
  map (fun k => let '(p, r, t, w) := k in
        PwtRow p r t w (ok_ratio (map ob_ok (group key k (obs from to d)))) (weight w d))
    (group_keys key (obs from to d)).

Definition votes_up (x : pwt_row) : bool := Qle_bool (1 # 2) (pw_ok_ratio x).
Definition weight_sum (l : list pwt_row) : Q := Qsum (map pw_weight l).
(** [sum(weight) filter (where ok_ratio >= 0.5) / nullif(sum(weight), 0)]:
    null when nobody voted up, or on no weight. *)
Definition up_weight (l : list pwt_row) : option Q :=
  match List.filter votes_up l with
  | [] => None
  | ups => if Qeq_bool (weight_sum l) 0 then None else Some (weight_sum ups / weight_sum l)%Q
  end.
Definition is_up (u : option Q) : bool := match u with Some q => Qle_bool (1 # 2) q | None => false end.

Record pt_row : Type := PtRow {
  pt_provider : string; pt_region : string; pt_target : addr; pt_up : option Q; pt_workers : Z
}.

Definition per_target (from to : Z) (d : database) : list pt_row :=
  let key := fun x => (pw_provider x, pw_region x, pw_target x) in
  let rows := List.filter (fun x => responsive from to d (pw_provider x) (pw_target x)) (weighted from to d) in
  map (fun k => let '(p, r, t) := k in
        PtRow p r t (up_weight (group key k rows))
          (Z.of_nat (length (remove_dups (map pw_worker (group key k rows))))))
    (group_keys key rows).

Record rollup_row : Type := RollupRow {
  ro_provider : string; ro_region : string; ro_measured : Z; ro_up : Z; ro_workers : Z; ro_dissent : option Q
}.

Definition dissent_of (u : option Q) : Q :=
  (2 * Qmin (default 0 u) (1 - default 0 u))%Q.
Definition rollup (provider region : string) (l : list pt_row) : rollup_row :=
  RollupRow provider region (Z.of_nat (length l))
    (Z.of_nat (length (List.filter (fun x => is_up (pt_up x)) l)))
    (foldr Z.max 0 (map pt_workers l))
    (Qavg (map (fun x => dissent_of (pt_up x)) l)).

(** [group by provider_id, grouping sets ((), (region))]. *)
Definition provider_rollup (from to : Z) (d : database) : list rollup_row :=
  let l := per_target from to d in
  map (fun p => rollup p "global" (group pt_provider p l)) (group_keys pt_provider l) ++
  map (fun '(p, r) => rollup p r (group (fun x => (pt_provider x, pt_region x)) (p, r) l))
    (group_keys (fun x => (pt_provider x, pt_region x)) l).

Definition rtt_rows (from to : Z) (d : database) (provider region : string) : list obs_row :=
  List.filter (fun o => (is_some (ob_rtt o) || negb (ob_ok o)) && bool_decide (ob_provider o = provider)
      && (bool_decide (region = "global") || bool_decide (ob_region o = region))) (obs from to d).

Definition verdict_of (cfg : AggConfig) (r : rollup_row) : verdict :=
  if (ro_workers r <? MinWorkers cfg) || (ro_measured r =? 0) then InsufficientData
  else
    let ratio := (inject_Z (ro_up r) / inject_Z (ro_measured r))%Q in
    if Qle_bool (HealthyRatio cfg) ratio then Healthy
    else if Qle_bool (DegradedRatio cfg) ratio then Degraded
    else Outage.

Definition confidence_of (cfg : AggConfig) (r : rollup_row) : Q :=
  if ro_workers r <? MinWorkers cfg then 0%Q
  else (Qmin 1 (inject_Z (ro_workers r) / inject_Z (MinWorkers cfg * 2)) * (1 - default 0 (ro_dissent r)))%Q.

Definition window_of (cfg : AggConfig) (from to : Z) (d : database) (r : rollup_row) : window_row :=
  let rtts := rtt_rows from to d (ro_provider r) (ro_region r) in
  let values := omap ob_rtt rtts in
  WindowRow (ro_provider r) (ro_region r) "icmp" from (WindowSeconds cfg)
    (verdict_of cfg r) (confidence_of cfg r) (ro_workers r) (default 0%Q (ro_dissent r))
    (Qavg (map (fun o => bool_Q (negb (ob_ok o))) rtts))
    (percentile_cont (1 # 2) values) (percentile_cont (95 # 100) values) (percentile_cont (99 # 100) values)
    (ro_measured r) (ro_up r).

Definition window_key (w : window_row) : string * string * string * Z * Z :=
  (cw_provider w, cw_region w, cw_probe w, cw_start w, cw_seconds w).

(** [on conflict ... do nothing], row by row. *)
Fixpoint insert_windows (rows : list window_row) (t : list window_row) : list window_row :=
  match rows with
  | [] => t
  | r :: rows' =>
      insert_windows rows' (if exists_row (fun x => bool_decide (window_key x = window_key r)) t then t else t ++ [r])
  end.

Definition settle_windows (cfg : AggConfig) (from to : Z) : DB unit :=
  exec (fun _ d => set_window (insert_windows (map (window_of cfg from to d) (provider_rollup from to d))) d).

(** * Worker agreement *)
Record ag_row : Type := AgRow {
  agr_provider : string; agr_target : addr; agr_worker : string; agr_ok_ratio : Q; agr_weight : Q
}.

Definition ag_votes (from to : Z) (d : database) : list ag_row :=
  let os := select (fun o => in_window from to o && worker_in [Active; Quarantined] (o_worker o) d) (db_observation d) in
  let key := fun o => (o_provider o, o_target o, o_worker o) in
  map (fun k => let '(p, t, w) := k in AgRow p t w (ok_ratio (map o_ok (group key k os))) (weight w d))
    (group_keys key os).

(** The settled state of one target, null when nobody voted up (read as
    false by the [case]). *)
Definition consensus_up (provider : string) (target : addr) (votes : list ag_row) : bool :=
  let l := List.filter (fun x => bool_decide (agr_provider x = provider) && bool_decide (agr_target x = target)) votes in
  let ups := List.filter (fun x => Qle_bool (1 # 2) (agr_ok_ratio x)) l in
  match ups with
  | [] => false
  | _ => if Qeq_bool (Qsum (map agr_weight l)) 0 then false
         else Qle_bool (1 # 2) (Qsum (map agr_weight ups) / Qsum (map agr_weight l))
  end.

Definition agreement_one (votes : list ag_row) (x : ag_row) : Q :=
  (1 - Qabs.Qabs (agr_ok_ratio x - bool_Q (consensus_up (agr_provider x) (agr_target x) votes)))%Q.

Definition agreement_rows (from to : Z) (d : database) : list (string * agreement_row) :=
  let votes := ag_votes from to d in
  map (fun w => (w, AgreementRow (default 0%Q (Qavg (map (agreement_one votes) (group agr_worker w votes))))
                      (Z.of_nat (length (group agr_worker w votes)))))
    (group_keys agr_worker votes).

Fixpoint insert_agreements (start : Z) (rows : list (string * agreement_row)) (t : gmap (string * Z) agreement_row)
    : gmap (string * Z) agreement_row :=
  match rows with
  | [] => t
  | (w, a) :: rows' => insert_agreements start rows' (insert_nothing (w, start) a t).2
  end.

Definition settle_agreement (from to : Z) : DB unit :=
  exec (fun _ d => set_agreement (insert_agreements from (agreement_rows from to d)) d).

(** [time.Duration(WindowSeconds) * time.Second], with the wrap-around of the
    64-bit product. *)
Definition wrap64 (z : Z) : Z := (z + 2 ^ 63) mod 2 ^ 64 - 2 ^ 63.
Definition window_duration (c : AggConfig) : Z := wrap64 (WindowSeconds (withDefaults c) * Second).

Definition ComputeWindow (c : AggConfig) (windowStart : Z) : DB unit :=
  let cfg := withDefaults c in
  let windowEnd := windowStart + window_duration c in
  do! settle_windows cfg windowStart windowEnd ;;
  settle_agreement windowStart windowEnd.

(** * Retention *)
Definition Retention (c : AggConfig) : DB unit :=
  let cfg := withDefaults c in
  do! exec (fun now => set_observation (delete_where (fun o => o_measured_at o <? now - RawRetention cfg))) ;;
  do! exec (fun now => set_window (delete_where (fun w => cw_start w <? now - WindowRetention cfg))) ;;
  do! exec (fun now => set_agreement (filter (fun kv : (string * Z) * agreement_row => now - 30 * 24 * Hour <= kv.1.2))) ;;
  exec (fun now => set_batch (filter (fun kv : string * batch_row => now - 7 * 24 * Hour <= b_received_at kv.2))).

(** * Lemmas *)
Section GroupLemmas.
Context {A K : Type} {Keq : EqDecision K}.
Lemma group_In (key : A -> K) k l x : In x (group key k l) <-> In x l /\ key x = k.
Proof. unfold group. by rewrite filter_In, bool_decide_eq_true. Qed.
Lemma group_keys_In (key : A -> K) l k : In k (group_keys key l) <-> exists x, In x l /\ key x = k.
Proof.
  unfold group_keys. rewrite <- list_elem_of_In, elem_of_remove_dups, list_elem_of_In, in_map_iff. naive_solver.
Qed.
Lemma group_nonempty (key : A -> K) l k : In k (group_keys key l) -> group key k l <> [].
Proof.
  intros (x & Hx & Hk)%group_keys_In E. assert (In x (group key k l)) as H by (by apply group_In).
  by rewrite E in H.
Qed.
End GroupLemmas.

Lemma bool_Q_unit b : unit_interval (bool_Q b).
Proof. destruct b; split; discriminate. Qed.

Lemma ok_ratio_unit l : unit_interval (ok_ratio l).
Proof.
  unfold ok_ratio. destruct (Qavg _) as [q|] eqn:E; [|split; discriminate]. simpl.
  eapply Qavg_unit; [|exact E]. intros x (b & <- & _)%in_map_iff. apply bool_Q_unit.
Qed.

Lemma weight_floor w d : (1 # 10 <= weight w d)%Q.
Proof. unfold weight. destruct (db_trust_score d !! w); [apply Q.le_max_r | discriminate]. Qed.

Lemma Qsum_app l1 l2 : (Qsum (l1 ++ l2) == Qsum l1 + Qsum l2)%Q.
Proof. induction l1 as [|x l1 IH]; simpl; [ring|]. unfold Qsum in *. simpl. rewrite IH. ring. Qed.

Section Weights.
Context {A : Type} (wt : A -> Q).
Implicit Types (l : list A) (p : A -> bool).
Local Notation W l := (Qsum (map wt l)).

Lemma Qsum_split p l : (W l == W (List.filter p l) + W (List.filter (fun x => negb (p x)) l))%Q.
Proof.
  unfold Qsum. induction l as [|x l IH]; simpl; [ring|]. destruct (p x); simpl; rewrite IH; ring.
Qed.

Lemma Qsum_nonneg l : (forall x, In x l -> 0 < wt x)%Q -> (0 <= W l)%Q.
Proof.
  unfold Qsum. induction l as [|x l IH]; intros H; simpl; [discriminate|].
  pose proof (H x (or_introl eq_refl)). specialize (IH (fun y Hy => H y (or_intror Hy))). lra.
Qed.

Lemma Qsum_pos l : (forall x, In x l -> 0 < wt x)%Q -> l <> [] -> (0 < W l)%Q.
Proof.
  intros H Hl. destruct l as [|x l]; [done|]. pose proof (H x (or_introl eq_refl)).
  pose proof (Qsum_nonneg l (fun y Hy => H y (or_intror Hy))). simpl in *. unfold Qsum in *. simpl. lra.
Qed.

Lemma Qsum_filter_mono p q l : (forall x, In x l -> 0 < wt x)%Q -> (forall x, In x l -> p x = true -> q x = true) ->
  (W (List.filter p l) <= W (List.filter q l))%Q.
Proof.
  unfold Qsum. induction l as [|x l IH]; intros H Hpq; [discriminate|].
  specialize (IH (fun y Hy => H y (or_intror Hy)) (fun y Hy => Hpq y (or_intror Hy))).
  pose proof (H x (or_introl eq_refl)). specialize (Hpq x (or_introl eq_refl)). simpl.
  destruct (p x); [rewrite Hpq by done; simpl; lra|]. destruct (q x); simpl; lra.
Qed.

Lemma Qsum_filter_le p l : (forall x, In x l -> 0 < wt x)%Q -> (W (List.filter p l) <= W l)%Q.
Proof.
  intros H. rewrite (Qsum_split p l).
  pose proof (Qsum_nonneg (List.filter (fun x => negb (p x)) l)) as Hn.
  assert (0 <= W (List.filter (fun x => negb (p x)) l))%Q; [|lra].
  apply Hn. intros x [Hx _]%filter_In. by apply H.
Qed.
End Weights.

Lemma weighted_pos from to d x : In x (weighted from to d) -> (0 < pw_weight x)%Q.
Proof.
  unfold weighted. intros ([[[p r] t] w] & <- & _)%in_map_iff. simpl. pose proof (weight_floor w d). lra.
Qed.

(** The share of voting weight that saw a target up. *)
Lemma up_weight_unit l u : (forall x, In x l -> 0 < pw_weight x)%Q -> up_weight l = Some u -> unit_interval u.
Proof.
  intros Hl. unfold up_weight. destruct (List.filter votes_up l) as [|y ups] eqn:Ef; [done|].
  destruct (Qeq_bool _ _) eqn:Ez; [done|]. intros E. injection E as <-. rewrite <- Ef.
  assert (l <> []) as Hne by (intros ->; done).
  pose proof (Qsum_pos pw_weight l Hl Hne) as Hp. pose proof (Qsum_filter_le pw_weight votes_up l Hl) as Hle.
  fold (weight_sum l) in *. fold (weight_sum (List.filter votes_up l)) in *.
  pose proof (Qsum_nonneg pw_weight (List.filter votes_up l)) as Hn. fold (weight_sum (List.filter votes_up l)) in Hn.
  split; [apply Qle_shift_div_l; [done|] | apply Qle_shift_div_r; [done|]]; [|lra].
  rewrite Qmult_0_l. apply Hn. intros x [Hx _]%filter_In. by apply Hl.
Qed.

(** A target is up exactly when the up-voters carry at least half the weight. *)
Lemma is_up_iff l : (forall x, In x l -> 0 < pw_weight x)%Q -> l <> [] ->
  is_up (up_weight l) = true <-> (weight_sum l <= 2 * weight_sum (List.filter votes_up l))%Q.
Proof.
  intros Hl Hne. pose proof (Qsum_pos pw_weight l Hl Hne) as Hp. fold (weight_sum l) in Hp.
  unfold up_weight. destruct (List.filter votes_up l) as [|y ups] eqn:Ef.
  - unfold weight_sum at 2. unfold Qsum. simpl. split; [done|]. intros H. lra.
  - destruct (Qeq_bool (weight_sum l) 0) eqn:Ez; [apply Qeq_bool_iff in Ez; lra|].
    simpl. rewrite Qle_bool_iff. split; intros H.
    + apply Qmult_le_r with (z := weight_sum l) in H; [|done].
      unfold Qdiv in H. rewrite <- Qmult_assoc, (Qmult_comm (/ _)), Qmult_inv_r, Qmult_1_r in H by lra. lra.
    + apply Qle_shift_div_l; [done|]. lra.
Qed.

(** The votes behind a per-target row. *)
Definition voters (from to : Z) (d : database) (x : pt_row) : list pwt_row :=
  group (fun y => (pw_provider y, pw_region y, pw_target y)) (pt_provider x, pt_region x, pt_target x)
    (List.filter (fun y => responsive from to d (pw_provider y) (pw_target y)) (weighted from to d)).

Lemma voters_pos from to d x y : In y (voters from to d x) -> (0 < pw_weight y)%Q.
Proof. intros [[Hy _]%filter_In _]%group_In. by eapply weighted_pos. Qed.

Lemma per_target_In from to d x : In x (per_target from to d) ->
  voters from to d x <> [] /\ pt_up x = up_weight (voters from to d x) /\
  pt_workers x = Z.of_nat (length (remove_dups (map pw_worker (voters from to d x)))).
Proof.
  unfold per_target. intros ([[p r] t] & <- & Hk)%in_map_iff. unfold voters. simpl.
  split; [by apply group_nonempty | done].
Qed.

Lemma pt_up_unit from to d x u : In x (per_target from to d) -> pt_up x = Some u -> unit_interval u.
Proof.
  intros (_ & -> & _)%per_target_In. apply up_weight_unit. intros y. apply voters_pos.
Qed.

Lemma dissent_unit u : match u with Some q => unit_interval q | None => True end -> unit_interval (dissent_of u).
Proof.
  unfold dissent_of. destruct u as [q|]; simpl; [|split; discriminate]. intros [H1 H2].
  destruct (Qlt_le_dec q (1 - q)) as [H|H].
  - pose proof (Q.min_l q (1 - q)) as E. split; rewrite E; lra.
  - pose proof (Q.min_r q (1 - q)) as E. split; rewrite E; lra.
Qed.

(** What a rollup row satisfies. *)
Record rollup_ok (r : rollup_row) : Prop := {
  rok_measured : 1 <= ro_measured r;
  rok_up : 0 <= ro_up r <= ro_measured r;
  rok_workers : 0 <= ro_workers r;
  rok_dissent : unit_interval (default 0%Q (ro_dissent r))
}.

Lemma max_workers_nonneg l : 0 <= foldr Z.max 0 (map pt_workers l).
Proof. induction l; simpl; lia. Qed.

Lemma rollup_rollup_ok from to d p r l : l <> [] -> (forall x, In x l -> In x (per_target from to d)) ->
  rollup_ok (rollup p r l).
Proof.
  intros Hne Hl. constructor; simpl.
  - destruct l; [done|]. simpl. lia.
  - split; [lia|]. apply Nat2Z.inj_le. apply List.filter_length_le.
  - apply max_workers_nonneg.
  - destruct (Qavg _) as [q|] eqn:E; [|split; discriminate]. simpl. eapply Qavg_unit; [|exact E].
    intros y (x & <- & Hx)%in_map_iff. apply dissent_unit. destruct (pt_up x) eqn:Ex; [|done].
    eapply pt_up_unit; [by apply Hl | done].
Qed.

Lemma provider_rollup_ok from to d r : In r (provider_rollup from to d) -> rollup_ok r.
Proof.
  unfold provider_rollup. intros [(p & <- & Hp)%in_map_iff|([p g] & <- & Hp)%in_map_iff]%in_app_iff.
  - eapply rollup_rollup_ok; [by apply group_nonempty|]. by intros x [? _]%group_In.
  - eapply rollup_rollup_ok; [by apply group_nonempty|]. by intros x [? _]%group_In.
Qed.

(** What a settled window must satisfy. *)
Record window_ok (cfg : AggConfig) (x : window_row) : Prop := {
  wok_confidence : unit_interval (cw_confidence x);
  wok_dissent : unit_interval (cw_dissent x);
  wok_loss : forall q, cw_loss x = Some q -> unit_interval q;
  wok_targets : 1 <= cw_measured_targets x /\ 0 <= cw_up_targets x <= cw_measured_targets x;
  wok_insufficient : cw_verdict x = InsufficientData <-> cw_workers x < MinWorkers cfg;
  wok_no_guess : cw_workers x < MinWorkers cfg -> cw_confidence x = 0%Q;
  wok_healthy : cw_verdict x = Healthy ->
    (HealthyRatio cfg * inject_Z (cw_measured_targets x) <= inject_Z (cw_up_targets x))%Q;
  wok_outage : cw_verdict x = Outage ->
    (inject_Z (cw_up_targets x) < DegradedRatio cfg * inject_Z (cw_measured_targets x))%Q
}.

Lemma ratio_le q a b : 1 <= b -> Qle_bool q (inject_Z a / inject_Z b) = true -> (q * inject_Z b <= inject_Z a)%Q.
Proof.
  intros Hb H%Qle_bool_iff. assert (0 < inject_Z b)%Q as Hp by (unfold Qlt; simpl; lia).
  apply Qmult_le_r with (z := inject_Z b) in H; [|done].
  unfold Qdiv in H. rewrite <- Qmult_assoc, (Qmult_comm (/ _)), Qmult_inv_r, Qmult_1_r in H; [done|].
  intros E. rewrite E in Hp. discriminate.
Qed.

Lemma ratio_gt q a b : 1 <= b -> Qle_bool q (inject_Z a / inject_Z b) = false -> (inject_Z a < q * inject_Z b)%Q.
Proof.
  intros Hb H. assert (0 < inject_Z b)%Q as Hp by (unfold Qlt; simpl; lia).
  destruct (Qlt_le_dec (inject_Z a) (q * inject_Z b)) as [|Hc]; [done|]. exfalso.
  assert (Qle_bool q (inject_Z a / inject_Z b) = true) as E; [|congruence].
  apply Qle_bool_iff, Qle_shift_div_l; done.
Qed.

Lemma Qmult_unit p q : unit_interval p -> unit_interval q -> unit_interval (p * q).
Proof.
  intros [P1 P2] [Q1 Q2]. split; [by apply Qmult_le_0_compat|].
  assert (p * q <= 1 * q)%Q by (by apply Qmult_le_compat_r). lra.
Qed.

Lemma withDefaults_min c : 1 <= MinWorkers (withDefaults c).
Proof. simpl. destruct (MinWorkers c <=? 0) eqn:E; btrue; lia. Qed.

Lemma confidence_unit cfg r : 1 <= MinWorkers cfg -> rollup_ok r -> unit_interval (confidence_of cfg r).
Proof.
  intros Hm [_ _ Hw [D1 D2]]. unfold confidence_of. destruct (_ <? _) eqn:E; [split; discriminate|]. btrue.
  apply Qmult_unit; [|split; lra]. split; [|apply Q.le_min_l].
  apply Q.min_glb; [discriminate|]. unfold Qdiv. apply Qmult_le_0_compat; [unfold Qle; simpl; lia|].
  apply Qinv_le_0_compat. unfold Qle. simpl. lia.
Qed.

Lemma window_of_ok cfg from to d r : 1 <= MinWorkers cfg -> In r (provider_rollup from to d) ->
  window_ok cfg (window_of cfg from to d r).
Proof.
  intros Hm Hr%provider_rollup_ok. pose proof Hr as [R1 R2 R3 R4]. constructor; simpl.
  - by apply confidence_unit.
  - done.
  - intros q. apply Qavg_unit. intros y (x & <- & _)%in_map_iff. apply bool_Q_unit.
  - done.
  - unfold verdict_of. rewrite (proj2 (Z.eqb_neq _ _)) by lia. rewrite orb_false_r.
    destruct (_ <? _) eqn:E; btrue; [done|]. split; [|lia]. by repeat case_match.
  - intros H. unfold confidence_of. apply Z.ltb_lt in H. by rewrite H.
  - unfold verdict_of. destruct (_ || _); [done|]. destruct (Qle_bool _ _) eqn:E; [|by repeat case_match].
    intros _. by apply ratio_le in E.
  - unfold verdict_of. destruct (_ || _); [done|]. destruct (Qle_bool (HealthyRatio cfg) _); [done|].
    destruct (Qle_bool _ _) eqn:E; [done|]. intros _. by apply ratio_gt in E.
Qed.

(** Inserting with [do nothing]: existing rows stay, in place. *)
Lemma insert_windows_app rows t : exists new, insert_windows rows t = t ++ new /\ forall x, In x new -> In x rows.
Proof.
  revert t. induction rows as [|r rows IH]; intros t; simpl; [exists []; by rewrite app_nil_r|].
  destruct (exists_row _ t).
  - destruct (IH t) as (new & -> & Hn). exists new. auto.
  - destruct (IH (t ++ [r])) as (new & -> & Hn). exists (r :: new). rewrite <- app_assoc. split; [done|].
    intros x [->|Hx]; auto.
Qed.

Lemma insert_windows_NoDup rows t : NoDup (map window_key t) -> NoDup (map window_key (insert_windows rows t)).
Proof.
  revert t. induction rows as [|r rows IH]; intros t Ht; simpl; [done|]. apply IH.
  destruct (exists_row _ t) eqn:E; [done|]. rewrite map_app. apply NoDup_app. split_and!; [done | |apply NoDup_singleton].
  intros k (x & <- & Hx)%list_elem_of_In%in_map_iff. simpl. rewrite list_elem_of_singleton. intros Ek.
  assert (bool_decide (window_key x = window_key r) = false) as F by exact (proj1 (exists_row_false _ _) E x Hx).
  by apply bool_decide_eq_false in F.
Qed.

Lemma insert_windows_covers rows t r : In r rows ->
  exists x, In x (insert_windows rows t) /\ window_key x = window_key r.
Proof.
  revert t. induction rows as [|r0 rows IH]; intros t; [done|]. simpl. intros [->|Hr]; [|by apply IH].
  destruct (exists_row _ t) eqn:E.
  - apply exists_row_true in E as (x & Hx & Ex). btrue. destruct (insert_windows_app rows t) as (new & -> & _).
    exists x. split; [|done]. apply in_or_app. auto.
  - destruct (insert_windows_app rows (t ++ [r])) as (new & -> & _). exists r. split; [|done].
    apply in_or_app. left. apply in_or_app. right. by left.
Qed.

Lemma insert_windows_present rows t :
  (forall r, In r rows -> exists x, In x t /\ window_key x = window_key r) -> insert_windows rows t = t.
Proof.
  revert t. induction rows as [|r rows IH]; intros t H; simpl; [done|].
  destruct (H r (or_introl eq_refl)) as (x & Hx & Ex).
  rewrite (proj2 (exists_row_true _ _)); [apply IH; intros; apply H; by right|].
  exists x. split; [done|]. by apply bool_decide_eq_true.
Qed.

Lemma insert_agreements_keeps start rows t k a : t !! k = Some a -> insert_agreements start rows t !! k = Some a.
Proof.
  revert t. induction rows as [|[w b] rows IH]; intros t Hk; simpl; [done|]. apply IH.
  unfold insert_nothing. destruct (t !! (w, start)) eqn:E; simpl; [done|].
  rewrite lookup_insert_ne; [done | congruence].
Qed.

Lemma insert_agreements_new start rows t k a : insert_agreements start rows t !! k = Some a ->
  t !! k = Some a \/ (k.2 = start /\ In (k.1, a) rows).
Proof.
  revert t. induction rows as [|[w b] rows IH]; intros t; simpl; [auto|]. intros [H|[? ?]]%IH; [|auto].
  unfold insert_nothing in H. destruct (t !! (w, start)) eqn:E; simpl in H; [auto|].
  destruct (decide (k = (w, start))) as [->|Hn].
  - rewrite lookup_insert_eq in H. simplify_eq. auto.
  - rewrite lookup_insert_ne in H by done. auto.
Qed.

Lemma insert_agreements_dom start rows t w : In w (map fst rows) -> is_Some (insert_agreements start rows t !! (w, start)).
Proof.
  revert t. induction rows as [|[v b] rows IH]; intros t; simpl; [done|]. intros [->|Hw]; [|by apply IH].
  assert (is_Some ((insert_nothing (w, start) b t).2 !! (w, start))) as [a Ha].
  { unfold insert_nothing. destruct (t !! (w, start)) eqn:E; simpl; [eauto|]. rewrite lookup_insert_eq. eauto. }
  exists a. by apply insert_agreements_keeps.
Qed.

Lemma insert_agreements_present start rows t :
  (forall w, In w (map fst rows) -> is_Some (t !! (w, start))) -> insert_agreements start rows t = t.
Proof.
  revert t. induction rows as [|[v b] rows IH]; intros t H; simpl; [done|].
  unfold insert_nothing. destruct (H v (or_introl eq_refl)) as [a ->]. simpl. apply IH. intros w Hw. apply H. by right.
Qed.

Lemma agreement_one_unit votes x : unit_interval (agr_ok_ratio x) -> unit_interval (agreement_one votes x).
Proof.
  intros [H1 H2]. unfold agreement_one. destruct (consensus_up _ _ _); simpl.
  - pose proof (Qabs_neg (agr_ok_ratio x - 1)) as E. split; rewrite E; lra.
  - pose proof (Qabs_pos (agr_ok_ratio x - 0)) as E. split; rewrite E; lra.
Qed.

Lemma agreement_rows_unit from to d w a : In (w, a) (agreement_rows from to d) -> unit_interval (ag_agreement a).
Proof.
  unfold agreement_rows. intros (v & E & _)%in_map_iff. injection E as <- <-. simpl.
  destruct (Qavg _) as [q|] eqn:Eq; [|split; discriminate]. eapply Qavg_unit; [|exact Eq].
  intros y (x & <- & [Hx _]%group_In)%in_map_iff. apply agreement_one_unit.
  unfold ag_votes in Hx. apply in_map_iff in Hx as ([[p t] v'] & <- & _). apply ok_ratio_unit.
Qed.

(** * Properties *)


(** A settled window is final.  Settling any window, whatever observations
    have arrived since and whatever fails, keeps every existing window and
    agreement row unchanged, keeps at most one window per provider, region and
    start, and records only agreements in [0, 1]. *)
Theorem windows_final c start w r w' :
  ComputeWindow c start w = (r, w') ->
  (exists new, db_window (w_db w') = db_window (w_db w) ++ new) /\
  (NoDup (map window_key (db_window (w_db w))) -> NoDup (map window_key (db_window (w_db w')))) /\
  (forall k a, db_agreement (w_db w) !! k = Some a -> db_agreement (w_db w') !! k = Some a) /\
  ((forall k a, db_agreement (w_db w) !! k = Some a -> unit_interval (ag_agreement a)) ->
   forall k a, db_agreement (w_db w') !! k = Some a -> unit_interval (ag_agreement a)).
Proof.
  set (R := fun (_ : Z) (d d' : database) =>
    (exists new, db_window d' = db_window d ++ new) /\
    (NoDup (map window_key (db_window d)) -> NoDup (map window_key (db_window d'))) /\
    (forall k a, db_agreement d !! k = Some a -> db_agreement d' !! k = Some a) /\
    ((forall k a, db_agreement d !! k = Some a -> unit_interval (ag_agreement a)) ->
      forall k a, db_agreement d' !! k = Some a -> unit_interval (ag_agreement a))).
  assert (PreOrderAt R) as HR.
  { split; unfold R.
    - intros n d. split_and!; [exists []; by rewrite app_nil_r | done..].
    - intros n d1 d2 d3 ([n1 E1] & A1 & B1 & C1) ([n2 E2] & A2 & B2 & C2).
      split_and!; [exists (n1 ++ n2); by rewrite E2, E1, app_assoc | auto | auto | intros HI; apply C2, C1, HI]. }
  enough (Respects R (ComputeWindow c start)) as H by (intros E; by apply H in E as [_ ?]).
  unfold ComputeWindow, settle_windows, settle_agreement. respects; unfold R; simpl.
  - split_and!; try done; [|apply insert_windows_NoDup].
    destruct (insert_windows_app (map (window_of (withDefaults c) start (start + window_duration c) d)
      (provider_rollup start (start + window_duration c) d)) (db_window d)) as (new & E & _).
    exists new. exact E.
  - split_and!; [exists []; by rewrite app_nil_r | done | |].
    + intros k x. apply insert_agreements_keeps.
    + intros HI k x [Hk|[_ Hin]]%insert_agreements_new; [by eapply HI | by eapply agreement_rows_unit].
Qed.

(** Settling is idempotent: running it again on the same observations
    changes nothing. *)
Theorem window_idempotent c start d now later :
  let d' := w_db (ComputeWindow c start (World d now [])).2 in
  ComputeWindow c start (World d' later []) = (Ok tt, World d' later []).
Proof.
  cbv zeta. set (cfg := withDefaults c). set (stop := start + window_duration c).
  set (wins := map (window_of cfg start stop d) (provider_rollup start stop d)).
  set (ags := agreement_rows start stop d).
  assert (forall e, ComputeWindow c start (World e later []) = (Ok tt, World
    (set_agreement (insert_agreements start (agreement_rows start stop e))
      (set_window (insert_windows (map (window_of cfg start stop e) (provider_rollup start stop e))) e)) later [])) as Hrun
    by (intros; reflexivity).
  change (w_db (ComputeWindow c start (World d now [])).2) with
    (set_agreement (insert_agreements start ags) (set_window (insert_windows wins) d)).
  rewrite Hrun. do 2 f_equal.
  change (agreement_rows start stop (set_agreement (insert_agreements start ags) (set_window (insert_windows wins) d))) with ags.
  change (map (window_of cfg start stop (set_agreement (insert_agreements start ags) (set_window (insert_windows wins) d)))
    (provider_rollup start stop (set_agreement (insert_agreements start ags) (set_window (insert_windows wins) d)))) with wins.
  clearbody wins ags. destruct d; unfold set_agreement, set_window; simpl. f_equal.
  - apply insert_windows_present. intros r Hr. by apply insert_windows_covers.
  - apply insert_agreements_present. intros w Hw. by apply insert_agreements_dom.
Qed.


(** * Concrete inputs *)
Definition sample (worker : string) (ok : bool) (at_ : Z) : observation_row :=
  ObservationRow worker 1 "p" (Addr V4 1) "icmp" at_ ok (if ok then Some (20 # 1)%Q else None) 5 0 "".
(** Two workers measure one target; the trusted one sees it up. *)
Definition sampled_db : database :=
  set_trust_score (fun _ => {[ "w1" := TrustRow (8 # 10) 1 1 1 0 0 ]})
  (set_observation (fun _ => [sample "w1" true 10; sample "w2" false 20]) demo_db).
Definition sample_cfg : AggConfig := MkAggConfig 300 2 0 0 0 0 0 0.
Definition sampled : dbworld := World sampled_db (301 * Second) [].
Definition settled : dbworld := (ComputeWindow sample_cfg 0 sampled).2.

Lemma settled_runs : ComputeWindow sample_cfg 0 sampled = (Ok tt, settled).
Proof. vm_compute. reflexivity. Qed.


Lemma windows_final_witness :
  exists new, db_window (w_db settled) = db_window (w_db sampled) ++ new.
Proof. exact (proj1 (windows_final sample_cfg 0 sampled (Ok tt) settled settled_runs)). Defined.

Definition sample_target : pt_row := PtRow "p" "ZZ" (Addr V4 1) (up_weight (voters 0 300 sampled_db (PtRow "p" "ZZ" (Addr V4 1) None 0))) 2.

