(* ===== verification/Rollup.v ===== *)
(** [internal/aggregate]: the status rollup ([RollupStatus],
    [refreshTargetStatus], [handleTransition], [checkLatencyAnomaly]) and the
    status document of document.go.

    Each statement is its own transaction, as in the code; a failed statement
    ends the pass unless the code ignores it.  Times are marshalled by a
    parameter. *)
From stdpp Require Import base gmap strings list.
From Stdlib Require Import ZArith QArith Qminmax Lia.
From S2P Require Import Prelude Netip Schema Leasing Trust Consensus.
Open Scope Z_scope.

Definition verdict_name (v : verdict) : string :=
  match v with
  | Healthy => "healthy" | Degraded => "degraded" | Outage => "outage" | InsufficientData => "insufficient_data"
  end.

Definition opt_num (q : option Q) : json := match q with Some q => JNum q | None => JNull end.
Definition int_json (z : Z) : json := JNum (inject_Z z).

(** * Per-target health *)
Definition newest_published (d : database) : option snapshot_row :=
  foldl (fun acc s =>
    if bool_decide (sn_status s = Published) then
      match acc with
      | None => Some s
      | Some b =>
          match sn_published_at b, sn_published_at s with
          | None, _ => Some b
          | Some _, None => Some s
          | Some tb, Some ts => if tb <? ts then Some s else Some b
          end
      end
    else acc) None (db_snapshot d).

Definition recent (from : Z) (d : database) : list observation_row :=
  select (fun o => (from <=? o_measured_at o) && worker_in [Active] (o_worker o) d) (db_observation d).

Definition target_row_of (provider : string) (target : addr) (d : database) : option target_row :=
  match newest_published d with
  | None => None
  | Some s => List.find (fun t => bool_decide (tg_address t = target) && bool_decide (tg_provider t = provider)
                                  && (tg_snapshot t =? sn_id s)) (db_target d)
  end.

Definition max_time (l : list Z) : Z := match l with [] => 0 | t :: l' => foldr Z.max t l' end.

Definition target_verdict (cfg : AggConfig) (workers : Z) (avail : Q) : verdict :=
  if workers <? MinWorkers cfg then InsufficientData
  else if Qle_bool (HealthyRatio cfg) avail then Healthy
  else if Qle_bool (DegradedRatio cfg) avail then Degraded
  else Outage.

Definition target_status_of (cfg : AggConfig) (now : Z) (d : database) (k : string * addr) (l : list observation_row)
    : target_status_row :=
  let t := target_row_of k.1 k.2 d in
  let p := t ≫= fun t => List.find (fun p => pr_id p =? tg_prefix t) (db_prefix d) in
  let avail := default 0%Q (Qavg (map (fun o => bool_Q (o_ok o)) l)) in
  let workers := Z.of_nat (length (remove_dups (map o_worker l))) in
  TargetStatusRow (region_of (t ≫= tg_country)) (pr_prefix <$> p) (pr_origin <$> p) (t ≫= tg_city)
    (target_verdict cfg workers avail) avail
    (default 0%Q (Qavg (map (fun o => bool_Q (negb (o_ok o))) l)))
    (percentile_cont (1 # 2) (omap o_rtt l)) (percentile_cont (95 # 100) (omap o_rtt l))
    workers (max_time (map o_measured_at l)) now.

Definition target_key (o : observation_row) : string * addr := (o_provider o, o_target o).

Definition upsert_targets (rows : list ((string * addr) * target_status_row))
    (t : gmap (string * addr) target_status_row) : gmap (string * addr) target_status_row :=
  foldl (fun m kv => <[kv.1 := kv.2]> m) t rows.

Definition refreshTargetStatus (cfg : AggConfig) : DB unit :=
  do! exec (fun now d =>
        let l := recent (now - TargetWindow cfg) d in
        set_target_status (upsert_targets (map (fun k => (k, target_status_of cfg now d k (group target_key k l)))
                                             (group_keys target_key l))) d) ;;
  exec (fun now => set_target_status (filter (fun kv : (string * addr) * target_status_row =>
                     now - 2 * TargetWindow cfg <= tst_updated_at kv.2))).

(** * Windows *)
(** [distinct on (provider_id, region) ... order by window_start desc]. *)
Definition newest_window (l : list window_row) : option window_row :=
  foldl (fun acc x => match acc with
                      | None => Some x
                      | Some b => if cw_start b <? cw_start x then Some x else Some b
                      end) None l.
Definition pair_leb (x y : string * string) : bool :=
  if bool_decide (x.1 = y.1) then string_leb x.2 y.2 else string_leb x.1 y.1.
Definition win_key (x : window_row) : string * string := (cw_provider x, cw_region x).
Definition newest_windows (d : database) : list window_row :=
  omap (fun k => newest_window (group win_key k (db_window d)))
    (sort_by pair_leb (group_keys win_key (db_window d))).

Definition metrics_json (w : window_row) : json :=
  JObj [("dissent_ratio"%string, JNum (cw_dissent w)); ("loss_rate"%string, opt_num (cw_loss w));
        ("rtt_p50_ms"%string, opt_num (cw_p50 w)); ("rtt_p95_ms"%string, opt_num (cw_p95 w));
        ("worker_count"%string, int_json (cw_workers w))].

(** The upsert of [provider_status]: [since] moves only on a change. *)
Definition since_of (old : option status_row) (w : window_row) : Z :=
  match old with
  | Some s => if bool_decide (ps_verdict s = cw_verdict w) then ps_since s else cw_start w
  | None => cw_start w
  end.
Definition status_of (now : Z) (old : option status_row) (w : window_row) : status_row :=
  StatusRow (cw_verdict w) (cw_confidence w) (since_of old w) (metrics_json w) now.
Definition upsert_status (w : window_row) : DB unit :=
  exec (fun now => set_provider_status (fun t => <[win_key w := status_of now (t !! win_key w) w]> t)).

(** * Anomalies *)
Definition open_anomaly (provider kind : string) (a : anomaly_row) : bool :=
  bool_decide (an_provider_id a = provider) && bool_decide (an_kind a = kind) && is_none (an_resolved_at a).
Definition resolve_anomaly (at_ : Z) (a : anomaly_row) : anomaly_row :=
  AnomalyRow (an_provider_id a) (an_kind a) (an_region a) (an_severity a) (an_opened_at a) (Some at_) (an_evidence a).

Definition insert_anomaly (provider kind severity : string) (at_ : Z) (evidence : json) : DB unit :=
  exec (fun _ d => if exists_row (open_anomaly provider kind) (db_anomaly d) then d
                   else set_anomaly (fun t => t ++ [AnomalyRow provider kind "global" severity at_ None evidence]) d).
Definition resolve_anomalies (provider kind : string) (at_ : Z) : DB unit :=
  exec (fun _ => set_anomaly (update_where (open_anomaly provider kind) (resolve_anomaly at_))).

Definition ignore {A} (m : DB A) : DB unit := do! attempt m ;; ret tt.

Definition prev_name (prev : option verdict) : string :=
  match prev with Some v => verdict_name v | None => "" end.

Definition handleTransition (provider : string) (prev : option verdict) (v : verdict) (at_ : Z) : DB unit :=
  do! (if bool_decide (v = Outage) || (bool_decide (v = Degraded) && bool_decide (prev = Some Healthy))
       then ignore (insert_anomaly provider "reachability_loss"
              (if bool_decide (v = Degraded) then "warning" else "critical") at_
              (JObj [("from"%string, JStr (prev_name prev)); ("to"%string, JStr (verdict_name v))]))
       else ret tt) ;;
  (if bool_decide (v = Healthy) then ignore (resolve_anomalies provider "reachability_loss" at_) else ret tt).

Definition latency_baseline (provider : string) (at_ : Z) (d : database) : option Q :=
  percentile_cont (1 # 2) (omap cw_p50 (select (fun w =>
      bool_decide (cw_provider w = provider) && bool_decide (cw_region w = "global")
      && (at_ - 6 * Hour <=? cw_start w) && (cw_start w <? at_)) (db_window d))).

Definition checkLatencyAnomaly (provider : string) (p50 : Q) (at_ : Z) (factor : Q) : DB unit :=
  let! found := attempt (query (fun _ d => latency_baseline provider at_ d)) in
  match found with
  | Err _ | Ok None => ret tt
  | Ok (Some baseline) =>
      if Qle_bool baseline 0 then ret tt
      else if Qle_bool (baseline * factor) p50 then
        ignore (insert_anomaly provider "latency_regression" "warning" at_
          (JObj [("p50_ms"%string, JNum p50); ("baseline_ms"%string, JNum baseline)]))
      else if negb (Qle_bool (baseline * (12 # 10)) p50) then
        ignore (resolve_anomalies provider "latency_regression" at_)
      else ret tt
  end.

(** * The status document *)
Definition unknownRegion : string := "ZZ".

Record coverageDoc : Type := MkCoverage { TargetsTotal : Z; TargetsMeasured : Z; TargetsUp : Z; WorkerCount : Z }.
Record regionDoc : Type := MkRegion {
  rd_Region : string; rd_Country : string; rd_ContinentCode : string; rd_Continent : string;
  rd_Verdict : verdict; rd_Confidence : Q; rd_Metrics : json; rd_Coverage : coverageDoc; rd_AsOf : Z
}.
Record countryDoc : Type := MkCountry {
  cd_CountryCode : string; cd_Country : string; cd_ContinentCode : string; cd_Continent : string;
  cd_IPv4Addresses : Z; cd_IPv4SharePct : Q; cd_IPv6Net64s : Z; cd_PrefixCountV4 : Z; cd_PrefixCountV6 : Z;
  cd_MonitoredTargets : Z
}.
Record networkDoc : Type := MkNetwork {
  nd_SnapshotVersion : string; nd_AsOf : option Z; nd_ASNs : list Z;
  nd_IPv4Addresses : Z; nd_IPv6Net64s : Z; nd_PrefixCountV4 : Z; nd_PrefixCountV6 : Z;
  nd_Countries : list countryDoc
}.
Record networkRow : Type := MkNetworkRow {
  nr_Target : addr; nr_CountryCode : string; nr_Country : string; nr_ContinentCode : string; nr_Continent : string;
  nr_Status : target_status_row
}.
Record statusDoc : Type := MkStatusDoc {
  sd_ProviderID : string; sd_AsOf : Z; sd_Global : verdict * Q * json;
  sd_Regions : list regionDoc; sd_Network : networkDoc; sd_Networks : list networkRow
}.
Record countryMeta : Type := MkMeta { cm_name : string; cm_continentCode : string; cm_continentName : string; cm_targets : Z }.

(** A [provider_geo] row as the document's country. *)
Definition country_of (code : string) (g : geo_row) : countryDoc :=
  let name := default ""%string (pg_name g) in
  MkCountry code (if bool_decide (code = unknownRegion) && bool_decide (name = "") then "Unknown" else name)
    (default ""%string (pg_continent_code g)) (default ""%string (pg_continent g))
    (pg_ipv4 g) (pg_share g) (pg_net64s g) (pg_count_v4 g) (pg_count_v6 g) (pg_targets g).

Definition country_leb (x y : string * geo_row) : bool :=
  if pg_ipv4 x.2 =? pg_ipv4 y.2 then string_leb x.1 y.1 else pg_ipv4 y.2 <? pg_ipv4 x.2.
Definition provider_geo_rows (snapshot : Z) (provider : string) (d : database) : list (string * geo_row) :=
  sort_by country_leb (omap (fun '((s, p, c), g) =>
      if (s =? snapshot) && bool_decide (p = provider) then Some (c, g) else None) (map_to_list (db_provider_geo d))).

(** The scan loop over the countries. *)
Definition add_country (acc : networkDoc * gmap string countryMeta) (row : string * geo_row)
    : networkDoc * gmap string countryMeta :=
  let '(doc, meta) := acc in
  let c := country_of row.1 row.2 in
  (MkNetwork (nd_SnapshotVersion doc) (nd_AsOf doc) (nd_ASNs doc)
     (nd_IPv4Addresses doc + cd_IPv4Addresses c) (nd_IPv6Net64s doc + cd_IPv6Net64s c)
     (nd_PrefixCountV4 doc + cd_PrefixCountV4 c) (nd_PrefixCountV6 doc + cd_PrefixCountV6 c)
     (nd_Countries doc ++ [c]),
   <[cd_CountryCode c := MkMeta (cd_Country c) (cd_ContinentCode c) (cd_Continent c) (cd_MonitoredTargets c)]> meta).

Definition provider_asns (provider : string) (d : database) : list Z :=
  sort_by Z.leb (map fst (List.filter (fun kv : Z * asn_row => bool_decide (an_provider kv.2 = provider))
                            (map_to_list (db_asn d)))).

Definition networkFootprint (provider : string) : DB (networkDoc * gmap string countryMeta) :=
  let! snap := query (fun _ d => newest_published d) in
  match snap with
  | None => ret (MkNetwork "" None [] 0 0 0 0 [], ∅)
  | Some s =>
      let! asns := query (fun _ d => provider_asns provider d) in
      let! rows := query (fun _ d => provider_geo_rows (sn_id s) provider d) in
      ret (foldl add_country (MkNetwork (sn_version s) (sn_published_at s) asns 0 0 0 0 [], ∅) rows)
  end.

Definition region_doc (meta : gmap string countryMeta) (w : window_row) : regionDoc :=
  let m := meta !! cw_region w in
  MkRegion (cw_region w) (default ""%string (cm_name <$> m)) (default ""%string (cm_continentCode <$> m))
    (default ""%string (cm_continentName <$> m)) (cw_verdict w) (cw_confidence w) (metrics_json w)
    (MkCoverage (default 0 (cm_targets <$> m)) (cw_measured_targets w) (cw_up_targets w) (cw_workers w)) (cw_start w).

Definition network_row (meta : gmap string countryMeta) (target : addr) (t : target_status_row) : networkRow :=
  match meta !! tst_region t with
  | Some m => MkNetworkRow target (tst_region t) (cm_name m) (cm_continentCode m) (cm_continentName m) t
  | None => MkNetworkRow target (tst_region t)
              (if bool_decide (tst_region t = unknownRegion) then "Unknown" else "") "" "" t
  end.

(** [order by region, prefix, target]: a null prefix sorts last. *)
Definition prefix_leb (p q : prefix) : bool :=
  let a := pfx_addr p in let b := pfx_addr q in
  if addr_Less a b then true else if addr_Less b a then false else pfx_bits p <=? pfx_bits q.
Definition status_leb (x y : addr * target_status_row) : bool :=
  if negb (bool_decide (tst_region x.2 = tst_region y.2)) then string_leb (tst_region x.2) (tst_region y.2)
  else if bool_decide (tst_prefix x.2 = tst_prefix y.2) then negb (addr_Less y.1 x.1)
  else match tst_prefix x.2, tst_prefix y.2 with
       | Some p, Some q => prefix_leb p q
       | Some _, None => true
       | None, _ => false
       end.

Definition monitoredNetworks (provider : string) (meta : gmap string countryMeta) : DB (list networkRow) :=
  let! rows := query (fun _ d => sort_by status_leb (omap (fun '((p, a), t) =>
      if bool_decide (p = provider) then Some (a, t) else None) (map_to_list (db_target_status d)))) in
  ret (map (fun '(a, t) => network_row meta a t) rows).

Definition region_leb (x y : regionDoc) : bool := string_leb (rd_Region x) (rd_Region y).

Definition statusDocument (provider : string) (wins : list window_row) (global : window_row) : DB statusDoc :=
  let! net := networkFootprint provider in
  let regions := sort_by region_leb (map (region_doc net.2)
    (List.filter (fun w => negb (bool_decide (cw_region w = "global"))) wins)) in
  let! networks := monitoredNetworks provider net.2 in
  ret (MkStatusDoc provider (cw_start global) (cw_verdict global, cw_confidence global, metrics_json global)
         regions net.1 networks).

Section Rollup.
(** [json.Marshal] of the document. *)
Variable marshal_status : statusDoc -> json.

Definition enqueue (kind : string) (payload : json) : DB unit :=
  exec (fun now d => set_outbox_seq Z.succ (set_outbox (fun t =>
    t ++ [OutboxRow (db_outbox_seq d) kind payload now 0 now None]) d)).

Definition find_global (wins : list window_row) : option window_row :=
  last (List.filter (fun w => bool_decide (cw_region w = "global")) wins).

Definition rollup_provider (cfg : AggConfig) (provider : string) (wins : list window_row) : DB unit :=
  let! prev := query (fun _ d => ps_verdict <$> db_provider_status d !! (provider, "global"%string)) in
  do! forM wins upsert_status ;;
  match find_global wins with
  | None => ret tt
  | Some global =>
      do! (if negb (bool_decide (prev = Some (cw_verdict global)))
           then handleTransition provider prev (cw_verdict global) (cw_start global) else ret tt) ;;
      do! (match cw_p50 global with
           | Some p50 => checkLatencyAnomaly provider p50 (cw_start global) (LatencyFactor cfg)
           | None => ret tt
           end) ;;
      let! doc := statusDocument provider wins global in
      enqueue "provider_status" (marshal_status doc)
  end.

Definition RollupStatus (c : AggConfig) : DB unit :=
  let cfg := withDefaults c in
  do! refreshTargetStatus cfg ;;
  let! wins := query (fun _ d => newest_windows d) in
  forM (remove_dups (map cw_provider wins)) (fun provider =>
    rollup_provider cfg provider (List.filter (fun w => bool_decide (cw_provider w = provider)) wins)).
End Rollup.

(** * Lemmas *)
Lemma newest_window_In l x : newest_window l = Some x -> In x l.
Proof.
  unfold newest_window. assert (forall acc, foldl (fun acc x => match acc with None => Some x
    | Some b => if cw_start b <? cw_start x then Some x else Some b end) acc l = Some x -> In x l \/ acc = Some x) as H.
  { induction l as [|y l IH]; intros acc; simpl; [auto|]. intros [?|E]%IH; [auto|].
    destruct acc as [b|]; [destruct (_ <? _)|]; simplify_eq; auto. }
  intros [?|?]%H; done.
Qed.

Lemma newest_window_max l x y : newest_window l = Some x -> In y l -> cw_start y <= cw_start x.
Proof.
  unfold newest_window. assert (forall acc, foldl (fun acc x => match acc with None => Some x
    | Some b => if cw_start b <? cw_start x then Some x else Some b end) acc l = Some x ->
    (forall b, acc = Some b -> cw_start b <= cw_start x) /\ (forall y, In y l -> cw_start y <= cw_start x)) as H.
  { induction l as [|z l IH]; intros acc; simpl.
    - intros ->. split; [intros; by simplify_eq | by intros].
    - intros E. destruct (IH _ E) as [I1 I2]. split.
      + intros b ->. destruct (cw_start b <? cw_start z) eqn:Eb; btrue; [specialize (I1 z eq_refl); lia | by apply I1].
      + intros y' [->|Hy]; [|by apply I2]. destruct acc as [b|]; [|by apply I1].
        destruct (cw_start b <? cw_start y') eqn:Eb; btrue; [by apply I1 | specialize (I1 b eq_refl); lia]. }
  intros E Hy. by apply (H None E).
Qed.

Lemma newest_windows_In d x : In x (newest_windows d) ->
  In x (db_window d) /\ forall y, In y (db_window d) -> win_key y = win_key x -> cw_start y <= cw_start x.
Proof.
  unfold newest_windows. intros (k & Hk & E)%list_elem_of_In%list_elem_of_omap.
  pose proof (newest_window_In _ _ E) as [Hin Hx]%group_In. split; [done|].
  intros y Hy Ey. eapply newest_window_max; [exact E|]. apply group_In. split; [done|congruence].
Qed.

Lemma newest_windows_NoDup d : NoDup (map win_key (newest_windows d)).
Proof.
  unfold newest_windows.
  assert (NoDup (sort_by pair_leb (group_keys win_key (db_window d)))) as Hn.
  { rewrite sort_by_perm. apply NoDup_remove_dups. }
  revert Hn. generalize (sort_by pair_leb (group_keys win_key (db_window d))). induction l as [|k l IH]; simpl; [constructor|].
  intros [Hk Hl]%NoDup_cons. destruct (newest_window _) as [x|] eqn:E; [|auto]. simpl. apply NoDup_cons. split; [|auto].
  apply newest_window_In, group_In in E as [_ E]. rewrite E.
  intros (y & Ey & (k' & Hk' & E')%list_elem_of_In%list_elem_of_omap)%list_elem_of_In%in_map_iff.
  apply newest_window_In, group_In in E' as [_ E']. congruence.
Qed.

(** ** Anomalies *)
Definition OneOpen (d : database) : Prop :=
  forall provider kind, (count_rows (open_anomaly provider kind) (db_anomaly d) <= 1)%nat.

Lemma OneOpen_insert provider kind severity at_ ev d : OneOpen d ->
  OneOpen (if exists_row (open_anomaly provider kind) (db_anomaly d) then d
           else set_anomaly (fun t => t ++ [AnomalyRow provider kind "global" severity at_ None ev]) d).
Proof.
  intros HI. destruct (exists_row _ _) eqn:E; [done|]. intros p k. simpl. rewrite count_app, count_cons.
  specialize (HI p k). unfold open_anomaly at 2. simpl. unfold count_rows at 2. simpl.
  destruct (bool_decide (provider = p)) eqn:E1, (bool_decide (kind = k)) eqn:E2; simpl; try lia. btrue. subst.
  pose proof (proj2 (count_zero _ _) (proj1 (exists_row_false _ _) E)). lia.
Qed.

Lemma OneOpen_resolve provider kind at_ d : OneOpen d ->
  OneOpen (set_anomaly (update_where (open_anomaly provider kind) (resolve_anomaly at_)) d).
Proof.
  intros HI p k. simpl. rewrite count_update. etrans; [|apply (HI p k)]. apply count_le. intros a _.
  destruct (open_anomaly provider kind a); [|done]. unfold open_anomaly. simpl. by rewrite andb_false_r.
Qed.

Lemma respects_ignore {A} R `{!PreOrderAt R} (m : DB A) : Respects R m -> Respects R (ignore m).
Proof. intros H. unfold ignore. respects. done. Qed.

Lemma document_respects R `{!PreOrderAt R} provider wins global : Respects R (statusDocument provider wins global).
Proof. unfold statusDocument, networkFootprint, monitoredNetworks. respects. Qed.

Lemma RollupStatus_OneOpen ms c : Respects (Keeps OneOpen) (RollupStatus ms c).
Proof.
  unfold RollupStatus, refreshTargetStatus, rollup_provider, upsert_status, handleTransition, checkLatencyAnomaly, enqueue.
  respects; try (apply respects_ignore; [apply _|]; unfold insert_anomaly, resolve_anomalies; respects);
    try (intros HI; by apply OneOpen_insert); try (intros HI; by apply OneOpen_resolve); try (intros HI; exact HI).
  apply document_respects. apply _.
Qed.

(** ** Status rows *)
Lemma upserts_spec wins w u w' : NoDup (map win_key wins) ->
  forM wins upsert_status w = (Ok u, w') ->
  w_now w' = w_now w /\
  (forall k, (forall x, In x wins -> win_key x <> k) ->
     db_provider_status (w_db w') !! k = db_provider_status (w_db w) !! k) /\
  (forall x, In x wins -> db_provider_status (w_db w') !! win_key x =
     Some (status_of (w_now w) (db_provider_status (w_db w) !! win_key x) x)).
Proof.
  revert w. induction wins as [|y wins IH]; intros w Hnd H.
  - simpl in H. inv_ok. split_and!; [done | done | by intros].
  - apply NoDup_cons in Hnd as [Hy Hnd]. simpl in H. apply bindM_Ok in H as (v & w1 & [E1 En1]%exec_Ok & H).
    destruct (IH w1 Hnd H) as (En & H1 & H2).
    assert (forall x, In x wins -> win_key x <> win_key y) as Hne.
    { intros x Hx E. apply Hy. rewrite <- E. apply list_elem_of_In. by apply in_map. }
    rewrite E1, En1 in *. split_and!; [done | |].
    + intros k Hk. rewrite H1 by (intros; apply Hk; by right). simpl. apply lookup_insert_ne. apply Hk. by left.
    + intros x [->|Hx].
      * rewrite H1 by done. simpl. apply lookup_insert_eq.
      * rewrite H2 by done. simpl. rewrite lookup_insert_ne by (intros E; by apply (Hne x)). done.
Qed.

Definition SameStatus (_ : Z) (d d' : database) : Prop := db_provider_status d' = db_provider_status d.
#[global] Instance SameStatus_preorder : PreOrderAt SameStatus.
Proof. split; unfold SameStatus; congruence. Qed.

Lemma transition_same provider prev v at_ : Respects SameStatus (handleTransition provider prev v at_).
Proof.
  unfold handleTransition, ignore, insert_anomaly, resolve_anomalies. respects; try done.
  by destruct (exists_row _ _).
Qed.
Lemma latency_same provider p50 at_ f : Respects SameStatus (checkLatencyAnomaly provider p50 at_ f).
Proof.
  unfold checkLatencyAnomaly, ignore, insert_anomaly, resolve_anomalies. respects; try done.
  by destruct (exists_row _ _).
Qed.
Lemma refresh_same cfg : Respects SameStatus (refreshTargetStatus cfg).
Proof. unfold refreshTargetStatus. respects; done. Qed.

Lemma rollup_provider_spec ms cfg provider wins w u w' : NoDup (map win_key wins) ->
  rollup_provider ms cfg provider wins w = (Ok u, w') ->
  w_now w' = w_now w /\
  (forall k, (forall x, In x wins -> win_key x <> k) ->
     db_provider_status (w_db w') !! k = db_provider_status (w_db w) !! k) /\
  (forall x, In x wins -> db_provider_status (w_db w') !! win_key x =
     Some (status_of (w_now w) (db_provider_status (w_db w) !! win_key x) x)).
Proof.
  intros Hnd H. unfold rollup_provider in H. apply bindM_Ok in H as (prev & w1 & (_ & E1 & En1)%query_Ok & H).
  apply bindM_Ok in H as (v & w2 & Hu & H). apply upserts_spec in Hu as (En2 & H1 & H2); [|done].
  assert (w_now w' = w_now w2 /\ db_provider_status (w_db w') = db_provider_status (w_db w2)) as [-> ->].
  { refine ((_ : Respects SameStatus _) w2 _ w' H). destruct (find_global wins); [|respects].
    unfold enqueue. respects; try done; [apply transition_same | apply latency_same | apply document_respects, _]. }
  rewrite E1, En1 in *. done.
Qed.

Lemma rollup_all ms cfg all providers w u w' : NoDup (map win_key all) -> NoDup providers ->
  forM providers (fun p => rollup_provider ms cfg p (List.filter (fun x => bool_decide (cw_provider x = p)) all)) w = (Ok u, w') ->
  (forall x, In x all -> In (cw_provider x) providers -> db_provider_status (w_db w') !! win_key x =
     Some (status_of (w_now w) (db_provider_status (w_db w) !! win_key x) x)) /\
  (forall k, ~ In k.1 providers -> db_provider_status (w_db w') !! k = db_provider_status (w_db w) !! k).
Proof.
  intros Hall. revert w. induction providers as [|p ps IH]; intros w Hnd H.
  - simpl in H. inv_ok. done.
  - apply NoDup_cons in Hnd as [Hp Hnd]. simpl in H. apply bindM_Ok in H as (v & w1 & H1 & H).
    set (mine := List.filter _ all) in H1.
    assert (forall x, In x mine <-> In x all /\ cw_provider x = p) as Hm
      by (intros x; unfold mine; by rewrite filter_In, bool_decide_eq_true).
    apply rollup_provider_spec in H1 as (En & K1 & K2); [|by apply (NoDup_select win_key)].
    destruct (IH w1 Hnd H) as [I1 I2]. rewrite En in *.
    assert (forall k, k.1 <> p -> db_provider_status (w_db w1) !! k = db_provider_status (w_db w) !! k) as Kn.
    { intros k Hk. apply K1. intros x [_ Hx]%Hm <-. by apply Hk. }
    split.
    + intros x Hx [->|Hin].
      * rewrite I2 by (simpl; by rewrite <- list_elem_of_In). apply K2, Hm. done.
      * rewrite I1 by done. do 2 f_equal. apply Kn. simpl. intros E. apply Hp, list_elem_of_In. congruence.
    + intros k Hk. rewrite I2 by (intros Hi; apply Hk; by right). apply Kn. intros E. apply Hk. by left.
Qed.

(** * Properties *)

(** Public status is always the newest settled window: after a successful
    rollup, for every provider and region that has a window, the status row
    carries the verdict and confidence of the newest one, and its [since] is
    kept from before when the verdict did not change and is that window's
    start otherwise. *)
Theorem status_follows_windows ms c w u w' :
  RollupStatus ms c w = (Ok u, w') ->
  forall x, In x (db_window (w_db w)) -> exists y s, In y (db_window (w_db w)) /\ win_key y = win_key x /\
    cw_start x <= cw_start y /\
    db_provider_status (w_db w') !! win_key x = Some s /\
    ps_verdict s = cw_verdict y /\ ps_confidence s = cw_confidence y /\
    ps_since s = since_of (db_provider_status (w_db w) !! win_key x) y.
Proof.
  unfold RollupStatus. intros H x Hx. apply bindM_Ok in H as (v & w1 & H1 & H).
  pose proof (refresh_same _ _ _ _ H1) as [En1 Es1]. assert (db_window (w_db w1) = db_window (w_db w)) as Ew1.
  { unfold refreshTargetStatus in H1. inv_ok. worlds. done. }
  apply bindM_Ok in H as (wins & w2 & (-> & E2 & En2)%query_Ok & H).
  assert (exists y, In y (newest_windows (w_db w1)) /\ win_key y = win_key x) as (y & Hy & Ey).
  { unfold newest_windows. destruct (newest_window (group win_key (win_key x) (db_window (w_db w1)))) as [y|] eqn:E.
    - exists y. split.
      + apply list_elem_of_In, list_elem_of_omap. exists (win_key x). split; [|done].
        rewrite sort_by_perm, list_elem_of_In, group_keys_In. exists x. by rewrite Ew1.
      + apply newest_window_In, group_In in E as [_ E]. exact E.
    - exfalso. assert (In x (group win_key (win_key x) (db_window (w_db w1)))) as Hg by (apply group_In; by rewrite Ew1).
      destruct (group _ _ _) as [|z l]; [done|]. clear -E. unfold newest_window in E. simpl in E.
      revert E. generalize z. induction l as [|a l IH]; intros b; simpl; [done|]. destruct (_ <? _); apply IH. }
  apply newest_windows_In in Hy as Hy2. destruct Hy2 as [Hin Hmax]. rewrite Ew1 in *.
  eapply rollup_all in H as [H _]; [|apply newest_windows_NoDup | apply NoDup_remove_dups].
  assert (In (cw_provider y) (remove_dups (map cw_provider (newest_windows (w_db w1))))) as Hp
    by (apply list_elem_of_In, elem_of_remove_dups, list_elem_of_In; by apply in_map).
  specialize (H y Hy Hp). rewrite E2, Ey, Es1 in H.
  exists y, (status_of (w_now w2) (db_provider_status (w_db w) !! win_key x) y).
  split_and!; try done. by apply Hmax.
Qed.

(** At most one anomaly of each kind is open per provider, whatever
    statements of a rollup fail. *)
Theorem one_open_anomaly ms c w r w' provider kind :
  RollupStatus ms c w = (r, w') ->
  (forall p k, (count_rows (open_anomaly p k) (db_anomaly (w_db w)) <= 1)%nat) ->
  (count_rows (open_anomaly provider kind) (db_anomaly (w_db w')) <= 1)%nat.
Proof. intros [_ H]%RollupStatus_OneOpen HI. by apply H. Qed.

(** ** Transitions *)
Lemma open_after_insert provider kind severity at_ ev d :
  exists_row (open_anomaly provider kind)
    (db_anomaly (if exists_row (open_anomaly provider kind) (db_anomaly d) then d
                 else set_anomaly (fun t => t ++ [AnomalyRow provider kind "global" severity at_ None ev]) d)) = true.
Proof.
  destruct (exists_row _ (db_anomaly d)) eqn:E; [done|]. simpl. apply exists_row_true.
  eexists. split; [apply in_or_app; right; by left|]. unfold open_anomaly. simpl. by rewrite !bool_decide_true.
Qed.

Lemma none_after_resolve provider kind at_ d :
  exists_row (open_anomaly provider kind)
    (db_anomaly (set_anomaly (update_where (open_anomaly provider kind) (resolve_anomaly at_)) d)) = false.
Proof.
  simpl. apply exists_row_false. intros a (b & Hb & ->)%update_where_In.
  destruct (open_anomaly provider kind b) eqn:E; [|done]. unfold open_anomaly. simpl. by rewrite andb_false_r.
Qed.

(** Incidents follow verdicts.  When no statement fails, a transition into
    outage (or from healthy to degraded) leaves a reachability anomaly open
    for the provider, a transition to healthy leaves none open, and any other
    transition changes nothing. *)
Theorem transition_incidents provider prev v at_ d now :
  let '(r, w') := handleTransition provider prev v at_ (World d now []) in
  let is_open := exists_row (open_anomaly provider "reachability_loss") (db_anomaly (w_db w')) in
  r = Ok tt /\
  match v, prev with
  | Outage, _ => is_open = true
  | Degraded, Some Healthy => is_open = true
  | Healthy, _ => is_open = false
  | _, _ => w_db w' = d
  end.
Proof.
  destruct v; unfold handleTransition; simpl.
  - split; [done|]. apply none_after_resolve.
  - destruct prev as [[]|]; simpl; (split; [done|]); try done. apply open_after_insert.
  - split; [done|]. apply open_after_insert.
  - done.
Qed.

(** ** The document *)
Lemma add_country_sums rows acc :
  let '(doc, meta) := acc in
  let doc' := (foldl add_country acc rows).1 in
  nd_IPv4Addresses doc' = nd_IPv4Addresses doc + sumZ (fun r => pg_ipv4 r.2) rows /\
  nd_IPv6Net64s doc' = nd_IPv6Net64s doc + sumZ (fun r => pg_net64s r.2) rows /\
  nd_PrefixCountV4 doc' = nd_PrefixCountV4 doc + sumZ (fun r => pg_count_v4 r.2) rows /\
  nd_PrefixCountV6 doc' = nd_PrefixCountV6 doc + sumZ (fun r => pg_count_v6 r.2) rows /\
  nd_Countries doc' = nd_Countries doc ++ map (fun r => country_of r.1 r.2) rows /\
  nd_ASNs doc' = nd_ASNs doc /\ nd_SnapshotVersion doc' = nd_SnapshotVersion doc.
Proof.
  revert acc. induction rows as [|r rows IH]; intros [doc meta]; simpl.
  - rewrite app_nil_r. split_and!; try done; unfold sumZ; simpl; lia.
  - specialize (IH (add_country (doc, meta) r)). simpl in IH.
    destruct IH as (-> & -> & -> & -> & -> & -> & ->). unfold sumZ. simpl. rewrite <- app_assoc.
    split_and!; try done; lia.
Qed.

(** The published document is consistent with the tables: its provider
    totals are the sums over the countries of the provider's rows in the
    newest published snapshot, which it lists exactly once each; and it has
    exactly one region entry per non-global window, carrying that window's
    verdict, confidence and target counts. *)
Theorem document_consistent provider wins global d now :
  exists doc, statusDocument provider wins global (World d now []) = (Ok doc, World d now []) /\
    sd_ProviderID doc = provider /\ sd_AsOf doc = cw_start global /\
    (let rows := match newest_published d with Some s => provider_geo_rows (sn_id s) provider d | None => [] end in
     let net := sd_Network doc in
     nd_IPv4Addresses net = sumZ (fun r => pg_ipv4 r.2) rows /\
     nd_IPv6Net64s net = sumZ (fun r => pg_net64s r.2) rows /\
     nd_PrefixCountV4 net = sumZ (fun r => pg_count_v4 r.2) rows /\
     nd_PrefixCountV6 net = sumZ (fun r => pg_count_v6 r.2) rows /\
     map cd_CountryCode (nd_Countries net) = map fst rows) /\
    Permutation (map (fun r => (rd_Region r, rd_Verdict r, rd_Confidence r,
                                TargetsMeasured (rd_Coverage r), TargetsUp (rd_Coverage r))) (sd_Regions doc))
                (map (fun w => (cw_region w, cw_verdict w, cw_confidence w, cw_measured_targets w, cw_up_targets w))
                   (List.filter (fun w => negb (bool_decide (cw_region w = "global"))) wins)).
Proof.
  assert (exists net, networkFootprint provider (World d now []) = (Ok net, World d now []) /\
    let rows := match newest_published d with Some s => provider_geo_rows (sn_id s) provider d | None => [] end in
    nd_IPv4Addresses net.1 = sumZ (fun r => pg_ipv4 r.2) rows /\
    nd_IPv6Net64s net.1 = sumZ (fun r => pg_net64s r.2) rows /\
    nd_PrefixCountV4 net.1 = sumZ (fun r => pg_count_v4 r.2) rows /\
    nd_PrefixCountV6 net.1 = sumZ (fun r => pg_count_v6 r.2) rows /\
    map cd_CountryCode (nd_Countries net.1) = map fst rows) as (net & En & Hn).
  { unfold networkFootprint, query, bindM. rewrite stmt_nofault. destruct (newest_published d) as [s|]; [|by eexists].
    rewrite !stmt_nofault. eexists. split; [done|].
    pose proof (add_country_sums (provider_geo_rows (sn_id s) provider d)
      (MkNetwork (sn_version s) (sn_published_at s) (provider_asns provider d) 0 0 0 0 [], ∅)) as H. simpl in H.
    destruct H as (-> & -> & -> & -> & -> & _). split_and!; try done. rewrite map_map. by apply map_ext. }
  unfold statusDocument, bindM. rewrite En. unfold monitoredNetworks, bindM, query. rewrite stmt_nofault.
  eexists. split; [done|]. simpl. split_and!; try done; try apply Hn.
  rewrite sort_by_perm. rewrite map_map. by apply Permutation_refl'.
Qed.

(** * Concrete inputs *)
Definition plain_marshal (doc : statusDoc) : json := JObj [("provider_id"%string, JStr (sd_ProviderID doc))].
Definition rolled : dbworld := (RollupStatus plain_marshal sample_cfg settled).2.

Lemma rolled_runs : RollupStatus plain_marshal sample_cfg settled = (Ok tt, rolled).
Proof. vm_compute. reflexivity. Qed.

Lemma status_follows_windows_witness :
  length (db_outbox (w_db rolled)) = 1%nat /\
  forall x, In x (db_window (w_db settled)) -> exists y s, In y (db_window (w_db settled)) /\ win_key y = win_key x /\
    cw_start x <= cw_start y /\ db_provider_status (w_db rolled) !! win_key x = Some s /\
    ps_verdict s = cw_verdict y /\ ps_confidence s = cw_confidence y /\
    ps_since s = since_of (db_provider_status (w_db settled) !! win_key x) y.
Proof.
  split; [vm_compute; reflexivity|].
  exact (status_follows_windows plain_marshal sample_cfg settled tt rolled rolled_runs).
Defined.

Lemma one_open_anomaly_witness :
  (count_rows (open_anomaly "p" "reachability_loss") (db_anomaly (w_db rolled)) <= 1)%nat.
Proof.
  apply (one_open_anomaly plain_marshal sample_cfg settled (Ok tt) rolled "p" "reachability_loss" rolled_runs).
  intros p k. assert (db_anomaly (w_db settled) = []) as -> by (vm_compute; reflexivity).
  unfold count_rows. simpl. lia.
Defined.
