(* ===== verification/Outbox.v ===== *)
(** [internal/publisher]: draining the publication outbox to VPS Advisor.

    The state is the database and the log of what the Advisor API accepted:
    a push is an effect outside the transaction, so a rolled back drain has
    delivered nonetheless.  Whether the API accepts a given row is a
    parameter.  [power(2, attempts) * interval '1 second'] leaves the range of
    an interval (64-bit microseconds) from 44 attempts on, which fails the
    statement. *)
From stdpp Require Import base gmap strings list.
From Stdlib Require Import ZArith QArith Lia.
From S2P Require Import Prelude Netip Schema Trust Consensus Rollup.
From S2P Require Leasing.
Open Scope Z_scope.

Record pub : Type := Pub { pub_db : database; pub_log : list (Z * json) }.
Abbreviation PM := (M pub).

Definition on_db {A} (m : DB A) : PM A := fun w =>
  let (r, w') := m (World (pub_db (w_db w)) (w_now w) (w_faults w)) in
  (r, World (Pub (w_db w') (pub_log (w_db w))) (w_now w') (w_faults w')).

(** [tx.Rollback] restores the tables, not what was pushed. *)
Definition rollback_tables {A} (m : PM A) : PM A := fun w =>
  match m w with
  | (Ok a, w') => (Ok a, w')
  | (Err e, w') => (Err e, World (Pub (pub_db (w_db w)) (pub_log (w_db w'))) (w_now w') (w_faults w'))
  end.

(** ** Statements *)
Definition due (now : Z) (locked : Z -> bool) (r : outbox_row) : bool :=
  is_none (ob_acked_at r) && (ob_next_attempt r <=? now) && negb (locked (ob_id r)).
Definition due_rows (now : Z) (locked : Z -> bool) (d : database) : list outbox_row :=
  take 100 (select (due now locked) (db_outbox d)).

Definition ack_row (now : Z) (r : outbox_row) : outbox_row :=
  OutboxRow (ob_id r) (ob_kind r) (ob_payload r) (ob_created_at r) (ob_attempts r + 1) (ob_next_attempt r) (Some now).

(** Microseconds of [power(2, attempts) * interval '1 second'], [None] when
    out of range. *)
Definition backoff (attempts : Z) : option Z :=
  if 2 ^ 63 <=? 2 ^ attempts * 1000000 then None else Some (Z.min (2 ^ attempts * Second) (5 * Minute)).
Definition retry_row (now delay : Z) (r : outbox_row) : outbox_row :=
  OutboxRow (ob_id r) (ob_kind r) (ob_payload r) (ob_created_at r) (ob_attempts r + 1) (now + delay) (ob_acked_at r).

Definition ack (id : Z) : DB unit :=
  exec (fun now => set_outbox (update_where (fun r => ob_id r =? id) (ack_row now))).

(** The update of a failed row; [update ... where id = $1] touches one row. *)
Definition retry (id : Z) : DB unit :=
  stmt (fun now d =>
    match mapM (fun r => if ob_id r =? id
                         then (fun delay => retry_row now delay r) <$> backoff (ob_attempts r)
                         else Some r) (db_outbox d) with
    | Some t => Ok (tt, set_outbox (fun _ => t) d)
    | None => Err (EConstraint "interval out of range")
    end).

Section Publisher.
(** Whether the Results API answers a row's push with success. *)
Variable accepts : Z -> string -> json -> bool.

Definition payload_provider (p : json) : string :=
  match p with
  | JObj l => match List.find (fun kv => bool_decide (kv.1 = "provider_id"%string)) l with
              | Some (_, JStr s) => s
              | _ => ""
              end
  | _ => ""
  end.

(** [push]: the dispatch on the row's kind; [true] is a nil error. *)
Definition push (id : Z) (kind : string) (payload : json) : bool :=
  if bool_decide (kind = "provider_status") then
    negb (bool_decide (payload_provider payload = "")) && accepts id kind payload
  else if bool_decide (kind = "anomaly") || bool_decide (kind = "telemetry") then accepts id kind payload
  else false.

Definition deliver (id : Z) (payload : json) : PM unit := fun w =>
  (Ok tt, World (Pub (pub_db (w_db w)) (pub_log (w_db w) ++ [(id, payload)])) (w_now w) (w_faults w)).

Fixpoint drain (items : list outbox_row) (pushed : Z) : PM Z :=
  match items with
  | [] => ret pushed
  | it :: items' =>
      if push (ob_id it) (ob_kind it) (ob_payload it) then
        do! deliver (ob_id it) (ob_payload it) ;;
        do! on_db (ack (ob_id it)) ;;
        drain items' (pushed + 1)
      else
        do! on_db (retry (ob_id it)) ;;
        drain items' pushed
  end.

Definition DrainOnce (locked : Z -> bool) : PM Z :=
  rollback_tables (
    do! on_db begin_commit ;;
    let! items := on_db (query (fun now d => due_rows now locked d)) in
    let! pushed := drain items 0 in
    do! on_db begin_commit ;;
    ret pushed).
End Publisher.

(** ** Fleet telemetry *)
Definition count_by {A K} `{EqDecision K} (key : A -> K) (l : list A) : list (K * Z) :=
  map (fun k => (k, Z.of_nat (length (group key k l)))) (group_keys key l).
Definition count_json (l : list (string * Z)) : json := JObj (map (fun kv => (kv.1, int_json kv.2)) l).

Definition fleet_telemetry (time_json : Z -> json) (now : Z) (d : database) : json :=
  let workers := map snd (map_to_list (db_worker d)) in
  JObj [("as_of"%string, time_json now);
        ("workers_by_state"%string, count_json (count_by (fun w => state_name (w_state w)) workers));
        ("software_versions"%string, count_json (count_by (fun w => default "unknown"%string (w_version w))
            (List.filter (fun w => bool_decide (w_state w = Active)) workers)));
        ("published_snapshot"%string,
           match last (select (fun s => bool_decide (sn_status s = Published)) (db_snapshot d)) with
           | Some s => JStr (sn_version s)
           | None => JNull
           end);
        ("security_events_24h"%string, count_json (count_by te_type
            (select (fun e => (now - 24 * Hour <? te_created_at e)
                && (bool_decide (te_type e = "bad_signature") || bool_decide (te_type e = "replay")))
              (db_trust_event d))))].

Definition EnqueueFleetTelemetry (time_json : Z -> json) : DB unit :=
  let! doc := query (fleet_telemetry time_json) in
  enqueue "telemetry" doc.

(** * Lemmas *)
Lemma on_db_run {A} (m : DB A) w r w' : on_db m w = (r, w') ->
  exists dw, m (World (pub_db (w_db w)) (w_now w) (w_faults w)) = (r, dw) /\
    w_db w' = Pub (w_db dw) (pub_log (w_db w)) /\ w_now w' = w_now dw /\ w_faults w' = w_faults dw.
Proof. unfold on_db. destruct (m _) as [r1 dw] eqn:E. intros H. simplify_eq. eauto. Qed.

Lemma backoff_range n delay : 0 <= n -> backoff n = Some delay -> 0 < delay <= 5 * Minute.
Proof.
  intros Hn. unfold backoff. destruct (_ <=? _); [done|]. intros E. injection E as <-.
  pose proof (Z.pow_pos_nonneg 2 n ltac:(lia) Hn). unfold Minute, Second. lia.
Qed.

Lemma backoff_defined n : 0 <= n < 44 -> is_Some (backoff n).
Proof.
  intros Hn. unfold backoff. rewrite (proj2 (Z.leb_gt _ _)); [eauto|].
  assert (2 ^ n <= 2 ^ 43) by (apply Z.pow_le_mono_r; lia).
  assert (2 ^ 43 * 1000000 < 2 ^ 63) by (vm_compute; reflexivity). lia.
Qed.

Lemma backoff_overflow n : 44 <= n -> backoff n = None.
Proof.
  intros Hn. unfold backoff. rewrite (proj2 (Z.leb_le _ _)); [done|].
  assert (2 ^ 44 <= 2 ^ n) by (apply Z.pow_le_mono_r; lia).
  assert (2 ^ 63 <= 2 ^ 44 * 1000000) by (vm_compute; discriminate). lia.
Qed.

(** How a row may change during a drain, given what has been delivered. *)
Definition row_step (now : Z) (log : list (Z * json)) (r r' : outbox_row) : Prop :=
  ob_id r' = ob_id r /\ ob_kind r' = ob_kind r /\ ob_payload r' = ob_payload r /\ ob_created_at r' = ob_created_at r /\
  (ob_attempts r' = ob_attempts r /\ ob_next_attempt r' = ob_next_attempt r \/ ob_attempts r < ob_attempts r') /\
  (ob_acked_at r' = ob_acked_at r \/ ob_acked_at r' = Some now /\ In (ob_id r, ob_payload r) log).
Definition rows_step (now : Z) (log : list (Z * json)) (t t' : list outbox_row) : Prop := Forall2 (row_step now log) t t'.

Lemma row_step_refl now log r : row_step now log r r.
Proof. unfold row_step. auto 10. Qed.

Lemma rows_step_refl now log t : rows_step now log t t.
Proof. induction t; constructor; [apply row_step_refl | done]. Qed.

Lemma row_step_trans now log r1 r2 r3 : row_step now log r1 r2 -> row_step now log r2 r3 -> row_step now log r1 r3.
Proof.
  intros (A1 & A2 & A3 & A4 & A5 & A6) (B1 & B2 & B3 & B4 & B5 & B6). split_and!; try congruence.
  - destruct A5 as [[? ?]|?], B5 as [[? ?]|?]; [left; split; congruence | right; lia..].
  - destruct B6 as [B6|[B6 B7]]; [destruct A6 as [A6|[A6 A7]]; [left; congruence | right; split; congruence]|].
    right. split; [done|]. by rewrite <- A1, <- A3.
Qed.

Lemma rows_step_trans now log t1 t2 t3 : rows_step now log t1 t2 -> rows_step now log t2 t3 -> rows_step now log t1 t3.
Proof.
  intros H. revert t3. induction H as [|a b l1 l2 Hab Hl IH]; intros t3 H3; [done|].
  apply Forall2_cons_inv_l in H3 as (c & l3 & Hbc & H3 & ->). constructor; [by eapply row_step_trans | by apply IH].
Qed.

Lemma row_step_log now log log' r r' : (forall x, In x log -> In x log') -> row_step now log r r' -> row_step now log' r r'.
Proof. unfold row_step. naive_solver. Qed.

Lemma rows_step_log now log log' t t' : (forall x, In x log -> In x log') -> rows_step now log t t' -> rows_step now log' t t'.
Proof. intros H Hr. induction Hr; constructor; [by eapply row_step_log | done]. Qed.

Section DrainLemmas.
Variable accepts : Z -> string -> json -> bool.

(** The table has the rows the drain works on. *)
Definition backed (items t : list outbox_row) : Prop :=
  forall it, In it items -> exists r, In r t /\ ob_id r = ob_id it /\ ob_payload r = ob_payload it.

Lemma backed_step now log items t t' : rows_step now log t t' -> backed items t -> backed items t'.
Proof.
  intros Hs Hb it Hit. destruct (Hb it Hit) as (r & Hr & E1 & E2).
  apply list_elem_of_In, list_elem_of_lookup in Hr as [i Hi].
  destruct (Forall2_lookup_l _ _ _ _ _ Hs Hi) as (r' & Hi' & (A1 & _ & A3 & _)).
  exists r'. split; [apply list_elem_of_In, list_elem_of_lookup; eauto|]. split; congruence.
Qed.

Lemma step_ids now log t t' : rows_step now log t t' -> map ob_id t' = map ob_id t.
Proof. induction 1 as [|a b l l' H _ IH]; [done|]. simpl. rewrite IH. f_equal. apply H. Qed.

Lemma ack_step now log id p t : NoDup (map ob_id t) -> (exists r, In r t /\ ob_id r = id /\ ob_payload r = p) ->
  In (id, p) log -> rows_step now log t (update_where (fun r => ob_id r =? id) (ack_row now) t).
Proof.
  intros Hnd (r0 & Hr0 & E1 & E2) Hlog. unfold rows_step, update_where.
  assert (forall r, In r t -> ob_id r = id -> ob_payload r = p) as Hp.
  { intros r Hr E. assert (r = r0) as ->; [|done]. eapply (Leasing.NoDup_key_eq ob_id); [exact Hnd | done | done | congruence]. }
  clear Hr0 Hnd. induction t as [|r t IH]; [constructor|]. constructor; [|apply IH; intros; apply Hp; [by right|done]].
  destruct (ob_id r =? id) eqn:E; [|apply row_step_refl]. btrue. unfold row_step. simpl.
  split_and!; try done; [right; lia|]. right. split; [done|]. rewrite (Hp r (or_introl eq_refl) E), E. done.
Qed.

Lemma retry_step now log id t t' :
  mapM (fun r => if ob_id r =? id then (fun delay => retry_row now delay r) <$> backoff (ob_attempts r) else Some r) t
    = Some t' -> rows_step now log t t'.
Proof.
  revert t'. induction t as [|r t IH]; intros t'; simpl; [intros E; injection E as <-; constructor|].
  destruct (if ob_id r =? id then _ else _) as [r'|] eqn:Er; simpl; [|done].
  destruct (mapM _ t) as [t1|] eqn:Et; simpl; [|done]. intros E. injection E as <-. constructor; [|by apply IH].
  destruct (ob_id r =? id); [|injection Er as <-; apply row_step_refl].
  destruct (backoff _); [|done]. injection Er as <-. unfold row_step. simpl. split_and!; try done; [right; lia | by left].
Qed.

(** Whatever fails, a drain only acknowledges what was delivered. *)
Lemma drain_steps items : forall n w r w', drain accepts items n w = (r, w') ->
  NoDup (map ob_id (db_outbox (pub_db (w_db w)))) -> backed items (db_outbox (pub_db (w_db w))) ->
  w_now w' = w_now w /\ (exists more, pub_log (w_db w') = pub_log (w_db w) ++ more) /\
  rows_step (w_now w) (pub_log (w_db w')) (db_outbox (pub_db (w_db w))) (db_outbox (pub_db (w_db w'))).
Proof.
  induction items as [|it items IH]; intros n w r w' H Hnd Hb; simpl in H.
  { unfold ret in H. injection H as <- <-. split_and!; [done | exists []; by rewrite app_nil_r | apply rows_step_refl]. }
  destruct (Hb it (or_introl eq_refl)) as (r0 & Hr0 & E1 & E2).
  assert (backed items (db_outbox (pub_db (w_db w)))) as Hb' by (intros x Hx; apply Hb; by right).
  destruct (push accepts _ _ _).
  - unfold bindM at 1, deliver in H. unfold bindM at 1 in H.
    set (w1 := World _ _ _) in H. destruct (on_db (ack (ob_id it)) w1) as [r2 w2] eqn:E.
    apply on_db_run in E as (dw & E & Ed & En & _). subst w1. simpl in *.
    destruct r2 as [u|e].
    + apply exec_Ok in E as [E En2]. simpl in *.
      assert (rows_step (w_now w) (pub_log (w_db w2)) (db_outbox (pub_db (w_db w))) (db_outbox (pub_db (w_db w2)))) as Hs.
      { rewrite Ed. simpl. rewrite E. simpl. apply (ack_step _ _ _ (ob_payload it)); [done | eauto |].
        apply in_or_app. right. by left. }
      apply IH in H as (I1 & (more & I2) & I3).
      * rewrite En, En2 in *. split_and!; [done | exists ((ob_id it, ob_payload it) :: more); rewrite I2, Ed; simpl; by rewrite <- app_assoc |].
        eapply rows_step_trans; [|exact I3]. eapply rows_step_log; [|exact Hs]. intros x Hx. rewrite I2. apply in_or_app. auto.
      * by rewrite (step_ids _ _ _ _ Hs).
      * by eapply backed_step.
    + apply stmt_Err in E as [E En2]. simpl in *. injection H as <- <-. rewrite Ed, En, En2. simpl. rewrite E.
      split_and!; [done | by eexists | apply rows_step_refl].
  - unfold bindM at 1 in H. destruct (on_db (retry (ob_id it)) w) as [r2 w2] eqn:E.
    apply on_db_run in E as (dw & E & Ed & En & _). destruct r2 as [u|e].
    + apply stmt_Ok in E as [E En2]. simpl in *. destruct (mapM _ _) as [t|] eqn:Et; [|done]. injection E as _ E.
      assert (rows_step (w_now w) (pub_log (w_db w2)) (db_outbox (pub_db (w_db w))) (db_outbox (pub_db (w_db w2)))) as Hs.
      { rewrite Ed. simpl. rewrite <- E. simpl. by eapply retry_step. }
      apply IH in H as (I1 & (more & I2) & I3).
      * rewrite En, En2 in *. split_and!; [done | exists more; by rewrite I2, Ed |].
        eapply rows_step_trans; [|exact I3]. eapply rows_step_log; [|exact Hs]. intros x Hx. rewrite I2. apply in_or_app. auto.
      * by rewrite (step_ids _ _ _ _ Hs).
      * by eapply backed_step.
    + apply stmt_Err in E as [E En2]. simpl in *. injection H as <- <-. rewrite Ed, En, En2. simpl. rewrite E.
      split_and!; [done | exists []; by rewrite app_nil_r | apply rows_step_refl].
Qed.

Lemma due_backed now locked d : backed (due_rows now locked d) (db_outbox d).
Proof. intros it [Hit _]%Leasing.take_In%select_In. eauto. Qed.
End DrainLemmas.

Section Progress.
Variable accepts : Z -> string -> json -> bool.

Definition pushes (r : outbox_row) : bool := push accepts (ob_id r) (ob_kind r) (ob_payload r).
(** What a drain without failures makes of one of its rows. *)
Definition outcome_row (now : Z) (r : outbox_row) : outbox_row :=
  if pushes r then ack_row now r else retry_row now (default 0 (backoff (ob_attempts r))) r.

Lemma retry_run now id t : (forall r, In r t -> ob_id r = id -> 0 <= ob_attempts r < 44) ->
  mapM (fun r => if ob_id r =? id then (fun delay => retry_row now delay r) <$> backoff (ob_attempts r) else Some r) t
  = Some (update_where (fun r => ob_id r =? id) (fun r => retry_row now (default 0 (backoff (ob_attempts r))) r) t).
Proof.
  induction t as [|r t IH]; intros H; [done|]. simpl.
  destruct (ob_id r =? id) eqn:E; simpl; rewrite IH by (intros; apply H; [by right|done]); simpl; [|done].
  btrue. destruct (backoff_defined (ob_attempts r)) as [delay ->]; [by apply H; [left|]|]. done.
Qed.

Lemma update_twice {A} (p q : A -> bool) f g (t : list A) :
  (forall x, In x t -> p x = true -> q (f x) = false) ->
  update_where q g (update_where p f t) = map (fun x => if p x then f x else if q x then g x else x) t.
Proof.
  intros H. unfold update_where. rewrite map_map. apply map_ext_in. intros x Hx. destruct (p x) eqn:E; [|done].
  by rewrite H.
Qed.

Lemma select_mem_cons (it : outbox_row) items t now :
  NoDup (map ob_id (it :: items)) -> NoDup (map ob_id t) -> In it t ->
  update_where (fun r => bool_decide (ob_id r ∈ map ob_id items)) (outcome_row now)
    (update_where (fun r => ob_id r =? ob_id it) (outcome_row now) t)
  = update_where (fun r => bool_decide (ob_id r ∈ map ob_id (it :: items))) (outcome_row now) t.
Proof.
  intros [Hit _]%NoDup_cons Hnd Hin.
  assert (forall r, ob_id (outcome_row now r) = ob_id r) as Hid by (intros r; unfold outcome_row; by destruct (pushes r)).
  rewrite update_twice.
  - apply map_ext. intros r. destruct (ob_id r =? ob_id it) eqn:E; btrue.
    + rewrite bool_decide_true; [done|]. rewrite E. by left.
    + assert (bool_decide (ob_id r ∈ map ob_id items) = bool_decide (ob_id r ∈ map ob_id (it :: items))) as ->; [|done].
      apply bool_decide_ext. simpl. set_solver.
  - intros r _ E. btrue. rewrite Hid, E. by apply bool_decide_eq_false.
Qed.

Lemma drain_run items : forall n d log now,
  NoDup (map ob_id items) -> NoDup (map ob_id (db_outbox d)) ->
  (forall it, In it items -> In it (db_outbox d) /\ 0 <= ob_attempts it < 44) ->
  drain accepts items n (World (Pub d log) now []) =
    (Ok (n + Z.of_nat (length (List.filter pushes items))),
     World (Pub (set_outbox (update_where (fun r => bool_decide (ob_id r ∈ map ob_id items)) (outcome_row now)) d)
             (log ++ map (fun r => (ob_id r, ob_payload r)) (List.filter pushes items))) now []).
Proof.
  induction items as [|it items IH]; intros n d log now Hnd Hd Hin.
  { simpl. unfold ret. rewrite Z.add_0_r, app_nil_r. do 3 f_equal.
    destruct d; unfold set_outbox; simpl. f_equal. symmetry. by apply update_where_id. }
  destruct (Hin it (or_introl eq_refl)) as [Hit Hatt].
  set (d1 := set_outbox (update_where (fun r => ob_id r =? ob_id it) (outcome_row now)) d).
  assert (forall r, In r (db_outbox d) -> ob_id r = ob_id it -> r = it) as Huniq
    by (intros; by eapply (Leasing.NoDup_key_eq ob_id (db_outbox d))).
  assert (forall it', In it' items -> In it' (db_outbox d1) /\ 0 <= ob_attempts it' < 44) as Hin'.
  { intros it' Hi. destruct (Hin it' (or_intror Hi)) as [H1 H2]. split; [|done]. apply update_where_In. exists it'.
    split; [done|]. destruct (ob_id it' =? ob_id it) eqn:E; [|done]. btrue. exfalso.
    apply NoDup_cons in Hnd as [Hn _]. apply Hn. rewrite <- E. apply list_elem_of_In. by apply in_map. }
  assert (NoDup (map ob_id (db_outbox d1))) as Hd1.
  { simpl. rewrite Leasing.update_map_id; [done|]. intros r. unfold outcome_row. by destruct (pushes r). }
  pose proof (select_mem_cons it items (db_outbox d) now Hnd Hd Hit) as Hsel.
  assert (NoDup (map ob_id items)) as Hnd' by (by apply NoDup_cons in Hnd as [_ ?]).
  simpl. fold (pushes it). destruct (pushes it) eqn:Ep.
  - unfold bindM, deliver, on_db, ack, exec. simpl.
    assert (set_outbox (update_where (fun r => ob_id r =? ob_id it) (ack_row now)) d = d1) as ->.
    { unfold d1, set_outbox. f_equal. unfold update_where. apply map_ext_in. intros r Hr.
      destruct (ob_id r =? ob_id it) eqn:E; [|done]. btrue. rewrite (Huniq r Hr E). unfold outcome_row. by rewrite Ep. }
    rewrite IH by done. f_equal; [f_equal; simpl length; lia|]. do 2 f_equal.
    + unfold d1, set_outbox. simpl. f_equal. exact Hsel.
    + simpl. by rewrite <- app_assoc.
  - unfold bindM, on_db, retry. rewrite stmt_nofault. simpl. rewrite retry_run by (intros r Hr E; by rewrite (Huniq r Hr E)).
    simpl.
    assert (set_outbox (fun _ => update_where (fun r => ob_id r =? ob_id it)
      (fun r => retry_row now (default 0 (backoff (ob_attempts r))) r) (db_outbox d)) d = d1) as ->.
    { unfold d1, set_outbox. f_equal. unfold update_where. apply map_ext_in. intros r Hr.
      destruct (ob_id r =? ob_id it) eqn:E; [|done]. btrue. rewrite (Huniq r Hr E). unfold outcome_row. by rewrite Ep. }
    rewrite IH by done. do 3 f_equal. unfold d1, set_outbox. simpl. f_equal. exact Hsel.
Qed.

(** * Properties *)

(** C40: At least once, and never lost.  Whatever fails during a drain: an
    error leaves every outbox row as it was (although rows may have been
    delivered); on success every row is still there with its kind and payload,
    its attempt count never goes down, and a row that became acknowledged was
    accepted by the API in this drain. *)
Theorem drain_at_least_once locked w r w' :
  NoDup (map ob_id (db_outbox (pub_db (w_db w)))) ->
  DrainOnce accepts locked w = (r, w') ->
  (exists more, pub_log (w_db w') = pub_log (w_db w) ++ more) /\
  match r with
  | Err _ => pub_db (w_db w') = pub_db (w_db w)
  | Ok _ => rows_step (w_now w) (pub_log (w_db w')) (db_outbox (pub_db (w_db w))) (db_outbox (pub_db (w_db w')))
  end.
Proof.
  intros Hnd H. unfold DrainOnce, rollback_tables in H.
  destruct (bindM _ _ w) as [r1 w1] eqn:E.
  enough ((exists more, pub_log (w_db w1) = pub_log (w_db w) ++ more) /\
    (is_ok r1 = true -> rows_step (w_now w) (pub_log (w_db w1)) (db_outbox (pub_db (w_db w))) (db_outbox (pub_db (w_db w1))))) as [H1 H2].
  { destruct r1; injection H as <- <-; simpl; auto. }
  clear H r w'. unfold bindM at 1 in E. destruct (on_db begin_commit w) as [[u|e] w2] eqn:E1;
    apply on_db_run in E1 as (dw & E1 & Ed & En & _); cycle 1.
  { injection E as <- <-. rewrite Ed. split; [exists []; by rewrite app_nil_r | done]. }
  apply begin_commit_Ok in E1 as [E1 E1n]. simpl in *. unfold bindM at 1 in E.
  destruct (on_db (query _) w2) as [[items|e] w3] eqn:E2; apply on_db_run in E2 as (dw2 & E2 & Ed2 & En2 & _); cycle 1.
  { injection E as <- <-. rewrite Ed2, Ed. split; [exists []; by rewrite app_nil_r | done]. }
  apply query_Ok in E2 as (-> & E2 & E2n). simpl in *. unfold bindM at 1 in E.
  destruct (drain _ _ _ w3) as [[n|e] w4] eqn:E3; apply drain_steps in E3 as (D1 & (more & D2) & D3);
    try (rewrite Ed2; simpl; rewrite E2, Ed; simpl; rewrite E1; first [done | apply due_backed]).
  - unfold bindM in E. destruct (on_db begin_commit w4) as [[u2|e] w5] eqn:E4;
      apply on_db_run in E4 as (dw3 & E4 & Ed3 & En3 & _).
    + apply begin_commit_Ok in E4 as [E4 _]. unfold ret in E. injection E as <- <-. rewrite Ed3. simpl in *.
      rewrite E4. rewrite Ed2, Ed in D2. simpl in D2. split; [eauto|]. intros _.
      rewrite Ed2 in D3. simpl in D3. rewrite E2, Ed in D3. simpl in D3. rewrite E1 in D3.
      assert (w_now w3 = w_now w) as <- by congruence. exact D3.
    + injection E as <- <-. rewrite Ed3. simpl. rewrite Ed2, Ed in D2. simpl in D2. split; [eauto | done].
  - injection E as <- <-. rewrite Ed2, Ed in D2. simpl in D2. split; [eauto | done].
Qed.

(** Progress.  When no statement fails and no due row has reached 44
    attempts, a drain handles the first hundred due rows: each one the API
    accepts is delivered and acknowledged now, each other one is put off by
    [min(2^attempts, 300)] seconds, no other row changes, and the answer is
    the number delivered. *)
Theorem drain_progress locked d log now :
  NoDup (map ob_id (db_outbox d)) ->
  (forall r, In r (due_rows now locked d) -> 0 <= ob_attempts r < 44) ->
  let items := due_rows now locked d in
  DrainOnce accepts locked (World (Pub d log) now []) =
    (Ok (Z.of_nat (length (List.filter pushes items))),
     World (Pub (set_outbox (update_where (fun r => bool_decide (ob_id r ∈ map ob_id items)) (outcome_row now)) d)
             (log ++ map (fun r => (ob_id r, ob_payload r)) (List.filter pushes items))) now []).
Proof.
  intros Hnd Hatt. cbv zeta. unfold DrainOnce, rollback_tables, bindM at 1, on_db at 1, begin_commit at 1.
  rewrite stmt_nofault. simpl. unfold bindM at 1, on_db at 1, query. rewrite stmt_nofault. simpl.
  unfold bindM at 1. rewrite drain_run; [done | | done |].
  - apply Leasing.NoDup_take_map, Leasing.NoDup_select, Hnd.
  - intros it Hit. split; [|by apply Hatt]. by apply Leasing.take_In, select_In in Hit as [? _].
Qed.

Lemma retry_keeps now id t t' q :
  mapM (fun r => if ob_id r =? id then (fun delay => retry_row now delay r) <$> backoff (ob_attempts r) else Some r) t
    = Some t' -> In q t -> ob_id q <> id -> In q t'.
Proof.
  revert t'. induction t as [|r t IH]; intros t'; simpl; [done|].
  destruct (if ob_id r =? id then _ else _) as [r'|] eqn:Er; simpl; [|done].
  destruct (mapM _ t) as [t1|] eqn:Et; simpl; [|done]. intros E [->|Hq] Hn; injection E as <-.
  - rewrite (proj2 (Z.eqb_neq _ _) Hn) in Er. injection Er as <-. by left.
  - right. by apply IH.
Qed.

Lemma retry_fails now t q : In q t -> 44 <= ob_attempts q ->
  mapM (fun r => if ob_id r =? ob_id q then (fun delay => retry_row now delay r) <$> backoff (ob_attempts r) else Some r) t
  = None.
Proof.
  intros Hq Ha. induction t as [|r t IH]; [done|]. simpl. destruct Hq as [->|Hq].
  - by rewrite Z.eqb_refl, backoff_overflow.
  - destruct (if ob_id r =? ob_id q then _ else _); simpl; [|done]. by rewrite IH.
Qed.

Lemma drain_fails r items : pushes r = false -> forall n d log now,
  (forall x, In x items -> ob_id x = ob_id r -> pushes x = false) -> In r items ->
  (exists q, In q (db_outbox d) /\ ob_id q = ob_id r /\ 44 <= ob_attempts q) ->
  exists e w', drain accepts items n (World (Pub d log) now []) = (Err e, w').
Proof.
  intros Hp. induction items as [|it items IH]; intros n d log now Hall Hin (q & Hq & Eq & Ha); [done|].
  assert (forall x, In x items -> ob_id x = ob_id r -> pushes x = false) as Hall' by (intros; apply Hall; [by right|done]).
  simpl. fold (pushes it). destruct (decide (ob_id it = ob_id r)) as [Ei|Ei].
  - rewrite (Hall it (or_introl eq_refl) Ei). unfold bindM, on_db, retry. rewrite stmt_nofault. simpl.
    rewrite Ei, <- Eq, (retry_fails now _ q) by done. eauto.
  - destruct Hin as [->|Hin]; [done|]. destruct (pushes it).
    + unfold bindM, deliver, on_db, ack, exec. rewrite stmt_nofault. apply IH; [done..|].
      exists q. split; [|done]. simpl. apply update_where_In. exists q. split; [done|].
      by rewrite (proj2 (Z.eqb_neq _ _)) by congruence.
    + unfold bindM, on_db, retry. rewrite stmt_nofault. simpl.
      destruct (mapM _ (db_outbox d)) as [t|] eqn:Et; [|eauto]. apply IH; [done..|].
      exists q. split; [|done]. simpl. eapply retry_keeps; [exact Et | done | congruence].
Qed.

(** A row that can never be delivered blocks the outbox: once it has 44
    failed attempts and is due, every drain that reaches it fails and rolls
    back, so that no row, however deliverable, is acknowledged. *)
Theorem poison_row_blocks locked d log now r :
  NoDup (map ob_id (db_outbox d)) ->
  In r (due_rows now locked d) -> pushes r = false -> 44 <= ob_attempts r ->
  exists e w', DrainOnce accepts locked (World (Pub d log) now []) = (Err e, w') /\ pub_db (w_db w') = d.
Proof.
  intros Hnd Hr Hp Ha. assert (forall x, In x (due_rows now locked d) -> In x (db_outbox d)) as Hsub
    by (intros x Hx; by apply Leasing.take_In, select_In in Hx as [? _]).
  destruct (drain_fails r (due_rows now locked d) Hp 0 d log now) as (e & w1 & E); [| done | eauto |].
  - intros x Hx Ex. assert (x = r) as ->; [|done].
    eapply (Leasing.NoDup_key_eq ob_id (db_outbox d)); [done | by apply Hsub.. | done].
  - exists e. eexists. unfold DrainOnce, rollback_tables, bindM at 1, on_db at 1, begin_commit at 1.
    rewrite stmt_nofault. simpl. unfold bindM at 1, on_db at 1, query. rewrite stmt_nofault. simpl.
    unfold bindM at 1. rewrite E. done.
Qed.
End Progress.

(** * Concrete inputs *)
Definition status_doc (id attempts : Z) (provider : string) : outbox_row :=
  OutboxRow id "provider_status" (JObj [("provider_id"%string, JStr provider)]) 0 attempts 0 None.
(** The Advisor answers for provider [p] only. *)
Definition only_p (id : Z) (kind : string) (payload : json) : bool := bool_decide (payload_provider payload = "p"%string).
Definition outbox_db (attempts : Z) : database :=
  set_outbox (fun _ => [status_doc 1 0 "p"; status_doc 2 attempts "q"]) empty_db.
Definition outbox_world (attempts : Z) : world pub := World (Pub (outbox_db attempts) []) (10 * Second) [].
Definition unlocked : Z -> bool := fun _ => false.

Lemma outbox_ids attempts : NoDup (map ob_id (db_outbox (outbox_db attempts))).
Proof. simpl. repeat constructor; set_solver. Qed.

Lemma drain_at_least_once_witness :
  is_ok (DrainOnce only_p unlocked (outbox_world 3)).1 = true /\
  rows_step (10 * Second) (pub_log (w_db (DrainOnce only_p unlocked (outbox_world 3)).2))
    (db_outbox (outbox_db 3)) (db_outbox (pub_db (w_db (DrainOnce only_p unlocked (outbox_world 3)).2))).
Proof.
  assert ((DrainOnce only_p unlocked (outbox_world 3)).1 = Ok 1) as E by (vm_compute; reflexivity).
  split; [rewrite E; reflexivity|].
  pose proof (drain_at_least_once only_p unlocked (outbox_world 3) _ _ (outbox_ids 3) (surjective_pairing _)) as [_ H].
  rewrite E in H. exact H.
Defined.

Lemma drain_progress_witness :
  (DrainOnce only_p unlocked (outbox_world 3)).1 = Ok 1 /\
  map ob_next_attempt (db_outbox (pub_db (w_db (DrainOnce only_p unlocked (outbox_world 3)).2))) = [0; 18 * Second].
Proof.
  unfold outbox_world. rewrite (drain_progress only_p unlocked (outbox_db 3) [] (10 * Second) (outbox_ids 3)).
  - split; vm_compute; reflexivity.
  - intros r Hr. vm_compute in Hr. destruct Hr as [<-|[<-|[]]]; simpl; lia.
Defined.

Lemma poison_row_blocks_witness :
  exists e w', DrainOnce only_p unlocked (outbox_world 44) = (Err e, w') /\ pub_db (w_db w') = outbox_db 44.
Proof.
  apply (poison_row_blocks only_p unlocked (outbox_db 44) [] (10 * Second) (status_doc 2 44 "q") (outbox_ids 44)).
  - vm_compute. right. left. reflexivity.
  - vm_compute. reflexivity.
  - simpl. lia.
Defined.
