(* ===== verification/Advisor.v ===== *)
(** The VPS Advisor side: the paginated pull of [internal/advisor/client.go],
    the provider catalog sync ([internal/advisor/sync.go]) and the
    coordinator's synchronization pass ([internal/coordinator/advisorsync.go]).

    What the website answers is a parameter: a page server for [fetchPages],
    the fetched feeds for the passes.  A zero [time.Time] cursor is [None]. *)
From stdpp Require Import base gmap strings list.
From Stdlib Require Import ZArith Lia.
From S2P Require Import Prelude Codec Netip Schema Wireauth Registry Leasing Server.
Open Scope Z_scope.

(** * Pagination *)
Definition maxPages : nat := 1000.

Section Pages.
Context {T : Type}.
(** The answer to the [n]-th request of a walk, made with the given cursor:
    the rows and [next_cursor] (empty when absent or null), or an error. *)
Variable answer : nat -> string -> result (list T * string).

Fixpoint fetch (fuel page : nat) (cursor : string) (out : list T) : result (list T) :=
  match fuel with
  | O => Err (EMsg "pagination did not terminate")
  | S fuel' =>
      match answer page cursor with
      | Err e => Err e
      | Ok (rows, advance) =>
          let out := out ++ rows in
          if bool_decide (advance = "") || bool_decide (advance = cursor) then Ok out
          else fetch fuel' (S page) advance out
      end
  end.
Definition fetchPages : result (list T) := fetch maxPages 0 "" [].
End Pages.

(** * The provider catalog *)
Record Provider : Type := MkProvider {
  ProviderID : string;
  ProviderName : string;
  ASNs : list Z;
  MonitoringEnabled : bool;
  Priority : Z
}.

(** [uint32(asn)]. *)
Definition uint32 (z : Z) : Z := z mod 2 ^ 32.

Definition upsert_provider (p : Provider) (synced : Z) : DB unit :=
  exec (fun _ => set_provider (<[ProviderID p :=
    ProviderRow (ProviderName p) (MonitoringEnabled p) (Priority p) synced None]>)).

Fixpoint sync_asns (provider : string) (asns : list Z) (seen : gmap Z string) : DB (gmap Z string) :=
  match asns with
  | [] => ret seen
  | asn :: asns' =>
      let claimed := match seen !! uint32 asn with
                     | Some existing => negb (bool_decide (existing = provider))
                     | None => false
                     end in
      if claimed then throw (EMsg "ASN claimed by two providers")
      else
        let! now := clock in
        do! exec (fun _ => set_asn (<[asn := AsnRow provider now]>)) ;;
        sync_asns provider asns' (<[uint32 asn := provider]> seen)
  end.

Fixpoint sync_all (ps : list Provider) (seen : gmap Z string) : DB (gmap Z string) :=
  match ps with
  | [] => ret seen
  | p :: ps' =>
      let! now := clock in
      do! upsert_provider p now ;;
      let! seen := sync_asns (ProviderID p) (ASNs p) seen in
      sync_all ps' seen
  end.

Definition delist (now : Z) (r : provider_row) : provider_row :=
  ProviderRow (p_name r) (p_monitoring_enabled r) (p_priority r) (p_synced_at r)
    (match p_delisted_at r with Some t => Some t | None => Some now end).

Definition delist_missing (ids : list string) : DB unit :=
  exec (fun now => set_provider (map_imap (fun id r => Some (if bool_decide (id ∈ ids) then r else delist now r)))).

Definition SyncProviders (feed : result (list Provider)) : DB (gmap Z string) :=
  match feed with
  | Err e => throw e
  | Ok providers =>
      tx (let! m := sync_all providers ∅ in
          do! delist_missing (map ProviderID providers) ;;
          ret m)
  end.

(** * Feed health *)
Record feedHealth : Type := MkHealth {
  LastAttemptAt : Z;
  LastSuccessAt : option Z;
  LastError : string;
  FailureStreak : Z
}.
Definition record_feed (now : Z) (feed : string) (err : option error) (h : gmap string feedHealth) : gmap string feedHealth :=
  let f := default (MkHealth 0 None "" 0) (h !! feed) in
  <[feed := match err with
            | Some e => MkHealth now (LastSuccessAt f) (error_text e) (FailureStreak f + 1)
            | None => MkHealth now (Some now) "" 0
            end]> h.

Definition err_of {A} (r : result A) : option error := match r with Ok _ => None | Err e => Some e end.

(** * The synchronization pass *)
Record PendingEnrollment : Type := MkEnrollment {
  EnrollmentID : string; e_WorkerID : string; e_WorkerName : string; e_OperatorID : string;
  TokenHash : string; ExpiresAt : Z
}.
Record Decision_ : Type := MkDecision {
  DecisionID : string; d_WorkerID : string; d_State : string; d_Reason : string; DecidedAt : Z
}.

(** What the website answers during one pass. *)
Record website : Type := Website {
  ws_providers : result (list Provider);
  ws_enrollments : result (list PendingEnrollment);
  ws_decisions : option Z -> result (list Decision_)
}.

Section Sync.
Context {cr : Crypto}.
Variable has_audit : bool.

Definition audit_note (category actor action subject : string) : DB unit :=
  if has_audit then
    do! attempt (exec (fun now => set_audit (fun t => t ++ [AuditRow category actor action subject now]))) ;; ret tt
  else ret tt.

Definition ingest (e : PendingEnrollment) : DB unit :=
  let! r := attempt (IngestEnrollment (e_WorkerID e) (e_OperatorID e) (e_WorkerName e) (TokenHash e) (ExpiresAt e)) in
  match r with
  | Ok true => audit_note "auth" "advisor" "enrollment_provisioned" (e_WorkerID e)
  | _ => ret tt
  end.

(** [t.After(cursor)]. *)
Definition after (t : Z) (cursor : option Z) : bool :=
  match cursor with Some c => c <? t | None => true end.

Fixpoint apply_decisions (ds : list Decision_) (cursor : option Z) : DB (option Z) :=
  match ds with
  | [] => ret cursor
  | d :: ds' =>
      let! r := attempt (ApplyDecision (d_WorkerID d) (d_State d) (d_Reason d)) in
      match r with
      | Err _ => apply_decisions ds' cursor
      | Ok _ =>
          do! audit_note "admin" "advisor-admin" ("decision:" +:+ d_State d) (d_WorkerID d) ;;
          apply_decisions ds' (if after (DecidedAt d) cursor then Some (DecidedAt d) else cursor)
      end
  end.

Definition SyncAdvisor (ws : website) (since : option Z) (h : gmap string feedHealth)
    : DB (option Z * gmap string feedHealth) :=
  let! now := clock in
  let! r := attempt (SyncProviders (ws_providers ws)) in
  let h := record_feed now "providers" (err_of r) h in
  let h := record_feed now "enrollments" (err_of (ws_enrollments ws)) h in
  do! forM (match ws_enrollments ws with Ok l => l | Err _ => [] end) ingest ;;
  let h := record_feed now "decisions" (err_of (ws_decisions ws since)) h in
  match ws_decisions ws since with
  | Err _ => ret (since, h)
  | Ok ds =>
      let! cursor := apply_decisions ds since in
      ret (cursor, h)
  end.
End Sync.

(** * Lemmas *)
Section PagesLemmas.
Context {T : Type}.

(** A feed of pages: each with its rows, and the cursor that fetches it. *)
Fixpoint serves (answer : nat -> string -> result (list T * string)) (page : nat) (cursor : string)
    (pages : list (list T)) (cursors : list string) : Prop :=
  match pages, cursors with
  | [rows], [] => answer page cursor = Ok (rows, ""%string)
  | rows :: pages', c :: cursors' =>
      answer page cursor = Ok (rows, c) /\ c <> ""%string /\ c <> cursor /\ serves answer (S page) c pages' cursors'
  | _, _ => False
  end.

Lemma fetch_serves answer pages : forall fuel page cursor cursors out,
  serves answer page cursor pages cursors -> (length pages <= fuel)%nat ->
  fetch answer fuel page cursor out = Ok (out ++ concat pages).
Proof.
  induction pages as [|rows pages IH]; intros fuel page cursor cursors out Hs Hf; [done|].
  destruct fuel as [|fuel]; [simpl in Hf; lia|]. simpl in Hf. simpl. destruct cursors as [|c cursors].
  - destruct pages; [|done]. simpl in Hs. rewrite Hs. simpl. by rewrite app_nil_r.
  - destruct pages as [|rows2 pages]; [destruct Hs as (_ & _ & _ & Hs); by destruct cursors|].
    destruct Hs as (Ha & Hc1 & Hc2 & Hs). rewrite Ha. rewrite !bool_decide_false by done. simpl orb. cbn iota.
    rewrite (IH fuel (S page) c cursors) by (done || simpl in *; lia). simpl. by rewrite <- app_assoc.
Qed.
End PagesLemmas.

Lemma clock_bind {D A} (k : Z -> M D A) w : bindM clock k w = k (w_now w) w.
Proof. done. Qed.

(** What syncing one provider's ASNs did. *)
Lemma sync_asns_Ok provider asns : forall seen w m w', sync_asns provider asns seen w = (Ok m, w') ->
  w_now w' = w_now w /\ db_provider (w_db w') = db_provider (w_db w) /\
  (forall k q, seen !! k = Some q -> m !! k = Some q) /\
  (forall asn, In asn asns -> m !! uint32 asn = Some provider /\
     db_asn (w_db w') !! asn = Some (AsnRow provider (w_now w))) /\
  (forall asn, ~ In asn asns -> db_asn (w_db w') !! asn = db_asn (w_db w) !! asn).
Proof.
  induction asns as [|a asns IH]; intros seen w m w' H; simpl in H.
  { inv_ok. split_and!; done. }
  destruct (match seen !! uint32 a with Some _ => _ | None => _ end) eqn:Ec; [inv_ok; done|].
  rewrite clock_bind in H. apply bindM_Ok in H as (u & w1 & [E1 En1]%exec_Ok & H).
  apply IH in H as (I1 & I2 & I3 & I4 & I5). rewrite E1, En1 in *. simpl in *.
  assert (forall k q, seen !! k = Some q -> <[uint32 a := provider]> seen !! k = Some q) as Hext.
  { intros k q Hk. destruct (decide (k = uint32 a)) as [->|Hn]; [|by rewrite lookup_insert_ne].
    rewrite lookup_insert_eq. rewrite Hk in Ec. btrue. by subst. }
  split_and!; [done | done | by eauto | |].
  - intros asn Hin. destruct (in_dec Z.eq_dec asn asns) as [Hi|Hi]; [by apply I4|].
    destruct Hin as [->|]; [|done]. split; [apply I3, lookup_insert_eq|]. rewrite I5 by done. apply lookup_insert_eq.
  - intros asn Hin. rewrite I5 by (intros ?; apply Hin; by right). apply lookup_insert_ne. intros ->. apply Hin. by left.
Qed.

Definition row_of (p : Provider) (synced : Z) : provider_row :=
  ProviderRow (ProviderName p) (MonitoringEnabled p) (Priority p) synced None.

Lemma sync_all_Ok ps : forall seen w m w', sync_all ps seen w = (Ok m, w') ->
  w_now w' = w_now w /\
  (forall k q, seen !! k = Some q -> m !! k = Some q) /\
  (forall p asn, In p ps -> In asn (ASNs p) -> m !! uint32 asn = Some (ProviderID p) /\
     db_asn (w_db w') !! asn = Some (AsnRow (ProviderID p) (w_now w))) /\
  (forall id, ~ In id (map ProviderID ps) -> db_provider (w_db w') !! id = db_provider (w_db w) !! id) /\
  (forall id, In id (map ProviderID ps) -> exists p, In p ps /\ ProviderID p = id /\
     db_provider (w_db w') !! id = Some (row_of p (w_now w))) /\
  (forall asn, (forall p, In p ps -> ~ In asn (ASNs p)) -> db_asn (w_db w') !! asn = db_asn (w_db w) !! asn).
Proof.
  induction ps as [|p ps IH]; intros seen w m w' H; simpl in H.
  { inv_ok. split_and!; done. }
  rewrite clock_bind in H. apply bindM_Ok in H as (u & w1 & [E1 En1]%exec_Ok & H).
  apply bindM_Ok in H as (m1 & w2 & H1 & H). apply sync_asns_Ok in H1 as (A1 & A2 & A3 & A4 & A5).
  apply IH in H as (I1 & I2 & I3 & I4 & I5 & I6). rewrite E1 in *. rewrite A1, En1 in *. simpl in *.
  split_and!; [congruence | by eauto | | | |].
  - intros q asn [<-|Hq] Ha; [|by apply I3]. destruct (A4 asn Ha) as [B1 B2]. split; [by apply I2|].
    destruct (@List.Exists_dec Provider (fun q => In asn (ASNs q)) ps (fun q => in_dec Z.eq_dec asn (ASNs q)))
      as [Hex|Hno].
    + apply List.Exists_exists in Hex as (q & Hq & Hqa). destruct (I3 q asn Hq Hqa) as [C1 C2]. rewrite C2.
      apply I2 in B1. congruence.
    + rewrite I6; [done|]. intros q Hq Hqa. apply Hno, List.Exists_exists. eauto.
  - intros id Hid. rewrite I4 by (intros ?; apply Hid; by right). rewrite A2. apply lookup_insert_ne.
    intros <-. apply Hid. by left.
  - intros id Hid. destruct (in_dec String.string_dec id (map ProviderID ps)) as [Hi|Hi].
    + destruct (I5 id Hi) as (q & ? & ? & ?). eauto.
    + destruct Hid as [<-|]; [|done]. exists p. split_and!; [by left | done |]. rewrite I4 by done. rewrite A2.
      apply lookup_insert_eq.
  - intros asn Hasn. rewrite I6 by (intros q Hq; apply Hasn; by right). apply A5, Hasn. by left.
Qed.

Lemma delist_lookup (ids : list string) now d id :
  db_provider (set_provider (map_imap (fun id r => Some (if bool_decide (id ∈ ids) then r else delist now r))) d) !! id
  = (fun r => if bool_decide (id ∈ ids) then r else delist now r) <$> db_provider d !! id.
Proof. simpl. rewrite map_lookup_imap. by destruct (db_provider d !! id). Qed.

(** A sync writes the provider and the ASN table, and nothing else. *)
Lemma SyncProviders_respects (R : Z -> database -> database -> Prop) feed :
  forall (P : PreOrderAt R), (forall n d f g, R n d (set_provider f d) /\ R n d (set_asn g d)) -> Respects R (SyncProviders feed).
Proof.
  intros P HR. assert (forall p asns seen, Respects R (sync_asns p asns seen)) as Ha.
  { intros p asns. induction asns as [|a asns IH]; intros seen; simpl; respects;
      first [apply respects_clock; apply _ | apply IH | apply (HR _ _ id)]. }
  assert (forall l seen, Respects R (sync_all l seen)) as Hs.
  { induction l as [|p l IH]; intros seen; simpl; unfold upsert_provider; respects;
      first [apply respects_clock; apply _ | apply Ha | apply IH | apply (HR _ _ _ id)]. }
  unfold SyncProviders, delist_missing. respects; [apply Hs | apply (HR _ _ _ id)].
Qed.

Lemma SyncProviders_Ok ps w m w' : SyncProviders (Ok ps) w = (Ok m, w') ->
  (forall p asn, In p ps -> In asn (ASNs p) -> m !! uint32 asn = Some (ProviderID p) /\
     db_asn (w_db w') !! asn = Some (AsnRow (ProviderID p) (w_now w))) /\
  (forall id, In id (map ProviderID ps) -> exists p, In p ps /\ ProviderID p = id /\
     db_provider (w_db w') !! id = Some (row_of p (w_now w))) /\
  (forall id, ~ In id (map ProviderID ps) ->
     db_provider (w_db w') !! id = delist (w_now w) <$> db_provider (w_db w) !! id) /\
  db_target (w_db w') = db_target (w_db w) /\ db_assignment (w_db w') = db_assignment (w_db w) /\
  db_assignment_seq (w_db w') = db_assignment_seq (w_db w) /\ db_lease (w_db w') = db_lease (w_db w).
Proof.
  intros H. assert (w_now w' = w_now w /\ (db_target (w_db w') = db_target (w_db w) /\ db_assignment (w_db w') = db_assignment (w_db w) /\
    db_assignment_seq (w_db w') = db_assignment_seq (w_db w) /\ db_lease (w_db w') = db_lease (w_db w))) as [_ Hsame].
  { refine (SyncProviders_respects (fun _ d d' => db_target d' = db_target d /\ db_assignment d' = db_assignment d /\
      db_assignment_seq d' = db_assignment_seq d /\ db_lease d' = db_lease d) (Ok ps) _ _ w _ w' H); [split; naive_solver congruence | done]. }
  apply tx_Ok in H as (w1 & w2 & B1 & B2 & H & B3 & _).
  apply bindM_Ok in H as (m1 & w3 & (I1 & I2 & I3 & I4 & I5 & I6)%sync_all_Ok & H).
  apply bindM_Ok in H as (u & w4 & [E4 _]%exec_Ok & H). unfold ret in H. injection H as <- <-.
  rewrite B1, B2, I1, E4 in *. rewrite B3 in Hsame |- *.
  split_and!; try apply Hsame.
  - intros p asn Hp Ha. by apply I3.
  - intros id Hid. destruct (I5 id Hid) as (p & ? & ? & E). exists p. split_and!; try done.
    etrans; [apply delist_lookup|]. rewrite E. simpl. by rewrite bool_decide_true by (by apply list_elem_of_In).
  - intros id Hid. etrans; [apply delist_lookup|]. rewrite I4 by done.
    rewrite bool_decide_false by (by rewrite list_elem_of_In). by destruct (db_provider (w_db w) !! id).
Qed.

(** * Properties *)

(** Pagination is complete and always ends.  A walk makes at most
    [maxPages] requests; when the website serves a feed of at most that many
    pages, with a fresh cursor after each page but the last, the walk returns
    the rows of every page, in order. *)
Theorem fetch_pages_complete {T} (answer : nat -> string -> result (list T * string)) pages cursors :
  serves answer 0 "" pages cursors -> (length pages <= maxPages)%nat ->
  fetchPages answer = Ok (concat pages).
Proof. intros Hs Hl. unfold fetchPages. by rewrite (fetch_serves answer pages _ _ _ cursors []). Qed.

(** The provider sync mirrors the catalog, all or nothing.  On an error no
    table changed.  On success every listed provider is present, relisted and
    up to date, every other known provider is delisted (an earlier delisting
    time is kept), every listed ASN belongs to its provider; and a catalog in
    which two providers claim one ASN never succeeds. *)
Theorem sync_providers_spec feed w r w' :
  SyncProviders feed w = (r, w') ->
  match r with
  | Err _ => w_db w' = w_db w
  | Ok m =>
      exists ps, feed = Ok ps /\
      (forall id, In id (map ProviderID ps) -> exists p, In p ps /\ ProviderID p = id /\
         db_provider (w_db w') !! id = Some (row_of p (w_now w))) /\
      (forall id, ~ In id (map ProviderID ps) ->
         db_provider (w_db w') !! id = delist (w_now w) <$> db_provider (w_db w) !! id) /\
      (forall p asn, In p ps -> In asn (ASNs p) -> m !! uint32 asn = Some (ProviderID p) /\
         db_asn (w_db w') !! asn = Some (AsnRow (ProviderID p) (w_now w))) /\
      (forall p q a b, In p ps -> In q ps -> In a (ASNs p) -> In b (ASNs q) -> uint32 a = uint32 b ->
         ProviderID p = ProviderID q)
  end.
Proof.
  intros H. destruct r as [m|e].
  - destruct feed as [ps|e]; [|done]. exists ps. split; [done|].
    apply SyncProviders_Ok in H as (S1 & S2 & S3 & _). split_and!; try done.
    intros p q a b Hp Hq Ha Hb E. destruct (S1 p a Hp Ha) as [M1 _]. destruct (S1 q b Hq Hb) as [M2 _].
    rewrite E in M1. congruence.
  - destruct feed as [ps|e']; [|unfold SyncProviders, throw in H; by simplify_eq]. by apply tx_Err in H.
Qed.

(** An opt-out takes effect within one scheduler pass: after a catalog
    sync that no longer lists a provider, one reconcile pass leaves none of
    its targets with an open or leased assignment. *)
Theorem optout_drains md5 c ps w m w' provider id now :
  SyncProviders (Ok ps) w = (Ok m, w') -> ~ In provider (map ProviderID ps) ->
  NoDup (map tg_id (db_target (w_db w))) ->
  (forall t, In t (db_target (w_db w)) -> tg_id t = id -> tg_provider t = provider) ->
  replicas id (w_db (Reconcile md5 c (World (w_db w') now [])).2) = 0%nat.
Proof.
  intros (_ & _ & S3 & Et & _)%SyncProviders_Ok Hp Hnd Ht. rewrite Reconcile_nofault. cbn [snd w_db].
  rewrite replicas_reconciled by (by rewrite Et).
  assert (target_eligible id (w_db w') = false) as ->; [|done].
  apply exists_row_false. intros t Hin. rewrite Et in Hin. destruct (tg_id t =? id) eqn:E; [|done]. btrue.
  assert (eligible_provider t (w_db w') = None) as ->; [|done].
  unfold eligible_provider. destruct (_ && _); [|done]. rewrite (Ht t Hin E), S3 by done.
  destruct (db_provider (w_db w) !! provider) as [r|]; [|done]. simpl. unfold delist. simpl.
  destruct (p_delisted_at r); by rewrite andb_false_r.
Qed.

Section SyncProperties.
Context {cr : Crypto}.
Variable has_audit : bool.

Definition cursor_le (a b : option Z) : Prop :=
  match a, b with None, _ => True | Some x, Some y => x <= y | Some _, None => False end.

Lemma after_le t c : cursor_le c (if after t c then Some t else c).
Proof. unfold after, cursor_le. destruct c as [x|]; [|done]. destruct (x <? t) eqn:E; btrue; lia. Qed.

Lemma apply_decisions_cursor ds : forall cursor w c w', apply_decisions has_audit ds cursor w = (Ok c, w') ->
  cursor_le cursor c /\ (c = cursor \/ exists d, In d ds /\ c = Some (DecidedAt d)).
Proof.
  induction ds as [|d ds IH]; intros cursor w c w' H; simpl in H.
  { inv_ok. split; [|by left]. unfold cursor_le. destruct c; [lia | done]. }
  apply bindM_Ok in H as (r & w1 & _ & H). destruct r as [u|e].
  - apply bindM_Ok in H as (v & w2 & _ & H). apply IH in H as [I1 I2]. pose proof (after_le (DecidedAt d) cursor) as Hle.
    split.
    + unfold cursor_le in *. destruct cursor, c, (after _ _); try done; try lia.
    + destruct I2 as [->|(x & Hx & ->)]; [|right; exists x; split; [by right | done]].
      destruct (after _ _); [right; exists d; split; [by left | done] | by left].
  - apply IH in H as [I1 [->|(x & Hx & ->)]]; (split; [done|]); [by left | right; exists x; split; [by right | done]].
Qed.

Lemma audit_note_total c a ac s : Total (audit_note has_audit c a ac s).
Proof. unfold audit_note. total. Qed.

Lemma apply_decisions_total ds : forall cursor, Total (apply_decisions has_audit ds cursor).
Proof.
  induction ds as [|d ds IH]; intros cursor; simpl; [apply total_ret|].
  apply total_bind; [apply total_attempt|]. intros []; [|done].
  apply total_bind; [apply audit_note_total | auto].
Qed.

Lemma forM_total {A} (l : list A) (f : A -> DB unit) : (forall x, Total (f x)) -> Total (forM l f).
Proof. intros Hf. induction l; simpl; [apply total_ret|]. apply total_bind; auto. Qed.

(** A synchronization pass always completes and its decision cursor is
    sound: it never moves backwards, it stays put when the decision feed
    cannot be read, and otherwise it is the old cursor or the website's own
    timestamp of one of the decisions received, never the local clock. *)
Theorem sync_cursor ws since h w :
  exists cursor h' w', SyncAdvisor has_audit ws since h w = (Ok (cursor, h'), w') /\
    cursor_le since cursor /\
    match ws_decisions ws since with
    | Err _ => cursor = since
    | Ok ds => cursor = since \/ exists d, In d ds /\ cursor = Some (DecidedAt d)
    end.
Proof.
  assert (Total (SyncAdvisor has_audit ws since h)) as Ht.
  { unfold SyncAdvisor. apply total_bind; [apply total_clock|]. intros now. apply total_bind; [apply total_attempt|].
    intros r. apply total_bind.
    - apply forM_total. intros e. unfold ingest. apply total_bind; [apply total_attempt|].
      intros [[]|]; [apply audit_note_total | apply total_ret..].
    - intros u. destruct (ws_decisions ws since); [|apply total_ret].
      apply total_bind; [apply apply_decisions_total | intros; apply total_ret]. }
  destruct (Ht w) as ([cursor h'] & w' & E). exists cursor, h', w'. split; [done|].
  unfold SyncAdvisor in E. rewrite clock_bind in E.
  apply bindM_Ok in E as (r & w1 & _ & E). apply bindM_Ok in E as (u & w2 & _ & E).
  destruct (ws_decisions ws since) as [ds|e].
  - apply bindM_Ok in E as (c & w3 & Hc%apply_decisions_cursor & E). inv_ok. done.
  - inv_ok. split; [|done]. unfold cursor_le. destruct cursor; [lia | done].
Qed.

(** What the website asks for goes through the same lifecycle rules as
    everything else. *)
Lemma SyncAdvisor_respects_of R `{!PreOrderAt R} `{!StorePromise R} ws since h :
  (forall feed, Respects R (SyncProviders feed)) -> (forall n d f, R n d (set_audit f d)) ->
  Respects R (SyncAdvisor has_audit ws since h).
Proof.
  intros Hp Haud. assert (forall c a ac s, Respects R (audit_note has_audit c a ac s)) as Ha
    by (intros; unfold audit_note; respects; apply Haud).
  assert (forall ds cursor, Respects R (apply_decisions has_audit ds cursor)) as Hd.
  { induction ds as [|d ds IH]; intros cursor; simpl; respects; first [apply Ha | apply IH | solve [eauto with vapn typeclass_instances]]. }
  unfold SyncAdvisor, ingest. respects;
    first [apply respects_clock; apply _ | apply Hp | apply Hd | apply Ha | solve [eauto with vapn typeclass_instances]].
Qed.

Lemma SyncAdvisor_respects R `{!PreOrderAt R} `{!StorePromise R} `{!Tolerant R} ws since h :
  Respects R (SyncAdvisor has_audit ws since h).
Proof.
  apply SyncAdvisor_respects_of; [done|done| |intros; by apply tolerant].
  intros feed. apply SyncProviders_respects; [done|]. intros. split; by apply tolerant.
Qed.

(** Enrollment round trip: an enrollment announced by the website for a
    new worker lets the holder of the token register, any time before the
    token expires, as that worker in the pending state. *)
Theorem enroll_then_register e token pub v d n1 n2 :
  TokenHash e = hex_encode (sha256 token) -> String.length (sha256 token) = 32%nat ->
  db_worker d !! e_WorkerID e = None -> db_token d !! sha256 token = None ->
  exists_row (current_key (e_WorkerID e)) (db_worker_key d) = false -> n2 < ExpiresAt e ->
  let d' := w_db (ingest has_audit e (World d n1 [])).2 in
  (Register token pub v (World d' n2 [])).1 = Ok (e_WorkerID e, Pending).
Proof.
  intros Hh Hl Hw Ht Hk Hn. cbv zeta.
  assert (exists a, w_db (ingest has_audit e (World d n1 [])).2 = set_audit a
    (set_token (fun _ => <[sha256 token := TokenRow (e_WorkerID e) (ExpiresAt e) None]> (db_token d))
    (set_worker (fun _ => <[e_WorkerID e := new_worker (e_OperatorID e) (e_WorkerName e) n1]> (db_worker d)) d))) as [a ->].
  { unfold ingest, bindM at 1, attempt, IngestEnrollment. rewrite Hh, hex_roundtrip, Hl, Nat.eqb_refl.
    rewrite tx_nofault. unfold bindM at 1. rewrite stmt_nofault. unfold insert_nothing at 1. rewrite Hw.
    unfold bindM at 1. rewrite stmt_nofault. unfold insert_nothing. simpl. rewrite Ht. simpl.
    unfold audit_note. destruct has_audit; simpl; [eexists; reflexivity | exists (fun t => t); reflexivity]. }
  unfold Register. rewrite tx_nofault. unfold bindM at 1. rewrite stmt_nofault. simpl. rewrite lookup_insert_eq. simpl.
  rewrite (proj2 (Z.ltb_lt _ _)) by done. simpl. unfold bindM at 1, insert_key. rewrite stmt_nofault. simpl. rewrite Hk.
  unfold bindM at 1. rewrite stmt_nofault. simpl. rewrite lookup_insert_eq. simpl.
  unfold bindM, insert_trust_event. rewrite stmt_nofault. simpl. rewrite lookup_insert_eq. done.
Qed.
End SyncProperties.

(** * Concrete inputs and findings *)
Import Toy.

Definition catalog : list Provider := [MkProvider "p" "P" [64500] true 5].
Definition two_pages (page : nat) (cursor : string) : result (list Z * string) :=
  if bool_decide (cursor = "") then Ok ([1; 2], "c1"%string)
  else if bool_decide (cursor = "c1") then Ok ([3], ""%string) else Err (EMsg "404").

Lemma fetch_pages_complete_witness : fetchPages two_pages = Ok [1; 2; 3].
Proof.
  apply (fetch_pages_complete two_pages [[1; 2]; [3]] ["c1"%string]).
  - simpl. split; [reflexivity|]. split; [discriminate|]. split; [discriminate | reflexivity].
  - simpl. unfold maxPages. lia.
Defined.

(** The scheduling example, with provider [p] no longer in the catalog. *)
Definition before_optout : dbworld := World demo_leased 30 [].
Definition after_optout : result (gmap Z string) * dbworld := SyncProviders (Ok []) before_optout.

Lemma sync_providers_spec_witness :
  exists r, SyncProviders (Ok catalog) before_optout = (Ok r, (SyncProviders (Ok catalog) before_optout).2) /\
  exists ps, Ok catalog = Ok ps /\ forall id, ~ In id (map ProviderID ps) ->
    db_provider (w_db (SyncProviders (Ok catalog) before_optout).2) !! id
    = delist (w_now before_optout) <$> db_provider (w_db before_optout) !! id.
Proof.
  assert (exists r, (SyncProviders (Ok catalog) before_optout).1 = Ok r) as [r E] by (vm_compute; eexists; reflexivity).
  exists r. assert (SyncProviders (Ok catalog) before_optout = (Ok r, (SyncProviders (Ok catalog) before_optout).2)) as E2
    by (rewrite <- E; apply surjective_pairing).
  split; [exact E2|]. destruct (sync_providers_spec _ _ _ _ E2) as (ps & H1 & _ & H2 & _).
  exists ps. split; [exact H1 | exact H2].
Defined.

Lemma after_optout_runs : SyncProviders (Ok []) before_optout = (Ok ∅, after_optout.2).
Proof. vm_compute. reflexivity. Qed.

Lemma optout_drains_witness :
  replicas 1 (w_db before_optout) = 2%nat /\
  replicas 1 (w_db (Reconcile demo_md5 demo_cfg (World (w_db after_optout.2) 40 [])).2) = 0%nat.
Proof.
  split; [vm_compute; reflexivity|].
  apply (optout_drains demo_md5 demo_cfg [] before_optout ∅ after_optout.2 "p" 1 40 after_optout_runs).
  - simpl. auto.
  - vm_compute. repeat constructor; set_solver.
  - intros t Ht Eid. vm_compute in Ht. destruct Ht as [<-|[<-|[<-|[]]]]; [reflexivity | reflexivity | ].
    vm_compute in Eid. discriminate Eid.
Defined.

Definition enrollment : PendingEnrollment :=
  MkEnrollment "e1" "w9" "worker nine" "op" (hex_encode (@sha256 toy_crypto "tok")) 100.

Lemma enroll_then_register_witness :
  (Register "tok" "key" "1.0" (World (w_db (ingest true enrollment (World empty_db 1 [])).2) 50 [])).1
  = Ok ("w9"%string, Pending).
Proof.
  apply (enroll_then_register true enrollment "tok" "key" "1.0" empty_db 1 50); try (vm_compute; reflexivity).
Defined.

(** Replaying the whole decision feed is not a no-op: a worker approved on the
    website and later suspended by a local administrator is active again after
    a coordinator restart. *)
Definition restart_db : database :=
  set_worker (fun _ => {[ "w1" := WorkerRow "op" "w" Suspended (Some "abuse"%string) None None 0 (Some 0) None None ∅ ]}) empty_db.
Definition approvals : website :=
  Website (Ok []) (Ok []) (fun _ => Ok [MkDecision "d1" "w1" "active" "approved" 5]).

Example restart_undoes_suspension :
  w_state <$> db_worker (w_db (SyncAdvisor true approvals None ∅ (World restart_db 100 [])).2) !! "w1"%string = Some Active.
Proof. vm_compute. reflexivity. Qed.

(** The cursor moves past a decision that was not applied when a later one is:
    the failed approval is not asked for again. *)
Definition two_decisions : website :=
  Website (Ok []) (Ok []) (fun _ => Ok [MkDecision "d1" "unknown" "active" "" 5; MkDecision "d2" "w1" "active" "" 9]).

Example cursor_skips_failed_decision :
  (fun r => match r with Ok (c, _) => c | Err _ => None end)
    (SyncAdvisor true two_decisions None ∅ (World restart_db 100 [])).1 = Some 9.
Proof. vm_compute. reflexivity. Qed.
