(* ===== verification/Routing.v ===== *)
(** [internal/routing]: the bogon filter, the MRT dump reader and the GeoIP
    splitting the snapshot builder rests on.

    The MRT wire format ([gobgp]) and the GeoIP database ([maxminddb]) are
    third-party: a dump is the list of messages the scanner yields, each in
    the form the decoder gives it, and the database is its list of records.
    Everything the packages do with them is written out. *)
From stdpp Require Import base gmap strings list sorting.
From Stdlib Require Import ZArith Lia.
From S2P Require Import Prelude Netip.
Open Scope Z_scope.

(** * bogon *)
Definition v4 (a b c d : Z) : addr := Addr V4 (a * 2 ^ 24 + b * 2 ^ 16 + c * 2 ^ 8 + d).
(** An IPv6 address by its first three groups, the others zero. *)
Definition v6 (a b c : Z) : addr := Addr V6 (a * 2 ^ 112 + b * 2 ^ 96 + c * 2 ^ 80).

Definition bogons : list prefix :=
  [ Prefix (v4 0 0 0 0) 8; Prefix (v4 10 0 0 0) 8; Prefix (v4 100 64 0 0) 10; Prefix (v4 127 0 0 0) 8;
    Prefix (v4 169 254 0 0) 16; Prefix (v4 172 16 0 0) 12; Prefix (v4 192 0 0 0) 24; Prefix (v4 192 0 2 0) 24;
    Prefix (v4 192 168 0 0) 16; Prefix (v4 198 18 0 0) 15; Prefix (v4 198 51 100 0) 24; Prefix (v4 203 0 113 0) 24;
    Prefix (v4 224 0 0 0) 4; Prefix (v4 240 0 0 0) 4;
    Prefix (v6 8193 3512 0) 32; Prefix (v6 8193 2 0) 48; Prefix (v6 16383 0 0) 20 ].

(** 2000::/3. *)
Definition v6Global : prefix := Prefix (v6 8192 0 0) 3.

Definition IsBogon (p : prefix) : bool :=
  if Is6 (pfx_addr p) && negb (Overlaps v6Global p) then true
  else existsb (fun b => Overlaps b p) bogons.

Definition TooLong (p : prefix) : bool :=
  if Is4 (pfx_addr p) then 24 <? pfx_bits p else 48 <? pfx_bits p.

(** * mrtreader *)
Record Record_ : Type := MkRecord {
  rec_Prefix : prefix;
  rec_Origins : list Z;
  rec_PeerCounts : gmap Z Z
}.

Record Stats : Type := MkStats {
  Records : Z;
  MatchedRecords : Z;
  Skipped : Z;
  FirstTimestamp : Z
}.

(** What [gobgp] decodes. *)
Inductive path_segment : Type :=
| As4PathParam (is_set : bool) (AS : list Z)
| AsPathParam (is_set : bool) (AS : list Z)
| OtherParam.
Inductive path_attribute : Type :=
| PathAttributeAsPath (Value : list path_segment)
| OtherAttribute.

Inductive mrt_subtype : Type :=
| RIB_IPV4_UNICAST | RIB_IPV6_UNICAST | RIB_IPV4_UNICAST_ADDPATH | RIB_IPV6_UNICAST_ADDPATH | OtherSubType.
Record mrt_header : Type := MRTHeader { hdr_Timestamp : Z; hdr_TableDumpV2 : bool; hdr_SubType : mrt_subtype }.
(** [rib_Prefix] is [netip.ParsePrefix] of the decoded prefix's text. *)
Record mrt_rib : Type := Rib { rib_Prefix : option prefix; rib_Entries : list (list path_attribute) }.
(** [None] where decoding fails; the body may be of another kind. *)
Record mrt_message : Type := MRTMessage {
  msg_header : option mrt_header;
  msg_body : option (option mrt_rib)
}.

Fixpoint originsOf (attrs : list path_attribute) : list Z :=
  match attrs with
  | [] => []
  | OtherAttribute :: attrs' => originsOf attrs'
  | PathAttributeAsPath value :: _ =>
      match last value with
      | None => []
      | Some (As4PathParam is_set AS) | Some (AsPathParam is_set AS) =>
          match last AS with
          | None => []
          | Some o => if is_set then AS else [o]
          end
      | Some OtherParam => []
      end
  end.

Definition rib_subtype (s : mrt_subtype) : bool := match s with OtherSubType => false | _ => true end.

(** The per-record accumulation: origins in order of first sight, counts. *)
Definition add_origin (acc : list Z * gmap Z Z) (o : Z) : list Z * gmap Z Z :=
  (if bool_decide (o ∈ acc.1) then acc.1 else acc.1 ++ [o], <[o := default 0 (acc.2 !! o) + 1]> acc.2).
Definition collect (entries : list (list path_attribute)) : list Z * gmap Z Z :=
  foldl add_origin ([], ∅) (concat (map originsOf entries)).

Section Stream.
Context {S : Type}.
Variables (monitored : gset Z) (emit : S -> Record_ -> result S).

(** The scan loop.  [scan_err] is what the scanner reports at the end. *)
Fixpoint stream_loop (msgs : list mrt_message) (scan_err : option error) (stats : Stats) (s : S)
    : Stats * S * option error :=
  match msgs with
  | [] => (stats, s, scan_err)
  | m :: msgs' =>
      let skip st := stream_loop msgs' scan_err (MkStats (Records st) (MatchedRecords st) (Skipped st + 1) (FirstTimestamp st)) s in
      match msg_header m with
      | None => skip stats
      | Some hdr =>
          let stats := if FirstTimestamp stats =? 0
                       then MkStats (Records stats) (MatchedRecords stats) (Skipped stats) (hdr_Timestamp hdr)
                       else stats in
          if negb (hdr_TableDumpV2 hdr) then skip stats
          else if negb (rib_subtype (hdr_SubType hdr)) then stream_loop msgs' scan_err stats s
          else
            match msg_body m with
            | None | Some None => skip stats
            | Some (Some rib) =>
                let stats := MkStats (Records stats + 1) (MatchedRecords stats) (Skipped stats) (FirstTimestamp stats) in
                let acc := collect (rib_Entries rib) in
                if negb (existsb (fun o => bool_decide (o ∈ monitored)) acc.1)
                then stream_loop msgs' scan_err stats s
                else
                  let stats := MkStats (Records stats) (MatchedRecords stats + 1) (Skipped stats) (FirstTimestamp stats) in
                  match rib_Prefix rib with
                  | None => skip stats
                  | Some pfx =>
                      match emit s (MkRecord (Masked pfx) (merge_sort Z.le acc.1) acc.2) with
                      | Ok s' => stream_loop msgs' scan_err stats s'
                      | Err e => (stats, s, Some e)
                      end
                  end
            end
      end
  end.
End Stream.

(** [Stream] on an opened dump. *)
Definition Stream {S} (monitored : gset Z) (emit : S -> Record_ -> result S)
    (dump : result (list mrt_message * option error)) (s : S) : result (Stats * S) :=
  match dump with
  | Err e => Err e
  | Ok (msgs, scan_err) =>
      match stream_loop monitored emit msgs scan_err (MkStats 0 0 0 0) s with
      | (stats, s', None) => Ok (stats, s')
      | (_, _, Some e) => Err e
      end
  end.

(** * geo *)
Record Info : Type := MkInfo {
  Country : string;
  CountryName : string;
  ContinentCode : string;
  ContinentName : string;
  City : string;
  InfoOK : bool
}.
#[global] Instance Info_eq_dec : EqDecision Info.
Proof. solve_decision. Defined.

(** [cityRecord]; the location floats are carried to no modelled column. *)
Record cityRecord : Type := MkCity {
  continent_Code : string; continent_Names : gmap string string;
  country_ISOCode : string; country_Names : gmap string string;
  city_Names : gmap string string
}.
Definition en (names : gmap string string) : string := default ""%string (names !! "en"%string).
Definition info (r : cityRecord) : Info :=
  MkInfo (country_ISOCode r) (en (country_Names r)) (continent_Code r) (en (continent_Names r))
    (en (city_Names r)) (negb (bool_decide (country_ISOCode r = ""))).
Definition no_info : Info := MkInfo "" "" "" "" "" false.

Record Range : Type := MkRange { rng_Prefix : prefix; rng_Info : Info }.

(** A [net.IPNet] of the database: an address of 4 or 16 bytes ([None] for any
    other length) and its mask length. *)
Record IPNet : Type := MkIPNet { net_IP : option addr; net_Bits : Z }.

Definition Is4In6 (a : addr) : bool := Is6 a && (Z.shiftr (addr_val a) 32 =? 65535).
Definition Unmap (a : addr) : addr := if Is4In6 a then Addr V4 (addr_val a mod 2 ^ 32) else a.

Definition fromIPNet (n : IPNet) : option prefix :=
  match net_IP n with
  | None => None
  | Some a =>
      let bits := if Is4In6 a then net_Bits n - 96 else net_Bits n in
      let a := Unmap a in
      if (bits <? 0) || (BitLen a <? bits) then None else Some (Prefix a bits)
  end.

(** One network of the traversal, clamped to the query. *)
Definition clamped (p : prefix) (n : option (IPNet * cityRecord)) : option Range :=
  match n with
  | None => None
  | Some (sub, rec) =>
      match fromIPNet sub with
      | None => None
      | Some got => Some (MkRange (if pfx_bits got <? pfx_bits p then p else got) (info rec))
      end
  end.

(** [Enricher.Ranges]; [networksWithin] is the database's traversal, with
    [None] where decoding a network fails. *)
Definition Ranges (networksWithin : prefix -> list (option (IPNet * cityRecord))) (p : prefix) : list Range :=
  let p := Masked p in
  omap (clamped p) (networksWithin p).

(** [Enricher.Lookup] of the prefix's first address. *)
Definition Lookup (lookup : addr -> option cityRecord) (p : prefix) : Info :=
  match lookup (pfx_addr p) with Some rec => info rec | None => no_info end.

(** [ASNResolver.Lookup] on the database's number for an address ([None] when
    the lookup fails or has no record), and [OpenASN]. *)
Definition ASNLookup (asn : addr -> option Z) (a : addr) : option Z :=
  match asn a with Some n => if n =? 0 then None else Some n | None => None end.
Definition OpenASN (open : string -> option (addr -> option Z)) (file : string) : option (addr -> option Z) :=
  ASNLookup <$> open file.

(** * Prefix geometry *)
Lemma Contains_self p : Contains p (pfx_addr p) = true.
Proof. unfold Contains. rewrite bool_decide_true by done. apply Z.eqb_refl. Qed.

Lemma shiftr_coarser a b h h' : 0 <= h <= h' -> Z.shiftr a h = Z.shiftr b h -> Z.shiftr a h' = Z.shiftr b h'.
Proof.
  intros Hh E. replace h' with (h + (h' - h)) by lia.
  rewrite <- !Z.shiftr_shiftr by lia. by rewrite E.
Qed.

(** A prefix overlapping a shorter one lies inside it. *)
Lemma Contains_nested p q a : valid_prefix p -> valid_prefix q -> pfx_bits p <= pfx_bits q ->
  Overlaps p q = true -> Contains q a = true -> Contains p a = true.
Proof.
  intros Hp Hq Hle Ho Ha. rewrite Overlaps_nested in Ho by done. unfold Contains in *.
  apply andb_true_iff in Ho as [Ef%bool_decide_eq_true Eo%Z.eqb_eq], Ha as [Ef'%bool_decide_eq_true Ea%Z.eqb_eq].
  apply andb_true_iff. rewrite bool_decide_eq_true, Z.eqb_eq. split; [congruence|]. rewrite <- Eo.
  apply (shiftr_coarser _ _ (host_bits q)); [|done].
  pose proof (valid_host_bits q Hq). unfold host_bits in *. unfold BitLen in *. rewrite Ef in *. lia.
Qed.

(** Prefixes overlap exactly when some address is in both. *)
Lemma Overlaps_iff p q : valid_prefix p -> valid_prefix q ->
  Overlaps p q = true <-> exists a, Contains p a = true /\ Contains q a = true.
Proof.
  intros Hp Hq. split.
  - intros Ho. destruct (Z.le_ge_cases (pfx_bits p) (pfx_bits q)) as [Hle|Hle].
    + exists (pfx_addr q). split; [by rewrite <- Overlaps_nested | apply Contains_self].
    + exists (pfx_addr p). split; [apply Contains_self|]. rewrite <- Overlaps_nested by done. by rewrite Overlaps_sym.
  - intros (a & Hpa & Hqa). unfold Contains, Overlaps in *.
    apply andb_true_iff in Hpa as [E1%bool_decide_eq_true E2%Z.eqb_eq], Hqa as [E3%bool_decide_eq_true E4%Z.eqb_eq].
    apply andb_true_iff. rewrite bool_decide_eq_true, Z.eqb_eq. split; [congruence|].
    pose proof (valid_host_bits p Hp). pose proof (valid_host_bits q Hq). unfold host_bits, BitLen in *.
    rewrite E1, <- E3 in *.
    etrans; [symmetry|]; (eapply shiftr_coarser; [|eassumption]); lia.
Qed.

Lemma bogons_valid b : In b bogons -> valid_prefix b.
Proof. intros H. repeat (destruct H as [<-|H]; [vm_compute; intuition discriminate|]). done. Qed.

Lemma existsb_none {A} (f : A -> bool) l : existsb f l = false <-> forall x, In x l -> f x = false.
Proof.
  induction l as [|y l IH]; simpl; [done|]. rewrite orb_false_iff, IH. split.
  - intros [? H] x [<-|?]; auto.
  - intros H. auto.
Qed.

(** * Properties *)
(** An address of the global unicast space. *)
Definition global_addr (a : addr) : Prop :=
  (Is6 a = true -> Contains v6Global a = true) /\ forall b, In b bogons -> Contains b a = false.

Lemma IsBogon_spec p : IsBogon p = false <->
  (Is6 (pfx_addr p) = true -> Overlaps v6Global p = true) /\ forall b, In b bogons -> Overlaps b p = false.
Proof.
  unfold IsBogon. destruct (Is6 _ && _) eqn:E.
  - split; [done|]. intros [H _]. btrue. by rewrite H in *.
  - split.
    + intros H. split; [|by apply existsb_none]. intros H6. rewrite H6 in E. simpl in E. by apply negb_false_iff.
    + intros [_ H]. by apply existsb_none.
Qed.

Lemma v6Global_valid : valid_prefix v6Global.
Proof. vm_compute. intuition discriminate. Qed.

(** A prefix longer than nothing that covers all of 2000::/3 is a bogon: it
    covers the documentation prefix. *)
Lemma covers_global_is_bogon p : valid_prefix p -> Contains p (v6 8193 3512 0) = true -> IsBogon p = true.
Proof.
  intros Hp Hc. destruct (IsBogon p) eqn:E; [done|]. apply IsBogon_spec in E as [_ E].
  assert (In (Prefix (v6 8193 3512 0) 32) bogons) as Hb by (vm_compute; tauto).
  pose proof (E _ Hb) as Ho. apply not_true_iff_false in Ho. destruct Ho. apply Overlaps_iff; [by apply bogons_valid | done |].
  exists (v6 8193 3512 0). split; [by vm_compute | done].
Qed.

Lemma IsBogon_iff p : valid_prefix p ->
  IsBogon p = false <-> forall a, Contains p a = true -> global_addr a.
Proof.
  intros Hp. split.
  - intros E a Ha. pose proof E as [H6 Hb]%IsBogon_spec. split.
    + intros Ha6. assert (Is6 (pfx_addr p) = true) as Hp6.
      { unfold Contains in Ha. btrue. unfold Is6, Is4 in *. by match goal with E : addr_fam _ = _ |- _ => rewrite E end. }
      specialize (H6 Hp6). destruct (Z.le_gt_cases 3 (pfx_bits p)) as [Hle|Hlt].
      { by apply (Contains_nested v6Global p a v6Global_valid Hp). }
      exfalso. apply not_true_iff_false in E. apply E, covers_global_is_bogon; [done|].
      apply (Contains_nested p v6Global); [done | apply v6Global_valid | simpl; lia | | by vm_compute].
      rewrite Overlaps_sym; [done | done | apply v6Global_valid].
    + intros b Hin. apply not_true_iff_false. intros Hba. specialize (Hb b Hin).
      apply not_true_iff_false in Hb. apply Hb, Overlaps_iff; [by apply bogons_valid | done |]. eauto.
  - intros H. apply IsBogon_spec. split.
    + intros H6. apply Overlaps_iff; [apply v6Global_valid | done |]. exists (pfx_addr p).
      split; [|apply Contains_self]. by apply (H _ (Contains_self p)).
    + intros b Hin. apply not_true_iff_false. intros Ho.
      apply Overlaps_iff in Ho as (a & Hba & Hpa); [|by apply bogons_valid | done].
      destruct (H a Hpa) as [_ Hg]. by rewrite Hg in Hba.
Qed.



(** Non-bogon prefixes are never a whole family. *)
Lemma not_bogon_bits p : valid_prefix p -> IsBogon p = false -> 1 <= pfx_bits p.
Proof.
  intros Hp E. destruct (Z.le_gt_cases 1 (pfx_bits p)) as [|Hlt]; [done|]. exfalso.
  assert (forall b, In b bogons -> addr_fam (pfx_addr b) = addr_fam (pfx_addr p) -> False) as Hb.
  { intros b Hin Ef. apply IsBogon_spec in E as [_ E]. specialize (E b Hin). apply not_true_iff_false in E. apply E.
    destruct (bogons_valid b Hin) as [Hv1 Hv2]. destruct Hp as [Ha Hr].
    rewrite Overlaps_sym, Overlaps_nested by (try split; try done; lia). unfold Contains.
    rewrite bool_decide_true by done. apply Z.eqb_eq. unfold host_bits, valid_addr, BitLen in *. rewrite Ef in *.
    replace (pfx_bits p) with 0 by lia. rewrite !Z.shiftr_div_pow2 by (destruct (addr_fam (pfx_addr p)); lia).
    rewrite Z.sub_0_r, !Z.div_small by lia. done. }
  destruct (addr_fam (pfx_addr p)) eqn:Ef.
  - apply (Hb (Prefix (v4 0 0 0 0) 8)); [by left | done].
  - apply (Hb (Prefix (v6 8193 3512 0) 32)); [vm_compute; tauto | done].
Qed.

(** ** The reader *)
Definition occurrences (o : Z) (l : list Z) : Z := Z.of_nat (count_rows (Z.eqb o) l).

Lemma collect_spec entries (l := concat (map originsOf entries)) :
  NoDup (collect entries).1 /\ (forall o, o ∈ (collect entries).1 <-> o ∈ l) /\
  (forall o, default 0 ((collect entries).2 !! o) = occurrences o l).
Proof.
  unfold collect. fold l. clearbody l. clear entries.
  induction l as [|o l IH] using rev_ind.
  { split_and!; [apply NoDup_nil_2 | done |]. intros o. reflexivity. }
  rewrite foldl_app. simpl. destruct (foldl add_origin _ l) as [os m] eqn:E. simpl in *.
  destruct IH as (Hnd & Hin & Hc). unfold add_origin. simpl. split_and!.
  - case_bool_decide; [done|]. apply NoDup_app. split_and!; [done | set_solver | apply NoDup_singleton].
  - intros x. rewrite elem_of_app. case_bool_decide; rewrite ?elem_of_app, <- ?Hin; set_solver.
  - intros x. unfold occurrences, count_rows, select. rewrite List.filter_app, length_app. simpl.
    specialize (Hc x). unfold occurrences, count_rows, select in Hc. destruct (decide (o = x)) as [->|Hne].
    + rewrite lookup_insert_eq, Z.eqb_refl. simpl in *. rewrite Hc. lia.
    + rewrite lookup_insert_ne by done. rewrite (proj2 (Z.eqb_neq x o)) by done. simpl. rewrite Hc. lia.
Qed.

Section StreamSpec.
Context {S : Type} (monitored : gset Z) (f : S -> Record_ -> S).

(** The monitored RIB records of a dump: prefix and origins as announced. *)
Definition monitored_rib (m : mrt_message) : option (prefix * list Z) :=
  match msg_header m, msg_body m with
  | Some hdr, Some (Some rib) =>
      let os := concat (map originsOf (rib_Entries rib)) in
      if hdr_TableDumpV2 hdr && rib_subtype (hdr_SubType hdr) &&
         existsb (fun o => bool_decide (o ∈ monitored)) os
      then (fun p => (p, os)) <$> rib_Prefix rib else None
  | _, _ => None
  end.
Definition describes (po : prefix * list Z) (rec : Record_) : Prop :=
  rec_Prefix rec = Masked po.1 /\ StronglySorted Z.le (rec_Origins rec) /\ NoDup (rec_Origins rec) /\
  (forall o, o ∈ rec_Origins rec <-> o ∈ po.2) /\
  (forall o, default 0 (rec_PeerCounts rec !! o) = occurrences o po.2).

Lemma existsb_same {A} (g : A -> bool) l l' : (forall x, In x l <-> In x l') -> existsb g l = existsb g l'.
Proof. intros H. apply eq_true_iff_eq. rewrite !existsb_exists. naive_solver. Qed.

Lemma collected entries p :
  describes (p, concat (map originsOf entries))
    (MkRecord (Masked p) (merge_sort Z.le (collect entries).1) (collect entries).2).
Proof.
  destruct (collect_spec entries) as (Hnd & Hin & Hc). unfold describes. simpl. split_and!; try done.
  - apply (StronglySorted_merge_sort Z.le).
  - by rewrite merge_sort_Permutation.
  - intros o. by rewrite merge_sort_Permutation.
Qed.

Lemma stream_loop_spec msgs err : forall stats s stats' s' e,
  stream_loop monitored (fun s r => Ok (f s r)) msgs err stats s = (stats', s', e) ->
  exists recs, Forall2 describes (omap monitored_rib msgs) recs /\ s' = foldl f s recs /\ e = err /\
    Z.of_nat (length recs) <= MatchedRecords stats' - MatchedRecords stats <= Records stats' - Records stats.
Proof.
  induction msgs as [|m msgs IH]; intros stats s stats' s' e E.
  { simpl in E. simplify_eq. exists []. split_and!; try done; simpl; lia. }
  cbn [stream_loop] in E. simpl. destruct m as [hdr body]. unfold monitored_rib at 1. simpl in *.
  destruct hdr as [hdr|]; [|apply IH in E; exact E].
  set (st1 := if FirstTimestamp stats =? 0 then _ else _) in E.
  assert (Records st1 = Records stats /\ MatchedRecords st1 = MatchedRecords stats) as [Er Em]
    by (unfold st1; by destruct (_ =? 0)).
  clearbody st1.
  assert (forall st, Records st = Records st1 -> MatchedRecords st = MatchedRecords st1 ->
    stream_loop monitored (fun s r => Ok (f s r)) msgs err st s = (stats', s', e) ->
    exists recs, Forall2 describes (omap monitored_rib msgs) recs /\ s' = foldl f s recs /\ e = err /\
      Z.of_nat (length recs) <= MatchedRecords stats' - MatchedRecords stats <= Records stats' - Records stats) as Hskip.
  { intros st E1 E2 (recs & ? & ? & ? & ?)%IH. exists recs. split_and!; try done; lia. }
  destruct (hdr_TableDumpV2 hdr); simpl in *; [|destruct body as [[|]|]; by eapply Hskip in E].
  destruct (rib_subtype _); simpl in *; [|destruct body as [[|]|]; by eapply Hskip in E].
  destruct body as [[rib|]|]; simpl in *; [|by eapply Hskip in E..].
  rewrite (existsb_same _ (collect (rib_Entries rib)).1 (concat (map originsOf (rib_Entries rib)))) in E
    by (intros x; rewrite <- !list_elem_of_In; apply (collect_spec (rib_Entries rib))).
  destruct (existsb _ _); simpl in *.
  - destruct (rib_Prefix rib) as [p|]; simpl in *.
    + apply IH in E as (recs & Hd & Hs & He & Hb). simpl in Hb.
      eexists (_ :: recs). simpl. split_and!; [constructor; [apply collected | done] | exact Hs | done | lia | lia].
    + apply IH in E as (recs & ? & ? & ? & Hb). simpl in Hb. exists recs. split_and!; try done; lia.
  - apply IH in E as (recs & ? & ? & ? & Hb). simpl in Hb. exists recs. split_and!; try done; lia.
Qed.

(** The reader emits exactly the monitored RIB records, in dump order:
    one record per well-formed message that announces a monitored origin, with
    the prefix masked, every origin of the record listed once and sorted, and
    the exact number of peer entries per origin.  The counters are
    consistent. *)
Theorem stream_complete msgs s stats s' :
  Stream monitored (fun s r => Ok (f s r)) (Ok (msgs, None)) s = Ok (stats, s') ->
  exists recs, Forall2 describes (omap monitored_rib msgs) recs /\ s' = foldl f s recs /\
    Z.of_nat (length recs) <= MatchedRecords stats <= Records stats.
Proof.
  unfold Stream. destruct (stream_loop _ _ _ _ _ _) as [[st s1] e] eqn:E. intros H.
  destruct (stream_loop_spec _ _ _ _ _ _ _ E) as (recs & H1 & H2 & -> & H3). simplify_eq. simpl in H3.
  exists recs. split_and!; try done; lia.
Qed.
End StreamSpec.

(** A dump with a peer index table and one MOAS record of two peers. *)
Definition toy_rib : mrt_message :=
  MRTMessage (Some (MRTHeader 5 true RIB_IPV4_UNICAST))
    (Some (Some (Rib (Some (Prefix (v4 185 0 0 7) 24))
      [[PathAttributeAsPath [As4PathParam false [9; 65001]]];
       [OtherAttribute; PathAttributeAsPath [As4PathParam true [65002; 65001]]]]))).
Definition toy_dump : list mrt_message := [MRTMessage (Some (MRTHeader 5 true OtherSubType)) None; toy_rib].

Lemma stream_complete_witness :
  exists rec, describes (Prefix (v4 185 0 0 7) 24, [65001; 65002; 65001]) rec /\
    Stream {[65001]} (fun s r => Ok (s ++ [r])) (Ok (toy_dump, None)) [] = Ok (MkStats 1 1 0 5, [rec]).
Proof.
  eexists. split.
  - assert (Stream {[65001]} (fun s r => Ok (s ++ [r])) (Ok (toy_dump, None)) [] =
      Ok (MkStats 1 1 0 5, [MkRecord (Prefix (v4 185 0 0 0) 24) [65001; 65002] {[65001 := 2; 65002 := 1]}])) as E
      by (vm_compute; reflexivity).
    destruct (stream_complete {[65001]} (fun s r => s ++ [r]) toy_dump [] _ _ E) as (recs & Hd & Hs & _).
    change (omap (monitored_rib {[65001]}) toy_dump) with [(Prefix (v4 185 0 0 7) 24, [65001; 65002; 65001])] in Hd.
    inversion Hd as [|? rec ? recs' Hrec Hnil]; subst. inversion Hnil; subst. simpl in Hs.
    injection Hs as <-. exact Hrec.
  - vm_compute. reflexivity.
Defined.
