(* ===== verification/Distribution.v ===== *)
(** [internal/builder/distribution.go]: how much announced address space a
    provider has in each country.

    Counts are kept at 64 bits, unsigned, with wrap-around written out.  The
    GeoIP source is the [ranger] interface of the code: a function from
    prefixes to labelled pieces, [GeoRecords] stating what it promises (a
    split at the boundaries of a set of disjoint records).  Go's unspecified
    map iteration order is a parameter ([MapOrder]): the theorems hold for
    every order. *)
From stdpp Require Import base gmap strings list list_numbers sorting.
From Stdlib Require Import ZArith QArith Lia.
From S2P Require Import Prelude Netip Routing.
Open Scope Z_scope.

Definition MaxUint64 : Z := 2 ^ 64 - 1.
Definition uint64 (z : Z) : Z := z mod 2 ^ 64.

Definition unknownCountry : string := "ZZ".

Record CountryStat : Type := MkStat {
  cs_Code : string;
  cs_Name : string;
  cs_ContinentCode : string;
  cs_ContinentName : string;
  IPv4Addresses : Z;
  IPv6Net64s : Z;
  cs_PrefixCountV4 : Z;
  cs_PrefixCountV6 : Z
}.

(** [builder.prefixRow]; [flags] by the keys the builder writes. *)
Record prefixRow : Type := MkPrefixRow {
  row_prefix : prefix;
  row_origin : Z;
  row_provider : string;
  row_peer_count : Z;
  row_other_origins : list Z;
  row_long : bool;
  row_geo : Info
}.

Definition units (p : prefix) : Z :=
  let bits := pfx_bits p in
  let size := BitLen (pfx_addr p) in
  let weigh size := if bits <=? 0 then MaxUint64 else uint64 (Z.shiftl 1 (size - bits)) in
  if size =? 128 then (if 64 <? bits then 0 else weigh 64) else weigh size.

(** A map of counts, zero where absent. *)
Definition at_ (c : string) (m : gmap string Z) : Z := default 0 (m !! c).
Definition add_units (c : string) (u : Z) (m : gmap string Z) : gmap string Z := <[c := uint64 (at_ c m + u)]> m.

Definition code_of (i : Info) : string := if InfoOK i then Country i else unknownCountry.
Definition note_name (i : Info) (names : gmap string CountryStat) : gmap string CountryStat :=
  if InfoOK i && is_none (names !! Country i)
  then <[Country i := MkStat (Country i) (CountryName i) (ContinentCode i) (ContinentName i) 0 0 0 0]> names
  else names.

(** The loop over the pieces, with its clamp and its early exit. *)
Fixpoint attribute (total : Z) (pieces : list Range) (out : gmap string Z) (covered : Z)
    (names : gmap string CountryStat) : gmap string Z * Z * gmap string CountryStat :=
  match pieces with
  | [] => (out, covered, names)
  | rng :: pieces' =>
      let names := note_name (rng_Info rng) names in
      let u := units (rng_Prefix rng) in
      let u := if total <? uint64 (covered + u) then uint64 (total - covered) else u in
      let out := add_units (code_of (rng_Info rng)) u out in
      let covered := uint64 (covered + u) in
      if total <=? covered then (out, covered, names) else attribute total pieces' out covered names
  end.

Definition countryUnits (p : prefix) (r : option (prefix -> list Range)) (names : gmap string CountryStat)
    : gmap string Z * gmap string CountryStat :=
  let total := units p in
  let '(out, covered, names) :=
    match r with
    | Some r => attribute total (r p) ∅ 0 names
    | None => (∅, 0, names)
    end in
  (if covered <? total then add_units unknownCountry (uint64 (total - covered)) out else out, names).

(** The order of the sweep: containers before what they contain. *)
Definition prefix_less (p q : prefix) : bool :=
  if bool_decide (pfx_addr p = pfx_addr q) then pfx_bits p <? pfx_bits q
  else addr_Less (pfx_addr p) (pfx_addr q).
Definition prefix_le (p q : prefix) : Prop := prefix_less q p = false.
#[global] Instance prefix_le_dec p q : Decision (prefix_le p q).
Proof. unfold prefix_le. apply _. Defined.

Fixpoint own_units (sorted : list prefix) (r : option (prefix -> list Range)) (names : gmap string CountryStat)
    : list (gmap string Z) * gmap string CountryStat :=
  match sorted with
  | [] => ([], names)
  | p :: sorted' =>
      let (m, names) := countryUnits p r names in
      let (ms, names) := own_units sorted' r names in
      (m :: ms, names)
  end.

(** [top.Contains(p.Addr()) && top.Bits() <= p.Bits()]. *)
Definition covers (top p : prefix) : bool := Contains top (pfx_addr p) && (pfx_bits top <=? pfx_bits p).

Fixpoint pop (sorted : list prefix) (p : prefix) (stack : list nat) : list nat :=
  match stack with
  | [] => []
  | t :: rest =>
      match sorted !! t with
      | Some top => if covers top p then stack else pop sorted p rest
      | None => stack
      end
  end.

(** [for code, u := range own[i]]: subtract, deleting what reaches zero. *)
Definition subtract (own exclusive : gmap string Z) : gmap string Z :=
  merge (fun u have =>
    match u with
    | Some u => if u <? default 0 have then Some (default 0 have - u) else None
    | None => have
    end) own exclusive.

Fixpoint sweep (sorted : list prefix) (own : list (gmap string Z)) (i : nat) (todo : list prefix)
    (stack : list nat) (exclusive : list (gmap string Z)) : list (gmap string Z) :=
  match todo with
  | [] => exclusive
  | p :: todo' =>
      let stack := pop sorted p stack in
      let exclusive := match stack with
                       | parent :: _ => alter (subtract (default ∅ (own !! i))) parent exclusive
                       | [] => exclusive
                       end in
      sweep sorted own (S i) todo' (i :: stack) exclusive
  end.

Definition exclusiveUnits (prefixes : list prefix) (r : option (prefix -> list Range))
    (names : gmap string CountryStat)
    : list (gmap string Z) * list (gmap string Z) * gmap string CountryStat :=
  let sorted := merge_sort prefix_le prefixes in
  let (own, names) := own_units sorted r names in
  (own, sweep sorted own 0 sorted [] own, names).

Section Distribute.
Context {mo : MapOrder}.

Definition byProvider (rows : list prefixRow) : gmap (string * bool) (gset prefix) :=
  foldl (fun m row =>
    if bool_decide (row_provider row = "") then m
    else let k := (row_provider row, Is6 (pfx_addr (row_prefix row))) in
         <[k := {[Masked (row_prefix row)]} ∪ default ∅ (m !! k)]> m) ∅ rows.

(** [stat(code)]: the entry, created on first use. *)
Definition stat (names : gmap string CountryStat) (stats : gmap string CountryStat) (code : string) : CountryStat :=
  match stats !! code with
  | Some s => s
  | None =>
      match names !! code with
      | Some meta => MkStat code (cs_Name meta) (cs_ContinentCode meta) (cs_ContinentName meta) 0 0 0 0
      | None => MkStat code "Unknown" "" "" 0 0 0 0
      end
  end.
Definition add_space (v6 : bool) (u : Z) (s : CountryStat) : CountryStat :=
  MkStat (cs_Code s) (cs_Name s) (cs_ContinentCode s) (cs_ContinentName s)
    (if v6 then IPv4Addresses s else uint64 (IPv4Addresses s + u))
    (if v6 then uint64 (IPv6Net64s s + u) else IPv6Net64s s) (cs_PrefixCountV4 s) (cs_PrefixCountV6 s).
Definition add_prefix (v6 : bool) (s : CountryStat) : CountryStat :=
  MkStat (cs_Code s) (cs_Name s) (cs_ContinentCode s) (cs_ContinentName s) (IPv4Addresses s) (IPv6Net64s s)
    (if v6 then cs_PrefixCountV4 s else cs_PrefixCountV4 s + 1)
    (if v6 then cs_PrefixCountV6 s + 1 else cs_PrefixCountV6 s).

(** The contribution of one prefix. *)
Definition count_prefix (names : gmap string CountryStat) (v6 : bool) (stats : gmap string CountryStat)
    (eo : gmap string Z * gmap string Z) : gmap string CountryStat :=
  let stats := foldl (fun stats '(code, u) =>
      if u =? 0 then stats else <[code := add_space v6 u (stat names stats code)]> stats)
    stats (shuffle (map_to_list eo.1)) in
  foldl (fun stats '(code, _) => <[code := add_prefix v6 (stat names stats code)]> stats)
    stats (shuffle (map_to_list eo.2)).

Definition distribute_key (r : option (prefix -> list Range))
    (acc : gmap string (gmap string CountryStat) * gmap string CountryStat)
    (ks : (string * bool) * gset prefix)
    : gmap string (gmap string CountryStat) * gmap string CountryStat :=
  let '(out, names) := acc in
  let '((provider, v6), set) := ks in
  let '(own, exclusive, names) := exclusiveUnits (shuffle (elements set)) r names in
  let stats := foldl (count_prefix names v6) (default ∅ (out !! provider)) (zip exclusive own) in
  (<[provider := stats]> out, names).

Definition distribute (rows : list prefixRow) (r : option (prefix -> list Range))
    : gmap string (gmap string CountryStat) :=
  (foldl (distribute_key r) (∅, ∅) (shuffle (map_to_list (byProvider rows)))).1.

Definition shares (stats : gmap string CountryStat) : gmap string Q :=
  let total := foldl (fun t s => uint64 (t + IPv4Addresses s)) 0 (map snd (shuffle (map_to_list stats))) in
  if total =? 0 then ∅
  else (fun s => (inject_Z (IPv4Addresses s) / inject_Z total * 100)%Q) <$> stats.
End Distribute.

(** * The reference: counting units

    A unit is an IPv4 address or an IPv6 /64; [unit_addr f u] is the first
    address of unit [u].  [covers_unit p u]: the announcement [p] covers the
    whole unit.  [country_at] labels a unit by the record that covers it. *)
Definition unit_bits (f : family) : Z := match f with V4 => 32 | V6 => 64 end.
Definition unit_addr (f : family) (u : Z) : addr :=
  Addr f (match f with V4 => u | V6 => u * 2 ^ 64 end).
Definition covers_unit (p : prefix) (f : family) (u : Z) : bool :=
  (pfx_bits p <=? unit_bits f) && Contains p (unit_addr f u).
Definition country_at (records : list Range) (f : family) (u : Z) : string :=
  match List.find (fun x => covers_unit (rng_Prefix x) f u) records with
  | Some x => code_of (rng_Info x)
  | None => unknownCountry
  end.
(** How many of the [n] units from [a] on satisfy [P]. *)
Definition cnt (P : Z -> bool) (a n : Z) : Z := Z.of_nat (length (List.filter P (seqZ a n))).

(** What the GeoIP source promises: [records] are disjoint networks, and the
    pieces of a prefix are the records that meet it, clamped to it. *)
Definition clamp (p : prefix) (x : Range) : Range :=
  MkRange (if pfx_bits (rng_Prefix x) <? pfx_bits p then p else rng_Prefix x) (rng_Info x).
Class GeoRecords (r : option (prefix -> list Range)) (records : list Range) : Prop := {
  records_valid : forall x, In x records -> masked_prefix (rng_Prefix x);
  records_disjoint : ForallOrdPairs (fun x y => Overlaps (rng_Prefix x) (rng_Prefix y) = false) records;
  records_split : forall p, masked_prefix p ->
    match r with
    | Some r => r p ≡ₚ map (clamp p) (select (fun x => Overlaps (rng_Prefix x) p) records)
    | None => records = []
    end
}.

Section Count.
Implicit Types (P Q : Z -> bool) (a n : Z).

Lemma cnt_nonneg P a n : 0 <= cnt P a n.
Proof. unfold cnt. lia. Qed.

Lemma cnt_ext P Q a n : (forall u, a <= u < a + n -> P u = Q u) -> cnt P a n = cnt Q a n.
Proof.
  intros H. unfold cnt. do 2 f_equal. apply filter_ext_in. intros u Hu.
  apply H. apply list_elem_of_In, elem_of_seqZ in Hu. lia.
Qed.

Lemma cnt_nil P a n : n <= 0 -> cnt P a n = 0.
Proof. intros H. unfold cnt. by rewrite seqZ_nil. Qed.

Lemma cnt_split P a n k : 0 <= n -> 0 <= k -> cnt P a (n + k) = cnt P a n + cnt P (a + n) k.
Proof. intros Hn Hk. unfold cnt. rewrite seqZ_app, List.filter_app, length_app by done. lia. Qed.

Lemma cnt_true P a n : 0 <= n -> (forall u, a <= u < a + n -> P u = true) -> cnt P a n = n.
Proof.
  intros Hn H. rewrite (cnt_ext P (fun _ => true)) by done. unfold cnt.
  assert (forall l : list Z, List.filter (fun _ => true) l = l) as -> by (induction l; simpl; congruence).
  rewrite length_seqZ. lia.
Qed.

Lemma cnt_false P a n : (forall u, a <= u < a + n -> P u = false) -> cnt P a n = 0.
Proof.
  intros H. rewrite (cnt_ext P (fun _ => false)) by done. unfold cnt.
  assert (forall l : list Z, List.filter (fun _ => false) l = []) as -> by (by induction l). done.
Qed.

Lemma cnt_or P Q a n : (forall u, a <= u < a + n -> P u = true -> Q u = false) ->
  cnt (fun u => P u || Q u) a n = cnt P a n + cnt Q a n.
Proof.
  intros H. unfold cnt. rewrite <- Nat2Z.inj_add. f_equal.
  assert (forall u, In u (seqZ a n) -> P u = true -> Q u = false) as H'
    by (intros u Hu; apply H; apply list_elem_of_In, elem_of_seqZ in Hu; lia).
  clear H. induction (seqZ a n) as [|u l IH]; [done|]. simpl.
  specialize (IH (fun v Hv => H' v (or_intror Hv))). specialize (H' u (or_introl eq_refl)).
  destruct (P u); simpl; [rewrite H' by done; simpl | destruct (Q u); simpl]; lia.
Qed.

Lemma cnt_le P Q a n : (forall u, a <= u < a + n -> P u = true -> Q u = true) -> cnt P a n <= cnt Q a n.
Proof.
  intros H. rewrite (cnt_ext Q (fun u => P u || (Q u && negb (P u)))).
  - rewrite cnt_or by (intros u _ ->; simpl; apply andb_false_r). pose proof (cnt_nonneg (fun u => Q u && negb (P u)) a n). lia.
  - intros u Hu. specialize (H u Hu). destruct (P u), (Q u); simpl; try done. by rewrite H.
Qed.

(** Restricting to a sub-interval. *)
Lemma cnt_sub P Q a n b k : a <= b -> 0 <= k -> b + k <= a + n ->
  (forall u, a <= u < a + n -> Q u = true <-> b <= u < b + k) ->
  cnt (fun u => P u && Q u) a n = cnt P b k.
Proof.
  intros Hab Hk Hn HQ. replace n with ((b - a) + (k + (a + n - b - k))) by lia.
  rewrite !cnt_split by lia. replace (a + (b - a)) with b by lia.
  rewrite (cnt_false _ a), (cnt_false _ (b + k)), Z.add_0_r, Z.add_0_l.
  - apply cnt_ext. intros u Hu. assert (Q u = true) as -> by (apply HQ; lia). apply andb_true_r.
  - intros u Hu. assert (Q u = false) as -> by (apply not_true_iff_false; rewrite HQ; lia). apply andb_false_r.
  - intros u Hu. assert (Q u = false) as -> by (apply not_true_iff_false; rewrite HQ; lia). apply andb_false_r.
Qed.

Lemma cnt_neg P a n : 0 <= n -> cnt (fun u => negb (P u)) a n = n - cnt P a n.
Proof.
  intros Hn. pose proof (cnt_or P (fun u => negb (P u)) a n) as H. cbv beta in H.
  rewrite (cnt_true (fun u => P u || negb (P u))) in H by (try done; intros u _; apply orb_negb_r).
  assert (forall u, a <= u < a + n -> P u = true -> negb (P u) = false) as Hd by (by intros u _ ->).
  specialize (H Hd). lia.
Qed.
End Count.

(** * Geometry of units *)
Definition fam (p : prefix) : family := addr_fam (pfx_addr p).
(** The first unit of a masked prefix, and how many it covers. *)
Definition ulo (p : prefix) : Z := addr_val (pfx_addr p) / 2 ^ (BitLen (pfx_addr p) - unit_bits (fam p)).
Definition usize (p : prefix) : Z :=
  if pfx_bits p <=? unit_bits (fam p) then 2 ^ (unit_bits (fam p) - pfx_bits p) else 0.
Definition uhi (p : prefix) : Z := ulo p + usize p.

Lemma usize_nonneg p : 0 <= usize p.
Proof. unfold usize. destruct (_ <=? _); [apply Z.pow_nonneg|]; lia. Qed.

Lemma units_usize p : valid_prefix p -> 1 <= pfx_bits p -> units p = usize p /\ usize p <= 2 ^ 63.
Proof.
  intros [_ Hb] H1. unfold units, usize, fam, BitLen, unit_bits, uint64 in *.
  assert (forall k, 0 <= k <= 63 -> (Z.shiftl 1 k) mod 2 ^ 64 = 2 ^ k /\ 2 ^ k <= 2 ^ 63) as Hk.
  { intros k Hk. rewrite Z.shiftl_1_l. pose proof (Z.pow_le_mono_r 2 k 63). split; [apply Z.mod_small|]; lia. }
  rewrite (proj2 (Z.leb_gt (pfx_bits p) 0)) by lia.
  destruct (addr_fam (pfx_addr p)); simpl (_ =? 128); cbv iota.
  - rewrite (proj2 (Z.leb_le (pfx_bits p) 32)) by lia. apply Hk. lia.
  - destruct (64 <? pfx_bits p) eqn:E; btrue.
    + rewrite (proj2 (Z.leb_gt (pfx_bits p) 64)) by lia. lia.
    + rewrite (proj2 (Z.leb_le (pfx_bits p) 64)) by lia. apply Hk. lia.
Qed.

Lemma masked_lo p : masked_prefix p -> lo p = addr_val (pfx_addr p).
Proof. intros [_ E]. unfold lo. by rewrite E. Qed.

(** The start of a masked prefix is a multiple of its size. *)
Lemma masked_multiple p : masked_prefix p ->
  exists q, addr_val (pfx_addr p) = q * 2 ^ host_bits p.
Proof.
  intros Hm. pose proof (masked_lo p Hm) as E. destruct Hm as [Hv _].
  unfold lo in E. simpl in E. rewrite Z.shiftl_mul_pow2 in E by (by apply valid_host_bits). eauto.
Qed.

Lemma pow2_pos k : 0 <= k -> 0 < 2 ^ k.
Proof. intros. by apply Z.pow_pos_nonneg. Qed.

Lemma covers_unit_range p f u : masked_prefix p -> 0 <= u < 2 ^ unit_bits f ->
  covers_unit p f u = true <-> fam p = f /\ ulo p <= u < uhi p.
Proof.
  intros Hm Hu. pose proof Hm as [Hv _]. unfold covers_unit, uhi, usize.
  rewrite andb_true_iff, Z.leb_le, (Contains_range p _ Hv). unfold hi. rewrite masked_lo by done.
  destruct (masked_multiple p Hm) as [q Eq]. pose proof (valid_host_bits p Hv) as Hh.
  unfold prefix_size, ulo, fam, host_bits, BitLen, unit_bits, unit_addr in *. simpl addr_fam. simpl addr_val.
  destruct (addr_fam (pfx_addr p)) eqn:Ef, f; try (split; intros; naive_solver).
  - rewrite Z.sub_diag, Z.pow_0_r, Z.div_1_r. destruct (pfx_bits p <=? 32) eqn:E; btrue; naive_solver lia.
  - change (128 - 64) with 64. destruct (pfx_bits p <=? 64) eqn:E; btrue; [|split; [naive_solver lia|lia]].
    rewrite Eq. replace (128 - pfx_bits p) with ((64 - pfx_bits p) + 64) by lia.
    rewrite Z.pow_add_r, Z.mul_assoc, Z.div_mul by lia.
    pose proof (pow2_pos (64 - pfx_bits p)). set (s := 2 ^ (64 - pfx_bits p)) in *. split; [naive_solver nia|].
    intros [_ ?]. split; [lia|]. split; [done|]. nia.
Qed.

Lemma ulo_bounds p : masked_prefix p -> 0 <= ulo p /\ uhi p <= 2 ^ unit_bits (fam p).
Proof.
  intros Hm. pose proof Hm as [[Ha Hb] _]. destruct (masked_multiple p Hm) as [q Eq].
  unfold uhi, ulo, usize, valid_addr, host_bits, BitLen, fam, unit_bits in *.
  destruct (addr_fam (pfx_addr p)).
  - rewrite Z.sub_diag, Z.pow_0_r, Z.div_1_r. rewrite (proj2 (Z.leb_le _ _)) by lia. split; [lia|].
    rewrite Eq in *. pose proof (pow2_pos (32 - pfx_bits p)).
    assert (2 ^ 32 = 2 ^ pfx_bits p * 2 ^ (32 - pfx_bits p)) as E by (rewrite <- Z.pow_add_r by lia; f_equal; lia).
    rewrite E in *. set (s := 2 ^ (32 - pfx_bits p)) in *. assert (q < 2 ^ pfx_bits p) by nia. nia.
  - change (128 - 64) with 64. split; [apply Z.div_pos; lia|].
    destruct (pfx_bits p <=? 64) eqn:E; btrue.
    + rewrite Eq in *. replace (128 - pfx_bits p) with ((64 - pfx_bits p) + 64) in * by lia.
      rewrite Z.pow_add_r, Z.mul_assoc, ?Z.div_mul in * by lia. pose proof (pow2_pos (64 - pfx_bits p)).
      assert (2 ^ 64 = 2 ^ pfx_bits p * 2 ^ (64 - pfx_bits p)) as E2 by (rewrite <- Z.pow_add_r by lia; f_equal; lia).
      assert (q * 2 ^ (64 - pfx_bits p) < 2 ^ 64) by lia.
      rewrite E2 in *. set (s := 2 ^ (64 - pfx_bits p)) in *. assert (q < 2 ^ pfx_bits p) by nia. nia.
    + rewrite Z.add_0_r. assert (addr_val (pfx_addr p) / 2 ^ 64 < 2 ^ 64) by (apply Z.div_lt_upper_bound; lia). lia.
Qed.

(** A masked prefix of at least unit size ends on a unit boundary; a smaller
    one lies inside a unit. *)
Lemma uhi_cases p (sh := BitLen (pfx_addr p) - unit_bits (fam p)) : masked_prefix p -> 0 <= sh /\
  ((pfx_bits p <= unit_bits (fam p) /\ uhi p = hi p / 2 ^ sh) \/
   (unit_bits (fam p) < pfx_bits p /\ uhi p = ulo p /\ hi p <= (ulo p + 1) * 2 ^ sh)).
Proof.
  intros Hm. pose proof Hm as [[Ha Hb] _]. destruct (masked_multiple p Hm) as [q Eq].
  unfold hi. rewrite masked_lo by done. unfold uhi, usize, prefix_size, ulo, host_bits. fold sh.
  assert (0 <= sh) as Hs by (unfold sh, BitLen, fam, unit_bits; destruct (addr_fam (pfx_addr p)); lia).
  split; [done|]. unfold host_bits in Eq.
  replace (BitLen (pfx_addr p)) with (unit_bits (fam p) + sh) in * by (unfold sh; lia). clearbody sh.
  pose proof (pow2_pos sh Hs) as Hps.
  destruct (pfx_bits p <=? unit_bits (fam p)) eqn:E; btrue; [left|right].
  - split; [done|]. rewrite Eq. replace (unit_bits (fam p) + sh - pfx_bits p) with (unit_bits (fam p) - pfx_bits p + sh) by lia.
    rewrite Z.pow_add_r by lia. set (k := 2 ^ (unit_bits (fam p) - pfx_bits p)).
    rewrite Z.mul_assoc, Z.div_mul by lia. replace (q * k * 2 ^ sh + k * 2 ^ sh) with ((q * k + k) * 2 ^ sh) by ring.
    by rewrite Z.div_mul by lia.
  - split; [done|]. split; [lia|]. rewrite Eq. set (h := unit_bits (fam p) + sh - pfx_bits p) in *.
    assert (2 ^ sh = 2 ^ (sh - h) * 2 ^ h) as E2 by (rewrite <- Z.pow_add_r by lia; f_equal; lia).
    pose proof (pow2_pos h ltac:(lia)). pose proof (pow2_pos (sh - h) ltac:(lia)).
    rewrite E2. rewrite Z.div_mul_cancel_r by lia.
    pose proof (Z.div_mod q (2 ^ (sh - h)) ltac:(lia)). pose proof (Z.mod_pos_bound q (2 ^ (sh - h)) ltac:(lia)).
    set (k := 2 ^ (sh - h)) in *. set (g := 2 ^ h) in *. assert (q + 1 <= (q / k + 1) * k) by nia. nia.
Qed.

Lemma same_shift p q : fam p = fam q -> BitLen (pfx_addr p) = BitLen (pfx_addr q).
Proof. unfold fam, BitLen. by intros ->. Qed.

Lemma ulo_mono p q : fam p = fam q -> addr_val (pfx_addr p) <= addr_val (pfx_addr q) -> ulo p <= ulo q.
Proof.
  intros Ef Hv. unfold ulo. rewrite <- Ef, <- (same_shift p q Ef). apply Z.div_le_mono; [|done].
  apply pow2_pos. unfold BitLen, unit_bits, fam. destruct (addr_fam (pfx_addr p)); lia.
Qed.

(** Prefixes that end before another begins. *)
Lemma uhi_ulo p q : masked_prefix p -> masked_prefix q -> fam p = fam q ->
  hi p <= addr_val (pfx_addr q) -> uhi p <= ulo q.
Proof.
  intros Hp Hq Ef Hle. destruct (uhi_cases p Hp) as [Hs Hc]. unfold ulo at 1.
  rewrite <- Ef, <- (same_shift p q Ef). pose proof (pow2_pos _ Hs).
  destruct Hc as [[_ ->]|(_ & -> & _)]; [by apply Z.div_le_mono|].
  apply Z.div_le_mono; [done|]. pose proof (prefix_size_pos p (proj1 Hp)). unfold hi in Hle. rewrite masked_lo in Hle by done. lia.
Qed.

(** A prefix that starts inside a shorter one is nested in it. *)
Lemma nested_units p q : masked_prefix p -> masked_prefix q -> Contains p (pfx_addr q) = true ->
  pfx_bits p <= pfx_bits q -> fam p = fam q /\ ulo p <= ulo q /\ uhi q <= uhi p.
Proof.
  intros Hp Hq Hc Hb. apply (Contains_range p _ (proj1 Hp)) in Hc as [Ef [H1 H2]].
  change (fam p = fam q) in Ef. split; [done|]. rewrite masked_lo in H1 by done.
  pose proof (uhi_cases p Hp) as [Hs Cp]. pose proof (uhi_cases q Hq) as [_ Cq].
  rewrite <- Ef, <- (same_shift p q Ef) in Cq. pose proof (pow2_pos _ Hs) as Hps.
  assert (hi q <= hi p) as Hh.
  { unfold hi in *. rewrite !masked_lo in * by done. unfold prefix_size in *.
    destruct (masked_multiple p Hp) as [i Ei]. destruct (masked_multiple q Hq) as [j Ej].
    pose proof (valid_host_bits q (proj1 Hq)) as Hhq. unfold host_bits in *. rewrite (same_shift p q Ef) in *.
    replace (2 ^ (BitLen (pfx_addr q) - pfx_bits p)) with (2 ^ (pfx_bits q - pfx_bits p) * 2 ^ (BitLen (pfx_addr q) - pfx_bits q)) in *
      by (rewrite <- Z.pow_add_r by lia; f_equal; lia).
    pose proof (pow2_pos _ Hhq). rewrite Ei, Ej in *. set (s := 2 ^ (BitLen (pfx_addr q) - pfx_bits q)) in *.
    set (k := 2 ^ (pfx_bits q - pfx_bits p)) in *. assert (j < i * k + k) by nia. nia. }
  assert (addr_val (pfx_addr q) < hi q) as Hq'.
  { unfold hi. rewrite masked_lo by done. pose proof (prefix_size_pos q (proj1 Hq)). lia. }
  split; [unfold ulo; rewrite <- Ef, <- (same_shift p q Ef); by apply Z.div_le_mono|].
  assert (ulo q = addr_val (pfx_addr q) / 2 ^ (BitLen (pfx_addr p) - unit_bits (fam p))) as Eu
    by (unfold ulo; by rewrite <- Ef, <- (same_shift p q Ef)).
  destruct Cp as [[_ ->]|(Hp' & -> & Hp2)], Cq as [[Hq1 ->]|(_ & -> & _)]; try (by apply Z.div_le_mono).
  - rewrite Eu. apply Z.div_le_mono; lia.
  - lia.
  - rewrite Eu. apply Z.lt_succ_r, Z.div_lt_upper_bound; lia.
Qed.

(** One record against one prefix. *)
Lemma one_record x p : masked_prefix (rng_Prefix x) -> masked_prefix p ->
  cnt (covers_unit (rng_Prefix x) (fam p)) (ulo p) (usize p) =
    if Overlaps (rng_Prefix x) p then usize (rng_Prefix (clamp p x)) else 0.
Proof.
  intros Hx Hp. set (q := rng_Prefix x) in *. destruct (ulo_bounds p Hp) as [Hl Hh]. unfold uhi in Hh.
  assert (forall u, ulo p <= u < ulo p + usize p -> 0 <= u < 2 ^ unit_bits (fam p) /\ covers_unit p (fam p) u = true) as Hin.
  { intros u Hu. assert (0 <= u < 2 ^ unit_bits (fam p)) by lia. split; [done|]. by apply covers_unit_range. }
  destruct (Overlaps q p) eqn:Ho.
  2:{ apply cnt_false. intros u Hu. destruct (Hin u Hu) as [_ Hc]. apply not_true_iff_false. intros Hq.
      unfold covers_unit in *. btrue. apply not_true_iff_false in Ho. apply Ho, Overlaps_iff; [apply Hx | apply Hp | eauto]. }
  pose proof (usize_nonneg p) as Hs. unfold clamp. simpl. fold q. destruct (pfx_bits q <? pfx_bits p) eqn:Eb; btrue.
  - apply cnt_true; [done|]. intros u Hu. destruct (Hin u Hu) as [_ Hc]. unfold covers_unit in *. btrue.
    rewrite (proj2 (Z.leb_le _ _)) by lia. simpl. apply (Contains_nested q p); try done; [apply Hx | apply Hp | lia].
  - rewrite Overlaps_sym, Overlaps_nested in Ho by (try apply Hx; try apply Hp; lia).
    destruct (nested_units p q Hp Hx Ho Eb) as (Ef & H1 & H2). unfold uhi in H2.
    rewrite (cnt_ext _ (fun u => true && covers_unit q (fam p) u)) by done.
    rewrite (cnt_sub (fun _ => true) _ _ _ (ulo q) (usize q)).
    + apply cnt_true; [apply usize_nonneg | done].
    + done.
    + apply usize_nonneg.
    + lia.
    + intros u Hu. destruct (Hin u Hu) as [Hr _]. rewrite covers_unit_range by done. unfold uhi. naive_solver.
Qed.

(** * Attribution *)
Lemma sumZ_cons {A} (g : A -> Z) x l : sumZ g (x :: l) = g x + sumZ g l.
Proof. done. Qed.

Lemma sumZ_perm {A} (g : A -> Z) l l' : l ≡ₚ l' -> sumZ g l = sumZ g l'.
Proof. induction 1; unfold sumZ in *; simpl; lia. Qed.

Lemma sumZ_select {A} (g : A -> Z) (p : A -> bool) l : sumZ g (select p l) = sumZ (fun x => if p x then g x else 0) l.
Proof. induction l as [|x l IH]; [done|]. unfold sumZ, select in *. simpl. destruct (p x); simpl; lia. Qed.

Lemma sumZ_map {A B} (g : B -> Z) (h : A -> B) l : sumZ g (map h l) = sumZ (fun x => g (h x)) l.
Proof. induction l as [|x l IH]; [done|]. unfold sumZ in *. simpl. lia. Qed.

Lemma sumZ_ext_in {A} (g h : A -> Z) l : (forall x, In x l -> g x = h x) -> sumZ g l = sumZ h l.
Proof. induction l as [|x l IH]; intros H; [done|]. unfold sumZ in *. simpl. rewrite H by (by left). rewrite IH; auto with datatypes. Qed.

Lemma sumZ_nonneg {A} (g : A -> Z) l : (forall x, In x l -> 0 <= g x) -> 0 <= sumZ g l.
Proof.
  induction l as [|x l IH]; intros H; unfold sumZ in *; simpl; [lia|].
  pose proof (H x (or_introl eq_refl)). specialize (IH (fun y Hy => H y (or_intror Hy))). lia.
Qed.

Lemma sumZ_le {A} (g h : A -> Z) l : (forall x, In x l -> g x <= h x) -> sumZ g l <= sumZ h l.
Proof.
  induction l as [|x l IH]; intros H; unfold sumZ in *; simpl; [lia|].
  pose proof (H x (or_introl eq_refl)). specialize (IH (fun y Hy => H y (or_intror Hy))). lia.
Qed.

Lemma record_sum (sel : Range -> bool) records p :
  (forall x, In x records -> masked_prefix (rng_Prefix x)) ->
  ForallOrdPairs (fun x y => Overlaps (rng_Prefix x) (rng_Prefix y) = false) records -> masked_prefix p ->
  sumZ (fun x => if sel x then (if Overlaps (rng_Prefix x) p then usize (rng_Prefix (clamp p x)) else 0) else 0) records =
  cnt (fun u => existsb (fun x => sel x && covers_unit (rng_Prefix x) (fam p) u) records) (ulo p) (usize p).
Proof.
  intros Hv Hd Hp. induction Hd as [|x records Hx Hd IH]; [symmetry; by apply cnt_false|].
  rewrite sumZ_cons, IH by auto with datatypes. rewrite <- one_record by auto with datatypes.
  cbn [existsb]. rewrite cnt_or.
  - f_equal. destruct (sel x); simpl; [done|]. symmetry. by apply cnt_false.
  - intros u _ Hc. btrue. apply existsb_none. intros y Hy. apply not_true_iff_false. intros Hcy. btrue.
    rewrite Forall_forall in Hx. specialize (Hx y (proj2 (list_elem_of_In _ _) Hy)). apply not_true_iff_false in Hx. apply Hx.
    unfold covers_unit in *. btrue.
    apply Overlaps_iff; [apply Hv; by left | apply Hv; by right | eauto].
Qed.

Section Attribution.
Context (r : option (prefix -> list Range)) (records : list Range) {geo : GeoRecords r records}.

Definition pieces (p : prefix) : list Range := match r with Some r => r p | None => [] end.
(** Units of the pieces of [p] selected by their label. *)
Definition piece_sum (sel : Info -> bool) (l : list Range) : Z :=
  sumZ (fun y => if sel (rng_Info y) then units (rng_Prefix y) else 0) l.

Lemma pieces_sum (sel : Info -> bool) p : masked_prefix p -> 1 <= pfx_bits p ->
  piece_sum sel (pieces p) =
  cnt (fun u => existsb (fun x => sel (rng_Info x) && covers_unit (rng_Prefix x) (fam p) u) records) (ulo p) (usize p).
Proof using geo.
  intros Hp Hb. rewrite <- (record_sum (fun x => sel (rng_Info x))) by (try done; apply geo).
  pose proof (records_split (r := r) (records := records) p Hp) as Hs. unfold piece_sum, pieces. destruct r as [r'|].
  - rewrite (sumZ_perm _ _ _ Hs), sumZ_map, sumZ_select. apply sumZ_ext_in. intros x Hx. simpl.
    destruct (Overlaps _ p); [|by destruct (sel _)]. destruct (sel _); [|done].
    pose proof (records_valid (r := Some r') x Hx) as Hvx.
    destruct (pfx_bits (rng_Prefix x) <? pfx_bits p) eqn:E; btrue; apply units_usize; try apply Hp; try apply Hvx; lia.
  - by rewrite Hs.
Qed.

Lemma units_nonneg p : 0 <= units p.
Proof.
  unfold units, MaxUint64, uint64.
  repeat match goal with |- context [if ?b then _ else _] => destruct b end; try lia; apply Z.mod_pos_bound; lia.
Qed.

Lemma at_add c c' u m : at_ c (add_units c' u m) = if bool_decide (c = c') then uint64 (at_ c m + u) else at_ c m.
Proof.
  unfold at_, add_units. case_bool_decide as E; [subst; by rewrite lookup_insert_eq | by rewrite lookup_insert_ne].
Qed.

(** The loop, when the pieces fit: no clamp, no wrap, and what the early exit
    skips weighs nothing. *)
Lemma attribute_spec total l : forall out covered names,
  total < 2 ^ 64 -> 0 <= covered -> covered + piece_sum (fun _ => true) l <= total ->
  (forall c, 0 <= at_ c out <= covered) ->
  exists names', attribute total l out covered names =
    ((attribute total l out covered names).1.1, covered + piece_sum (fun _ => true) l, names') /\
    forall c, at_ c (attribute total l out covered names).1.1 =
      at_ c out + piece_sum (fun i => bool_decide (code_of i = c)) l.
Proof.
  induction l as [|y l IH]; intros out covered names Ht Hc Hle Ho.
  { exists names. unfold piece_sum. simpl. split; [by rewrite Z.add_0_r | intros c; lia]. }
  unfold piece_sum in *. rewrite sumZ_cons in *. cbn [attribute]. cbv zeta. set (u := units (rng_Prefix y)) in *.
  assert (0 <= u) as Hu by apply units_nonneg.
  assert (forall sel : Info -> bool, 0 <= sumZ (fun y => if sel (rng_Info y) then units (rng_Prefix y) else 0) l) as Hnn.
  { intros sel. apply sumZ_nonneg. intros z _. destruct (sel _); [apply units_nonneg | lia]. }
  pose proof (Hnn (fun _ => true)) as Hn. cbv beta iota in Hn, Hle.
  assert (uint64 (covered + u) = covered + u) as E1 by (apply Z.mod_small; lia).
  rewrite E1, (proj2 (Z.ltb_ge _ _)), E1 by lia.
  assert (forall c, at_ c (add_units (code_of (rng_Info y)) u out) =
    at_ c out + (if bool_decide (code_of (rng_Info y) = c) then u else 0)) as Hadd.
  { intros c. rewrite at_add. specialize (Ho c). repeat case_bool_decide; try congruence; [apply Z.mod_small|]; lia. }
  destruct (total <=? covered + u) eqn:E; btrue.
  - eexists. cbn [fst]. split; [f_equal; f_equal; lia|]. intros c. rewrite Hadd, sumZ_cons. fold u.
    pose proof (Hnn (fun i => bool_decide (code_of i = c))) as H0. cbv beta in H0.
    assert (sumZ (fun x => if bool_decide (code_of (rng_Info x) = c) then units (rng_Prefix x) else 0) l
      <= sumZ (fun x => units (rng_Prefix x)) l) as H1.
    { apply sumZ_le. intros x _. pose proof (units_nonneg (rng_Prefix x)). case_bool_decide; lia. }
    lia.
  - destruct (IH (add_units (code_of (rng_Info y)) u out) (covered + u) (note_name (rng_Info y) names)) as (names' & H1 & H2);
      [lia | lia | lia | intros c; rewrite Hadd; specialize (Ho c); case_bool_decide; lia |].
    exists names'. split; [rewrite H1; cbn [fst]; f_equal; f_equal; lia|]. intros c. rewrite H2, Hadd, sumZ_cons. fold u. lia.
Qed.

Lemma cover_unique f u x y : In x records -> In y records ->
  covers_unit (rng_Prefix x) f u = true -> covers_unit (rng_Prefix y) f u = true -> x = y.
Proof using geo.
  intros Hx Hy Cx Cy. unfold covers_unit in *. btrue.
  pose proof (records_valid (r := r) x Hx) as [Vx _]. pose proof (records_valid (r := r) y Hy) as [Vy _].
  pose proof (records_disjoint (r := r) (records := records)) as Hd.
  destruct (ForallOrdPairs_In Hd x y Hx Hy) as [|[Hxy|Hxy]]; [done|exfalso..];
    apply not_true_iff_false in Hxy; apply Hxy, Overlaps_iff; eauto.
Qed.

Lemma country_at_spec f c u :
  bool_decide (country_at records f u = c) =
    existsb (fun x => bool_decide (code_of (rng_Info x) = c) && covers_unit (rng_Prefix x) f u) records ||
    (bool_decide (unknownCountry = c) && negb (existsb (fun x => true && covers_unit (rng_Prefix x) f u) records)).
Proof using geo.
  unfold country_at. destruct (List.find _ records) as [x|] eqn:Ef.
  - apply List.find_some in Ef as [Hx Cx].
    assert (existsb (fun y => true && covers_unit (rng_Prefix y) f u) records = true) as ->
      by (apply existsb_exists; eauto).
    rewrite andb_false_r, orb_false_r. apply eq_true_iff_eq.
    rewrite bool_decide_eq_true, existsb_exists. split.
    + intros <-. exists x. split; [done|]. by rewrite bool_decide_true.
    + intros (y & Hy & Cy). btrue. by rewrite (cover_unique f u x y).
  - assert (forall y, In y records -> covers_unit (rng_Prefix y) f u = false) as Hn
      by (intros y Hy; by apply (List.find_none _ _ Ef)).
    assert (forall sel : Range -> bool, existsb (fun y => sel y && covers_unit (rng_Prefix y) f u) records = false) as He.
    { intros sel. apply existsb_none. intros y Hy. rewrite Hn by done. apply andb_false_r. }
    rewrite (He (fun y => bool_decide (code_of (rng_Info y) = c))), (He (fun _ => true)). by rewrite andb_true_r.
Qed.

(** How many units of [p] lie in country [c]. *)
Definition share_of (c : string) (p : prefix) : Z :=
  cnt (fun u => bool_decide (country_at records (fam p) u = c)) (ulo p) (usize p).

Lemma countryUnits_spec p names : masked_prefix p -> 1 <= pfx_bits p ->
  forall c, at_ c (countryUnits p r names).1 = share_of c p.
Proof using geo.
  intros Hp Hb c. destruct (units_usize p (proj1 Hp) Hb) as [Eu Hu]. pose proof (usize_nonneg p) as Hs.
  pose proof (pieces_sum (fun _ => true) p Hp Hb) as Hall.
  pose proof (pieces_sum (fun i => bool_decide (code_of i = c)) p Hp Hb) as Hsel.
  assert (piece_sum (fun _ => true) (pieces p) <= usize p) as Hle.
  { rewrite Hall. etrans; [by apply (cnt_le _ (fun _ => true)) | by rewrite cnt_true]. }
  destruct (attribute_spec (units p) (pieces p) ∅ 0 names) as (names' & E & Hat);
    [lia | lia | lia | intros c'; unfold at_; rewrite lookup_empty; simpl; lia |].
  assert (countryUnits p r names = let '(out, covered, names) := attribute (units p) (pieces p) ∅ 0 names in
    (if covered <? units p then add_units unknownCountry (uint64 (units p - covered)) out else out, names)) as ->
    by (unfold countryUnits, pieces; by destruct r).
  specialize (Hat c). rewrite E. cbn [fst]. set (out := (attribute _ _ _ _ _).1.1) in *. rewrite Z.add_0_l.
  unfold at_ in Hat at 2. rewrite lookup_empty in Hat. cbn [default from_option] in Hat.
  rewrite Z.add_0_l, Hsel in Hat. rewrite Eu.
  unfold share_of. rewrite (cnt_ext _ _ _ _ (fun u _ => country_at_spec (fam p) c u)). rewrite cnt_or.
  2:{ intros u _ Hex. apply andb_false_iff. right. apply negb_false_iff. apply existsb_exists in Hex as (x & Hx & Cx).
      btrue. apply existsb_exists. eauto. }
  rewrite <- Hat. clear Hat.
  assert (cnt (fun u => bool_decide (unknownCountry = c) && negb (existsb (fun x => true && covers_unit (rng_Prefix x) (fam p) u) records))
    (ulo p) (usize p) = if bool_decide (unknownCountry = c) then usize p - piece_sum (fun _ => true) (pieces p) else 0) as ->.
  { case_bool_decide; simpl; [rewrite cnt_neg by done; by rewrite Hall | by apply cnt_false]. }
  assert (0 <= piece_sum (fun _ => true) (pieces p)) as Hn by (rewrite Hall; apply cnt_nonneg).
  assert (0 <= at_ c out <= piece_sum (fun _ => true) (pieces p)) as Ho.
  { destruct (attribute_spec (units p) (pieces p) ∅ 0 names) as (nm & _ & Hat);
      [lia | lia | lia | intros c'; unfold at_; rewrite lookup_empty; simpl; lia |].
    unfold out. rewrite Hat. unfold at_ at 1 2. rewrite lookup_empty. simpl. rewrite Hsel, Hall.
    split; [apply cnt_nonneg|]. apply cnt_le. intros u _ (x & Hx & Cx)%existsb_exists. btrue. apply existsb_exists. eauto. }
  destruct (_ <? _) eqn:El; btrue.
  - rewrite at_add. unfold uint64.
    repeat case_bool_decide; try congruence; rewrite ?(Z.mod_small (usize p - _)) by lia; rewrite ?Z.mod_small by lia; lia.
  - case_bool_decide; lia.
Qed.
End Attribution.

(** * The sweep *)
Lemma prefix_le_val p q : fam p = fam q -> prefix_le p q ->
  addr_val (pfx_addr p) <= addr_val (pfx_addr q) /\
  (addr_val (pfx_addr p) = addr_val (pfx_addr q) -> pfx_bits p <= pfx_bits q).
Proof.
  unfold prefix_le, prefix_less, addr_Less, fam, BitLen. intros Ef H. rewrite Ef, Z.eqb_refl, Z.ltb_irrefl in H. simpl in H.
  destruct (decide (pfx_addr q = pfx_addr p)) as [E|E].
  - rewrite bool_decide_true in H by done. btrue. rewrite E. lia.
  - rewrite bool_decide_false in H by done. btrue. split; [done|]. intros Ev. destruct E.
    destruct (pfx_addr p), (pfx_addr q). simpl in *. by subst.
Qed.

(** In sweep order a prefix is inside an earlier one or behind it. *)
Lemma covers_cases top p : masked_prefix top -> masked_prefix p -> fam top = fam p -> prefix_le top p ->
  if covers top p then ulo top <= ulo p /\ uhi p <= uhi top else uhi top <= ulo p.
Proof.
  intros Ht Hp Ef Hle. destruct (prefix_le_val top p Ef Hle) as [Hv Hb]. destruct (covers top p) eqn:E.
  - unfold covers in E. btrue. by apply (nested_units top p).
  - apply uhi_ulo; [done..|]. apply Z.nlt_ge. intros Hlt. unfold covers in E. apply andb_false_iff in E.
    assert (Contains top (pfx_addr p) = true) as Hc.
    { apply Contains_range; [apply Ht|]. rewrite masked_lo by done. done. }
    destruct E as [E|E]; [congruence|]. btrue.
    assert (Contains p (pfx_addr top) = true) as Hc'.
    { rewrite <- Overlaps_nested by (try apply Hp; try apply Ht; lia). rewrite Overlaps_sym by (try apply Hp; try apply Ht).
      apply Overlaps_iff; [apply Ht | apply Hp |]. exists (pfx_addr p). split; [done | apply Contains_self]. }
    apply (Contains_range p _ (proj1 Hp)) in Hc' as [_ [Hc' _]]. rewrite masked_lo in Hc' by done. lia.
Qed.

Lemma at_subtract c o e : 0 <= at_ c o -> 0 <= at_ c e -> at_ c (subtract o e) = Z.max 0 (at_ c e - at_ c o).
Proof.
  unfold at_, subtract. rewrite lookup_merge. intros Ho He. destruct (o !! c) as [u|], (e !! c) as [h|]; simpl in *;
    try (destruct (_ <? _) eqn:E; btrue; simpl); lia.
Qed.

Lemma sum_take_alter {A} (g : A -> Z) f l : forall t i e, l !! t = Some e -> (t < i)%nat ->
  sumZ g (take i (alter f t l)) = sumZ g (take i l) - g e + g (f e).
Proof.
  induction l as [|x l IH]; intros [|t] [|i] e E Hlt; try done; try lia.
  - simpl in E. injection E as ->. change (alter f 0%nat (e :: l)) with (f e :: l).
    rewrite !firstn_cons, !sumZ_cons. lia.
  - change (alter f (S t) (x :: l)) with (x :: alter f t l). rewrite !firstn_cons, !sumZ_cons.
    rewrite (IH t i e) by (done || lia). lia.
Qed.

Lemma sumZ_app {A} (g : A -> Z) l l' : sumZ g (l ++ l') = sumZ g l + sumZ g l'.
Proof. induction l as [|x l IH]; [done|]. rewrite <- app_comm_cons, !sumZ_cons. lia. Qed.

Section Sweep.
Context (records : list Range).
Context (f : family) (sorted : list prefix) (own : list (gmap string Z)) (c : string).
Hypothesis all_masked : forall p, In p sorted -> masked_prefix p /\ fam p = f.
Hypothesis in_order : StronglySorted prefix_le sorted.
Hypothesis own_spec : Forall2 (fun p m => at_ c m = share_of records c p) sorted own.

Definition label (u : Z) : bool := bool_decide (country_at records f u = c).
Definition between (a b : Z) : Z := cnt label a (b - a).
Definition covered (ps : list prefix) (u : Z) : bool := existsb (fun p => covers_unit p f u) ps.

Lemma share_between p : In p sorted -> share_of records c p = between (ulo p) (uhi p).
Proof. intros [_ Ef]%all_masked. unfold share_of, between, uhi, label. rewrite Ef. by replace (ulo p + usize p - ulo p) with (usize p) by lia. Qed.

Lemma between_split a b d : a <= b <= d -> between a d = between a b + between b d.
Proof. intros H. unfold between. replace (d - a) with ((b - a) + (d - b)) by lia. rewrite cnt_split by lia. by replace (a + (b - a)) with b by lia. Qed.

Lemma between_nonneg a b : 0 <= between a b.
Proof. apply cnt_nonneg. Qed.

Lemma between_later a b d : a <= b -> between b d <= between a d.
Proof.
  intros H. destruct (Z.le_gt_cases b d).
  - rewrite (between_split a b d) by lia. pose proof (between_nonneg a b). lia.
  - unfold between at 1. rewrite cnt_nil by lia. apply between_nonneg.
Qed.

(** What the stack promises: an element has at least the labelled units from
    the sweep position (or the end of the element above it) to its own end
    left to give away. *)
Fixpoint StackOK (excl : list (gmap string Z)) (bound : nat) (y : Z) (stack : list nat) : Prop :=
  match stack with
  | [] => True
  | t :: rest => exists p e, sorted !! t = Some p /\ excl !! t = Some e /\ (t < bound)%nat /\ ulo p <= y /\
      between y (uhi p) <= at_ c e /\ StackOK excl t (uhi p) rest
  end.

Lemma StackOK_weaken excl b b' y y' stack : (b <= b')%nat -> y <= y' ->
  StackOK excl b y stack -> StackOK excl b' y' stack.
Proof.
  destruct stack as [|t rest]; [done|]. intros Hb Hy (p & e & H1 & H2 & H3 & H4 & H5 & H6). exists p, e.
  split_and!; try done; try lia. pose proof (between_later y y' (uhi p) Hy). lia.
Qed.

Lemma StackOK_alter g t excl b y stack : (b <= t)%nat -> StackOK excl b y stack -> StackOK (alter g t excl) b y stack.
Proof.
  revert b y. induction stack as [|s rest IH]; [done|]. intros b y Hb (p & e & H1 & H2 & H3 & H4 & H5 & H6).
  exists p, e. split_and!; try done; [|apply IH; [lia | done]].
  rewrite list_lookup_alter_ne by lia. done.
Qed.

Lemma pop_spec excl p stack : forall b y, StackOK excl b y stack -> y <= ulo p ->
  masked_prefix p -> fam p = f ->
  (forall t top, t ∈ stack -> sorted !! t = Some top -> prefix_le top p) ->
  StackOK excl b (ulo p) (pop sorted p stack) /\
  (forall t top, t ∈ stack -> sorted !! t = Some top -> t ∈ pop sorted p stack \/ uhi top <= ulo p) /\
  (forall t rest top, pop sorted p stack = t :: rest -> sorted !! t = Some top -> ulo top <= ulo p /\ uhi p <= uhi top).
Proof.
  induction stack as [|t rest IH]; intros b y Hok Hy Hp Hf Hle; [split_and!; simpl; set_solver|].
  destruct Hok as (top & e & H1 & H2 & H3 & H4 & H5 & H6). cbn [pop]. rewrite H1.
  assert (masked_prefix top /\ fam top = f) as [Ht Hft] by (by apply all_masked, list_elem_of_In, list_elem_of_lookup_2 with t).
  pose proof (covers_cases top p Ht Hp ltac:(congruence) (Hle t top ltac:(set_solver) H1)) as Hc.
  destruct (covers top p).
  - split_and!.
    + apply (StackOK_weaken excl b b y); [lia | done |]. exists top, e. split_and!; done.
    + auto.
    + intros t' rest' top' E E'. simplify_eq. done.
  - destruct (IH t (uhi top)) as (I1 & I2 & I3); [done | lia | done | done | set_solver |]. split_and!.
    + apply (StackOK_weaken excl t b (ulo p)); [lia | lia | done].
    + intros t' top' [->|Hin]%elem_of_cons E; [right; congruence | by apply I2].
    + done.
Qed.

Lemma covers_unit_sorted p u : In p sorted -> 0 <= u < 2 ^ unit_bits f ->
  covers_unit p f u = true <-> ulo p <= u < uhi p.
Proof. intros [Hm Hf]%all_masked Hu. rewrite covers_unit_range by done. naive_solver. Qed.

Definition total (ps : list prefix) : Z := cnt (fun u => label u && covered ps u) 0 (2 ^ unit_bits f).

(** Adding a prefix behind everything swept so far. *)
Lemma total_disjoint ps p : In p sorted -> (forall q, In q ps -> In q sorted /\ uhi q <= ulo p) ->
  total (ps ++ [p]) = total ps + share_of records c p.
Proof.
  intros Hp Hd. destruct (all_masked p Hp) as [Hm Hf]. destruct (ulo_bounds p Hm) as [Hl Hh]. rewrite Hf in Hh.
  unfold total. rewrite (cnt_ext _ (fun u => (label u && covered ps u) || (label u && covers_unit p f u))).
  - rewrite cnt_or.
    + f_equal. rewrite (cnt_sub label _ _ _ (ulo p) (usize p)).
      * unfold share_of, label. by rewrite Hf.
      * lia.
      * apply usize_nonneg.
      * unfold uhi in Hh. lia.
      * intros u Hu. rewrite covers_unit_sorted by (done || lia). unfold uhi. done.
    + intros u Hu Hc. apply andb_false_iff. right. apply not_true_iff_false. rewrite covers_unit_sorted by (done || lia).
      apply andb_true_iff in Hc as [_ (q & Hq & Cq)%existsb_exists]. destruct (Hd q Hq) as [Hin Hle].
      apply covers_unit_sorted in Cq; [lia | done | lia].
  - intros u _. unfold covered. rewrite existsb_app. simpl. rewrite orb_false_r. by destruct (label u).
Qed.

(** Adding a prefix inside one already swept. *)
Lemma total_nested ps top p : In p sorted -> In top sorted -> In top ps ->
  ulo top <= ulo p -> uhi p <= uhi top -> total (ps ++ [p]) = total ps.
Proof.
  intros Hp Ht Hin H1 H2. unfold total. apply cnt_ext. intros u Hu. f_equal. unfold covered.
  rewrite existsb_app. simpl. rewrite orb_false_r. destruct (covers_unit p f u) eqn:E; [|by rewrite orb_false_r].
  rewrite orb_true_r. symmetry. apply existsb_exists. exists top. split; [done|].
  apply covers_unit_sorted in E; [|done|lia]. apply covers_unit_sorted; [done|lia|lia].
Qed.

(** The state of the sweep after the prefixes [done_], the last of which
    starts at unit [y]. *)
Record SweepInv (done_ : list prefix) (stack : list nat) (excl : list (gmap string Z)) (y : Z) : Prop := {
  sw_length : length excl = length sorted;
  sw_own : forall j, (length done_ <= j)%nat -> excl !! j = own !! j;
  sw_nonneg : forall e, In e excl -> 0 <= at_ c e;
  sw_stack : StackOK excl (length done_) y stack;
  sw_behind : forall j q, (j < length done_)%nat -> sorted !! j = Some q -> j ∈ stack \/ uhi q <= y;
  sw_sum : sumZ (at_ c) (take (length done_) excl) = total done_
}.

Lemma StackOK_below excl stack : forall i y, StackOK excl i y stack -> forall t, t ∈ stack -> (t < i)%nat.
Proof.
  induction stack as [|s rest IHs]; intros i y Hok t Ht; [set_solver|].
  destruct Hok as (? & ? & _ & _ & Hlt & _ & _ & Hrest). apply elem_of_cons in Ht as [->|Ht]; [done|].
  pose proof (IHs _ _ Hrest t Ht). lia.
Qed.

(** The next prefix: its place, its counts, and the order around it. *)
Lemma next_prefix done_ p todo : sorted = done_ ++ p :: todo ->
  sorted !! length done_ = Some p /\ In p sorted /\
  (exists m, own !! length done_ = Some m /\ at_ c m = share_of records c p) /\
  (forall j q, (j < length done_)%nat -> sorted !! j = Some q -> prefix_le q p) /\
  (forall q, In q todo -> ulo p <= ulo q).
Proof using all_masked in_order own_spec.
  intros Es. assert (sorted !! length done_ = Some p) as Ep by (rewrite Es; by apply list_lookup_middle).
  assert (In p sorted) as Hp by (rewrite Es; apply in_app_iff; right; by left).
  split_and!; [done | done | | |].
  - destruct (Forall2_lookup_l _ _ _ _ _ own_spec Ep) as (m & Em & Hm'). eauto.
  - intros j q Hj Eq. rewrite Es in in_order. rewrite Es, lookup_app_l in Eq by lia.
    apply StronglySorted_app in in_order as (Hcross & _ & _). apply Hcross; [|set_solver].
    by eapply list_elem_of_lookup_2.
  - intros q Hq. assert (In q sorted) as Hqs by (rewrite Es; apply in_app_iff; right; by right).
    destruct (all_masked p Hp) as [_ Hf]. destruct (all_masked q Hqs) as [_ Hfq].
    rewrite Es in in_order. apply StronglySorted_app in in_order as (_ & _ & Hs). inversion Hs as [|? ? _ Hall]; subst.
    rewrite Forall_forall in Hall. specialize (Hall q (proj2 (list_elem_of_In _ _) Hq)).
    apply ulo_mono; [congruence|]. apply (prefix_le_val p q ltac:(congruence) Hall).
Qed.

(** A prefix with nothing above it on the stack. *)
Lemma step_root done_ p stack excl y m :
  SweepInv done_ stack excl y -> sorted !! length done_ = Some p -> In p sorted ->
  (forall q, In q done_ -> In q sorted) -> (forall j, (j < length done_)%nat -> sorted !! j = done_ !! j) ->
  own !! length done_ = Some m -> at_ c m = share_of records c p -> y <= ulo p ->
  (forall j q, j ∈ stack -> sorted !! j = Some q -> uhi q <= ulo p) ->
  SweepInv (done_ ++ [p]) [length done_] excl (ulo p).
Proof.
  intros [Hlen Hown Hnn Hok Hdone Hsum] Ep Hp Hsub Hpre Em Hm' Hy Hpop.
  assert (excl !! length done_ = Some m) as Ei by (by rewrite Hown).
  assert (forall j q, (j < length done_)%nat -> sorted !! j = Some q -> uhi q <= ulo p) as Hall.
  { intros j q Hj Eq. destruct (Hdone j q Hj Eq) as [Hin|Hle]; [by apply (Hpop j) | lia]. }
  split; rewrite ?length_app; simpl length; try done.
  - intros j Hj. apply Hown. lia.
  - exists p, m. split_and!; try done; try lia. rewrite <- share_between by done. lia.
  - intros j q Hj Eq. destruct (decide (j = length done_)) as [->|]; [left; set_solver|]. right. apply (Hall j); [lia | done].
  - rewrite Nat.add_1_r, (take_S_r _ _ m), sumZ_app, Hsum by done. rewrite total_disjoint; [|done|].
    + unfold sumZ. simpl. rewrite Hm'. lia.
    + intros q Hq. split; [by apply Hsub|].
      apply list_elem_of_In, list_elem_of_lookup in Hq as [j Hj]. pose proof (lookup_lt_Some _ _ _ Hj).
      apply (Hall j); [lia|]. by rewrite Hpre.
Qed.

(** A prefix inside the one on top of the stack. *)
Lemma step_nested done_ p stack t rest top excl y m :
  SweepInv done_ stack excl y -> sorted !! length done_ = Some p -> In p sorted ->
  (forall j, (j < length done_)%nat -> sorted !! j = done_ !! j) ->
  own !! length done_ = Some m -> at_ c m = share_of records c p -> y <= ulo p ->
  (forall j q, j ∈ stack -> sorted !! j = Some q -> j ∈ t :: rest \/ uhi q <= ulo p) ->
  StackOK excl (length done_) (ulo p) (t :: rest) -> sorted !! t = Some top -> uhi p <= uhi top ->
  SweepInv (done_ ++ [p]) (length done_ :: t :: rest) (alter (subtract m) t excl) (ulo p).
Proof.
  intros [Hlen Hown Hnn _ Hdone Hsum] Ep Hp Hpre Em Hm' Hy Hpop (top' & e & Et' & Ee & Hlt & Hlo & Hbt & Hrest) Et Hn2.
  rewrite Et in Et'. injection Et' as <-.
  assert (excl !! length done_ = Some m) as Ei by (by rewrite Hown).
  assert (alter (subtract m) t excl !! length done_ = Some m) as Ei' by (rewrite list_lookup_alter_ne by lia; done).
  pose proof (usize_nonneg p) as Hs. assert (ulo p <= uhi p) as Hlh by (unfold uhi; lia).
  rewrite (between_split (ulo p) (uhi p)), <- share_between in Hbt by (done || lia).
  pose proof (between_nonneg (uhi p) (uhi top)) as Hb0. assert (0 <= share_of records c p) as Hshare by apply cnt_nonneg.
  assert (at_ c (subtract m e) = at_ c e - share_of records c p) as Hsub by (rewrite at_subtract; rewrite ?Hm'; lia).
  split; rewrite ?length_app; simpl length.
  - by rewrite length_alter.
  - intros j Hj. rewrite list_lookup_alter_ne by lia. apply Hown. lia.
  - intros e' He'. apply list_elem_of_In, list_elem_of_lookup in He' as [j Hj].
    destruct (decide (j = t)) as [->|Hjt].
    + rewrite list_lookup_alter_eq, Ee in Hj. simpl in Hj. injection Hj as <-. lia.
    + rewrite list_lookup_alter_ne in Hj by done. apply Hnn. by apply list_elem_of_In, list_elem_of_lookup_2 with j.
  - exists p, m. split_and!; try done; try lia; [rewrite <- share_between by done; lia|].
    exists top, (subtract m e). rewrite list_lookup_alter_eq, Ee. split_and!; try done; try lia.
    by apply StackOK_alter.
  - intros j q Hj Eq. destruct (decide (j = length done_)) as [->|]; [left; set_solver|].
    destruct (Hdone j q ltac:(lia) Eq) as [Hin|Hle]; [|right; lia].
    destruct (Hpop j q Hin Eq) as [Hb|]; [left; set_solver | by right].
  - rewrite Nat.add_1_r, (take_S_r _ _ m), sumZ_app by done. rewrite (sum_take_alter _ _ _ _ _ e) by done.
    rewrite Hsum, (total_nested done_ top p); try done.
    + unfold sumZ. simpl. rewrite Hm'. lia.
    + by apply list_elem_of_In, list_elem_of_lookup_2 with t.
    + rewrite Hpre in Et by done. by apply list_elem_of_In, list_elem_of_lookup_2 with t.
Qed.

Lemma sweep_spec todo : forall done_ stack excl y,
  sorted = done_ ++ todo -> SweepInv done_ stack excl y -> (forall p, In p todo -> y <= ulo p) ->
  sumZ (at_ c) (sweep sorted own (length done_) todo stack excl) = total sorted.
Proof using all_masked in_order own_spec.
  induction todo as [|p todo IH]; intros done_ stack excl y Es Hinv Hy.
  { rewrite app_nil_r in Es. subst done_. simpl. rewrite <- (sw_sum _ _ _ _ Hinv). rewrite take_ge; [done|].
    by rewrite (sw_length _ _ _ _ Hinv). }
  destruct (next_prefix done_ p todo Es) as (Ep & Hp & (m & Em & Hm') & Hbefore & Hafter).
  destruct (all_masked p Hp) as [Hm Hf]. assert (y <= ulo p) as Hyp by (apply Hy; by left).
  assert (forall j, (j < length done_)%nat -> sorted !! j = done_ !! j) as Hpre by (intros j Hj; by rewrite Es, lookup_app_l).
  destruct (pop_spec excl p stack (length done_) y (sw_stack _ _ _ _ Hinv) Hyp Hm Hf) as (Hok' & Hpop & Htop).
  { intros t top Ht. apply Hbefore. by apply (StackOK_below _ _ _ _ (sw_stack _ _ _ _ Hinv)). }
  assert (length (done_ ++ [p]) = S (length done_)) as El by (rewrite length_app; simpl; lia).
  cbn [sweep]. rewrite <- El. destruct (pop sorted p stack) as [|t rest] eqn:Epop.
  - apply (IH (done_ ++ [p]) _ _ (ulo p)); [by rewrite <- app_assoc | | done].
    apply (step_root done_ p stack excl y m); try done.
    + intros q Hq. rewrite Es. apply in_app_iff. by left.
    + intros j q Hj Eq. by destruct (Hpop j q Hj Eq) as [?%elem_of_nil|].
  - rewrite Em. apply (IH (done_ ++ [p]) _ _ (ulo p)); [by rewrite <- app_assoc | | done].
    destruct Hok' as (top & e & Et & Hrest).
    apply (step_nested done_ p stack t rest top excl y m); try done.
    + exists top, e. done.
    + by apply (Htop t rest top).
Qed.
End Sweep.

Section Exclusive.
Context (r : option (prefix -> list Range)) (records : list Range) {geo : GeoRecords r records}.

Definition countable (f : family) (p : prefix) : Prop := masked_prefix p /\ fam p = f /\ 1 <= pfx_bits p.

Lemma own_units_spec sorted : forall names, (forall p, In p sorted -> masked_prefix p /\ 1 <= pfx_bits p) ->
  Forall2 (fun p m => forall c, at_ c m = share_of records c p) sorted (own_units sorted r names).1.
Proof using geo.
  induction sorted as [|p sorted IH]; intros names H; [constructor|]. cbn [own_units].
  destruct (countryUnits p r names) as [m names1] eqn:E1. destruct (own_units sorted r names1) as [ms names2] eqn:E2. simpl.
  constructor.
  - intros c. destruct (H p (or_introl eq_refl)). rewrite <- (countryUnits_spec r records p names) by done. by rewrite E1.
  - specialize (IH names1 (fun q Hq => H q (or_intror Hq))). by rewrite E2 in IH.
Qed.

(** The units of country [c] under at least one of the prefixes. *)
Definition space_of (f : family) (c : string) (ps : list prefix) : Z :=
  cnt (fun u => bool_decide (country_at records f u = c) && existsb (fun p => covers_unit p f u) ps) 0 (2 ^ unit_bits f).

#[local] Instance prefix_le_trans : Transitive prefix_le.
Proof.
  intros p q s. unfold prefix_le, prefix_less, addr_Less. intros H1 H2.
  destruct (decide (pfx_addr q = pfx_addr p)) as [E1|E1], (decide (pfx_addr s = pfx_addr q)) as [E2|E2].
  - rewrite !bool_decide_true in * by congruence. btrue. apply Z.ltb_ge. lia.
  - rewrite (bool_decide_false (pfx_addr s = pfx_addr q)) in H2 by done. rewrite bool_decide_false by congruence.
    by rewrite <- E1.
  - rewrite (bool_decide_false (pfx_addr q = pfx_addr p)) in H1 by done. rewrite bool_decide_false by congruence.
    by rewrite E2.
  - rewrite (bool_decide_false (pfx_addr s = pfx_addr q)) in H2 by done.
    rewrite (bool_decide_false (pfx_addr q = pfx_addr p)) in H1 by done.
    apply orb_false_iff in H1 as [A1 B1], H2 as [A2 B2]. apply andb_false_iff in B1, B2. btrue.
    assert (BitLen (pfx_addr p) <= BitLen (pfx_addr q) <= BitLen (pfx_addr s)) as Hb by lia.
    rewrite bool_decide_false.
    + apply orb_false_iff. split; [apply Z.ltb_ge; lia|]. apply andb_false_iff.
      destruct B1 as [B1|B1]; btrue; [left; apply Z.eqb_neq; lia|].
      destruct B2 as [B2|B2]; btrue; [left; apply Z.eqb_neq; lia|]. right. apply Z.ltb_ge. lia.
    + intros E. rewrite E in *. destruct B1 as [B1|B1]; btrue; [lia|]. destruct B2 as [B2|B2]; btrue; [lia|].
      apply E1. destruct (pfx_addr p) as [f1 v1], (pfx_addr q) as [f2 v2]. simpl in *.
      assert (v1 = v2) as -> by lia. f_equal. unfold BitLen in Hb. simpl in Hb. destruct f1, f2; done || lia.
Qed.

#[local] Instance prefix_le_total : Total prefix_le.
Proof.
  intros p q. unfold prefix_le, prefix_less, addr_Less.
  destruct (decide (pfx_addr q = pfx_addr p)) as [E1|E1].
  - rewrite !bool_decide_true by congruence.
    destruct (Z.le_ge_cases (pfx_bits p) (pfx_bits q)); [left | right]; apply Z.ltb_ge; lia.
  - rewrite !bool_decide_false by congruence.
    destruct (Z.lt_trichotomy (BitLen (pfx_addr p)) (BitLen (pfx_addr q))) as [H|[H|H]].
    + left. apply orb_false_iff. split; [apply Z.ltb_ge; lia|]. apply andb_false_iff. left. apply Z.eqb_neq. lia.
    + rewrite H, Z.ltb_irrefl, Z.eqb_refl. simpl.
      destruct (Z.le_ge_cases (addr_val (pfx_addr p)) (addr_val (pfx_addr q))); [left | right]; apply Z.ltb_ge; lia.
    + right. apply orb_false_iff. split; [apply Z.ltb_ge; lia|]. apply andb_false_iff. left. apply Z.eqb_neq. lia.
Qed.

Lemma exclusive_total f prefixes names c :
  (forall p, In p prefixes -> countable f p) ->
  sumZ (at_ c) (exclusiveUnits prefixes r names).1.2 = space_of f c prefixes /\
  length (exclusiveUnits prefixes r names).1.1 = length (exclusiveUnits prefixes r names).1.2.
Proof using geo.
  intros H. unfold exclusiveUnits. set (sorted := merge_sort prefix_le prefixes).
  assert (sorted ≡ₚ prefixes) as Hperm by apply merge_sort_Permutation.
  assert (forall p, In p sorted -> countable f p) as Hs.
  { intros p Hp. apply H. by rewrite <- list_elem_of_In, <- Hperm, list_elem_of_In. }
  pose proof (own_units_spec sorted names) as Hown. destruct (own_units sorted r names) as [own names'] eqn:E. simpl in *.
  specialize (Hown (fun p Hp => conj (proj1 (Hs p Hp)) (proj2 (proj2 (Hs p Hp))))).
  assert (Forall2 (fun p m => at_ c m = share_of records c p) sorted own) as Hc by (eapply Forall2_impl; [exact Hown | naive_solver]).
  assert (StronglySorted prefix_le sorted) as Hord by (apply StronglySorted_merge_sort; apply _).
  assert (SweepInv records f sorted own c [] [] own 0) as Hinv.
  { split; simpl; try done; [by rewrite (Forall2_length _ _ _ Hc) | | lia |].
    - intros e He. apply list_elem_of_In, list_elem_of_lookup in He as [i Hi].
      destruct (Forall2_lookup_r _ _ _ _ _ Hc Hi) as (p & _ & ->). apply cnt_nonneg.
    - unfold total. rewrite cnt_false; [done|]. intros u _. apply andb_false_r. }
  split.
  - change 0%nat with (length (@nil prefix)).
    rewrite (sweep_spec records f sorted own c (fun p Hp => conj (proj1 (Hs p Hp)) (proj1 (proj2 (Hs p Hp)))) Hord Hc
      sorted [] [] own 0 eq_refl Hinv).
    + unfold total, space_of, label, covered. apply cnt_ext. intros u _. f_equal. apply existsb_same.
      intros p. by rewrite <- !list_elem_of_In, Hperm.
    + intros p Hp. apply ulo_bounds. by apply Hs.
  - clear. generalize 0%nat (@nil nat). enough (forall todo i stack excl, length (sweep sorted own i todo stack excl) = length excl)
      as Hl by (intros; by rewrite Hl).
    induction todo as [|p todo IH]; intros i stack excl; [done|]. cbn [sweep]. rewrite IH.
    destruct (pop sorted p stack); [done | by rewrite length_alter].
Qed.
End Exclusive.

Lemma sum_key {K V} `{Countable K} (g : V -> Z) (k : K) (m : gmap K V) :
  sumZ (fun kv : K * V => if bool_decide (kv.1 = k) then g kv.2 else 0) (map_to_list m) = from_option g 0 (m !! k).
Proof.
  induction m as [|k' v m Hk IH] using map_ind; [by rewrite map_to_list_empty|].
  rewrite (sumZ_perm _ _ _ (map_to_list_insert m k' v Hk)), sumZ_cons, IH. cbn [fst snd].
  case_bool_decide; subst; [rewrite lookup_insert_eq, Hk; simpl; lia | rewrite lookup_insert_ne by done; lia].
Qed.

Lemma byProvider_spec rows k : forall p,
  p ∈ default ∅ (byProvider rows !! k) <->
  exists row, In row rows /\ row_provider row <> ""%string /\
    k = (row_provider row, Is6 (pfx_addr (row_prefix row))) /\ p = Masked (row_prefix row).
Proof.
  induction rows as [|row rows IH] using rev_ind; intros p; [simpl; set_solver|].
  unfold byProvider in *. rewrite foldl_app. simpl. set (m := foldl _ ∅ rows) in *.
  case_bool_decide as E.
  - rewrite IH. setoid_rewrite in_app_iff. split; [intros (row' & ? & ? & ? & ?); exists row'; eauto 6|]. intros (row' & [?|[<-|[]]] & ? & ? & ?); [eauto 6 | done].
  - destruct (decide (k = (row_provider row, Is6 (pfx_addr (row_prefix row))))) as [->|Hne].
    + rewrite lookup_insert_eq. simpl. rewrite elem_of_union, elem_of_singleton, IH. setoid_rewrite in_app_iff. split.
      * intros [->|(row' & ? & ? & ? & ?)]; [exists row; simpl; eauto 6 | exists row'; eauto 6].
      * intros (row' & [?|[<-|[]]] & ? & ? & ?); [right; eauto 6 | by left].
    + rewrite lookup_insert_ne by done. rewrite IH. setoid_rewrite in_app_iff. split; [intros (row' & ? & ? & ? & ?); exists row'; eauto 6|].
      intros (row' & [?|[<-|[]]] & ? & ? & ?); [eauto 6 | done].
Qed.
(** * Accumulation *)
Section Accumulate.
Context {mo : MapOrder} {mol : MapOrderLaws}.

Definition space (v6 : bool) (s : CountryStat) : Z := if v6 then IPv6Net64s s else IPv4Addresses s.
(** The recorded space of a country, zero when it has no entry. *)
Definition recorded (v6 : bool) (c : string) (stats : gmap string CountryStat) : Z :=
  match stats !! c with Some s => space v6 s | None => 0 end.

Lemma uint64_range z : 0 <= uint64 z < 2 ^ 64.
Proof. apply Z.mod_pos_bound. done. Qed.

Lemma uint64_add z u : uint64 (uint64 z + u) = uint64 (z + u).
Proof. apply Z.add_mod_idemp_l. done. Qed.

Lemma space_stat names stats v6 c : space v6 (stat names stats c) = recorded v6 c stats.
Proof. unfold stat, recorded. destruct (stats !! c); [done|]. destruct (names !! c), v6; done. Qed.

Lemma recorded_insert v6 c c' s stats :
  recorded v6 c (<[c' := s]> stats) = if bool_decide (c = c') then space v6 s else recorded v6 c stats.
Proof. unfold recorded. case_bool_decide; [subst; by rewrite lookup_insert_eq | by rewrite lookup_insert_ne]. Qed.

Lemma add_space_fold names v6 w c l : forall stats,
  uint64 (recorded w c (foldl (fun stats '(code, u) =>
     if u =? 0 then stats else <[code := add_space v6 u (stat names stats code)]> stats) stats l)) =
  uint64 (recorded w c stats + (if eqb w v6 then sumZ (fun kv : string * Z => if bool_decide (kv.1 = c) then kv.2 else 0) l else 0)).
Proof.
  induction l as [|[code u] l IH]; intros stats; [simpl; destruct (eqb w v6); by rewrite Z.add_0_r|].
  cbn [foldl]. rewrite IH, sumZ_cons. cbn [fst snd]. clear IH. set (t := sumZ _ l). destruct (u =? 0) eqn:E; btrue.
  - subst. destruct (eqb w v6); [|done]. do 2 f_equal. case_bool_decide; lia.
  - rewrite recorded_insert. destruct (eqb w v6) eqn:Ew.
    + apply eqb_prop in Ew as ->. repeat case_bool_decide; subst; try congruence.
      * rewrite <- (space_stat names stats v6 code). unfold space, add_space.
        destruct v6; simpl; rewrite uint64_add; f_equal; lia.
      * f_equal; lia.
    + case_bool_decide; [|done]. subst. rewrite <- (space_stat names stats w code). unfold space, add_space.
      destruct w, v6; done.
Qed.

Lemma add_prefix_fold names v6 w c (l : list (string * Z)) : forall stats,
  recorded w c (foldl (fun stats '(code, _) => <[code := add_prefix v6 (stat names stats code)]> stats) stats l) =
  recorded w c stats.
Proof.
  induction l as [|[code u] l IH]; intros stats; [done|]. cbn [foldl]. rewrite IH, recorded_insert.
  case_bool_decide; [|done]. subst. rewrite <- (space_stat names stats w code). unfold space, add_prefix. by destruct w.
Qed.

Lemma sum_entries c (m : gmap string Z) :
  sumZ (fun kv : string * Z => if bool_decide (kv.1 = c) then kv.2 else 0) (map_to_list m) = at_ c m.
Proof.
  induction m as [|k u m Hk IH] using map_ind; [by rewrite map_to_list_empty|].
  rewrite (sumZ_perm _ _ _ (map_to_list_insert m k u Hk)), sumZ_cons, IH. cbn [fst snd]. unfold at_.
  case_bool_decide; subst; [rewrite lookup_insert_eq, Hk; simpl; lia | rewrite lookup_insert_ne by done; lia].
Qed.

Lemma count_prefix_space names v6 w c stats eo :
  uint64 (recorded w c (count_prefix names v6 stats eo)) =
  uint64 (recorded w c stats + (if eqb w v6 then at_ c eo.1 else 0)).
Proof using mol.
  unfold count_prefix. rewrite add_prefix_fold, add_space_fold, (sumZ_perm _ _ _ (shuffle_perm _)). by rewrite sum_entries.
Qed.

Lemma count_prefixes_space names v6 w c l : forall stats,
  uint64 (recorded w c (foldl (count_prefix names v6) stats l)) =
  uint64 (recorded w c stats + (if eqb w v6 then sumZ (at_ c) l.*1 else 0)).
Proof using mol.
  induction l as [|eo l IH]; intros stats; [simpl; destruct (eqb w v6); by rewrite Z.add_0_r|].
  cbn [foldl fmap list_fmap]. rewrite sumZ_cons, IH, <- uint64_add, count_prefix_space, uint64_add. f_equal. destruct (eqb w v6); lia.
Qed.

Definition recorded_at (v6 : bool) (provider c : string) (out : gmap string (gmap string CountryStat)) : Z :=
  recorded v6 c (default ∅ (out !! provider)).

Lemma fst_zip_same {A B} (l : list A) (k : list B) : length k = length l -> (zip l k).*1 = l.
Proof. intros H. apply fst_zip. lia. Qed.

Context (r : option (prefix -> list Range)) (records : list Range) {geo : GeoRecords r records}.
Definition family_of (v6 : bool) : family := if v6 then V6 else V4.

Lemma distribute_key_space acc k set w provider c :
  (forall p, p ∈ set -> countable (family_of k.2) p) ->
  uint64 (recorded_at w provider c (distribute_key r acc (k, set)).1) =
  uint64 (recorded_at w provider c acc.1 +
    (if bool_decide (k = (provider, w)) then space_of records (family_of w) c (elements set) else 0)).
Proof using mol geo.
  intros Hset. destruct acc as [out names], k as [prov v6]. unfold distribute_key, recorded_at. cbn [fst snd] in *.
  destruct (exclusiveUnits (shuffle (elements set)) r names) as [[own excl] names'] eqn:E. simpl.
  assert (shuffle (elements set) ≡ₚ elements set) as Hperm by apply shuffle_perm.
  destruct (exclusive_total r records (family_of v6) (shuffle (elements set)) names c) as [Ht Hl].
  { intros p Hp. apply Hset. rewrite <- list_elem_of_In, Hperm in Hp. by apply elem_of_elements. }
  rewrite E in Ht, Hl. simpl in Ht, Hl.
  destruct (decide (prov = provider)) as [->|Hne].
  - rewrite lookup_insert_eq. simpl. rewrite count_prefixes_space, fst_zip_same, Ht by done. f_equal. f_equal.
    assert (bool_decide ((provider, v6) = (provider, w)) = eqb w v6) as ->.
    { destruct (eqb w v6) eqn:Ew; [apply eqb_prop in Ew as ->; by apply bool_decide_eq_true|].
      apply bool_decide_eq_false. intros Eq. simplify_eq. by rewrite eqb_reflx in Ew. }
    destruct (eqb w v6) eqn:Ew; [|done]. apply eqb_prop in Ew as ->. unfold space_of. apply cnt_ext. intros u _. f_equal.
    apply existsb_same. intros p. by rewrite <- !list_elem_of_In, Hperm.
  - rewrite lookup_insert_ne by done. rewrite bool_decide_false by congruence. f_equal. lia.
Qed.

Lemma distribute_keys_space ks w provider c : forall acc,
  (forall k set, In (k, set) ks -> forall p, p ∈ set -> countable (family_of k.2) p) ->
  uint64 (recorded_at w provider c (foldl (distribute_key r) acc ks).1) =
  uint64 (recorded_at w provider c acc.1 +
    sumZ (fun ks : (string * bool) * gset prefix =>
      if bool_decide (ks.1 = (provider, w)) then space_of records (family_of w) c (elements ks.2) else 0) ks).
Proof using mol geo.
  induction ks as [|[k set] ks IH]; intros acc H; [by rewrite Z.add_0_r|]. cbn [foldl].
  rewrite IH by (intros ? ? Hin; eapply H; by right). rewrite sumZ_cons. cbn [fst snd].
  rewrite <- uint64_add, distribute_key_space, uint64_add by (eapply H; by left). f_equal. lia.
Qed.

End Accumulate.

(** * Properties *)
Section Properties.
Context {mo : MapOrder} {mol : MapOrderLaws}.
Context (r : option (prefix -> list Range)) (records : list Range) {geo : GeoRecords r records}.

(** Unit [u] is announced by [provider]. *)
Definition announced (rows : list prefixRow) (provider : string) (f : family) (u : Z) : bool :=
  existsb (fun row => bool_decide (row_provider row = provider) && covers_unit (row_prefix row) f u) rows.

Definition rows_ok (rows : list prefixRow) : Prop :=
  forall row, In row rows -> masked_prefix (row_prefix row) /\ IsBogon (row_prefix row) = false.

Definition in_range (stats : gmap string CountryStat) : Prop := forall w c, 0 <= recorded w c stats < 2 ^ 64.

Lemma in_range_space names v6 u stats code : in_range stats ->
  in_range (<[code := add_space v6 u (stat names stats code)]> stats).
Proof.
  intros H w c. rewrite recorded_insert. case_bool_decide; [|apply H]. subst. specialize (H w code).
  rewrite <- (space_stat names) in H. unfold space, add_space in *. destruct w, v6; simpl in *; try done; apply uint64_range.
Qed.

Lemma in_range_prefix names v6 stats code : in_range stats ->
  in_range (<[code := add_prefix v6 (stat names stats code)]> stats).
Proof.
  intros H w c. rewrite recorded_insert. case_bool_decide; [|apply H]. subst. specialize (H w code).
  rewrite <- (space_stat names) in H. unfold space, add_prefix in *. by destruct w.
Qed.

Lemma foldl_keeps {A B} (P : A -> Prop) (g : A -> B -> A) l : forall a, P a -> (forall a b, P a -> P (g a b)) -> P (foldl g a l).
Proof. induction l as [|x l IH]; intros a Ha Hg; [done|]. simpl. apply IH; auto. Qed.

Lemma count_prefix_range names v6 stats eo : in_range stats -> in_range (count_prefix names v6 stats eo).
Proof.
  intros H. unfold count_prefix. apply foldl_keeps.
  - apply foldl_keeps; [done|]. intros s [code u] Hs. destruct (u =? 0); [done | by apply in_range_space].
  - intros s [code u] Hs. by apply in_range_prefix.
Qed.

Lemma distribute_range rows provider : in_range (default ∅ (distribute rows r !! provider)).
Proof.
  unfold distribute. generalize (shuffle (map_to_list (byProvider rows))). intros l.
  assert (forall w c, 0 <= recorded w c ∅ < 2 ^ 64) as H0 by (intros w c; unfold recorded; rewrite lookup_empty; lia).
  apply (foldl_keeps (fun acc => forall provider, in_range (default ∅ (acc.1 !! provider)))).
  { intros q. cbn [fst]. rewrite lookup_empty. exact H0. }
  intros [out names] [[prov v6] set] H q. unfold distribute_key.
  destruct (exclusiveUnits _ _ _) as [[own excl] names']. simpl.
  destruct (decide (prov = q)) as [->|]; [|by rewrite lookup_insert_ne by done; apply H].
  rewrite lookup_insert_eq. simpl. apply foldl_keeps; [apply H|]. intros a b. apply count_prefix_range.
Qed.

Lemma rows_countable rows row : rows_ok rows -> In row rows ->
  countable (family_of (Is6 (pfx_addr (row_prefix row)))) (row_prefix row).
Proof.
  intros H Hin. destruct (H row Hin) as [Hm Hb]. split_and!; [done | | by apply not_bogon_bits; [apply Hm|]].
  unfold fam, family_of, Is6, Is4. by destruct (addr_fam _).
Qed.

(** What a provider announces, by key of the grouping. *)
Lemma group_space rows w provider c : rows_ok rows -> provider <> ""%string ->
  space_of records (family_of w) c (elements (default ∅ (byProvider rows !! (provider, w)))) =
  cnt (fun u => bool_decide (country_at records (family_of w) u = c) && announced rows provider (family_of w) u)
      0 (2 ^ unit_bits (family_of w)).
Proof.
  intros Hok Hp. unfold space_of. apply cnt_ext. intros u Hu. f_equal. unfold announced. apply eq_true_iff_eq.
  rewrite !existsb_exists. split.
  - intros (p & Hin & Hc). rewrite <- list_elem_of_In, elem_of_elements, byProvider_spec in Hin.
    destruct Hin as (row & Hrow & _ & E & ->). simplify_eq. exists row. split; [done|].
    destruct (Hok row Hrow) as [[_ Em] _]. rewrite Em in Hc. by rewrite bool_decide_true.
  - intros (row & Hrow & Hc). btrue. subst. destruct (rows_countable rows row Hok Hrow) as (Hm & Hf & _).
    exists (row_prefix row). split; [|done]. rewrite <- list_elem_of_In, elem_of_elements, byProvider_spec.
    exists row. split_and!; try done; [|by destruct Hm].
    match goal with H : covers_unit _ _ _ = true |- _ => apply covers_unit_range in H as [Hfw _]; [|done|lia] end.
    f_equal. rewrite Hf in Hfw. unfold family_of in Hfw. by destruct (Is6 _), w.
Qed.

(** Announced units fit 64 bits, whatever is announced. *)
Lemma announced_bound rows f provider P : rows_ok rows ->
  cnt (fun u => P u && announced rows provider f u) 0 (2 ^ unit_bits f) <= 2 ^ 61.
Proof.
  intros Hok. destruct f.
  - apply Z.le_trans with (2 ^ 32); [|done]. etrans; [apply (cnt_le _ (fun _ => true)); done|]. rewrite cnt_true; done.
  - etrans.
    { apply (cnt_le _ (fun u => true && covers_unit v6Global V6 u)). intros u Hu Ha. btrue. simpl.
      match goal with H : announced _ _ _ _ = true |- _ => apply existsb_exists in H as (row & Hrow & Hc) end. btrue.
      destruct (Hok row Hrow) as [[Hv _] Hb].
      match goal with H : covers_unit _ _ _ = true |- _ => unfold covers_unit in H end. btrue.
      unfold covers_unit. apply andb_true_iff. split; [done|].
      apply (proj1 (IsBogon_iff _ Hv) Hb (unit_addr V6 u)); done. }
    rewrite (cnt_sub (fun _ => true) _ _ _ (ulo v6Global) (usize v6Global)).
    + assert (usize v6Global = 2 ^ 61) as -> by (vm_compute; reflexivity).
      rewrite (cnt_true (fun _ => true)) by done. lia.
    + vm_compute. discriminate.
    + vm_compute. discriminate.
    + vm_compute. discriminate.
    + intros u Hu. rewrite covers_unit_range; [|split; [apply v6Global_valid | done] | done]. unfold uhi. naive_solver.
Qed.

Lemma distribute_spec rows provider c w :
  rows_ok rows -> provider <> ""%string ->
  recorded_at w provider c (distribute rows r) =
  cnt (fun u => bool_decide (country_at records (family_of w) u = c) && announced rows provider (family_of w) u)
      0 (2 ^ unit_bits (family_of w)).
Proof using mol geo.
  intros Hok Hp. rewrite <- (group_space rows w provider c Hok Hp).
  assert (uint64 (recorded_at w provider c (distribute rows r)) =
    uint64 (space_of records (family_of w) c (elements (default ∅ (byProvider rows !! (provider, w)))))) as E.
  { unfold distribute. rewrite (distribute_keys_space r records _ w provider c).
    - rewrite (sumZ_perm _ _ _ (shuffle_perm _)). f_equal.
      change (recorded_at w provider c (∅, ∅).1) with 0. rewrite Z.add_0_l.
      rewrite (sum_key (fun set => space_of records (family_of w) c (elements set))).
      destruct (byProvider rows !! (provider, w)); [done|]. simpl. rewrite elements_empty. unfold space_of.
      rewrite cnt_false; [done|]. intros u _. apply andb_false_r.
    - intros k set Hin p Hset. rewrite <- list_elem_of_In, shuffle_perm, elem_of_map_to_list in Hin.
      assert (p ∈ default ∅ (byProvider rows !! k)) as Hd by (by rewrite Hin).
      apply byProvider_spec in Hd as (row & Hrow & _ & -> & ->). simpl.
      destruct (Hok row Hrow) as [[_ Em] _]. rewrite Em. by apply (rows_countable rows). }
  unfold uint64 in E. rewrite !Z.mod_small in E; [done | | apply distribute_range].
  split; [apply cnt_nonneg|]. rewrite group_space by done.
  pose proof (announced_bound rows (family_of w) provider (fun u => bool_decide (country_at records (family_of w) u = c)) Hok). lia.
Qed.

(** C4: The country distribution is exact and counts nothing twice.  For every
    provider, country and address family, the space recorded for the country
    is the number of distinct IPv4 addresses (for IPv6: of /64 networks)
    covered by at least one of the provider's announcements and labelled with
    that country by the GeoIP records, however announcements nest or repeat,
    whatever the map iteration order, and without overflow. *)
Theorem distribution_exact rows provider c w :
  rows_ok rows -> provider <> ""%string ->
  recorded_at w provider c (distribute rows r) =
  cnt (fun u => bool_decide (country_at records (family_of w) u = c) && announced rows provider (family_of w) u)
      0 (2 ^ unit_bits (family_of w)).
Proof using mol geo. apply distribute_spec. Qed.
End Properties.

(** * [geo.Enricher] implements the interface

    [db] is the content of the database, [net_of] the network form it reports
    a record in; the traversal is documented to yield the records that lie in
    the queried network or contain it. *)
Lemma omap_cons_Some {A B} (f : A -> option B) x y l : f x = Some y -> omap f (x :: l) = y :: omap f l.
Proof. intros E. simpl. by rewrite E. Qed.

Section Enricher.
Context (db : list (prefix * cityRecord)) (net_of : prefix -> IPNet)
  (networksWithin : prefix -> list (option (IPNet * cityRecord))).
Hypothesis db_valid : forall x, In x db -> masked_prefix x.1 /\ fromIPNet (net_of x.1) = Some x.1.
Hypothesis db_disjoint : ForallOrdPairs (fun x y => Overlaps x.1 y.1 = false) db.
Hypothesis db_traversal : forall p, masked_prefix p ->
  networksWithin p ≡ₚ map (fun x => Some (net_of x.1, x.2)) (select (fun x => Overlaps x.1 p) db).

Definition record_of (x : prefix * cityRecord) : Range := MkRange x.1 (info x.2).

#[export] Instance enricher_records : GeoRecords (Some (Ranges networksWithin)) (map record_of db).
Proof.
  split.
  - intros y (x & <- & Hx)%in_map_iff. by apply db_valid.
  - clear db_traversal db_valid. revert db_disjoint. generalize db. intros l. induction 1 as [|x l' Hx _ IH]; simpl; constructor.
    + apply Forall_map. exact Hx.
    + exact IH.
  - intros p Hp. unfold Ranges. rewrite (proj2 Hp), (db_traversal p Hp).
    assert (forall l, (forall x, In x l -> In x db) ->
      omap (clamped p) (map (fun x => Some (net_of x.1, x.2)) l) = map (clamp p) (map record_of l)) as Hmap.
    { induction l as [|x l IH]; intros Hl; [done|]. cbn [map]. rewrite <- IH by auto with datatypes.
      apply omap_cons_Some. unfold clamped. by rewrite (proj2 (db_valid x (Hl x (or_introl eq_refl)))). }
    rewrite Hmap by (intros x [Hx _]%select_In; exact Hx). f_equiv. unfold select.
    clear. induction db as [|x l IH]; [done|]. simpl. destruct (Overlaps x.1 p); simpl; by rewrite IH.
Qed.
End Enricher.

(** * Shares *)
Lemma fold_total l : forall t, 0 <= t -> (forall s, In s l -> 0 <= IPv4Addresses s) ->
  t + sumZ IPv4Addresses l < 2 ^ 64 -> foldl (fun t s => uint64 (t + IPv4Addresses s)) t l = t + sumZ IPv4Addresses l.
Proof.
  induction l as [|s l IH]; intros t Ht Hs Hlt; [by rewrite Z.add_0_r|]. rewrite sumZ_cons in *. cbn [foldl].
  pose proof (Hs s (or_introl eq_refl)). pose proof (sumZ_nonneg IPv4Addresses l (fun x Hx => Hs x (or_intror Hx))).
  assert (uint64 (t + IPv4Addresses s) = t + IPv4Addresses s) as -> by (apply Z.mod_small; lia).
  rewrite IH by (auto with datatypes || lia). lia.
Qed.

Definition total_ipv4 (stats : gmap string CountryStat) : Z := sumZ IPv4Addresses (map snd (map_to_list stats)).

Lemma sumQ_scale (t : Z) l : t <> 0 ->
  (foldr (fun s acc => inject_Z (IPv4Addresses s) / inject_Z t * 100 + acc)%Q 0%Q l
   == inject_Z (sumZ IPv4Addresses l) / inject_Z t * 100)%Q.
Proof.
  intros Ht. assert (~ inject_Z t == 0)%Q as Hq by (change 0%Q with (inject_Z 0); rewrite inject_Z_injective; done).
  induction l as [|s l IH]; [simpl; field; done|]. cbn [foldr]. rewrite IH, sumZ_cons, inject_Z_plus. field. done.
Qed.

(** Shares are percentages of address space: when a provider has IPv4
    space (and its count fits 64 bits), every country with an entry gets
    exactly its fraction of the distinct addresses, and the shares add up to
    100; with no IPv4 space there are no shares. *)
Theorem shares_exact {mo : MapOrder} {mol : MapOrderLaws} stats :
  (forall c s, stats !! c = Some s -> 0 <= IPv4Addresses s) -> total_ipv4 stats < 2 ^ 64 ->
  if total_ipv4 stats =? 0 then shares stats = ∅
  else (forall c, shares stats !! c =
          (fun s => (inject_Z (IPv4Addresses s) / inject_Z (total_ipv4 stats) * 100)%Q) <$> stats !! c) /\
       (foldr (fun kv acc => kv.2 + acc)%Q 0%Q (map_to_list (shares stats)) == 100)%Q.
Proof.
  intros Hs Hlt. unfold shares.
  assert (foldl (fun t s => uint64 (t + IPv4Addresses s)) 0 (map snd (shuffle (map_to_list stats))) = total_ipv4 stats) as ->.
  { assert (map snd (shuffle (map_to_list stats)) ≡ₚ map snd (map_to_list stats)) as Hperm
      by (apply Permutation_map, shuffle_perm).
    unfold total_ipv4 in *. rewrite fold_total; [by rewrite (sumZ_perm _ _ _ Hperm) | done | |].
    - intros s Hin. rewrite <- list_elem_of_In, Hperm, list_elem_of_In in Hin.
      apply in_map_iff in Hin as ([c s'] & <- & Hin). simpl.
      rewrite <- list_elem_of_In, elem_of_map_to_list in Hin. by eapply Hs.
    - rewrite (sumZ_perm _ _ _ Hperm). done. }
  destruct (total_ipv4 stats =? 0) eqn:E; [done|]. btrue. split; [intros c; by rewrite lookup_fmap|].
  rewrite map_to_list_fmap.
  assert (forall l : list (string * CountryStat),
    foldr (fun kv acc => kv.2 + acc)%Q 0%Q
      (prod_map id (fun s => (inject_Z (IPv4Addresses s) / inject_Z (total_ipv4 stats) * 100)%Q) <$> l)
    = foldr (fun s acc => inject_Z (IPv4Addresses s) / inject_Z (total_ipv4 stats) * 100 + acc)%Q 0%Q (map snd l)) as ->
    by (induction l as [|[k s] l IH]; [done | rewrite fmap_cons; cbn [foldr map]; by rewrite IH]).
  rewrite sumQ_scale by done. fold (total_ipv4 stats). field.
  change 0%Q with (inject_Z 0). rewrite inject_Z_injective. done.
Qed.

(** * Witnesses *)
Module ToyGeo.
#[export] Instance in_map_order : MapOrder := {| shuffle _ l := l |}.
#[export] Instance in_map_order_laws : MapOrderLaws.
Proof. split. done. Qed.

(** Two records inside 185.0.0.0/16, most of which is unattributed. *)
Definition country (code : string) : Info := MkInfo code code "EU" "Europe" "" true.
Definition geo_db : list Range :=
  [MkRange (Prefix (v4 185 0 0 0) 17) (country "MD"); MkRange (Prefix (v4 185 0 128 0) 24) (country "NL")].
Definition geo_split (p : prefix) : list Range := map (clamp p) (select (fun x => Overlaps (rng_Prefix x) p) geo_db).

#[export] Instance geo_db_records : GeoRecords (Some geo_split) geo_db.
Proof.
  split.
  - intros x [<-|[<-|[]]]; vm_compute; intuition discriminate.
  - repeat constructor.
  - done.
Qed.

(** Nested and repeated announcements of one provider. *)
Definition announcement (p : prefix) (origin : Z) : prefixRow := MkPrefixRow p origin "p" 1 [] false no_info.
Definition nested_rows : list prefixRow :=
  [announcement (Prefix (v4 185 0 0 0) 16) 1; announcement (Prefix (v4 185 0 0 0) 17) 1;
   announcement (Prefix (v4 185 0 0 0) 17) 2; announcement (Prefix (v4 185 0 5 0) 24) 1;
   announcement (Prefix (v4 185 0 128 0) 24) 1].
Definition nested_stats : gmap string CountryStat := default ∅ (distribute nested_rows (Some geo_split) !! "p"%string).
End ToyGeo.
Import ToyGeo.

Lemma distribution_exact_witness :
  cnt (fun u => bool_decide (country_at geo_db V4 u = "MD"%string) && announced nested_rows "p" V4 u) 0 (2 ^ 32) = 32768 /\
  cnt (fun u => bool_decide (country_at geo_db V4 u = "ZZ"%string) && announced nested_rows "p" V4 u) 0 (2 ^ 32) = 32512.
Proof.
  assert (rows_ok nested_rows) as Hok.
  { intros row Hrow. repeat (destruct Hrow as [<-|Hrow]; [vm_compute; intuition discriminate|]). destruct Hrow. }
  assert ("p"%string <> ""%string) as Hp by discriminate.
  assert (recorded_at false "p" "MD" (distribute nested_rows (Some geo_split)) = 32768) as E1 by (vm_compute; reflexivity).
  assert (recorded_at false "p" "ZZ" (distribute nested_rows (Some geo_split)) = 32512) as E2 by (vm_compute; reflexivity).
  split.
  - rewrite <- E1. symmetry. exact (distribution_exact (Some geo_split) geo_db nested_rows "p" "MD" false Hok Hp).
  - rewrite <- E2. symmetry. exact (distribution_exact (Some geo_split) geo_db nested_rows "p" "ZZ" false Hok Hp).
Defined.

Lemma shares_exact_witness :
  total_ipv4 nested_stats = 65536 /\
  (foldr (fun kv acc => kv.2 + acc)%Q 0%Q (map_to_list (shares nested_stats)) == 100)%Q.
Proof.
  assert (total_ipv4 nested_stats = 65536) as E by (vm_compute; reflexivity). split; [exact E|].
  pose proof (shares_exact nested_stats) as H. rewrite E in H. apply H; [|vm_compute; reflexivity].
  intros c s Hs. assert (map_Forall (fun _ s => 0 <= IPv4Addresses s) nested_stats) as Hall; [|exact (Hall c s Hs)].
  apply (bool_decide_unpack _). vm_compute. exact I.
Defined.

(** The unguarded weight of a whole family: the count of 0.0.0.0/0 is not the
    number of its addresses.  The bogon filter keeps it from being reached. *)
Example units_of_default_route :
  units (Prefix (v4 0 0 0 0) 0) = 2 ^ 64 - 1 /\ prefix_size (Prefix (v4 0 0 0 0) 0) = 2 ^ 32 /\
  IsBogon (Prefix (v4 0 0 0 0) 0) = true.
Proof. vm_compute. auto. Qed.
