(* ===== verification/Builder.v ===== *)
(** [internal/builder/builder.go]: the snapshot pipeline, from the provider
    catalog and the routing dump to a published snapshot.

    A run is a sequence of database and object-store calls, each of which may
    fail; [Run] is the whole of it.  The dump and the GeoIP source are
    parameters (see Routing.v and Distribution.v), the snapshot's version text
    is the parameter [versionOf] of the dump's timestamp and the clock. *)
From stdpp Require Import base gmap strings list sorting.
From Stdlib Require Import ZArith QArith Qabs Lia.
From S2P Require Import Prelude Codec Netip Schema Wireauth Artifact Consensus Rollup Advisor Routing Distribution.
Open Scope Z_scope.

Record BuilderConfig : Type := MkBuilderConfig {
  MaxTargetsPerProvider : Z;
  MaxTargetsPerCountry : Z;
  SanityMaxDelta : Q;
  SanityForce : bool;
  RetainSnapshots : Z
}.

(** The [GeoSource] interface. *)
Record GeoSource : Type := MkGeoSource {
  gs_Lookup : prefix -> Info;
  gs_Ranges : prefix -> list Range
}.

Definition ErrSanityGate : error := EMsg "sanity gate tripped".

(** * Extraction *)
Section Extract.
Context {mo : MapOrder}.
Variables (monitored : gset Z) (asnToProvider : gmap Z string).

Definition peer_count_of (rec : Record_) (origin : Z) : Z := default 0 (rec_PeerCounts rec !! origin).

Definition with_peers (n : Z) (row : prefixRow) : prefixRow :=
  MkPrefixRow (row_prefix row) (row_origin row) (row_provider row) n (row_other_origins row) (row_long row) (row_geo row).

Definition new_row (rec : Record_) (origin : Z) : prefixRow :=
  MkPrefixRow (rec_Prefix rec) origin (default ""%string (asnToProvider !! origin)) (peer_count_of rec origin)
    (if (1 <? length (rec_Origins rec))%nat then List.filter (fun o => negb (o =? origin)) (rec_Origins rec) else [])
    (TooLong (rec_Prefix rec)) no_info.

(** One origin of one record; [seen] is keyed by the text "prefix|origin". *)
Definition see_origin (rec : Record_) (seen : gmap (prefix * Z) prefixRow) (origin : Z) : gmap (prefix * Z) prefixRow :=
  if negb (bool_decide (origin ∈ monitored)) then seen
  else
    let key := (rec_Prefix rec, origin) in
    match seen !! key with
    | Some row =>
        let pc := peer_count_of rec origin in
        if row_peer_count row <? pc then <[key := with_peers pc row]> seen else seen
    | None => <[key := new_row rec origin]> seen
    end.

Definition see (seen : gmap (prefix * Z) prefixRow) (rec : Record_) : gmap (prefix * Z) prefixRow :=
  if IsBogon (rec_Prefix rec) then seen else foldl (see_origin rec) seen (rec_Origins rec).

Definition row_le (a b : prefixRow) : Prop := prefix_le (row_prefix a) (row_prefix b).
#[local] Instance row_le_dec a b : Decision (row_le a b).
Proof. unfold row_le. apply _. Defined.

Definition extract (dump : result (list mrt_message * option error)) : result (list prefixRow * Stats) :=
  match Stream monitored (fun seen rec => Ok (see seen rec)) dump ∅ with
  | Err e => Err e
  | Ok (stats, seen) => Ok (merge_sort row_le (map snd (shuffle (map_to_list seen))), stats)
  end.
End Extract.

Definition with_geo (i : Info) (row : prefixRow) : prefixRow :=
  MkPrefixRow (row_prefix row) (row_origin row) (row_provider row) (row_peer_count row) (row_other_origins row)
    (row_long row) i.
Definition enrich (rows : list prefixRow) (src : GeoSource) : list prefixRow :=
  map (fun r => with_geo (gs_Lookup src (row_prefix r)) r) rows.

(** * Loading *)
Definition nullable (s : string) : option string := if bool_decide (s = "") then None else Some s.
Definition MaxInt64 : Z := 2 ^ 63 - 1.
Definition clampInt64 (v : Z) : Z := if MaxInt64 <? v then MaxInt64 else v.

(** One copied line. *)
Definition prefix_line (id snapshot : Z) (r : prefixRow) : prefix_row :=
  PrefixRow id snapshot (row_prefix r) (row_origin r)
    (if InfoOK (row_geo r) then Some (Country (row_geo r)) else None)
    (if InfoOK (row_geo r) then nullable (City (row_geo r)) else None)
    (row_peer_count r) (row_other_origins r) (row_long r).
Fixpoint number_lines (id snapshot : Z) (rows : list prefixRow) : list prefix_row :=
  match rows with
  | [] => []
  | r :: rows' => prefix_line id snapshot r :: number_lines (id + 1) snapshot rows'
  end.

Definition count_family (is4 : bool) (rows : list prefixRow) : Z :=
  Z.of_nat (count_rows (fun r => eqb (Is4 (pfx_addr (row_prefix r))) is4) rows).

Section Pipeline.
Context {mo : MapOrder}.
Variables (versionOf : Z -> Z -> string) (cfg : BuilderConfig).

Definition insert_snapshot (version : string) (rows : list prefixRow) : DB Z :=
  stmt (fun now d =>
    if exists_row (fun s => bool_decide (sn_version s = version)) (db_snapshot d)
    then Err (EConstraint "snapshot_version_key")
    else
      let id := db_snapshot_seq d in
      Ok (id, set_snapshot_seq Z.succ (set_snapshot (fun t => t ++
        [SnapshotRow id version Building (Some (Z.of_nat (length (remove_dups (map row_origin rows)))))
           (Some (count_family true rows)) (Some (count_family false rows)) None None None (Some now) None]) d))).

Definition copy_prefixes (snapshot : Z) (rows : list prefixRow) : DB unit :=
  stmt (fun _ d =>
    if negb (forallb (fun r => is_some (db_asn d !! row_origin r)) rows) then Err (EConstraint "prefix_origin_asn_fkey")
    else if has_dup (map (fun r => (row_prefix r, row_origin r)) rows) ||
            exists_row (fun p => (pr_snapshot p =? snapshot) &&
              existsb (fun r => bool_decide ((row_prefix r, row_origin r) = (pr_prefix p, pr_origin p))) rows) (db_prefix d)
    then Err (EConstraint "prefix_snapshot_id_prefix_origin_asn_key")
    else Ok (tt, set_prefix_seq (fun s => s + Z.of_nat (length rows))
                   (set_prefix (fun t => t ++ number_lines (db_prefix_seq d) snapshot rows) d))).

Definition load (rows : list prefixRow) (stats : Stats) : DB (Z * string) :=
  tx (let! now := clock in
      let version := versionOf (FirstTimestamp stats) now in
      let! id := insert_snapshot version rows in
      do! copy_prefixes id rows ;;
      ret (id, version)).

(** [insert ... on conflict (snapshot_id, provider_id, country_code) do update]. *)
Definition geo_line (s : CountryStat) (share : Q) (old : option geo_row) : geo_row :=
  let base := match old with
              | Some g => (pg_name g, pg_continent_code g, pg_continent g, pg_targets g)
              | None => (nullable (cs_Name s), nullable (cs_ContinentCode s), nullable (cs_ContinentName s), 0)
              end in
  let '(name, ccode, cname, targets) := base in
  GeoRow name ccode cname (clampInt64 (IPv4Addresses s)) (clampInt64 (IPv6Net64s s)) share
    (cs_PrefixCountV4 s) (cs_PrefixCountV6 s) targets.

Definition insert_geo (snapshot : Z) (provider code : string) (s : CountryStat) (share : Q) : DB unit :=
  exec (fun _ => set_provider_geo (fun t =>
    <[(snapshot, provider, code) := geo_line s share (t !! (snapshot, provider, code))]> t)).

Definition loadDistribution (snapshot : Z) (rows : list prefixRow) (src : option GeoSource) : DB unit :=
  let by_provider := distribute rows (gs_Ranges <$> src) in
  tx (forM (shuffle (map_to_list by_provider)) (fun '(provider, stats) =>
        let pct := shares stats in
        forM (shuffle (map_to_list stats)) (fun '(code, s) =>
          insert_geo snapshot provider code s (default 0%Q (pct !! code))))).

Definition target_country (t : option string) : string :=
  match t with Some c => if bool_decide (c = "") then unknownRegion else c | None => unknownRegion end.

Definition set_targets (n : Z) (g : geo_row) : geo_row :=
  GeoRow (pg_name g) (pg_continent_code g) (pg_continent g) (pg_ipv4 g) (pg_net64s g) (pg_share g)
    (pg_count_v4 g) (pg_count_v6 g) n.
Definition countTargetsByCountry (snapshot : Z) : DB unit :=
  exec (fun _ d => set_provider_geo (map_imap (fun '(snap, provider, code) g => Some (
    if snap =? snapshot
    then set_targets (Z.of_nat (count_rows (fun t => (tg_snapshot t =? snap) && bool_decide (tg_provider t = provider)
           && bool_decide (target_country (tg_country t) = code)) (db_target d))) g
    else g))) d).

(** * Probe targets *)
Record candidate : Type := Candidate {
  c_provider : string;
  c_prefix_id : Z;
  c_address : addr;
  c_masklen : Z;
  c_peers : Z;
  c_prefix : prefix;
  c_country : string;
  c_city : option string
}.

(** [host(network(prefix))::inet + 1]. *)
Definition first_usable (p : prefix) : addr :=
  Addr (addr_fam (pfx_addr p)) (addr_val (pfx_addr (Masked p)) + 1).

Definition candidates (snapshot : Z) (d : database) : list candidate :=
  omap (fun p => (fun a => Candidate (an_provider a) (pr_id p) (first_usable (pr_prefix p)) (pfx_bits (pr_prefix p))
                            (pr_peer_count p) (pr_prefix p) (target_country (pr_country p)) (pr_city p))
                 <$> db_asn d !! pr_origin p)
       (select (fun p => (pr_snapshot p =? snapshot) && negb (pr_long p)) (db_prefix d)).

(** Lexicographic comparison of integer keys. *)
Fixpoint lex_le (a b : list Z) : bool :=
  match a, b with
  | [], _ => true
  | _, [] => false
  | x :: a', y :: b' => (x <? y) || ((x =? y) && lex_le a' b')
  end.
Definition addr_key (a : addr) : list Z := [BitLen a; addr_val a].

(** [order by address, masklen asc, peer_count desc, prefix_id asc]. *)
Definition dedup_key (x : candidate) : list Z := addr_key (c_address x) ++ [c_masklen x; - c_peers x; c_prefix_id x].
Definition deduped (l : list candidate) : list candidate :=
  distinct_on c_address (sort_by (fun x y => lex_le (dedup_key x) (dedup_key y)) l).

(** [row_number() over (partition by key order by le)]. *)
Definition row_numbers {A K} `{EqDecision K} (key : A -> K) (le : A -> A -> bool) (l : list A) : list (Z * A) :=
  concat (map (fun k => imap (fun i x => (Z.of_nat i + 1, x)) (sort_by le (group key k l))) (group_keys key l)).

Definition size_key (x : candidate) : list Z := c_masklen x :: - c_peers x :: addr_key (pfx_addr (c_prefix x)).
Definition pf_key (x : candidate) : string * family := (c_provider x, addr_fam (pfx_addr (c_prefix x))).

Definition per_country (l : list candidate) : list (Z * candidate) :=
  row_numbers (fun x => (pf_key x, c_country x)) (fun x y => lex_le (size_key x) (size_key y)) l.
Definition ranked (perCountry : Z) (l : list candidate) : list (Z * (Z * candidate)) :=
  row_numbers (fun x => pf_key x.2) (fun x y => lex_le (x.1 :: size_key x.2) (y.1 :: size_key y.2))
    (List.filter (fun x => x.1 <=? perCountry) (per_country (deduped l))).

Definition chosen (perProvider perCountry : Z) (l : list candidate) : list candidate :=
  map (fun x => x.2.2) (List.filter (fun x => x.1 <=? perProvider) (ranked perCountry l)).

Definition target_line (id snapshot : Z) (x : candidate) : target_row :=
  TargetRow id snapshot (c_provider x) (c_prefix_id x) (c_address x) true (Some (c_country x)) (c_city x).
Fixpoint number_targets (id snapshot : Z) (l : list candidate) : list target_row :=
  match l with
  | [] => []
  | x :: l' => target_line id snapshot x :: number_targets (id + 1) snapshot l'
  end.

Definition perCountry_of : Z :=
  if MaxTargetsPerCountry cfg <=? 0 then MaxTargetsPerProvider cfg else MaxTargetsPerCountry cfg.

Definition deriveTargets (snapshot : Z) : DB Z :=
  stmt (fun _ d =>
    let l := chosen (MaxTargetsPerProvider cfg) perCountry_of (candidates snapshot d) in
    if negb (forallb (fun x => is_some (db_provider d !! c_provider x)) l) then Err (EConstraint "probe_target_provider_id_fkey")
    else if exists_row (fun t => (tg_snapshot t =? snapshot) && existsb (fun x => bool_decide (c_address x = tg_address t)) l) (db_target d)
    then Err (EConstraint "probe_target_snapshot_id_address_key")
    else Ok (Z.of_nat (length l),
             set_target_seq (fun s => s + Z.of_nat (length l))
               (set_target (fun t => t ++ number_targets (db_target_seq d) snapshot l) d))).

(** * The gate and publication *)
Definition total_prefixes (s : snapshot_row) : Z := default 0 (sn_count_v4 s) + default 0 (sn_count_v6 s).

Definition swing (prev new : Z) : Q := Qabs (inject_Z (new - prev) / inject_Z prev).

Definition sanityGate (snapshot : Z) : DB unit :=
  let! prev := query (fun _ d => total_prefixes <$> newest_published d) in
  match prev with
  | None => ret tt
  | Some prevTotal =>
      let! newTotal := query_row (fun _ d => total_prefixes <$> List.find (fun s => sn_id s =? snapshot) (db_snapshot d)) in
      if prevTotal =? 0 then ret tt
      else if Qle_bool (swing prevTotal newTotal) (SanityMaxDelta cfg) then ret tt
      else if SanityForce cfg then ret tt else throw ErrSanityGate
  end.

Context {cr : Crypto} {mj : ManifestJSON} {sf : SQLiteFormat}.
Variables (Key : PrivateKey) (MinVersion : string) (has_publisher : bool).

(** The end of a run: artifact, database, pointer, retention. *)
Definition release (id : Z) (version : string) : SM unit :=
  do! (if has_publisher then do! Publish Key MinVersion id version ;; ret tt else ret tt) ;;
  do! lift (flip id) ;;
  if has_publisher then
    do! SetCurrent version ;;
    Prune (RetainSnapshots cfg)
  else ret tt.

(** [Run].  [feed] is the catalog, [dump] the opened routing dump, [src] the
    configured GeoIP source ([Err] when the database cannot be opened). *)
Definition Run (feed : result (list Provider)) (dump : result (list mrt_message * option error))
    (src : result (option GeoSource)) : SM unit :=
  let! asnToProvider := lift (SyncProviders feed) in
  match extract (dom asnToProvider) asnToProvider dump with
  | Err e => throw e
  | Ok (rows, stats) =>
      match src with
      | Err e => throw e
      | Ok src =>
          let rows := match src with Some s => enrich rows s | None => rows end in
          let! loaded := lift (load rows stats) in
          let '(id, version) := loaded in
          do! lift (loadDistribution id rows src) ;;
          do! lift (deriveTargets id) ;;
          do! lift (countTargetsByCountry id) ;;
          do! lift (sanityGate id) ;;
          release id version
      end
  end.
End Pipeline.

(** * Extraction is exact *)
Section ExtractSpec.
Context {mo : MapOrder} {mol : MapOrderLaws}.
Variables (monitored : gset Z) (asnToProvider : gmap Z string).

(** What a record does to the row of one of its origins. *)
Definition merge_row (rec : Record_) (o : Z) (old : option prefixRow) : prefixRow :=
  match old with
  | Some row => if row_peer_count row <? peer_count_of rec o then with_peers (peer_count_of rec o) row else row
  | None => new_row asnToProvider rec o
  end.

Definition announces (rec : Record_) (p : prefix) (o : Z) : bool :=
  bool_decide (rec_Prefix rec = p) && negb (IsBogon p) && bool_decide (o ∈ monitored) && bool_decide (o ∈ rec_Origins rec).

Lemma see_origin_lookup rec seen o p o' :
  see_origin monitored asnToProvider rec seen o !! (p, o') =
    if bool_decide (o' = o) && bool_decide (rec_Prefix rec = p) && bool_decide (o ∈ monitored)
    then Some (merge_row rec o (seen !! (p, o'))) else seen !! (p, o').
Proof.
  unfold see_origin, merge_row. destruct (decide (o ∈ monitored)) as [Hm|Hm].
  2:{ rewrite !(bool_decide_false (o ∈ monitored)) by done. simpl. by rewrite andb_false_r. }
  rewrite !(bool_decide_true (o ∈ monitored)) by done. simpl. rewrite andb_true_r.
  destruct (decide ((p, o') = (rec_Prefix rec, o))) as [E|E].
  - injection E as -> ->. rewrite !bool_decide_true by done. simpl.
    destruct (seen !! (rec_Prefix rec, o)) as [row|] eqn:Es; [|by rewrite lookup_insert_eq].
    destruct (_ <? _); [by rewrite lookup_insert_eq | done].
  - assert (bool_decide (o' = o) && bool_decide (rec_Prefix rec = p) = false) as ->.
    { apply andb_false_iff. rewrite !bool_decide_eq_false. destruct (decide (o' = o)); [right|by left]. congruence. }
    destruct (seen !! (rec_Prefix rec, o)); [destruct (_ <? _)|]; try done; by rewrite lookup_insert_ne.
Qed.

Lemma see_lookup rec seen p o : NoDup (rec_Origins rec) ->
  see monitored asnToProvider seen rec !! (p, o) =
    if announces rec p o then Some (merge_row rec o (seen !! (p, o))) else seen !! (p, o).
Proof.
  intros Hnd. unfold see, announces. destruct (decide (rec_Prefix rec = p)) as [E|E].
  - rewrite bool_decide_true by done. subst p. destruct (IsBogon (rec_Prefix rec)); [done|]. simpl.
    induction (rec_Origins rec) as [|o1 l IH] using rev_ind; [by rewrite andb_false_r|].
    apply NoDup_app in Hnd as (Hl & Hd & _). rewrite foldl_app. simpl. rewrite see_origin_lookup, IH by done.
    rewrite (bool_decide_true (rec_Prefix rec = _)), andb_true_r by done.
    destruct (decide (o = o1)) as [->|Hne].
    + rewrite (bool_decide_true (o1 = o1)) by done. simpl.
      assert (o1 ∉ l) as Hn by (intros Hin; apply (Hd o1 Hin); set_solver).
      rewrite (bool_decide_false (o1 ∈ l)), andb_false_r by done.
      rewrite (bool_decide_true (o1 ∈ l ++ [o1])), andb_true_r by set_solver. done.
    + rewrite (bool_decide_false (o = o1)) by done. simpl.
      by rewrite (bool_decide_ext (o ∈ l ++ [o1]) (o ∈ l)) by set_solver.
  - rewrite (bool_decide_false (rec_Prefix rec = p)) by done. simpl. destruct (IsBogon _); [done|].
    clear Hnd. induction (rec_Origins rec) as [|o1 l IH] using rev_ind; [done|]. rewrite foldl_app. simpl.
    rewrite see_origin_lookup, (bool_decide_false (rec_Prefix rec = p)), andb_false_r by done. exact IH.
Qed.

(** The row of a key after a sequence of records. *)
Definition row_good (recs : list Record_) (p : prefix) (o : Z) (row : prefixRow) : Prop :=
  row_prefix row = p /\ row_origin row = o /\ row_provider row = default ""%string (asnToProvider !! o) /\
  row_long row = TooLong p /\ row_geo row = no_info /\
  (exists rec, In rec recs /\ announces rec p o = true /\ row_peer_count row = peer_count_of rec o) /\
  (forall rec, In rec recs -> announces rec p o = true -> peer_count_of rec o <= row_peer_count row).

Lemma announces_prefix rec p o : announces rec p o = true -> rec_Prefix rec = p.
Proof. unfold announces. intros H. by btrue. Qed.

Lemma see_all recs p o : (forall rec, In rec recs -> NoDup (rec_Origins rec)) ->
  match foldl (see monitored asnToProvider) ∅ recs !! (p, o) with
  | Some row => row_good recs p o row
  | None => forall rec, In rec recs -> announces rec p o = false
  end.
Proof.
  induction recs as [|rec recs IH] using rev_ind; intros Hnd; [simpl; by rewrite lookup_empty|].
  assert (forall x, In x recs \/ x = rec <-> In x (recs ++ [rec])) as Hin.
  { intros x. rewrite in_app_iff. simpl. naive_solver. }
  specialize (IH (fun x Hx => Hnd x (proj1 (Hin x) (or_introl Hx)))).
  rewrite foldl_app. simpl. rewrite see_lookup by (apply Hnd, Hin; by right).
  destruct (announces rec p o) eqn:Ea.
  - destruct (foldl _ ∅ recs !! (p, o)) as [row|]; simpl.
    + destruct IH as (H1 & H2 & H3 & H4 & H5 & (r0 & Hr0 & Ha0 & Hp0) & H7).
      destruct (row_peer_count row <? peer_count_of rec o) eqn:El; btrue; split_and!; try done; simpl.
      * exists rec. split_and!; [apply Hin; by right | done | done].
      * intros x [Hx| ->]%Hin Hax; [|lia]. specialize (H7 x Hx Hax). lia.
      * exists r0. split_and!; [apply Hin; by left | done | done].
      * intros x [Hx| ->]%Hin Hax; [by apply H7 | lia].
    + pose proof (announces_prefix _ _ _ Ea) as Ep. split_and!; try done; simpl; [by rewrite Ep | | ].
      * exists rec. split_and!; [apply Hin; by right | done | done].
      * intros x [Hx| ->]%Hin Hax; [by rewrite IH in Hax | lia].
  - destruct (foldl _ ∅ recs !! (p, o)) as [row|].
    + destruct IH as (H1 & H2 & H3 & H4 & H5 & (r0 & Hr0 & Ha0 & Hp0) & H7). split_and!; try done.
      * exists r0. split_and!; [apply Hin; by left | done | done].
      * intros x [Hx| ->]%Hin Hax; [by apply H7 | congruence].
    + intros x [Hx| ->]%Hin; [by apply IH | done].
Qed.

(** The dump announces prefix [p] with origin [o] in the record [po]. *)
Definition in_dump (msgs : list mrt_message) (p : prefix) (o : Z) (po : prefix * list Z) : Prop :=
  In po (omap (monitored_rib monitored) msgs) /\ Masked po.1 = p /\ o ∈ po.2.

Definition row_key (row : prefixRow) : prefix * Z := (row_prefix row, row_origin row).

#[local] Existing Instance row_le_dec.
#[local] Existing Instance prefix_le_trans.
#[local] Existing Instance prefix_le_total.

Lemma extract_runs msgs rows stats : extract monitored asnToProvider (Ok (msgs, None)) = Ok (rows, stats) ->
  exists recs, Forall2 describes (omap (monitored_rib monitored) msgs) recs /\
    rows ≡ₚ map snd (map_to_list (foldl (see monitored asnToProvider) ∅ recs)) /\ StronglySorted row_le rows.
Proof using mol.
  unfold extract, Stream. destruct (stream_loop _ _ _ _ _ _) as [[st seen] e] eqn:E.
  apply (stream_loop_spec monitored (see monitored asnToProvider)) in E as (recs & Hd & -> & -> & _).
  intros H. simplify_eq. exists recs. split_and!; [done | |].
  - rewrite merge_sort_Permutation. apply Permutation_map, shuffle_perm.
  - apply StronglySorted_merge_sort; [intros x y z; apply prefix_le_trans | intros x y; apply prefix_le_total].
Qed.

(** Records and the monitored messages of a dump describe each other. *)
Lemma described msgs recs rec : Forall2 describes (omap (monitored_rib monitored) msgs) recs -> In rec recs ->
  exists po, In po (omap (monitored_rib monitored) msgs) /\ describes po rec.
Proof.
  intros Hd Hin. apply list_elem_of_In, list_elem_of_lookup in Hin as [i Hi].
  destruct (Forall2_lookup_r _ _ _ _ _ Hd Hi) as (po & Hpo & Hdes). exists po. split; [|done].
  by apply list_elem_of_In, list_elem_of_lookup_2 with i.
Qed.
Lemma announced_in_dump msgs recs rec p o : Forall2 describes (omap (monitored_rib monitored) msgs) recs -> In rec recs ->
  announces rec p o = true -> exists po, in_dump msgs p o po /\ peer_count_of rec o = occurrences o po.2.
Proof.
  intros Hd Hin Ha. destruct (described _ _ rec Hd Hin) as (po & Hpo & D1 & _ & _ & D4 & D5). exists po.
  unfold announces in Ha. btrue. subst p. split; [|by apply D5]. unfold in_dump. split_and!; [done | by rewrite D1 | by apply D4].
Qed.
Lemma dump_announced msgs recs p o po : Forall2 describes (omap (monitored_rib monitored) msgs) recs ->
  IsBogon p = false -> o ∈ monitored -> in_dump msgs p o po ->
  exists rec, In rec recs /\ announces rec p o = true /\ peer_count_of rec o = occurrences o po.2.
Proof.
  intros Hd Hb Hm (Hpo & <- & Ho). apply list_elem_of_In, list_elem_of_lookup in Hpo as [i Hi].
  destruct (Forall2_lookup_l _ _ _ _ _ Hd Hi) as (rec & Hr & D1 & _ & _ & D4 & D5). exists rec.
  split; [by apply list_elem_of_In, list_elem_of_lookup_2 with i|]. split; [|by apply D5].
  unfold announces. rewrite Hb, !bool_decide_true by (try done; by apply D4). done.
Qed.

(** C35: Extraction is exact.  The rows are sorted, one per (prefix, origin);
    there is a row for a prefix and an origin exactly when the prefix is not
    a bogon, the origin is monitored and some record of the dump announces the
    pair; it carries the provider of the origin, the flag for prefixes too
    long to probe, and the highest visibility any record has for the pair. *)
Theorem extract_exact msgs rows stats :
  extract monitored asnToProvider (Ok (msgs, None)) = Ok (rows, stats) ->
  NoDup (map row_key rows) /\ StronglySorted row_le rows /\
  (forall p o, (p, o) ∈ map row_key rows <->
     IsBogon p = false /\ o ∈ monitored /\ exists po, in_dump msgs p o po) /\
  (forall row, In row rows ->
     row_provider row = default ""%string (asnToProvider !! row_origin row) /\
     row_long row = TooLong (row_prefix row) /\
     (exists po, in_dump msgs (row_prefix row) (row_origin row) po /\ row_peer_count row = occurrences (row_origin row) po.2) /\
     (forall po, in_dump msgs (row_prefix row) (row_origin row) po -> occurrences (row_origin row) po.2 <= row_peer_count row)).
Proof using mol.
  intros (recs & Hd & Hperm & Hsort)%extract_runs.
  set (seen := foldl _ ∅ recs) in *.
  assert (forall p o, match seen !! (p, o) with
    | Some row => row_good recs p o row
    | None => forall rec, In rec recs -> announces rec p o = false end) as Hall.
  { intros p o. apply see_all. intros rec Hin. destruct (described _ _ rec Hd Hin) as (po & _ & Hdes). apply Hdes. }
  assert (forall row, In row rows <-> exists k, seen !! k = Some row) as Hrows.
  { intros row. rewrite <- list_elem_of_In, Hperm, list_elem_of_In, in_map_iff. split.
    - intros ([k r] & <- & Hin). exists k. by rewrite <- list_elem_of_In, elem_of_map_to_list in Hin.
    - intros [k Hk]. exists (k, row). split; [done|]. by rewrite <- list_elem_of_In, elem_of_map_to_list. }
  assert (forall k row, seen !! k = Some row -> row_key row = k) as Hkey.
  { intros [p o] row Hk. specialize (Hall p o). rewrite Hk in Hall. destruct Hall as (H1 & H2 & _). unfold row_key. congruence. }
  split_and!; [| done | |].
  - rewrite Hperm. rewrite map_map. rewrite (map_ext_in _ fst).
    + apply NoDup_fst_map_to_list.
    + intros [k row] Hin. apply Hkey. by rewrite <- list_elem_of_In, elem_of_map_to_list in Hin.
  - intros p o. rewrite list_elem_of_In, in_map_iff. split.
    + intros (row & Ek & Hin). apply Hrows in Hin as [[p' o'] Hk]. pose proof (Hkey _ _ Hk) as Ek'.
      rewrite Ek in Ek'. injection Ek' as <- <-. specialize (Hall p o). rewrite Hk in Hall.
      destruct Hall as (_ & _ & _ & _ & _ & (rec & Hr & Ha & _) & _). destruct (announced_in_dump _ _ rec p o Hd Hr Ha) as (po & Hpo & _).
      unfold announces in Ha. btrue. eauto.
    + intros (Hb & Hm & po & Hpo). destruct (dump_announced _ _ p o po Hd Hb Hm Hpo) as (rec & Hr & Ha & _).
      specialize (Hall p o). destruct (seen !! (p, o)) as [row|] eqn:Hk; [|by rewrite Hall in Ha].
      exists row. split; [by apply Hkey | apply Hrows; eauto].
  - intros row [[p o] Hk]%Hrows. specialize (Hall p o). rewrite Hk in Hall.
    destruct Hall as (<- & <- & H3 & H4 & _ & (rec & Hr & Ha & Hpc) & H7). split_and!; [done | done | |].
    + destruct (announced_in_dump _ _ rec _ _ Hd Hr Ha) as (po & Hpo & Eo). exists po. split; [done | congruence].
    + intros po Hpo. assert (IsBogon (row_prefix row) = false /\ row_origin row ∈ monitored) as [Hb Hm]
        by (unfold announces in Ha; btrue; done).
      destruct (dump_announced _ _ _ _ po Hd Hb Hm Hpo) as (rec' & Hr' & Ha' & <-). by apply H7.
Qed.
End ExtractSpec.

(** * Ranking *)
Lemma filter_or_perm {A} (P Q : A -> bool) l : (forall x, In x l -> P x = true -> Q x = false) ->
  List.filter (fun x => P x || Q x) l ≡ₚ List.filter P l ++ List.filter Q l.
Proof.
  induction l as [|x l IH]; intros H; [done|]. simpl. specialize (IH (fun y Hy => H y (or_intror Hy))).
  specialize (H x (or_introl eq_refl)). destruct (P x); simpl.
  - rewrite H by done. by rewrite IH.
  - destruct (Q x); simpl; rewrite IH; [|done]. by rewrite Permutation_middle.
Qed.

Lemma filter_everything {A} (P : A -> bool) l : (forall x, In x l -> P x = true) -> List.filter P l = l.
Proof. induction l as [|x l IH]; intros H; [done|]. simpl. rewrite H by (by left). f_equal. apply IH. auto with datatypes. Qed.

Lemma snd_imap {A B} (g : nat -> B) (l : list A) : map snd (imap (fun i x => (g i, x)) l) = l.
Proof. revert g. induction l as [|x l IH]; intros g; [done|]. rewrite imap_cons. simpl. f_equal. apply (IH (g ∘ S)). Qed.

Lemma StronglySorted_at {A} (R : A -> A -> Prop) l i j x y :
  StronglySorted R l -> l !! i = Some x -> l !! j = Some y -> (i < j)%nat -> R x y.
Proof.
  intros Hs. revert i j. induction Hs as [|z l Hs IH Hall]; intros i j Ei Ej Hij; [done|].
  destruct j as [|j]; [lia|]. simpl in Ej. destruct i as [|i]; simpl in Ei.
  - injection Ei as ->. rewrite Forall_forall in Hall. apply Hall. by eapply list_elem_of_lookup_2.
  - by apply (IH i j); [| |lia].
Qed.

Section RowNumbers.
Context {A K : Type} `{EqDecision K} (key : A -> K) (le : A -> A -> bool).

Definition block (k : K) (l : list A) : list (Z * A) := imap (fun i x => (Z.of_nat i + 1, x)) (sort_by le (group key k l)).

Lemma block_elem k l n x : In (n, x) (block k l) <-> 1 <= n /\ sort_by le (group key k l) !! Z.to_nat (n - 1) = Some x.
Proof.
  unfold block. rewrite <- list_elem_of_In, elem_of_lookup_imap. split.
  - intros (i & y & E & Ei). injection E as -> ->. split; [lia|]. by replace (Z.to_nat (Z.of_nat i + 1 - 1)) with i by lia.
  - intros [H E]. exists (Z.to_nat (n - 1)), x. split; [f_equal; lia | done].
Qed.

Lemma block_key k l n x : In (n, x) (block k l) -> key x = k.
Proof.
  intros [_ E]%block_elem. apply list_elem_of_lookup_2 in E. rewrite sort_by_perm, list_elem_of_In in E.
  by apply group_In in E as [_ ?].
Qed.

Lemma row_numbers_elem l n x : In (n, x) (row_numbers key le l) <-> In (n, x) (block (key x) l).
Proof.
  unfold row_numbers. rewrite in_concat. split.
  - intros (b & (k & <- & Hk)%in_map_iff & Hin). change (In (n, x) (block k l)) in Hin.
    by rewrite (block_key k l n x Hin).
  - intros Hin. exists (block (key x) l). split; [|done]. apply in_map_iff. exists (key x). split; [done|].
    apply block_elem in Hin as [_ E]. apply list_elem_of_lookup_2 in E. rewrite sort_by_perm, list_elem_of_In in E.
    apply group_In in E as [E _]. apply group_keys_In. eauto.
Qed.

Lemma row_numbers_perm l : map snd (row_numbers key le l) ≡ₚ l.
Proof.
  unfold row_numbers. rewrite concat_map, map_map.
  assert (forall ks, NoDup ks ->
    concat (map (fun k => map snd (imap (fun i x => (Z.of_nat i + 1, x)) (sort_by le (group key k l)))) ks) ≡ₚ
    List.filter (fun x => bool_decide (key x ∈ ks)) l) as H.
  { induction ks as [|k ks IH]; intros Hnd.
    - cbn [map concat]. replace (List.filter _ l) with (@nil A); [done|]. symmetry.
      apply select_none. intros x _. apply bool_decide_eq_false. set_solver.
    - apply NoDup_cons in Hnd as [Hk Hnd]. cbn [map concat]. rewrite IH by done.
      rewrite (filter_ext_in (fun x => bool_decide (key x ∈ k :: ks)) (fun x => bool_decide (key x = k) || bool_decide (key x ∈ ks))).
      + rewrite filter_or_perm.
        * f_equiv. rewrite (snd_imap (fun i => Z.of_nat i + 1)). apply sort_by_perm.
        * intros x _ E. btrue. subst. by apply bool_decide_eq_false.
      + intros x _. apply eq_true_iff_eq. rewrite orb_true_iff, !bool_decide_eq_true. set_solver. }
  rewrite H by apply NoDup_remove_dups. rewrite filter_everything; [done|].
  intros x Hx. apply bool_decide_eq_true, list_elem_of_In, group_keys_In. eauto.
Qed.

(** At most [n] rows of a partition have a number up to [n]. *)
Lemma row_numbers_cap l k n : 0 <= n ->
  Z.of_nat (count_rows (fun r => bool_decide (key r.2 = k) && (r.1 <=? n)) (row_numbers key le l)) <= n.
Proof.
  intros Hn. unfold row_numbers, count_rows, select.
  assert (forall ks, NoDup ks ->
    Z.of_nat (length (List.filter (fun r : Z * A => bool_decide (key r.2 = k) && (r.1 <=? n)) (concat (map (fun k => block k l) ks))))
      <= if bool_decide (k ∈ ks) then n else 0) as H.
  { induction ks as [|k' ks IH]; intros Hnd; [cbn [map concat List.filter length]; case_bool_decide; lia|].
    apply NoDup_cons in Hnd as [Hk Hnd]. cbn [map concat]. rewrite List.filter_app, length_app, Nat2Z.inj_add.
    specialize (IH Hnd). destruct (decide (k = k')) as [->|Hne].
    - rewrite (bool_decide_false (k' ∈ ks)) in IH by done. rewrite (bool_decide_true (k' ∈ k' :: ks)) by set_solver.
      assert (forall (m : list A) s, Z.of_nat (length (List.filter (fun r : Z * A => bool_decide (key r.2 = k') && (r.1 <=? n))
        (imap (fun i x => (Z.of_nat (s + i) + 1, x)) m))) <= Z.max 0 (n - Z.of_nat s)) as Hb.
      { induction m as [|x m IHm]; intros s; [simpl; lia|]. rewrite imap_cons. cbn [List.filter].
        specialize (IHm (S s)). rewrite (imap_ext _ (fun i x => (Z.of_nat (S s + i) + 1, x))) by (intros i y _; simpl; do 2 f_equal; lia).
        destruct (_ && _) eqn:E; [|lia]. btrue. simpl in *. lia. }
      specialize (Hb (sort_by le (group key k' l)) 0%nat). 
      change (imap (fun i x => (Z.of_nat (0 + i) + 1, x)) (sort_by le (group key k' l))) with (block k' l) in Hb. lia.
    - rewrite (bool_decide_ext (k ∈ k' :: ks) (k ∈ ks)) by set_solver.
      assert (List.filter (fun r : Z * A => bool_decide (key r.2 = k) && (r.1 <=? n)) (block k' l) = []) as ->; [|simpl; lia].
      apply select_none. intros [i x] Hin. apply block_key in Hin. simpl. by rewrite bool_decide_false by congruence. }
  pose proof (H (group_keys key l) (NoDup_remove_dups _)) as Hfin. unfold block in Hfin. case_bool_decide; lia.
Qed.

(** Numbers follow the order. *)
Lemma row_numbers_order l i j x y :
  (forall x y, le x y = false -> le y x = true) -> (forall x y z, le x y = true -> le y z = true -> le x z = true) ->
  In (i, x) (row_numbers key le l) -> In (j, y) (row_numbers key le l) -> key x = key y -> i < j -> le x y = true.
Proof.
  intros Ht Htr Hx Hy Hk Hij. apply row_numbers_elem, block_elem in Hx as [Hi Ex].
  apply row_numbers_elem, block_elem in Hy as [Hj Ey]. rewrite <- Hk in Ey.
  apply (StronglySorted_at _ _ _ _ _ _ (sort_by_sorted le (group key (key x) l) Ht Htr) Ex Ey). lia.
Qed.
End RowNumbers.

Lemma lex_total a : forall b, lex_le a b = false -> lex_le b a = true.
Proof.
  induction a as [|x a IH]; intros [|y b] H; simpl in *; try done.
  apply orb_false_iff in H as [H1 H2]. apply Z.ltb_ge in H1. destruct (Z.eqb_spec x y) as [->|Hne]; simpl in *.
  - rewrite Z.ltb_irrefl, Z.eqb_refl. simpl. by apply IH.
  - apply orb_true_iff. left. apply Z.ltb_lt. lia.
Qed.

Lemma lex_trans a : forall b c, lex_le a b = true -> lex_le b c = true -> lex_le a c = true.
Proof.
  induction a as [|x a IH]; intros [|y b] [|z c] H1 H2; simpl in *; try done.
  apply orb_true_iff in H1, H2. apply orb_true_iff.
  destruct H1 as [H1|H1], H2 as [H2|H2]; btrue; subst; try (left; apply Z.ltb_lt; lia).
  right. apply andb_true_iff. rewrite Z.eqb_refl. split; [done|]. by apply (IH b).
Qed.

Lemma lex_head x a y b : lex_le (x :: a) (y :: b) = true -> x <= y.
Proof. simpl. intros [H|H]%orb_true_iff; btrue; lia. Qed.

Lemma sublist_count {A} (P Q : A -> bool) l : (count_rows Q (List.filter P l) <= count_rows Q l)%nat.
Proof. unfold count_rows, select. induction l as [|x l IH]; simpl; [lia|]. destruct (P x); simpl; destruct (Q x); simpl; lia. Qed.

Lemma count_perm {A} (P : A -> bool) l l' : l ≡ₚ l' -> count_rows P l = count_rows P l'.
Proof. intros H. unfold count_rows, select. by induction H; simpl; repeat match goal with |- context [P ?x] => destruct (P x) end; simpl; try lia. Qed.

Lemma count_map {A B} (f : A -> B) (P : B -> bool) l : count_rows P (map f l) = count_rows (fun x => P (f x)) l.
Proof. unfold count_rows, select. induction l as [|x l IH]; simpl; [done|]. destruct (P (f x)); simpl; lia. Qed.

Lemma count_filter {A} (P Q : A -> bool) l : count_rows Q (List.filter P l) = count_rows (fun x => Q x && P x) l.
Proof. unfold count_rows, select. induction l as [|x l IH]; simpl; [done|]. destruct (P x); simpl; [rewrite andb_true_r; destruct (Q x); simpl; lia | rewrite andb_false_r; lia]. Qed.

Section Chosen.
Variables (pp pc : Z).

Lemma ranked_In l i a x : In (i, (a, x)) (ranked pc l) -> In (a, x) (per_country (deduped l)) /\ a <= pc.
Proof.
  intros H. assert (In (a, x) (map snd (ranked pc l))) as Hin by (apply in_map_iff; by exists (i, (a, x))).
  unfold ranked in Hin. rewrite <- list_elem_of_In, row_numbers_perm, list_elem_of_In in Hin.
  apply filter_In in Hin as [Hin Hle]. simpl in Hle. btrue. done.
Qed.

Lemma ranked_all l a x : In (a, x) (per_country (deduped l)) -> a <= pc -> exists i, In (i, (a, x)) (ranked pc l).
Proof.
  intros H Hle. assert (In (a, x) (map snd (ranked pc l))) as Hin.
  { unfold ranked. rewrite <- list_elem_of_In, row_numbers_perm, list_elem_of_In. apply filter_In. split; [done|].
    simpl. by apply Z.leb_le. }
  apply in_map_iff in Hin as ([i [a' x']] & E & Hin). simpl in E. injection E as -> ->. eauto.
Qed.

Lemma chosen_In l x : In x (chosen pp pc l) <-> exists i a, In (i, (a, x)) (ranked pc l) /\ i <= pp.
Proof.
  unfold chosen. rewrite in_map_iff. split.
  - intros ([i [a y]] & <- & [Hin Hle]%filter_In). simpl in *. btrue. eauto.
  - intros (i & a & Hin & Hle). exists (i, (a, x)). split; [done|]. apply filter_In. split; [done|]. by apply Z.leb_le.
Qed.

Lemma per_country_perm l : map snd (per_country l) ≡ₚ l.
Proof. apply row_numbers_perm. Qed.

Lemma deduped_addresses l : NoDup (map c_address (deduped l)).
Proof. apply distinct_on_NoDup. Qed.

Lemma deduped_In l x : In x (deduped l) -> In x l.
Proof. intros H%distinct_on_In. by rewrite <- list_elem_of_In, sort_by_perm, list_elem_of_In in H. Qed.

Lemma chosen_candidate l x : In x (chosen pp pc l) -> In x l.
Proof.
  intros (i & a & [H _]%ranked_In & _)%chosen_In. apply deduped_In. rewrite <- list_elem_of_In, <- (per_country_perm (deduped l)).
  apply list_elem_of_In, in_map_iff. by exists (a, x).
Qed.

Lemma ranked_perm l : map (fun x => x.2.2) (ranked pc l) ≡ₚ map snd (List.filter (fun x => x.1 <=? pc) (per_country (deduped l))).
Proof.
  rewrite <- (map_map snd snd). apply Permutation_map. unfold ranked. apply row_numbers_perm.
Qed.

Lemma NoDup_map_filter {A B} (f : A -> B) (P : A -> bool) l : NoDup (map f l) -> NoDup (map f (List.filter P l)).
Proof.
  induction l as [|x l IH]; simpl; [done|]. intros [Hx Hl]%NoDup_cons. destruct (P x); simpl; [|by apply IH].
  apply NoDup_cons. split; [|by apply IH]. intros Hin. apply Hx. apply list_elem_of_In, in_map_iff in Hin as (y & <- & [Hy _]%filter_In).
  apply list_elem_of_In, in_map_iff. eauto.
Qed.

Lemma chosen_addresses l : NoDup (map c_address (chosen pp pc l)).
Proof.
  unfold chosen. rewrite map_map. apply NoDup_map_filter. rewrite <- (map_map (fun x => x.2.2) c_address).
  rewrite ranked_perm. rewrite map_map. apply NoDup_map_filter. rewrite <- (map_map snd c_address).
  rewrite per_country_perm. apply deduped_addresses.
Qed.

Lemma chosen_provider_cap l k : Z.of_nat (count_rows (fun x => bool_decide (pf_key x = k)) (chosen pp pc l)) <= Z.max 0 pp.
Proof.
  unfold chosen. rewrite count_map, count_filter. destruct (Z.le_gt_cases 0 pp) as [Hp|Hp].
  - rewrite Z.max_r by done. apply (row_numbers_cap (fun x : Z * candidate => pf_key x.2) _ _ k pp Hp).
  - assert (count_rows (fun x => bool_decide (pf_key x.2.2 = k) && (x.1 <=? pp)) (ranked pc l) = 0%nat) as ->; [|lia].
    unfold count_rows. rewrite select_none; [done|]. intros [i ax] Hin. apply andb_false_iff. right. simpl. apply Z.leb_gt.
    apply row_numbers_elem, block_elem in Hin as [H1 _]. lia.
Qed.

Lemma chosen_country_cap l k c : Z.of_nat (count_rows (fun x => bool_decide ((pf_key x, c_country x) = (k, c))) (chosen pp pc l)) <= Z.max 0 pc.
Proof.
  set (P := fun x => bool_decide ((pf_key x, c_country x) = (k, c))).
  assert (count_rows P (chosen pp pc l) <= count_rows P (map (fun x => x.2.2) (ranked pc l)))%nat as H
    by (unfold chosen; rewrite !count_map; apply sublist_count).
  rewrite (count_perm _ _ _ (ranked_perm l)), count_map, count_filter in H. unfold P in *. clear P.
  etrans; [apply Nat2Z.inj_le, H|]. destruct (Z.le_gt_cases 0 pc) as [Hp|Hp].
  - rewrite Z.max_r by done. apply (row_numbers_cap (fun x => (pf_key x, c_country x)) _ _ (k, c) pc Hp).
  - assert (count_rows (fun x => bool_decide ((pf_key x.2, c_country x.2) = (k, c)) && (x.1 <=? pc)) (per_country (deduped l)) = 0%nat) as ->; [|lia].
    unfold count_rows. rewrite select_none; [done|]. intros [i x] Hin. apply andb_false_iff. right. simpl. apply Z.leb_gt.
    apply row_numbers_elem, block_elem in Hin as [H1 _]. lia.
Qed.

(** Targets are spread over countries.  If a candidate is chosen although
    another of the same provider and family is left out that the per-country
    cap would have admitted, then the chosen one ranks no lower within its
    country than the left-out one within its own: no country gets its next
    target before every other country with candidates has had as many. *)
Theorem targets_spread l a x b y :
  In (a, x) (per_country (deduped l)) -> In (b, y) (per_country (deduped l)) -> pf_key x = pf_key y ->
  In x (chosen pp pc l) -> ~ In y (chosen pp pc l) -> b <= pc -> a <= b.
Proof.
  intros Hx Hy Hk Hcx Hcy Hb. apply chosen_In in Hcx as (i & a' & Hi & Hle).
  assert (NoDup (map snd (per_country (deduped l)))) as Hnd.
  { rewrite per_country_perm. apply (NoDup_fmap_1 c_address), deduped_addresses. }
  destruct (ranked_In _ _ _ _ Hi) as [Ha' _].
  assert ((a', x) = (a, x)) as E by (by apply (NoDup_map_inj snd _ _ _ Hnd Ha' Hx)). injection E as ->.
  destruct (ranked_all l b y Hy Hb) as (j & Hj).
  assert (pp < j) as Hj' by (apply Z.nle_gt; intros ?; apply Hcy, chosen_In; eauto).
  unfold ranked in Hi, Hj. apply (lex_head a (size_key x) b (size_key y)).
  apply (row_numbers_order (fun z : Z * candidate => pf_key z.2) (fun z t => lex_le (z.1 :: size_key z.2) (t.1 :: size_key t.2))
    (List.filter (fun x => x.1 <=? pc) (per_country (deduped l))) i j (a, x) (b, y)); try done; [intros; by apply lex_total | intros ? ? ?; apply lex_trans | lia].
Qed.
End Chosen.

(** * Targets of a snapshot *)
Lemma number_targets_map snapshot l : forall id,
  length (number_targets id snapshot l) = length l /\
  map tg_address (number_targets id snapshot l) = map c_address l /\
  (forall t, In t (number_targets id snapshot l) -> exists x id', In x l /\ t = target_line id' snapshot x) /\
  (forall P Q, (forall id' x, P (target_line id' snapshot x) = Q x) ->
     count_rows P (number_targets id snapshot l) = count_rows Q l).
Proof.
  induction l as [|x l IH]; intros id; [split_and!; simpl; try done|]. destruct (IH (id + 1)) as (H1 & H2 & H3 & H4).
  cbn [number_targets length map]. rewrite H1, H2. split_and!; try done.
  - intros t [<-|Ht]; [exists x, id; auto with datatypes|]. destruct (H3 t Ht) as (y & id' & Hy & ->). exists y, id'. auto with datatypes.
  - intros P Q HPQ. unfold count_rows, select in *. simpl. rewrite HPQ. destruct (Q x); simpl; by rewrite (H4 P Q HPQ).
Qed.

Lemma deriveTargets_Ok cfg snapshot w n w' : deriveTargets cfg snapshot w = (Ok n, w') ->
  let l := chosen (MaxTargetsPerProvider cfg) (perCountry_of cfg) (candidates snapshot (w_db w)) in
  w_db w' = set_target_seq (fun s => s + Z.of_nat (length l))
    (set_target (fun t => t ++ number_targets (db_target_seq (w_db w)) snapshot l) (w_db w)) /\ n = Z.of_nat (length l).
Proof.
  intros H l. unfold deriveTargets in H. apply stmt_Ok in H as [H _]. fold l in H.
  destruct (negb _); [done|]. destruct (exists_row _ _); [done|]. injection H as H1 H2. split; congruence.
Qed.

Lemma candidates_from snapshot d x : In x (candidates snapshot d) ->
  exists p a, In p (db_prefix d) /\ pr_id p = c_prefix_id x /\ pr_snapshot p = snapshot /\ pr_long p = false /\
    db_asn d !! pr_origin p = Some a /\ an_provider a = c_provider x /\ c_prefix x = pr_prefix p /\
    c_address x = first_usable (pr_prefix p).
Proof.
  unfold candidates. intros Hin. apply list_elem_of_In, list_elem_of_omap in Hin as (p & Hp & E).
  apply list_elem_of_In, select_In in Hp as [Hp Hc]. btrue.
  destruct (db_asn d !! pr_origin p) as [a|] eqn:Ea; [|done]. simpl in E. injection E as <-. exists p, a. split_and!; done.
Qed.

Definition target_group (provider : string) (f : family) (t : target_row) : bool :=
  bool_decide (tg_provider t = provider) && bool_decide (addr_fam (tg_address t) = f).

(** Target derivation respects its budgets.  The statement adds targets
    only: each is active, is the first usable address of a prefix of this
    snapshot that is not too long, and belongs to the provider of the
    prefix's origin; no address is used twice; no provider gets more than its
    budget per address family and no country of it more than its cap. *)
Theorem targets_bounded cfg snapshot w n w' :
  deriveTargets cfg snapshot w = (Ok n, w') ->
  exists new, db_target (w_db w') = db_target (w_db w) ++ new /\ n = Z.of_nat (length new) /\
    NoDup (map tg_address new) /\
    (forall t, In t new -> tg_snapshot t = snapshot /\ tg_active t = true /\
       exists p a, In p (db_prefix (w_db w)) /\ pr_id p = tg_prefix t /\ pr_snapshot p = snapshot /\
         pr_long p = false /\ db_asn (w_db w) !! pr_origin p = Some a /\ an_provider a = tg_provider t /\
         tg_address t = first_usable (pr_prefix p)) /\
    (forall provider f, Z.of_nat (count_rows (target_group provider f) new) <= Z.max 0 (MaxTargetsPerProvider cfg)) /\
    (forall provider f c, Z.of_nat (count_rows (fun t => target_group provider f t && bool_decide (tg_country t = Some c)) new)
       <= Z.max 0 (perCountry_of cfg)).
Proof.
  intros [Hd ->]%deriveTargets_Ok. set (l := chosen _ _ _) in *.
  destruct (number_targets_map snapshot l (db_target_seq (w_db w))) as (Hlen & Haddr & Hin & Hcount).
  assert (forall x, In x l -> addr_fam (c_address x) = addr_fam (pfx_addr (c_prefix x))) as Hfam.
  { intros x Hx. apply chosen_candidate, candidates_from in Hx as (p & a & _ & _ & _ & _ & _ & _ & -> & ->). done. }
  assert (forall (P Q : candidate -> bool), (forall x, In x l -> P x = Q x) -> count_rows P l = count_rows Q l) as Hext.
  { intros P Q H. unfold count_rows, select. f_equal. by apply filter_ext_in. }
  exists (number_targets (db_target_seq (w_db w)) snapshot l). split_and!.
  - by rewrite Hd.
  - by rewrite Hlen.
  - rewrite Haddr. apply chosen_addresses.
  - intros t Ht. destruct (Hin t Ht) as (x & id' & Hx & ->). split_and!; [done | done |].
    apply chosen_candidate, candidates_from in Hx as (p & a & H1 & H2 & H3 & H4 & H5 & H6 & _ & H8). exists p, a. split_and!; done.
  - intros provider f. rewrite (Hcount _ (fun x => bool_decide (c_provider x = provider) && bool_decide (addr_fam (c_address x) = f))) by done.
    rewrite (Hext _ (fun x => bool_decide (pf_key x = (provider, f)))); [apply chosen_provider_cap|].
    intros x Hx. rewrite Hfam by done. unfold pf_key. apply eq_true_iff_eq.
    rewrite andb_true_iff, !bool_decide_eq_true. naive_solver.
  - intros provider f c.
    rewrite (Hcount _ (fun x => bool_decide (c_provider x = provider) && bool_decide (addr_fam (c_address x) = f) && bool_decide (Some (c_country x) = Some c))) by done.
    rewrite (Hext _ (fun x => bool_decide ((pf_key x, c_country x) = ((provider, f), c)))); [apply chosen_country_cap|].
    intros x Hx. rewrite Hfam by done. unfold pf_key. apply eq_true_iff_eq.
    rewrite !andb_true_iff, !bool_decide_eq_true. naive_solver.
Qed.

(** * The recorded distribution *)
Section DistributionRows.
Context {mo : MapOrder} {mol : MapOrderLaws}.

Definition insert_codes (snapshot : Z) (provider : string) (stats : gmap string CountryStat) (l : list (string * CountryStat)) : DB unit :=
  forM l (fun '(code, s) => insert_geo snapshot provider code s (default 0%Q (shares stats !! code))).

(** The line of a country after its upsert. *)
Definition line_of (stats : gmap string CountryStat) (code : string) (s : CountryStat) (old : option geo_row) : geo_row :=
  geo_line s (default 0%Q (shares stats !! code)) old.

Lemma insert_codes_Ok snapshot provider stats l : forall w u w', NoDup l.*1 ->
  insert_codes snapshot provider stats l w = (Ok u, w') ->
  forall snap prov code, db_provider_geo (w_db w') !! (snap, prov, code) =
    match (if bool_decide ((snap, prov) = (snapshot, provider)) then (list_to_map l : gmap string CountryStat) !! code else None) with
    | Some s => Some (line_of stats code s (db_provider_geo (w_db w) !! (snap, prov, code)))
    | None => db_provider_geo (w_db w) !! (snap, prov, code)
    end.
Proof.
  induction l as [|[c s] l IH]; intros w u w' Hnd H snap prov code.
  - unfold insert_codes in H. simpl in H. inv_ok. by case_bool_decide.
  - rewrite fmap_cons in Hnd. apply NoDup_cons in Hnd as [Hc Hnd]. unfold insert_codes in H. simpl in H. apply bindM_Ok in H as (u1 & w1 & H1 & H2).
    unfold insert_geo in H1. apply exec_Ok in H1 as [H1 _].
    rewrite (IH w1 u w' Hnd H2 snap prov code), H1. simpl.
    case_bool_decide as E.
    + injection E as -> ->. destruct (decide (code = c)) as [->|Hne].
      * rewrite (not_elem_of_list_to_map_1 l c Hc), !lookup_insert_eq. done.
      * rewrite !lookup_insert_ne by congruence. done.
    + rewrite lookup_insert_ne by congruence. done.
Qed.

Lemma insert_providers_Ok snapshot l : forall w u w', NoDup l.*1 ->
  forM l (fun '(provider, stats) => insert_codes snapshot provider stats (shuffle (map_to_list stats))) w = (Ok u, w') ->
  forall snap prov code, db_provider_geo (w_db w') !! (snap, prov, code) =
    match (if bool_decide (snap = snapshot) then
             (list_to_map l : gmap string (gmap string CountryStat)) !! prov else None) with
    | Some stats =>
        match stats !! code with
        | Some s => Some (line_of stats code s (db_provider_geo (w_db w) !! (snap, prov, code)))
        | None => db_provider_geo (w_db w) !! (snap, prov, code)
        end
    | None => db_provider_geo (w_db w) !! (snap, prov, code)
    end.
Proof using mol.
  induction l as [|[p stats] l IH]; intros w u w' Hnd H snap prov code.
  - simpl in H. inv_ok. by case_bool_decide.
  - rewrite fmap_cons in Hnd. apply NoDup_cons in Hnd as [Hc Hnd]. simpl in H. apply bindM_Ok in H as (u1 & w1 & H1 & H2).
    assert (NoDup (shuffle (map_to_list stats)).*1) as Hn1 by (rewrite shuffle_perm; apply NoDup_fst_map_to_list).
    pose proof (insert_codes_Ok _ _ _ _ _ _ _ Hn1 H1) as Hcodes.
    assert ((list_to_map (shuffle (map_to_list stats)) : gmap string CountryStat) = stats) as El.
    { rewrite (list_to_map_proper _ (map_to_list stats)) by (done || apply shuffle_perm). apply list_to_map_to_list. }
    rewrite (IH w1 u w' Hnd H2 snap prov code), (Hcodes snap prov code), El. simpl.
    destruct (decide (snap = snapshot)) as [->|Hs].
    + rewrite (bool_decide_true (snapshot = snapshot)) by done. destruct (decide (prov = p)) as [->|Hp].
      * rewrite (not_elem_of_list_to_map_1 l p Hc), lookup_insert_eq, bool_decide_true by done. done.
      * rewrite lookup_insert_ne, bool_decide_false by congruence. done.
    + rewrite !bool_decide_false by congruence. done.
Qed.

Lemma loadDistribution_Ok snapshot rows src w u w' : loadDistribution snapshot rows src w = (Ok u, w') ->
  forall snap prov code, db_provider_geo (w_db w') !! (snap, prov, code) =
    match (if bool_decide (snap = snapshot) then distribute rows (gs_Ranges <$> src) !! prov else None) with
    | Some stats =>
        match stats !! code with
        | Some s => Some (line_of stats code s (db_provider_geo (w_db w) !! (snap, prov, code)))
        | None => db_provider_geo (w_db w) !! (snap, prov, code)
        end
    | None => db_provider_geo (w_db w) !! (snap, prov, code)
    end.
Proof using mol.
  unfold loadDistribution. intros (w1 & w2 & E1 & _ & H & E2 & _)%tx_Ok snap prov code. rewrite E2, <- E1.
  set (m := distribute rows (gs_Ranges <$> src)) in *.
  assert (NoDup (shuffle (map_to_list m)).*1) as Hn by (rewrite shuffle_perm; apply NoDup_fst_map_to_list).
  rewrite (insert_providers_Ok snapshot _ w1 u w2 Hn H snap prov code).
  rewrite (list_to_map_proper _ (map_to_list m)) by (done || apply shuffle_perm). by rewrite list_to_map_to_list.
Qed.

(** What is published about a provider's footprint is exact.  Storing the
    distribution of a new snapshot leaves other snapshots' rows alone, and for
    every provider and country the stored row has the exact number of
    distinct IPv4 addresses and of IPv6 /64 networks the provider announces
    there; a country without a row has none. *)
Theorem distribution_recorded (records : list Range) snapshot rows src w u w' :
  GeoRecords (gs_Ranges <$> src) records -> rows_ok rows ->
  loadDistribution snapshot rows src w = (Ok u, w') ->
  (forall prov code, db_provider_geo (w_db w) !! (snapshot, prov, code) = None) ->
  (forall snap prov code, snap <> snapshot ->
     db_provider_geo (w_db w') !! (snap, prov, code) = db_provider_geo (w_db w) !! (snap, prov, code)) /\
  (forall prov code, prov <> ""%string ->
     let space f := cnt (fun a => bool_decide (country_at records f a = code) && announced rows prov f a) 0 (2 ^ unit_bits f) in
     match db_provider_geo (w_db w') !! (snapshot, prov, code) with
     | Some g => pg_ipv4 g = space V4 /\ pg_net64s g = space V6
     | None => space V4 = 0 /\ space V6 = 0
     end).
Proof using mol.
  intros Hgeo Hok H Hnew. pose proof (loadDistribution_Ok _ _ _ _ _ _ H) as Hl. split.
  - intros snap prov code Hs. by rewrite Hl, bool_decide_false.
  - intros prov code Hp space.
    pose proof (distribute_spec _ records rows prov code false Hok Hp) as H4.
    pose proof (distribute_spec _ records rows prov code true Hok Hp) as H6.
    change (recorded_at false prov code (distribute rows (gs_Ranges <$> src)) = space V4) in H4.
    change (recorded_at true prov code (distribute rows (gs_Ranges <$> src)) = space V6) in H6.
    assert (forall f, clampInt64 (space f) = space f) as Hc.
    { intros f. pose proof (announced_bound rows f prov (fun a => bool_decide (country_at records f a = code)) Hok).
      unfold clampInt64, MaxInt64. destruct (_ <? _) eqn:E; btrue; [|done].
      assert (space f <= 2 ^ 61) by done. lia. }
    rewrite Hl, bool_decide_true, Hnew by done. unfold recorded_at, recorded in H4, H6.
    destruct (distribute rows (gs_Ranges <$> src) !! prov) as [stats|]; cbn [default from_option id] in H4, H6.
    + destruct (stats !! code) as [s|]; [|rewrite <- H4, <- H6; split; reflexivity].
      change (IPv4Addresses s = space V4) in H4. change (IPv6Net64s s = space V6) in H6.
      unfold line_of, geo_line. cbn [pg_ipv4 pg_net64s]. rewrite H4, H6, !Hc. split; reflexivity.
    + rewrite lookup_empty in H4, H6. rewrite <- H4, <- H6. split; reflexivity.
Qed.
End DistributionRows.

(** * Releasing a snapshot *)
Lemma respects_lift_query (R : Z -> sys -> sys -> Prop) `{!PreOrderAt R} {A} (f : Z -> database -> A) : Respects R (lift (query f)).
Proof.
  intros w r w' E. destruct r as [a|e].
  - apply lift_query_Ok in E as (_ & -> & ->). split; [done | apply at_refl].
  - apply lift_run in E as (dw & [E1 E2]%stmt_Err & -> & ->). simpl in *. rewrite E1, set_sys_db_id. split; [done | apply at_refl].
Qed.

Lemma respects_lift_query_row (R : Z -> sys -> sys -> Prop) `{!PreOrderAt R} {A} (f : Z -> database -> option A) :
  Respects R (lift (query_row f)).
Proof.
  intros w r w' E. destruct r as [a|e].
  - apply lift_query_row_Ok in E as (_ & -> & ->). split; [done | apply at_refl].
  - apply lift_run in E as (dw & [E1 E2]%stmt_Err & -> & ->). simpl in *. rewrite E1, set_sys_db_id. split; [done | apply at_refl].
Qed.

(** The published snapshots, by id and version. *)
Definition published (s : sys) : list (Z * string) :=
  map (fun r => (sn_id r, sn_version r)) (select is_published (db_snapshot (sys_db s))).
Definition pointer (s : sys) : option object := sys_store s !! PointerKey.

(** Nothing visible to workers changed. *)
Definition Held (n : Z) (s s' : sys) : Prop := published s' = published s /\ pointer s' = pointer s.
#[global] Instance Held_preorder : PreOrderAt Held.
Proof. split; unfold Held; intros; [done | naive_solver congruence]. Qed.

Lemma published_update P f s : (forall r, sn_id (f r) = sn_id r /\ sn_version (f r) = sn_version r /\ sn_status (f r) = sn_status r) ->
  published (set_sys_db (set_snapshot (update_where P f) (sys_db s)) s) = published s.
Proof.
  intros Hf. unfold published. simpl. induction (db_snapshot (sys_db s)) as [|r l IH]; [done|].
  unfold update_where, select in *. simpl. destruct (Hf r) as (H1 & H2 & H3). unfold is_published in *.
  destruct (P r); rewrite ?H3; destruct (bool_decide (sn_status r = Published)); simpl; rewrite ?H1, ?H2, IH; done.
Qed.

Lemma respects_Get (R : Z -> sys -> sys -> Prop) `{!PreOrderAt R} key : Respects R (Get key).
Proof. unfold Get. respects. destruct (sys_store d !! key); [|done]. intros. simplify_eq. apply at_refl. Qed.

Section Release.
Context {cr : Crypto} {mj : ManifestJSON} {sf : SQLiteFormat}.
Variables (cfg : BuilderConfig) (Key : PrivateKey) (MinVersion : string) (has_publisher : bool).

Lemma Publish_held id v : Respects Held (Publish Key MinVersion id v).
Proof.
  unfold Publish. apply respects_bind; [apply _ | | intros ex].
  { unfold ExportSQLite. respects; apply respects_lift_query; apply _. }
  destruct (HashFile _) as [sum size]. apply respects_bind; [apply _ | apply respects_lift_query_row; apply _ | intros counts].
  apply respects_bind; [apply _ | apply respects_clock; apply _ | intros now].
  destruct (Sign _ Key) as [m|e] eqn:Es; [|respects]. apply Sign_Ok in Es as (p & _ & ->).
  unfold verifyReadback, Put. respects; try (apply respects_Get; apply _).
  - split; [done|]. unfold pointer. simpl. rewrite lookup_insert_ne; [done|]. apply sqlite_not_pointer.
  - split; [done|]. unfold pointer. simpl. rewrite lookup_insert_ne; [done|]. apply manifest_not_pointer.
  - apply respects_lift_exec; [apply _|]. intros n s. split; [|done]. by apply published_update.
Qed.

(** A snapshot's manifest and file are in the store and pass a worker's
    checks. *)
Definition artifact_ok (version : string) (s : sys) : Prop :=
  exists m content, sys_store s !! ObjectKeyManifest version = Some (OManifest m) /\ Version m = version /\
    Verify m (Public Key) = Ok tt /\ sys_store s !! ObjectKeySQLite version = Some (OBlob content) /\ VerifyFile content m = Ok tt.

Definition points_to (version : string) (s : sys) : Prop :=
  exists t, pointer s = Some (OPointer (MkPointer version (ObjectKeyManifest version) t)).

(** Snapshot [id] is the one published. *)
Record Released (id : Z) (version : string) (old : sys) (ok : bool) (s : sys) : Prop := {
  rl_published : forall row, In row (db_snapshot (sys_db s)) -> sn_status row = Published <-> sn_id row = id;
  rl_row : exists row, In row (db_snapshot (sys_db s)) /\ sn_id row = id /\ sn_version row = version;
  rl_artifact : has_publisher = true -> artifact_ok version s;
  rl_pointer : pointer s = pointer old \/ points_to version s;
  rl_current : ok = true -> has_publisher = true -> points_to version s
}.

Definition the_row (id : Z) (version : string) (t : list snapshot_row) : Prop :=
  (exists row, In row t /\ sn_id row = id /\ sn_version row = version) /\
  (forall row, In row t -> sn_version row = version -> sn_id row = id).

Lemma the_row_update id version P f t :
  (forall r, sn_id (f r) = sn_id r /\ sn_version (f r) = sn_version r) -> the_row id version t -> the_row id version (update_where P f t).
Proof.
  intros Hf [(row & Hin & H1 & H2) Hu].
  assert (forall r, sn_id (if P r then f r else r) = sn_id r /\ sn_version (if P r then f r else r) = sn_version r) as Hg
    by (intros r; destruct (P r); [apply Hf | done]).
  split.
  - exists (if P row then f row else row). destruct (Hg row) as [-> ->]. split_and!; [|done|done]. apply update_where_In. eauto.
  - intros r (s & Hs & ->)%update_where_In. destruct (Hg s) as [-> ->]. by apply Hu.
Qed.

Lemma the_row_flip id version now t : the_row id version t -> the_row id version (flip_rows now id t).
Proof. intros H. unfold flip_rows. by repeat apply the_row_update. Qed.

(** Publication, when there is a publisher. *)
Lemma release_artifact id version w r w1 :
  (if has_publisher then do! Publish Key MinVersion id version ;; ret tt else ret tt) w = (r, w1) ->
  the_row id version (db_snapshot (sys_db (w_db w))) ->
  Held 0 (w_db w) (w_db w1) /\
  (is_ok r = true -> the_row id version (db_snapshot (sys_db (w_db w1))) /\ (has_publisher = true -> artifact_ok version (w_db w1))).
Proof.
  intros H Hrow. destruct has_publisher; [|unfold ret in H; simplify_eq; split; [apply at_refl | done]].
  apply bind_cases in H as [(e & H & ->)|(m & w2 & H & E)].
  - apply Publish_held in H as [_ H]. split; [exact H | done].
  - unfold ret in E. simplify_eq. pose proof (Publish_held id version _ _ _ H) as [_ Hh]. split; [exact Hh|]. intros _.
    apply Publish_Ok in H as (H1 & _ & H2 & (content & H3 & H4) & H5 & _ & H6). rewrite H6. split.
    + simpl. by apply the_row_update.
    + intros _. exists m, content. split_and!; done.
Qed.

(** Pruning keeps what was just released. *)
Lemma prune_released id version old w r w' ok :
  Released id version old true (w_db w) -> has_publisher = true ->
  the_row id version (db_snapshot (sys_db (w_db w))) -> Prune (RetainSnapshots cfg) w = (r, w') ->
  Released id version old ok (w_db w').
Proof.
  intros [H1 H2 H3 H4 H5] Hp [_ Hu] H. apply Prune_only in H as (Es & _ & _ & _ & _ & Hkeys).
  assert (forall v, In v (victims (Z.to_nat (RetainSnapshots cfg)) (sys_db (w_db w))) -> sn_version v <> version) as Hv.
  { intros v [Hin Hs]%victims_superseded E. pose proof (proj2 (H1 v Hin) (Hu v Hin E)). congruence. }
  assert (pointer (w_db w') = pointer (w_db w)) as Ep.
  { apply Hkeys. intros v _. split; apply not_eq_sym; [apply sqlite_not_pointer | apply manifest_not_pointer]. }
  split; rewrite ?Es; try done.
  - intros _. destruct (H3 Hp) as (m & content & M1 & M2 & M3 & M4 & M5). exists m, content.
    rewrite !Hkeys; [done | |]; intros v Hin; specialize (Hv v Hin).
    + split; [intros E%sqlite_key_inj; congruence | apply sqlite_not_manifest].
    + split; [intros E; by apply (sqlite_not_manifest (sn_version v) version) | intros E%manifest_key_inj; congruence].
  - unfold points_to. rewrite Ep. done.
  - unfold points_to. rewrite Ep. intros _ _. by apply H5.
Qed.

Lemma release_safe id version w r w' :
  release cfg Key MinVersion has_publisher id version w = (r, w') ->
  the_row id version (db_snapshot (sys_db (w_db w))) ->
  (is_ok r = false /\ Held 0 (w_db w) (w_db w')) \/ Released id version (w_db w) (is_ok r) (w_db w').
Proof.
  intros H Hrow. unfold release in H. apply bind_cases in H as [(e & H & ->)|(u & w1 & H1 & H)].
  { apply release_artifact in H as [Hh _]; auto. }
  apply release_artifact in H1 as [Hh Hok]; [|done]. destruct (Hok eq_refl) as [Hrow1 Hart]. clear Hok.
  apply bind_cases in H as [(e & H & ->)|(u2 & w2 & H2 & H)].
  { left. split; [done|]. apply lift_run in H as (dw & H%tx_Err & E & _). simpl in H. rewrite H, set_sys_db_id in E. by rewrite E. }
  apply lift_run in H2 as (dw & [E2 En]%flip_Ok & E & _). simpl in E2. rewrite E2 in E.
  assert (the_row id version (db_snapshot (sys_db (w_db w2)))) as Hrow2 by (rewrite E; simpl; by apply the_row_flip).
  assert (Released id version (w_db w) false (w_db w2)) as Hrel.
  { rewrite E. split; simpl; [apply flip_rows_only | rewrite E in Hrow2; apply Hrow2 | done | left; apply Hh | done]. }
  destruct has_publisher eqn:Hpub.
  2:{ unfold ret in H. simplify_eq. right. destruct Hrel. split; [assumption..|]. intros _ Hf. rewrite Hpub in Hf. discriminate Hf. }
  apply bind_cases in H as [(e & H & ->)|(u3 & w3 & H3 & H)].
  { unfold SetCurrent, bindM, clock, Put in H. destruct (exec _ w2) as [[[]|e'] w3] eqn:E3; simplify_eq.
    apply stmt_Err in E3 as [-> _]. by right. }
  unfold SetCurrent, bindM, clock, Put in H3. apply exec_Ok in H3 as [E3 _]. right.
  assert (db_snapshot (sys_db (w_db w3)) = db_snapshot (sys_db (w_db w2))) as Esn by (by rewrite E3).
  apply (prune_released id version (w_db w) w3 r w' (is_ok r)); [|done|by rewrite Esn|done].
  destruct Hrel as [R1 R2 R3 R4 _]. assert (points_to version (w_db w3)) as Hpt.
  { exists (w_now w2). rewrite E3. unfold pointer. simpl. by rewrite lookup_insert_eq. }
  split; rewrite ?Esn; try done; [|by right].
  intros _. destruct (R3 Hpub) as (m & content & M1 & M2 & M3 & M4 & M5). exists m, content. rewrite E3. simpl.
  rewrite !lookup_insert_ne; [done | apply not_eq_sym, sqlite_not_pointer | apply not_eq_sym, manifest_not_pointer].
Qed.

(** A release never reports the sanity gate. *)
Lemma throws_lift (P : error -> Prop) {A} (m : DB A) : Throws P m -> Throws P (lift m).
Proof. intros Hm w e w' (dw & E & _)%lift_run. by eapply Hm. Qed.
Lemma release_throws id version : Throws (fun e => e <> ErrSanityGate) (release cfg Key MinVersion has_publisher id version).
Proof.
  assert (forall key, Throws (fun e => e <> ErrSanityGate) (Get key)) as HG.
  { intros key. unfold Get. apply throws_stmt; [done|]. intros n d e. by destruct (_ !! _); intros [= <-]. }
  assert (forall m pub e, Verify m pub = Err e -> e <> ErrSanityGate) as HV.
  { intros m pub e. unfold Verify, payload, of_option. repeat (case_match; simplify_eq); by intros [= <-]. }
  assert (forall c m e, VerifyFile c m = Err e -> e <> ErrSanityGate) as HF.
  { intros c m e. unfold VerifyFile. repeat (case_match; simplify_eq); by intros [= <-]. }
  assert (forall m e, Sign m Key = Err e -> e <> ErrSanityGate) as HS.
  { intros m e. unfold Sign, payload, of_option. repeat (case_match; simplify_eq); by intros [= <-]. }
  unfold release, Publish, ExportSQLite, verifyReadback, flip, SetCurrent, Put, Prune, prune_one, Delete.
  throws_with ltac:(first [apply throws_lift | apply HG | apply throws_throw; by eauto]).
Qed.
End Release.

(** * The whole run *)
Definition SnapSame (n : Z) (d d' : database) : Prop := db_snapshot d' = db_snapshot d.
#[local] Instance SnapSame_preorder : PreOrderAt SnapSame.
Proof. split; unfold SnapSame; intros; congruence. Qed.

(** A call that leaves the snapshot table alone is invisible to workers. *)
Lemma lift_quiet {A} (m : DB A) w r w' : Respects SnapSame m -> lift m w = (r, w') ->
  db_snapshot (sys_db (w_db w')) = db_snapshot (sys_db (w_db w)) /\ sys_store (w_db w') = sys_store (w_db w) /\
  Held 0 (w_db w) (w_db w').
Proof.
  intros Hm (dw & [_ H]%Hm & E & _)%lift_run. unfold SnapSame in H. simpl in H. rewrite E. unfold Held, published, pointer.
  simpl. by rewrite H.
Qed.

Definition gate_passes (cfg : BuilderConfig) (prev : option Z) (new : Z) : Prop :=
  match prev with
  | None => True
  | Some p => p = 0 \/ (swing p new <= SanityMaxDelta cfg)%Q \/ SanityForce cfg = true
  end.

Definition numbered (d : database) : Prop := forall s, In s (db_snapshot d) -> sn_id s < db_snapshot_seq d.

Section RunSpec.
Context {mo : MapOrder} {mol : MapOrderLaws} {cr : Crypto} {mj : ManifestJSON} {sf : SQLiteFormat}.
Variables (versionOf : Z -> Z -> string) (cfg : BuilderConfig) (Key : PrivateKey) (MinVersion : string) (has_publisher : bool).

Lemma count_families rows : count_family true rows + count_family false rows = Z.of_nat (length rows).
Proof.
  unfold count_family, count_rows, select. induction rows as [|r rows IH]; [done|]. simpl.
  destruct (Is4 _); cbn [eqb length]; lia.
Qed.

Lemma load_Ok rows stats w id version w' : load versionOf rows stats w = (Ok (id, version), w') ->
  exists row, db_snapshot (w_db w') = db_snapshot (w_db w) ++ [row] /\ sn_id row = id /\ sn_version row = version /\
    sn_status row = Building /\ total_prefixes row = Z.of_nat (length rows) /\ id = db_snapshot_seq (w_db w) /\
    forall s, In s (db_snapshot (w_db w)) -> sn_version s <> version.
Proof.
  intros (w1 & w2 & E1 & _ & H & E2 & _)%tx_Ok. apply bindM_Ok in H as (now & w3 & [-> ->]%clock_Ok & H).
  apply bindM_Ok in H as (i & w4 & H1 & H). apply bindM_Ok in H as (u & w5 & H2 & H). unfold ret in H. simplify_eq.
  unfold insert_snapshot in H1. apply stmt_Ok in H1 as [H1 _]. destruct (exists_row _ _) eqn:Ex; [done|].
  injection H1 as Hid Hd. unfold copy_prefixes in H2. apply stmt_Ok in H2 as [H2 _].
  destruct (negb _); [done|]. destruct (_ || _); [done|]. injection H2 as _ Hd2. rewrite E2, <- Hd2, <- Hd. simpl. rewrite E1.
  eexists. split; [done|]. simpl. rewrite <- E1, Hid. split_and!; try done.
  - unfold total_prefixes. simpl. apply count_families.
  - intros s Hs E. unfold exists_row in Ex. apply existsb_none with (x := s) in Ex; [|done]. apply bool_decide_eq_false in Ex. congruence.
Qed.

Lemma newest_building d row : sn_status row = Building ->
  newest_published (set_snapshot (fun t => t ++ [row]) d) = newest_published d.
Proof. intros E. unfold newest_published. simpl. rewrite foldl_app. simpl. by rewrite E. Qed.

Lemma sanityGate_Ok id w u w' : sanityGate cfg id w = (Ok u, w') -> forall row,
  List.find (fun s => sn_id s =? id) (db_snapshot (w_db w)) = Some row ->
  w_db w' = w_db w /\ gate_passes cfg (total_prefixes <$> newest_published (w_db w)) (total_prefixes row).
Proof.
  intros H row Hrow. unfold sanityGate in H. apply bindM_Ok in H as (prev & w1 & (-> & E1 & _)%query_Ok & H).
  destruct (total_prefixes <$> newest_published (w_db w)) as [p|] eqn:Ep; [|unfold ret in H; simplify_eq; done].
  apply bindM_Ok in H as (new & w2 & (Hn & E2 & _)%query_row_Ok & H). rewrite E1, Hrow in Hn. simpl in Hn. injection Hn as <-.
  assert (w' = w2 /\ gate_passes cfg (Some p) (total_prefixes row)) as [-> Hg].
  { simpl. destruct (p =? 0) eqn:E0; btrue; [unfold ret in H; simplify_eq; auto|].
    destruct (Qle_bool _ _) eqn:Eq; [apply Qle_bool_iff in Eq; unfold ret in H; simplify_eq; auto|].
    destruct (SanityForce cfg) eqn:Ef; [unfold ret in H; simplify_eq; auto | done]. }
  split; [congruence | done].
Qed.

Lemma find_last (t : list snapshot_row) row id : (forall s, In s t -> sn_id s < id) -> sn_id row = id ->
  List.find (fun s => sn_id s =? id) (t ++ [row]) = Some row.
Proof.
  intros Ht E. induction t as [|s t IH]; simpl.
  - by rewrite E, Z.eqb_refl.
  - rewrite (proj2 (Z.eqb_neq _ _)) by (specialize (Ht s (or_introl eq_refl)); lia). apply IH. auto with datatypes.
Qed.

Lemma steps_quiet id rows src :
  Respects SnapSame (loadDistribution id rows src) /\ Respects SnapSame (deriveTargets cfg id) /\
  Respects SnapSame (countTargetsByCountry id) /\ Respects SnapSame (sanityGate cfg id).
Proof.
  split_and!.
  - unfold loadDistribution, insert_geo. by respects.
  - unfold deriveTargets. apply respects_stmt; [apply _|]. intros n d a d'. destruct (negb _); [done|].
    destruct (exists_row _ _); [done|]. intros E. by injection E as _ <-.
  - unfold countTargetsByCountry. by respects.
  - unfold sanityGate. by respects.
Qed.

(** From the loaded snapshot to the gate: nothing visible changes, and the
    gate has judged the extracted rows against what is published. *)
Lemma load_to_gate rows stats src w r w' (k : Z -> string -> SM unit) :
  numbered (sys_db (w_db w)) ->
  (let! loaded := lift (load versionOf rows stats) in
   let '(id, version) := loaded in
   do! lift (loadDistribution id rows src) ;;
   do! lift (deriveTargets cfg id) ;;
   do! lift (countTargetsByCountry id) ;;
   do! lift (sanityGate cfg id) ;;
   k id version) w = (r, w') ->
  (is_ok r = false /\ Held 0 (w_db w) (w_db w')) \/
  exists id version w1, k id version w1 = (r, w') /\ Held 0 (w_db w) (w_db w1) /\
    the_row id version (db_snapshot (sys_db (w_db w1))) /\
    (forall s, In s (db_snapshot (sys_db (w_db w))) -> sn_version s <> version) /\
    gate_passes cfg (total_prefixes <$> newest_published (sys_db (w_db w))) (Z.of_nat (length rows)).
Proof.
  intros Hnum H. apply bind_cases in H as [(e & H & ->)|([id version] & w1 & H1 & H)].
  { left. split; [done|]. apply lift_run in H as (dw & H%tx_Err & E & _). simpl in H. rewrite H, set_sys_db_id in E. by rewrite E. }
  apply lift_run in H1 as (dw & (row & E1 & Hid & Hv & Hst & Htot & Eid & Hfresh)%load_Ok & E & _). simpl in *.
  destruct (steps_quiet id rows src) as (Q1 & Q2 & Q3 & Q4).
  assert (db_snapshot (sys_db (w_db w1)) = db_snapshot (sys_db (w_db w)) ++ [row]) as Es by (rewrite E; exact E1).
  assert (Held 0 (w_db w) (w_db w1)) as Hh.
  { split; [|by rewrite E]. unfold published. rewrite Es. unfold select. rewrite List.filter_app. simpl.
    unfold is_published at 2. rewrite Hst. simpl. by rewrite app_nil_r. }
  apply bind_cases in H as [(e & H & ->)|(u2 & w2 & H2 & H)].
  { left. split; [done|]. apply lift_quiet in H as (_ & _ & H); [|done]. by eapply at_trans. }
  apply lift_quiet in H2 as (S2 & _ & G2); [|done].
  apply bind_cases in H as [(e & H & ->)|(u3 & w3 & H3 & H)].
  { left. split; [done|]. apply lift_quiet in H as (_ & _ & H); [|done]. repeat (eapply at_trans; [eassumption|]). apply at_refl. }
  apply lift_quiet in H3 as (S3 & _ & G3); [|done].
  apply bind_cases in H as [(e & H & ->)|(u4 & w4 & H4 & H)].
  { left. split; [done|]. apply lift_quiet in H as (_ & _ & H); [|done]. repeat (eapply at_trans; [eassumption|]). apply at_refl. }
  apply lift_quiet in H4 as (S4 & _ & G4); [|done].
  apply bind_cases in H as [(e & H & ->)|(u5 & w5 & H5 & H)].
  { left. split; [done|]. apply lift_quiet in H as (_ & _ & H); [|done]. repeat (eapply at_trans; [eassumption|]). apply at_refl. }
  pose proof H5 as H5'. apply lift_quiet in H5' as (S5 & _ & G5); [|done]. right. exists id, version, w5.
  assert (db_snapshot (sys_db (w_db w4)) = db_snapshot (sys_db (w_db w)) ++ [row]) as Es4 by congruence.
  assert (forall s, In s (db_snapshot (sys_db (w_db w))) -> sn_id s < id) as Hlt by (rewrite Eid; exact Hnum).
  split_and!; [done | repeat (eapply at_trans; [eassumption|]); apply at_refl | | done |].
  - rewrite S5, Es4. split; [exists row; rewrite in_app_iff; simpl; auto|].
    intros s [Hs|[<-|[]]]%in_app_iff Ev; [by apply Hfresh in Hs | done].
  - apply lift_run in H5 as (dw5 & H5 & _). apply sanityGate_Ok with (row := row) in H5 as [_ Hg].
    + simpl in Hg. rewrite Htot in Hg. unfold newest_published in *. rewrite Es4, foldl_app in Hg. simpl in Hg.
      by rewrite Hst in Hg.
    + simpl. rewrite Es4. by apply find_last.
Qed.

Lemma enrich_length rows src : length (enrich rows src) = length rows.
Proof. apply length_map. Qed.

(** A run up to the release: it ends early and nothing visible changed, or a
    new snapshot passed the gate and is being released. *)
Lemma Run_to_release feed dump src w r w' :
  Run versionOf cfg Key MinVersion has_publisher feed dump src w = (r, w') ->
  numbered (sys_db (w_db w)) ->
  (is_ok r = false /\ Held 0 (w_db w) (w_db w')) \/
  exists asns rows stats id version w2,
    extract (dom asns) asns dump = Ok (rows, stats) /\
    gate_passes cfg (total_prefixes <$> newest_published (sys_db (w_db w))) (Z.of_nat (length rows)) /\
    (forall s, In s (db_snapshot (sys_db (w_db w))) -> sn_version s <> version) /\
    the_row id version (db_snapshot (sys_db (w_db w2))) /\ Held 0 (w_db w) (w_db w2) /\
    release cfg Key MinVersion has_publisher id version w2 = (r, w').
Proof.
  intros H Hnum. unfold Run in H.
  assert (Respects (fun _ d d' => db_snapshot d' = db_snapshot d /\ db_snapshot_seq d' = db_snapshot_seq d) (SyncProviders feed)) as Hsync
    by (apply SyncProviders_respects; [split; naive_solver congruence | done]).
  apply bind_cases in H as [(e & H & ->)|(asns & w1 & H1 & H)].
  { left. split; [done|]. apply lift_quiet in H as (_ & _ & H); [exact H|].
    intros x y z Hxyz. destruct (Hsync x y z Hxyz) as (? & ? & _). done. }
  apply lift_run in H1 as (dw & [_ [Es Eseq]]%Hsync & E & _). simpl in *.
  assert (Held 0 (w_db w) (w_db w1)) as Hh by (rewrite E; unfold Held, published, pointer; simpl; by rewrite Es).
  assert (newest_published (sys_db (w_db w1)) = newest_published (sys_db (w_db w)) /\
    db_snapshot (sys_db (w_db w1)) = db_snapshot (sys_db (w_db w)) /\ numbered (sys_db (w_db w1))) as (En & Es1 & Hnum1).
  { rewrite E. simpl. unfold newest_published, numbered. rewrite Es, Eseq. done. }
  destruct (extract _ _ dump) as [[rows stats]|e] eqn:Ex; [|left; unfold throw in H; simplify_eq; split; [done | exact Hh]].
  destruct src as [src|e]; [|left; unfold throw in H; simplify_eq; split; [done | exact Hh]].
  set (rows' := match src with Some s => enrich rows s | None => rows end) in H.
  assert (length rows' = length rows) as El by (unfold rows'; destruct src; [apply enrich_length | done]).
  apply load_to_gate in H as [[Hr H]|(id & version & w2 & H & H2 & Hrow & Hfresh & Hg)]; [| |done].
  { left. split; [done|]. assert (Held 0 (w_db w) (w_db w')) as H3 by (by eapply at_trans). exact H3. }
  rewrite En, El in Hg. rewrite Es1 in Hfresh. assert (Held 0 (w_db w) (w_db w2)) as H3 by (by eapply at_trans).
  right. exists asns, rows, stats, id, version, w2. done.
Qed.

(** The new snapshot is judged against what was published before the run. *)
Lemma released_since id version old mid ok s : Held 0 old mid ->
  Released Key has_publisher id version mid ok s -> Released Key has_publisher id version old ok s.
Proof. intros [_ Hp] [R1 R2 R3 R4 R5]. split; try done. by rewrite Hp in R4. Qed.

(** C3: A run of the builder is safe, whatever fails in it.  Either it reports
    an error and nothing visible to workers has changed (the published
    snapshot and the current pointer are as before), or exactly one snapshot,
    newly built under a fresh version, is published: its prefix count passed
    the sanity gate (or the override is set), its manifest and artifact are in
    the store and pass a worker's checks when a publisher is configured, and
    the pointer still names what it did or names the new version.  A run that
    reports success has moved the pointer. *)
Theorem run_safe feed dump src w r w' :
  Run versionOf cfg Key MinVersion has_publisher feed dump src w = (r, w') ->
  numbered (sys_db (w_db w)) ->
  (is_ok r = false /\ published (w_db w') = published (w_db w) /\ pointer (w_db w') = pointer (w_db w)) \/
  exists asns rows stats id version,
    extract (dom asns) asns dump = Ok (rows, stats) /\
    gate_passes cfg (total_prefixes <$> newest_published (sys_db (w_db w))) (Z.of_nat (length rows)) /\
    (forall s, In s (db_snapshot (sys_db (w_db w))) -> sn_version s <> version) /\
    Released Key has_publisher id version (w_db w) (is_ok r) (w_db w').
Proof.
  intros H Hnum. apply Run_to_release in H as [[Hr [H1 H2]]|(asns & rows & stats & id & version & w2 & Hx & Hg & Hf & Hrow & Hh & H)];
    [by left | | done].
  apply release_safe in H as [[Hr H]|H]; [|right|done].
  - left. split; [done|]. assert (Held 0 (w_db w) (w_db w')) as H4 by (by eapply at_trans). exact H4.
  - exists asns, rows, stats, id, version. split_and!; try done. by eapply released_since.
Qed.
End RunSpec.

(** * Witnesses *)
Module ToyBuilder.
Import Toy ToyArtifact ToyGeo.
Definition toy_asns : gmap Z string := {[65001 := "p"%string]}.
Definition toy_extracted : list prefixRow * Stats :=
  match extract {[65001]} toy_asns (Ok (toy_dump, None)) with Ok x => x | Err _ => ([], MkStats 0 0 0 0) end.

Definition toy_feed : list Provider := [MkProvider "p" "Provider" [65001] true 1].
Definition toy_cfg : BuilderConfig := MkBuilderConfig 2 1 (1 # 2) false 3.
Definition toy_source : GeoSource := MkGeoSource (fun _ => country "MD") geo_split.
Definition toy_version (source now : Z) : string := "v9".
(** A database in which snapshot 3, with one prefix, is published. *)
Definition toy_start : sysworld := World (Sys (set_snapshot_seq (fun _ => 4) toy_database) ∅ false None 0) 7 [].
Definition toy_run : result unit * sysworld :=
  Run toy_version toy_cfg (cr:=toy_crypto) alice "1.0" true (Ok toy_feed) (Ok (toy_dump, None)) (Ok (Some toy_source)) toy_start.

(** Two countries with two candidates each and one with one. *)
Definition toy_candidate (n : Z) (c : string) : candidate :=
  Candidate "p" n (Addr V4 (256 * n + 1)) 24 (10 - n) (Prefix (Addr V4 (256 * n)) 24) c None.
Definition toy_candidates : list candidate :=
  [toy_candidate 1 "MD"; toy_candidate 2 "MD"; toy_candidate 3 "NL"; toy_candidate 4 "NL"].

(** A snapshot with three prefixes of one provider. *)
Definition toy_line (n : Z) (c : string) : prefix_row := PrefixRow n 4 (Prefix (Addr V4 (256 * n)) 24) 65001 (Some c) None 1 [] false.
Definition toy_loaded : dbworld :=
  World (set_provider (<["p"%string := ProviderRow "Provider" true 1 0 None]>)
    (set_asn (<[65001 := AsnRow "p" 0]>) (set_prefix (fun _ => [toy_line 1 "MD"; toy_line 2 "MD"; toy_line 3 "NL"]) empty_db))) 7 [].
Definition toy_derived : dbworld := (deriveTargets toy_cfg 4 toy_loaded).2.
Definition toy_distributed : dbworld := (loadDistribution 4 nested_rows (Some toy_source) toy_loaded).2.
End ToyBuilder.
Import ToyArtifact ToyGeo ToyBuilder.

Lemma extract_exact_witness :
  (Prefix (v4 185 0 0 0) 24, 65001) ∈ map row_key toy_extracted.1 /\
  exists row, In row toy_extracted.1 /\ row_provider row = "p"%string.
Proof.
  assert (extract {[65001]} toy_asns (Ok (toy_dump, None)) = Ok (toy_extracted.1, toy_extracted.2)) as E by (vm_compute; reflexivity).
  destruct (extract_exact {[65001]} toy_asns toy_dump toy_extracted.1 toy_extracted.2 E) as (_ & _ & _ & Hrow).
  split; [apply (bool_decide_unpack _); vm_compute; exact I|].
  assert (exists row, In row toy_extracted.1 /\ row_origin row = 65001) as (row & Hin & Ho) by (eexists; vm_compute; auto).
  exists row. split; [exact Hin|]. rewrite (proj1 (Hrow row Hin)), Ho. reflexivity.
Defined.

Lemma targets_spread_witness :
  In (toy_candidate 1 "MD") (chosen 2 2 toy_candidates) /\ In (toy_candidate 3 "NL") (chosen 2 2 toy_candidates) /\
  forall a, In (a, toy_candidate 3 "NL") (per_country (deduped toy_candidates)) -> a <= 2.
Proof.
  split; [vm_compute; auto|]. split; [vm_compute; auto|]. intros a Ha.
  apply (targets_spread 2 2 toy_candidates a (toy_candidate 3 "NL") 2 (toy_candidate 2 "MD")).
  - exact Ha.
  - vm_compute. auto.
  - reflexivity.
  - vm_compute. auto.
  - vm_compute. intuition discriminate.
  - lia.
Defined.

Lemma targets_bounded_witness :
  deriveTargets toy_cfg 4 toy_loaded = (Ok 2, toy_derived) /\
  exists new, db_target (w_db toy_derived) = db_target (w_db toy_loaded) ++ new /\
    Z.of_nat (count_rows (target_group "p" V4) new) <= Z.max 0 2.
Proof.
  assert (deriveTargets toy_cfg 4 toy_loaded = (Ok 2, toy_derived)) as E by (vm_compute; reflexivity). split; [exact E|].
  destruct (targets_bounded toy_cfg 4 toy_loaded 2 toy_derived E) as (new & H1 & _ & _ & _ & H2 & _).
  exists new. split; [exact H1 | exact (H2 "p"%string V4)].
Defined.

Lemma distribution_recorded_witness :
  exists g, db_provider_geo (w_db toy_distributed) !! (4, "p"%string, "MD"%string) = Some g /\ pg_ipv4 g = 32768 /\
    cnt (fun a => bool_decide (country_at geo_db V4 a = "MD"%string) && announced nested_rows "p" V4 a) 0 (2 ^ unit_bits V4) = 32768.
Proof.
  assert (loadDistribution 4 nested_rows (Some toy_source) toy_loaded = (Ok tt, toy_distributed)) as E by (vm_compute; reflexivity).
  assert (rows_ok nested_rows) as Hok.
  { intros row Hrow. repeat (destruct Hrow as [<-|Hrow]; [vm_compute; intuition discriminate|]). destruct Hrow. }
  assert (forall prov code, db_provider_geo (w_db toy_loaded) !! (4, prov, code) = None) as Hn by (intros; apply lookup_empty).
  assert (exists g, db_provider_geo (w_db toy_distributed) !! (4, "p"%string, "MD"%string) = Some g /\ pg_ipv4 g = 32768)
    as (g & Hg & H4) by (vm_compute; eexists; split; reflexivity).
  assert ("p"%string <> ""%string) as Hp by discriminate.
  destruct (distribution_recorded geo_db 4 nested_rows (Some toy_source) toy_loaded tt toy_distributed
    geo_db_records Hok E Hn) as [_ H].
  specialize (H "p"%string "MD"%string Hp). cbv zeta in H. rewrite Hg in H.
  exists g. split; [exact Hg|]. split; [exact H4|]. rewrite <- H4. symmetry. exact (proj1 H).
Defined.

Lemma run_safe_witness :
  toy_run.1 = Ok tt /\ exists version, points_to version (w_db toy_run.2).
Proof.
  assert (toy_run.1 = Ok tt) as E by (vm_compute; reflexivity). split; [exact E|].
  destruct (run_safe toy_version toy_cfg (cr:=Toy.toy_crypto) Toy.alice "1.0" true (Ok toy_feed) (Ok (toy_dump, None))
    (Ok (Some toy_source)) toy_start (Ok tt) toy_run.2) as [[H _]|(asns & rows & stats & id & version & _ & _ & _ & H)].
  - rewrite <- E. apply surjective_pairing.
  - intros s Hs. repeat (destruct Hs as [<-|Hs]; [vm_compute; reflexivity|]). destruct Hs.
  - discriminate H.
  - exists version. exact (rl_current _ _ _ _ _ _ _ H eq_refl eq_refl).
Defined.
