(* ===== verification/WellFormed.v ===== *)
(** The database as the migrations type it ([migrations/*.sql]): every primary
    key, unique index and foreign key of the six schemas, as one predicate
    [WF] on [database], and that every write of every service keeps it.

    The constraints are grouped by schema.  Each group is a record over the
    tables it mentions, so that a statement on other tables keeps it by
    computation.  A keyed table ([gmap]) has its primary key by construction.

    Constraints the statements of the other files report as errors
    ([EConstraint]) are used here; foreign keys those statements do not test
    are shown to hold, so no insert of the program can be refused by one, and
    no delete of the retention pass can leave a dangling reference. *)
From stdpp Require Import base gmap strings list pretty.
From Stdlib Require Import ZArith QArith Lia.
From S2P Require Import Prelude Netip Schema Codec Wireauth Artifact Observation Registry Leasing Upload Server Trust.
From S2P Require Import Consensus Rollup Outbox Advisor Routing Distribution Builder.
Open Scope Z_scope.

(** * The constraints *)
(** [bigint primary key generated always as identity]. *)
Record identity_col {A} (key : A -> Z) (seq : Z) (t : list A) : Prop := {
  id_unique : NoDup (map key t);
  id_below : forall r, In r t -> key r < seq
}.

Record registry_ok (workers : gmap string worker_row) (keys : list key_row) (kseq : Z)
    (tokens : gmap string token_row) (scores : gmap string trust_row) (events : list trust_event_row)
    (nonces : gmap (string * string) Z) : Prop := {
  worker_key_pkey : identity_col k_id kseq keys;
  worker_key_worker_fkey : forall k, In k keys -> is_Some (workers !! k_worker k);
  one_current_key : forall id, (count_rows (current_key id) keys <= 1)%nat;
  token_worker_fkey : forall h t, tokens !! h = Some t -> is_Some (workers !! t_worker t);
  trust_score_worker_fkey : forall id, is_Some (scores !! id) -> is_Some (workers !! id);
  trust_event_worker_fkey : forall e, In e events -> is_Some (workers !! te_worker e);
  nonce_worker_fkey : forall k, is_Some (nonces !! k) -> is_Some (workers !! k.1)
}.

Record routing_ok (snaps : list snapshot_row) (sseq : Z) (providers : gmap string provider_row)
    (asns : gmap Z asn_row) (prefixes : list prefix_row) (pseq : Z) (targets : list target_row) (tseq : Z)
    (geo : gmap (Z * string * string) geo_row) : Prop := {
  snapshot_pkey : identity_col sn_id sseq snaps;
  snapshot_version_key : NoDup (map sn_version snaps);
  asn_provider_fkey : forall n a, asns !! n = Some a -> is_Some (providers !! an_provider a);
  prefix_pkey : identity_col pr_id pseq prefixes;
  prefix_key : NoDup (map (fun p => (pr_snapshot p, pr_prefix p, pr_origin p)) prefixes);
  prefix_snapshot_fkey : forall p, In p prefixes -> In (pr_snapshot p) (map sn_id snaps);
  prefix_origin_fkey : forall p, In p prefixes -> is_Some (asns !! pr_origin p);
  target_pkey : identity_col tg_id tseq targets;
  target_key : NoDup (map (fun t => (tg_snapshot t, tg_address t)) targets);
  target_snapshot_fkey : forall t, In t targets -> In (tg_snapshot t) (map sn_id snaps);
  target_provider_fkey : forall t, In t targets -> is_Some (providers !! tg_provider t);
  (* the prefix is of the same snapshot, so both go in the same retention pass *)
  target_prefix_fkey : forall t, In t targets ->
    In (tg_prefix t, tg_snapshot t) (map (fun p => (pr_id p, pr_snapshot p)) prefixes);
  geo_snapshot_fkey : forall k, is_Some (geo !! k) -> In k.1.1 (map sn_id snaps)
}.

Definition live_pair (a : Z) (w : string) (l : lease_row) : bool :=
  live l && (l_assignment l =? a) && bool_decide (l_worker l = w).

Record scheduling_ok (workers : gmap string worker_row) (providers : gmap string provider_row)
    (targets : list target_row) (assignments : list assignment_row) (aseq : Z) (leases : list lease_row) : Prop := {
  assignment_pkey : identity_col a_id aseq assignments;
  assignment_target_fkey : forall a, In a assignments -> In (a_target a) (map tg_id targets);
  assignment_provider_fkey : forall a, In a assignments -> is_Some (providers !! a_provider a);
  lease_assignment_fkey : forall l, In l leases -> In (l_assignment l) (map a_id assignments);
  lease_worker_fkey : forall l, In l leases -> is_Some (workers !! l_worker l);
  one_live_lease : forall a w, (count_rows (live_pair a w) leases <= 1)%nat
}.

Record aggregation_ok (windows : list window_row) (outbox : list outbox_row) (oseq : Z) : Prop := {
  window_unique : NoDup (map window_key windows);
  outbox_pkey : identity_col ob_id oseq outbox
}.

Definition RegistryOK (d : database) : Prop :=
  registry_ok (db_worker d) (db_worker_key d) (db_key_seq d) (db_token d) (db_trust_score d) (db_trust_event d) (db_nonce d).
Definition RoutingOK (d : database) : Prop :=
  routing_ok (db_snapshot d) (db_snapshot_seq d) (db_provider d) (db_asn d) (db_prefix d) (db_prefix_seq d)
    (db_target d) (db_target_seq d) (db_provider_geo d).
Definition SchedulingOK (d : database) : Prop :=
  scheduling_ok (db_worker d) (db_provider d) (db_target d) (db_assignment d) (db_assignment_seq d) (db_lease d).
Definition AggregationOK (d : database) : Prop := aggregation_ok (db_window d) (db_outbox d) (db_outbox_seq d).

Record WF (d : database) : Prop := {
  wf_registry : RegistryOK d;
  wf_routing : RoutingOK d;
  wf_scheduling : SchedulingOK d;
  wf_aggregation : AggregationOK d
}.

Lemma WF_empty : WF empty_db.
Proof.
  assert (forall A (key : A -> Z), identity_col key 1 []) as Hid by (intros; split; [constructor | done]).
  split; split; simpl; try apply Hid; try apply NoDup_nil_2; try done; intros; try (apply Nat.le_0_l);
    try (by rewrite lookup_empty in *); by match goal with H : is_Some _ |- _ => apply lookup_empty_is_Some in H end.
Qed.

(** * Identity columns *)
Section Identity.
Context {A : Type} (key : A -> Z).

Lemma identity_update seq p f t : (forall x, key (f x) = key x) -> identity_col key seq t ->
  identity_col key seq (update_where p f t).
Proof.
  intros Hf [Hn Hb]. split; [by rewrite update_map_id|].
  intros r (r0 & Hr & ->)%update_where_In. destruct (p r0); rewrite ?Hf; by apply Hb.
Qed.

Lemma identity_delete seq p t : identity_col key seq t -> identity_col key seq (delete_where p t).
Proof. intros [Hn Hb]. split; [by apply NoDup_select|]. intros r [Hr _]%delete_where_In. by apply Hb. Qed.

(** Rows appended with consecutive ids from the sequence. *)
Lemma identity_append seq t new :
  map key new = seqZ seq (Z.of_nat (length new)) -> identity_col key seq t ->
  identity_col key (seq + Z.of_nat (length new)) (t ++ new).
Proof.
  intros Hk [Hn Hb]. split.
  - rewrite map_app. apply NoDup_app. split_and!; [done | | rewrite Hk; apply NoDup_seqZ].
    intros x (r & <- & Hr)%list_elem_of_In%in_map_iff. rewrite Hk, elem_of_seqZ. specialize (Hb r Hr). lia.
  - intros r [Hr|Hr]%in_app_iff; [specialize (Hb r Hr); lia|].
    apply (in_map key) in Hr. rewrite Hk, <- list_elem_of_In, elem_of_seqZ in Hr. lia.
Qed.

Lemma identity_push seq t r : key r = seq -> identity_col key seq t -> identity_col key (Z.succ seq) (t ++ [r]).
Proof. intros Hk HI. apply (identity_append seq t [r]); [simpl; by rewrite Hk | done]. Qed.
End Identity.

(** * The registry *)
Section RegistryRules.
Context {workers : gmap string worker_row} {keys : list key_row} {kseq : Z} {tokens : gmap string token_row}
  {scores : gmap string trust_row} {events : list trust_event_row} {nonces : gmap (string * string) Z}.
Hypothesis HR : registry_ok workers keys kseq tokens scores events nonces.

Lemma registry_workers workers' : (forall id, is_Some (workers !! id) -> is_Some (workers' !! id)) ->
  registry_ok workers' keys kseq tokens scores events nonces.
Proof using HR. intros Hw. destruct HR. split; eauto. Qed.

Lemma registry_key_update p f :
  (forall k, k_id (f k) = k_id k) -> (forall k, k_worker (f k) = k_worker k) ->
  (forall id k, current_key id (f k) = true -> current_key id k = true) ->
  registry_ok workers (update_where p f keys) kseq tokens scores events nonces.
Proof using HR.
  intros Hi Hw Hc. destruct HR as [H1 H2 H3 H4 H5 H6 H7]. split; try done.
  - by apply identity_update.
  - intros k (k0 & Hk & ->)%update_where_In. destruct (p k0); rewrite ?Hw; by apply H2.
  - intros id. rewrite count_update. etrans; [|apply (H3 id)]. apply count_le. intros k _. destruct (p k); auto.
Qed.

Lemma registry_key_append k : k_id k = kseq -> is_Some (workers !! k_worker k) ->
  exists_row (current_key (k_worker k)) keys = false ->
  registry_ok workers (keys ++ [k]) (Z.succ kseq) tokens scores events nonces.
Proof using HR.
  intros Hi Hw Hc. destruct HR as [H1 H2 H3 H4 H5 H6 H7]. split; try done.
  - by apply identity_push.
  - intros k0 [Hk|[<-|[]]]%in_app_iff; [by apply H2 | done].
  - intros id. specialize (H3 id). rewrite count_app, count_cons. change (count_rows _ []) with 0%nat.
    destruct (decide (id = k_worker k)) as [->|Hne].
    + rewrite (proj2 (count_zero _ _)) by (by apply exists_row_false). destruct (current_key _ k); lia.
    + assert (current_key id k = false) as -> by (unfold current_key; by rewrite bool_decide_false). lia.
Qed.

Lemma registry_token h t : is_Some (workers !! t_worker t) ->
  registry_ok workers keys kseq (<[h := t]> tokens) scores events nonces.
Proof using HR.
  intros Hw. destruct HR. split; try done. intros h' t'. rewrite lookup_insert_Some. naive_solver.
Qed.

Lemma registry_event e : is_Some (workers !! te_worker e) ->
  registry_ok workers keys kseq tokens scores (events ++ [e]) nonces.
Proof using HR.
  intros Hw. destruct HR. split; try done. intros e' [He|[<-|[]]]%in_app_iff; [auto | done].
Qed.

Lemma registry_nonces nonces' : (forall k, is_Some (nonces' !! k) -> is_Some (nonces !! k) \/ is_Some (workers !! k.1)) ->
  registry_ok workers keys kseq tokens scores events nonces'.
Proof using HR. intros Hn. destruct HR. split; try done. intros k [Hk|Hk]%Hn; auto. Qed.

Lemma registry_scores scores' : (forall id, is_Some (scores' !! id) -> is_Some (scores !! id) \/ is_Some (workers !! id)) ->
  registry_ok workers keys kseq tokens scores' events nonces.
Proof using HR. intros Hn. destruct HR. split; try done. intros k [Hk|Hk]%Hn; auto. Qed.
End RegistryRules.

Lemma scheduling_workers {workers workers' providers targets assignments aseq leases} :
  (forall id, is_Some (workers !! id) -> is_Some (workers' !! id)) ->
  scheduling_ok workers providers targets assignments aseq leases ->
  scheduling_ok workers' providers targets assignments aseq leases.
Proof. intros Hw []. split; eauto. Qed.

Lemma alter_grows (f : worker_row -> worker_row) id (m : gmap string worker_row) i :
  is_Some (m !! i) -> is_Some (alter f id m !! i).
Proof. by rewrite lookup_alter_is_Some. Qed.
Lemma insert_grows {A} id (r : A) (m : gmap string A) i : is_Some (m !! i) -> is_Some (<[id := r]> m !! i).
Proof. rewrite lookup_insert_is_Some'. auto. Qed.
Lemma insert_present {A} id (r : A) (m : gmap string A) : is_Some (<[id := r]> m !! id).
Proof. rewrite lookup_insert_eq. eauto. Qed.
#[local] Hint Resolve alter_grows insert_grows insert_present mk_is_Some : vapn.

(** A write of the registry's tables: the goal is [WF] of a state that differs
    from that of [H] there.  The other schemas refer to the registry only by
    worker id. *)
Ltac registry_write H :=
  split; [unfold RegistryOK; simpl | exact (wf_routing _ H) | | exact (wf_aggregation _ H)];
  [| refine (scheduling_workers _ (wf_scheduling _ H)); solve [simpl; auto with vapn]].

Lemma WF_workers f d : (forall id, is_Some (db_worker d !! id) -> is_Some (f (db_worker d) !! id)) ->
  WF d -> WF (set_worker f d).
Proof. intros Hf H. registry_write H. exact (registry_workers (wf_registry d H) _ Hf). Qed.

Lemma WF_set_state n id cur new reason s actor d : is_Some (db_worker d !! id) ->
  WF d -> WF (set_state_db n id cur new reason s actor d).
Proof.
  intros Hid H. pose proof (wf_registry d H) as HR. unfold set_state_db.
  assert (forall ks, registry_ok (db_worker d) ks (db_key_seq d) (db_token d) (db_trust_score d) (db_trust_event d) (db_nonce d) ->
    forall f e, te_worker e = id -> registry_ok (alter f id (db_worker d)) ks (db_key_seq d) (db_token d) (db_trust_score d)
      (db_trust_event d ++ [e]) (db_nonce d)) as Hev.
  { intros ks Hks f e <-. apply registry_event; [|by apply alter_grows].
    apply (registry_workers Hks). auto with vapn. }
  destruct (bool_decide (new = Retired)); registry_write H; apply Hev; try done.
  apply registry_key_update; try done. unfold current_key. simpl. intros i k ?. btrue. done.
Qed.

Lemma insert_key_Ok id pub w u w' : insert_key id pub w = (Ok u, w') ->
  w_now w' = w_now w /\ exists_row (current_key id) (db_worker_key (w_db w)) = false /\
  w_db w' = set_key_seq Z.succ (set_worker_key
      (fun t => t ++ [KeyRow (db_key_seq (w_db w)) id pub (w_now w) None None None]) (w_db w)).
Proof. unfold insert_key. intros [E Hn]%stmt_Ok. destruct (exists_row _ _); [done|]. by simplify_eq. Qed.

Lemma insert_trust_event_Ok id ty detail actor w u w' : insert_trust_event id ty detail actor w = (Ok u, w') ->
  w_now w' = w_now w /\ is_Some (db_worker (w_db w) !! id) /\
  w_db w' = set_trust_event (fun t => t ++ [TrustEventRow id ty detail actor (w_now w)]) (w_db w).
Proof. unfold insert_trust_event. intros [E Hn]%stmt_Ok. destruct (db_worker _ !! id); [|done]. simplify_eq. eauto. Qed.

Section RegistryOps.
Context {cr : Crypto}.

Lemma CreateWorker_WF o n ttl raw u : Respects (Keeps WF) (CreateWorker o n ttl raw u).
Proof.
  unfold CreateWorker. destruct raw as [raw|]; [|respects]. apply respects_tx_Ok; [apply _| |].
  { unfold insert_worker, insert_token. respects; try done. apply respects_clock; apply _. }
  intros w a w' E H. unfold insert_worker, insert_token in E. inv_ok.
  destruct (db_worker (w_db w) !! u) eqn:Eu; simplify_eq. match goal with Hc : clock _ = _ |- _ => apply clock_Ok in Hc as [-> ->] end.
  destruct (db_token _ !! _); simplify_eq. worlds. pose proof (wf_registry _ H) as HR.
  registry_write H. apply registry_token; [|apply insert_present]. apply (registry_workers HR). simpl. auto with vapn.
Qed.

Lemma Register_WF t p v : Respects (Keeps WF) (Register t p v).
Proof.
  unfold Register. apply respects_tx_Ok; [apply _| |].
  { unfold insert_key, insert_trust_event. respects; try done. }
  intros w a w' E H. inv_ok. destruct (db_token (w_db w) !! sha256 t) as [tok|] eqn:Et; [|done].
  destruct (_ && _); simplify_eq. destruct (token_worker_fkey _ _ _ _ _ _ _ (wf_registry _ H) _ _ Et) as [wr Hw].
  match goal with Hk : insert_key _ _ _ = _ |- _ => apply insert_key_Ok in Hk as (? & Hc & ?) end.
  match goal with Hk : insert_trust_event _ _ _ _ _ = _ |- _ => apply insert_trust_event_Ok in Hk as (? & _ & ?) end.
  destruct (db_worker (w_db w1) !! t_worker tok); [|done]. simplify_eq. worlds. simpl in *.
  pose proof (wf_registry _ H) as HR. registry_write H.
  apply registry_event; [|apply insert_present]. simpl.
  apply (registry_workers (workers := db_worker (w_db w))); [|simpl; auto with vapn].
  apply registry_key_append; [|done|eauto with vapn|done]. by apply registry_token; [|eauto with vapn].
Qed.

Lemma RotateKey_WF id p o : Respects (Keeps WF) (RotateKey id p o).
Proof.
  unfold RotateKey. apply respects_tx_Ok; [apply _| |].
  { unfold insert_key, insert_trust_event. respects; try done. }
  intros w a w' E H. inv_ok.
  match goal with Hk : insert_key _ _ _ = _ |- _ => apply insert_key_Ok in Hk as (? & Hc & ?) end.
  match goal with Hk : insert_trust_event _ _ _ _ _ = _ |- _ => apply insert_trust_event_Ok in Hk as (? & Hw & ?) end.
  worlds. simpl in *. pose proof (wf_registry _ H) as HR. registry_write H.
  apply registry_event; [|done]. simpl. apply (registry_workers (workers := db_worker (w_db w))); [|simpl; auto with vapn].
  apply registry_key_append; [|done|by apply lookup_alter_is_Some in Hw|done].
  apply registry_key_update; try done. unfold current_key. simpl. intros i k ?. btrue. done.
Qed.

Lemma IngestEnrollment_WF id o n h e : Respects (Keeps WF) (IngestEnrollment id o n h e).
Proof.
  unfold IngestEnrollment. destruct (hex_decode h) as [hash|]; [|respects]. destruct (Nat.eqb _ _); [|respects].
  apply respects_tx_Ok; [apply _| |]. { respects; try done. }
  intros w a w' E H. inv_ok. destruct (insert_nothing id _ _) as [b1 t1] eqn:E1. simplify_eq.
  destruct (insert_nothing hash _ _) as [b2 t2] eqn:E2. simplify_eq. worlds. simpl in *.
  pose proof (wf_registry _ H) as HR.
  assert (is_Some (t1 !! id) /\ forall i, is_Some (db_worker (w_db w) !! i) -> is_Some (t1 !! i)) as [Hid Hg].
  { apply insert_nothing_spec in E1 as [(_ & _ & ->)|(_ & ? & ->)]; [|done]. auto with vapn. }
  pose proof (registry_workers HR t1 Hg) as HR1.
  apply insert_nothing_spec in E2 as [(_ & _ & ->)|(_ & _ & ->)]; registry_write H; [|done].
  by apply registry_token.
Qed.

#[export] Instance WF_store : StorePromise (Keeps WF).
Proof.
  assert (forall id s r a, Respects (Keeps WF) (SetState id s r a)) as Hset.
  { intros id s r a. apply SetState_respects_of; [apply _|]. intros n d r0 new Hr _ H. apply WF_set_state; eauto. }
  assert (forall w e dt a, Respects (Keeps WF) (insert_trust_event w e dt a)) as Hev.
  { intros. unfold insert_trust_event. respects. intros HW. case_match; simplify_eq. registry_write HW.
    apply registry_event; [apply wf_registry, HW | eauto]. }
  intros []; unfold run_op, done; respects; auto using CreateWorker_WF, Register_WF, RotateKey_WF, IngestEnrollment_WF;
    unfold Heartbeat, ActiveKeys, RequestRotation, SeenNonce, PruneNonces, RecordTrustEvent, ApplyDecision, List_;
    respects; auto; intros; open_stmt; try (apply at_refl); intros HW.
  - apply WF_workers; [auto with vapn | done].
  - apply WF_workers; [auto with vapn | done].
  - registry_write HW. apply (registry_nonces (wf_registry _ HW)). intros k Hk.
    unfold insert_nothing in *. case_match; simplify_eq; [auto|]. apply lookup_insert_is_Some in Hk as [<-|[_ ?]]; eauto.
  - registry_write HW. apply (registry_nonces (wf_registry _ HW)). intros k [x [Hk _]%map_lookup_filter_Some]. left. eauto.
Qed.
End RegistryOps.

(** * Scheduling *)
Section SchedulingRules.
Context {workers : gmap string worker_row} {providers : gmap string provider_row} {targets : list target_row}
  {assignments : list assignment_row} {aseq : Z} {leases : list lease_row}.
Hypothesis HS : scheduling_ok workers providers targets assignments aseq leases.

Lemma scheduling_lease_update p f :
  (forall l, l_assignment (f l) = l_assignment l) -> (forall l, l_worker (f l) = l_worker l) ->
  (forall l, live (f l) = true -> live l = true) ->
  scheduling_ok workers providers targets assignments aseq (update_where p f leases).
Proof using HS.
  intros Ha Hw Hl. destruct HS as [H1 H2 H3 H4 H5 H6]. split; try done.
  - intros l (l0 & Hin & ->)%update_where_In. destruct (p l0); rewrite ?Ha; by apply H4.
  - intros l (l0 & Hin & ->)%update_where_In. destruct (p l0); rewrite ?Hw; by apply H5.
  - intros a w. rewrite count_update. etrans; [|apply (H6 a w)]. apply count_le. intros l _. destruct (p l); [|done].
    unfold live_pair. rewrite Ha, Hw. destruct (live (f l)) eqn:E; [|done]. by rewrite (Hl l E).
Qed.

Lemma scheduling_assignment_update p f :
  (forall a, a_id (f a) = a_id a) -> (forall a, a_target (f a) = a_target a) -> (forall a, a_provider (f a) = a_provider a) ->
  scheduling_ok workers providers targets (update_where p f assignments) aseq leases.
Proof using HS.
  intros Hi Ht Hp. destruct HS as [H1 H2 H3 H4 H5 H6]. split; try done.
  - by apply identity_update.
  - intros a (a0 & Hin & ->)%update_where_In. destruct (p a0); rewrite ?Ht; by apply H2.
  - intros a (a0 & Hin & ->)%update_where_In. destruct (p a0); rewrite ?Hp; by apply H3.
  - intros l Hl. rewrite update_map_id by done. by apply H4.
Qed.

(** New leases, one per assignment of [ids]. *)
Lemma scheduling_lease_append worker now until ids :
  NoDup ids -> (forall i, i ∈ ids -> In i (map a_id assignments) /\ is_Some (workers !! worker)) ->
  exists_row (fun l => live_of worker l && bool_decide (l_assignment l ∈ ids)) leases = false ->
  scheduling_ok workers providers targets assignments aseq
    (leases ++ map (fun id => LeaseRow id worker now until None None) ids).
Proof using HS.
  intros Hn Hi Hf. destruct HS as [H1 H2 H3 H4 H5 H6]. split; try done.
  - intros l [Hl|(i & <- & ?%list_elem_of_In)%in_map_iff]%in_app_iff; [by apply H4|]. by apply Hi.
  - intros l [Hl|(i & <- & ?%list_elem_of_In)%in_map_iff]%in_app_iff; [by apply H5|]. by apply (Hi i).
  - intros a w. rewrite count_app.
    assert (count_rows (live_pair a w) (map (fun id => LeaseRow id worker now until None None) ids)
      <= if bool_decide (a ∈ ids /\ w = worker) then 1 else 0)%nat as Hc.
    { case_bool_decide as Ha.
      - etrans; [apply (count_le _ (live_on a))|].
        + intros l _. unfold live_pair, live_on. destruct (live l), (_ =? _); done.
        + rewrite count_new_leases by done. destruct (bool_decide _); lia.
      - rewrite (proj2 (count_zero _ _)); [done|]. intros l (i & <- & Hin)%in_map_iff. unfold live_pair. simpl.
        destruct (i =? a) eqn:E; [|done]. btrue. subst. simpl. apply bool_decide_false.
        intros <-. apply Ha. split; [by apply list_elem_of_In | done]. }
    specialize (H6 a w). case_bool_decide as Ha; [|lia]. destruct Ha as [Ha ->].
    rewrite (proj2 (count_zero (live_pair a worker) leases)); [lia|]. intros l Hl.
    rewrite exists_row_false in Hf. specialize (Hf l Hl). destruct (live_pair a worker l) eqn:E; [|done].
    unfold live_pair in E. unfold live_of in Hf.
    destruct (live l); [|done]. btrue. subst. by rewrite !bool_decide_true in Hf.
Qed.
End SchedulingRules.

Ltac scheduling_write H :=
  split; [exact (wf_registry _ H) | exact (wf_routing _ H) | unfold SchedulingOK; simpl | exact (wf_aggregation _ H)].

Lemma WF_release_where p reason n d : WF d -> WF (release_where p reason n d).
Proof.
  intros H. unfold release_where. scheduling_write H. apply scheduling_assignment_update; try done.
  apply (scheduling_lease_update (wf_scheduling d H)); done.
Qed.

Lemma candidates_worker id d a : In a (Leasing.candidates id d) -> is_Some (db_worker d !! id).
Proof. unfold Leasing.candidates. destruct (db_worker d !! id); [eauto | done]. Qed.

Lemma claim_WF id want ttl locked : Respects (Keeps WF) (claim id want ttl locked).
Proof.
  unfold claim. respects. intros HW. case_match; simplify_eq. unfold take_leases. scheduling_write HW.
  pose proof (wf_scheduling _ HW) as HS. apply scheduling_assignment_update; try done.
  apply (scheduling_lease_append HS); [| | done].
  - apply NoDup_take_map, NoDup_select, (id_unique _ _ _ (assignment_pkey _ _ _ _ _ _ HS)).
  - intros i (a1 & <- & (Ha & _ & _ & (c & _ & Hc)%list_elem_of_In%in_map_iff)%claimed_In)%list_elem_of_In%in_map_iff.
    split; [by apply in_map | by eapply candidates_worker].
Qed.

Lemma lease_tx_WF id cap ttl locks : Respects (Keeps WF) (lease_tx id cap ttl locks).
Proof.
  unfold lease_tx, renew_leases, reap_expired. respects; [| |apply claim_WF]; intros H.
  - scheduling_write H. by apply (scheduling_lease_update (wf_scheduling _ H)).
  - by apply WF_release_where.
Qed.

Lemma new_rows_fkey md5 cfg d r i : RoutingOK d -> In r (new_rows md5 cfg d) ->
  a_id (r i) = i /\ In (a_target (r i)) (map tg_id (db_target d)) /\ is_Some (db_provider d !! a_provider (r i)).
Proof.
  intros HR (t & p & Ht & _ & E)%new_rows_In. rewrite E. simpl. split_and!; [done | by apply in_map | by apply HR].
Qed.

Lemma number_rows_ids id rows : (forall r i, In r rows -> a_id (r i) = i) ->
  map a_id (number_rows id rows) = seqZ id (Z.of_nat (length rows)) /\ length (number_rows id rows) = length rows.
Proof.
  revert id. induction rows as [|r rows IH]; intros id Hr; [done|].
  destruct (IH (id + 1) (fun r i Hi => Hr r i (or_intror Hi))) as [E1 E2]. simpl. rewrite E1, E2, Hr by (by left).
  split; [|done]. rewrite (seqZ_cons id) by lia. do 2 f_equal; lia.
Qed.

Lemma Reconcile_WF md5 c : Respects (Keeps WF) (Reconcile md5 c).
Proof.
  unfold Reconcile, drain_mark, drain_release, drain_close, generate. respects; intros H; scheduling_write H;
    pose proof (wf_scheduling _ H) as HS; pose proof (wf_routing _ H) as HR.
  1, 3: by apply (scheduling_assignment_update HS).
  1: by apply (scheduling_lease_update HS).
  set (rows := new_rows md5 (Leasing.withDefaults c) d).
  destruct (number_rows_ids (db_assignment_seq d) rows) as [E1 E2].
  { intros r i Hi. by apply (new_rows_fkey md5 (Leasing.withDefaults c) d r i). }
  destruct HS as [H1 H2 H3 H4 H5 H6]. split; try done.
  - rewrite <- E2 at 1. apply identity_append; [by rewrite E1, E2 | done].
  - intros row [Ha|(r & i & Hr & -> & _)%number_rows_In]%in_app_iff; [by apply H2|]. by eapply new_rows_fkey.
  - intros row [Ha|(r & i & Hr & -> & _)%number_rows_In]%in_app_iff; [by apply H3|]. by eapply new_rows_fkey.
  - intros l Hl. rewrite map_app. apply in_app_iff. left. by apply H4.
Qed.

(** * Routing *)
Section RoutingRules.
Context {snaps : list snapshot_row} {sseq : Z} {providers : gmap string provider_row} {asns : gmap Z asn_row}
  {prefixes : list prefix_row} {pseq : Z} {targets : list target_row} {tseq : Z}
  {geo : gmap (Z * string * string) geo_row}.
Hypothesis HR : routing_ok snaps sseq providers asns prefixes pseq targets tseq geo.

Lemma routing_snapshot_update p f : (forall s, sn_id (f s) = sn_id s) -> (forall s, sn_version (f s) = sn_version s) ->
  routing_ok (update_where p f snaps) sseq providers asns prefixes pseq targets tseq geo.
Proof using HR.
  intros Hi Hv. destruct HR. split; try done; rewrite ?update_map_id by done; try done. by apply identity_update.
Qed.

Lemma routing_snapshot_push s : sn_id s = sseq -> exists_row (fun x => bool_decide (sn_version x = sn_version s)) snaps = false ->
  routing_ok (snaps ++ [s]) (Z.succ sseq) providers asns prefixes pseq targets tseq geo.
Proof using HR.
  intros Hi Hv. destruct HR. split; try done; rewrite ?map_app; try (intros; apply in_app_iff; left; by auto).
  - by apply identity_push.
  - apply NoDup_app. split_and!; [done | | apply NoDup_singleton].
    intros v (x & <- & Hx)%list_elem_of_In%in_map_iff E%list_elem_of_singleton.
    rewrite exists_row_false in Hv. specialize (Hv x Hx). btrue. done.
Qed.

Lemma routing_providers providers' : (forall id, is_Some (providers !! id) -> is_Some (providers' !! id)) ->
  routing_ok snaps sseq providers' asns prefixes pseq targets tseq geo.
Proof using HR. intros Hp. destruct HR. split; eauto. Qed.

Lemma routing_asn n a : is_Some (providers !! an_provider a) ->
  routing_ok snaps sseq providers (<[n := a]> asns) prefixes pseq targets tseq geo.
Proof using HR.
  intros Hp. destruct HR. split; try done.
  - intros n' a'. rewrite lookup_insert_Some. naive_solver.
  - intros p Hin. apply lookup_insert_is_Some'. auto.
Qed.

Lemma routing_geo geo' : (forall k, is_Some (geo' !! k) -> is_Some (geo !! k) \/ In k.1.1 (map sn_id snaps)) ->
  routing_ok snaps sseq providers asns prefixes pseq targets tseq geo'.
Proof using HR. intros Hg. destruct HR. split; try done. intros k [Hk|Hk]%Hg; auto. Qed.

Lemma routing_prefix_append snap new :
  In snap (map sn_id snaps) -> map pr_id new = seqZ pseq (Z.of_nat (length new)) ->
  (forall p, In p new -> pr_snapshot p = snap /\ is_Some (asns !! pr_origin p)) ->
  NoDup (map (fun p => (pr_prefix p, pr_origin p)) new) ->
  (forall p q, In p prefixes -> In q new -> pr_snapshot p = snap -> (pr_prefix q, pr_origin q) <> (pr_prefix p, pr_origin p)) ->
  routing_ok snaps sseq providers asns (prefixes ++ new) (pseq + Z.of_nat (length new)) targets tseq geo.
Proof using HR.
  intros Hs Hid Hnew Hnd Hfresh. destruct HR as [H1 H2 H3 H4 H5 H6 H7 H8 H9 H10 H11 H12 H13]. split; try done.
  - by apply identity_append.
  - rewrite map_app. apply NoDup_app. split_and!; [done | |].
    + intros k (p & <- & Hp)%list_elem_of_In%in_map_iff (q & E & Hq)%list_elem_of_In%in_map_iff.
      destruct (Hnew q Hq) as [Eq _]. apply (Hfresh p q Hp Hq); congruence.
    + apply (NoDup_fmap_1 (fun k : Z * prefix * Z => (k.1.2, k.2))). change (map ?f ?l) with (f <$> l) in *.
      rewrite <- list_fmap_compose. exact Hnd.
  - intros p [Hp|Hp]%in_app_iff; [by apply H6|]. destruct (Hnew p Hp) as [-> _]. done.
  - intros p [Hp|Hp]%in_app_iff; [by apply H7|]. by apply Hnew.
  - intros t Ht. rewrite map_app. apply in_app_iff. left. by apply H12.
Qed.

Lemma routing_target_append snap new :
  In snap (map sn_id snaps) -> map tg_id new = seqZ tseq (Z.of_nat (length new)) ->
  (forall t, In t new -> tg_snapshot t = snap /\ is_Some (providers !! tg_provider t) /\
     In (tg_prefix t, snap) (map (fun p => (pr_id p, pr_snapshot p)) prefixes)) ->
  NoDup (map tg_address new) ->
  (forall t u, In t targets -> In u new -> tg_snapshot t = snap -> tg_address u <> tg_address t) ->
  routing_ok snaps sseq providers asns prefixes pseq (targets ++ new) (tseq + Z.of_nat (length new)) geo.
Proof using HR.
  intros Hs Hid Hnew Hnd Hfresh. destruct HR as [H1 H2 H3 H4 H5 H6 H7 H8 H9 H10 H11 H12 H13]. split; try done.
  - by apply identity_append.
  - rewrite map_app. apply NoDup_app. split_and!; [done | |].
    + intros k (t & <- & Ht)%list_elem_of_In%in_map_iff (u & E & Hu)%list_elem_of_In%in_map_iff.
      destruct (Hnew u Hu) as [Eu _]. apply (Hfresh t u Ht Hu); congruence.
    + apply (NoDup_fmap_1 snd). change (map ?f ?l) with (f <$> l) in *. rewrite <- list_fmap_compose. exact Hnd.
  - intros t [Ht|Ht]%in_app_iff; [by apply H10|]. destruct (Hnew t Ht) as [-> _]. done.
  - intros t [Ht|Ht]%in_app_iff; [by apply H11|]. by apply Hnew.
  - intros t [Ht|Ht]%in_app_iff; [by apply H12|]. destruct (Hnew t Ht) as (-> & _ & ?). done.
Qed.
End RoutingRules.

Lemma scheduling_providers {workers providers providers' targets assignments aseq leases} :
  (forall id, is_Some (providers !! id) -> is_Some (providers' !! id)) ->
  scheduling_ok workers providers targets assignments aseq leases ->
  scheduling_ok workers providers' targets assignments aseq leases.
Proof. intros Hw []. split; eauto. Qed.

Ltac routing_write H :=
  split; [exact (wf_registry _ H) | unfold RoutingOK; simpl | try exact (wf_scheduling _ H) | exact (wf_aggregation _ H)].

(** ** The catalog *)
Definition WF_provider (id : string) (d : database) : Prop := WF d /\ is_Some (db_provider d !! id).

Lemma WF_providers f d : (forall id, is_Some (db_provider d !! id) -> is_Some (f (db_provider d) !! id)) ->
  WF d -> WF (set_provider f d).
Proof.
  intros Hf H. routing_write H; [exact (routing_providers (wf_routing _ H) _ Hf)|].
  exact (scheduling_providers Hf (wf_scheduling _ H)).
Qed.

Lemma sync_asns_WF p asns seen : Respects (Keeps (WF_provider p)) (sync_asns p asns seen).
Proof.
  revert seen. induction asns as [|a asns IH]; intros seen; simpl; respects; [| |apply IH].
  - apply respects_clock; apply _.
  - intros [H Hp]. split; [|exact Hp]. routing_write H. by apply (routing_asn (wf_routing _ H)).
Qed.

(** Syncing a catalog: each provider's row is written before its ASNs. *)
Lemma sync_all_WF ps seen : Respects (Keeps WF) (sync_all ps seen).
Proof.
  revert seen. induction ps as [|p ps IH]; intros seen; simpl; [respects|].
  intros w r w' E. apply bind_cases in E as [(e & [=] & _)|(n & w0 & [-> ->]%clock_Ok & E)].
  apply bind_cases in E as [(e & E & ->)|(u & w1 & [E1 En1]%exec_Ok & E)].
  { apply stmt_Err in E as [E ?]. rewrite E. split; [done | apply at_refl]. }
  assert (WF (w_db w) -> WF_provider (ProviderID p) (w_db w1)) as H1.
  { intros H. rewrite E1. split; [apply WF_providers; [auto with vapn | done] | apply insert_present]. }
  apply bind_cases in E as [(e & E & ->)|(m & w2 & E & E2)]; apply sync_asns_WF in E as [En2 H2].
  - split; [congruence|]. intros H. by apply H2, H1.
  - apply IH in E2 as [En3 H3]. split; [congruence|]. intros H. by apply H3, H2, H1.
Qed.

Lemma SyncProviders_WF feed : Respects (Keeps WF) (SyncProviders feed).
Proof.
  unfold SyncProviders, delist_missing. respects; [apply sync_all_WF|]. intros HW. apply WF_providers; [|done].
  intros id [r Hr]. rewrite map_lookup_imap, Hr. simpl. eauto.
Qed.

Lemma flip_WF id : Respects (Keeps WF) (flip id).
Proof. unfold flip. respects; intros H; routing_write H; by apply (routing_snapshot_update (wf_routing _ H)). Qed.

#[export] Instance WF_handlers {cr : Crypto} {oj : Observation.ObservationJSON} {at_ : AddrText} {ut : UuidText} :
  HandlerPromise (Keeps WF).
Proof.
  split; intros.
  - apply lease_tx_WF.
  - unfold release_stmt. respects. intros H. by apply WF_release_where.
  - unfold upload_tx, begin_commit, insert_batch, copy_observations.
    respects; repeat case_match; simplify_eq; intros [G1 G2 G3 G4]; by split.
  - apply flip_WF.
  - intros [G1 G2 G3 G4]. by split.
  - intros H. apply WF_workers; [auto with vapn | done].
Qed.

(** ** Trust, consensus, roll-up, outbox *)
Lemma upsert_all_dom rows t id : is_Some (upsert_all rows t !! id) -> is_Some (t !! id) \/ In id (map fst rows).
Proof.
  revert t. induction rows as [|[i r] rows IH]; intros t; simpl; [auto|]. intros [H|H]%IH; [|auto].
  apply lookup_insert_is_Some in H as [->|[_ H]]; auto.
Qed.

Lemma ComputeAll_WF : Respects (Keeps WF) ComputeAll.
Proof.
  unfold ComputeAll. respects. intros HW. destruct (mapM _ _) as [rows|] eqn:E; simplify_eq.
  registry_write HW. apply (registry_scores (wf_registry _ HW)). intros id [H|H]%upsert_all_dom; [by left|right].
  apply mapM_Some in E. apply in_map_iff in H as ([i t] & <- & Hin).
  apply list_elem_of_In, list_elem_of_lookup in Hin as [k Hk].
  destruct (Forall2_lookup_r _ _ _ _ _ E Hk) as ([j r] & Hj & Ej).
  apply fmap_Some in Ej as (t' & _ & [= -> _]). simpl.
  apply list_elem_of_lookup_2, list_elem_of_In in Hj. apply select_In in Hj as [Hj _].
  apply list_elem_of_In, elem_of_map_to_list in Hj. eauto.
Qed.

Ltac aggregation_write H :=
  split; [exact (wf_registry _ H) | exact (wf_routing _ H) | exact (wf_scheduling _ H) | unfold AggregationOK; simpl];
  try exact (wf_aggregation _ H).

Lemma ComputeWindow_WF c start : Respects (Keeps WF) (ComputeWindow c start).
Proof.
  unfold ComputeWindow, settle_windows, settle_agreement. respects; intros H; aggregation_write H.
  destruct (wf_aggregation _ H) as [H1 H2]. split; [by apply insert_windows_NoDup | done].
Qed.

Lemma Retention_WF c : Respects (Keeps WF) (Retention c).
Proof.
  unfold Retention. respects; intros H; aggregation_write H.
  destruct (wf_aggregation _ H) as [H1 H2]. split; [by apply NoDup_select | done].
Qed.

Lemma enqueue_WF kind payload : Respects (Keeps WF) (enqueue kind payload).
Proof.
  unfold enqueue. respects; intros H; aggregation_write H.
  destruct (wf_aggregation _ H) as [H1 H2]. split; [done | by apply identity_push].
Qed.

Lemma RollupStatus_WF marshal c : Respects (Keeps WF) (RollupStatus marshal c).
Proof.
  unfold RollupStatus, refreshTargetStatus, rollup_provider, upsert_status, handleTransition, checkLatencyAnomaly,
    insert_anomaly, resolve_anomalies, statusDocument, networkFootprint, monitoredNetworks.
  repeat first [ progress respects | apply respects_ignore; [apply _|] | apply enqueue_WF ];
  intros H; try (case_match); try done; by aggregation_write H.
Qed.

Lemma Telemetry_WF tj : Respects (Keeps WF) (EnqueueFleetTelemetry tj).
Proof. unfold EnqueueFleetTelemetry. respects. apply enqueue_WF. Qed.

Definition WFpub (p : pub) : Prop := WF (pub_db p).

Lemma on_db_WF {A} (m : DB A) : Respects (Keeps WF) m -> Respects (Keeps WFpub) (on_db m).
Proof. intros Hm w r w' (dw & E & Ed & En & _)%on_db_run. apply Hm in E as [? HW].
  split; [simpl in *; congruence|]. unfold Keeps, WFpub. rewrite Ed. exact HW. Qed.

Lemma ack_WF id : Respects (Keeps WF) (ack id).
Proof.
  unfold ack. respects; intros H; aggregation_write H.
  destruct (wf_aggregation _ H) as [H1 H2]. split; [done | by apply identity_update].
Qed.

Lemma retry_WF id : Respects (Keeps WF) (retry id).
Proof.
  unfold retry. respects. intros HW. destruct (mapM _ _) as [t|] eqn:E; simplify_eq. aggregation_write HW.
  destruct (wf_aggregation _ HW) as [H1 [H2 H3]]. split; [done|].
  assert (map ob_id t = map ob_id (db_outbox d)) as Em.
  { clear -E. apply mapM_Some in E. revert E. generalize (db_outbox d) as l0.
    intros l0 E. induction E as [|r r' l l' Er _ IH]; [done|]. simpl. rewrite IH. f_equal. destruct (ob_id r =? id); [|by simplify_eq]. apply fmap_Some in Er as (delay & _ & ->). done. }
  split; [by rewrite Em|]. intros r Hr. apply (in_map ob_id) in Hr. rewrite Em in Hr.
  apply in_map_iff in Hr as (r0 & <- & Hr). by apply H3.
Qed.

Lemma drain_WF accepts items n : Respects (Keeps WFpub) (drain accepts items n).
Proof.
  revert n. induction items as [|it items IH]; intros n; simpl; respects; try apply IH;
    try (apply on_db_WF; first [apply ack_WF | apply retry_WF]).
  intros w r w' E. unfold deliver in E. simplify_eq. split; [done|]. intros H. exact H.
Qed.

Lemma DrainOnce_WF accepts locked : Respects (Keeps WFpub) (DrainOnce accepts locked).
Proof.
  intros w r w' E. unfold DrainOnce, rollback_tables in E.
  assert (Respects (Keeps WFpub) (do! on_db begin_commit ;;
    let! items := on_db (query (fun now d => due_rows now locked d)) in
    let! pushed := drain accepts items 0 in do! on_db begin_commit ;; ret pushed)) as HB.
  { unfold begin_commit. respects; try apply drain_WF; apply on_db_WF; respects; simplify_eq; apply at_refl. }
  destruct (bindM _ _ w) as [[a|e] w1] eqn:E1; simplify_eq; apply HB in E1 as [En HW]; [done|].
  split; [done|]. intros H. exact H.
Qed.

(** ** Building a snapshot *)
Definition WFsnap (id : Z) (d : database) : Prop := WF d /\ In id (map sn_id (db_snapshot d)).

Lemma has_dup_false {A} `{EqDecision A} (l : list A) : has_dup l = false -> NoDup l.
Proof. induction l as [|x l IH]; simpl; intros H; [constructor|]. btrue. constructor; auto. Qed.

Lemma number_lines_map snapshot rows : forall id,
  length (number_lines id snapshot rows) = length rows /\
  map pr_id (number_lines id snapshot rows) = seqZ id (Z.of_nat (length rows)) /\
  map (fun p => (pr_prefix p, pr_origin p)) (number_lines id snapshot rows) = map (fun r => (row_prefix r, row_origin r)) rows /\
  (forall p, In p (number_lines id snapshot rows) -> exists r id', In r rows /\ p = prefix_line id' snapshot r).
Proof.
  induction rows as [|r rows IH]; intros id; [done|]. destruct (IH (id + 1)) as (H1 & H2 & H3 & H4).
  cbn [number_lines length map]. rewrite H1, H2, H3, (seqZ_cons id) by lia. split_and!; try done.
  - simpl. do 2 f_equal; lia.
  - intros p [<-|Hp]; [exists r, id; auto with datatypes|]. destruct (H4 p Hp) as (y & id' & Hy & ->). exists y, id'. auto with datatypes.
Qed.

Lemma number_targets_ids snapshot l : forall id, map tg_id (number_targets id snapshot l) = seqZ id (Z.of_nat (length l)).
Proof.
  induction l as [|x l IH]; intros id; [done|]. cbn [number_targets length map]. rewrite IH, (seqZ_cons id) by lia.
  simpl. do 2 f_equal; lia.
Qed.

Lemma insert_snapshot_WF version rows w id w' : insert_snapshot version rows w = (Ok id, w') ->
  WF (w_db w) -> WFsnap id (w_db w').
Proof.
  unfold insert_snapshot. intros [E _]%stmt_Ok H. destruct (exists_row _ _) eqn:Ev; [done|].
  injection E as <- <-. split.
  - routing_write H. by apply (routing_snapshot_push (wf_routing _ H)).
  - simpl. rewrite map_app. apply in_app_iff. right. by left.
Qed.

Lemma copy_prefixes_WF id rows : Respects (Keeps (WFsnap id)) (copy_prefixes id rows).
Proof.
  unfold copy_prefixes. respects. intros [HW Hid]. destruct (forallb _ rows) eqn:Ef; simpl in *; [|done].
  destruct (_ || _) eqn:Ed; simplify_eq. btrue. split; [|exact Hid]. routing_write HW.
  match goal with Hd : has_dup _ = false |- _ => apply has_dup_false in Hd as Hnd end.
  match goal with He : exists_row _ _ = false |- _ => rewrite exists_row_false in He; rename He into Hex end.
  rewrite forallb_forall in Ef. destruct (number_lines_map id rows (db_prefix_seq d)) as (E1 & E2 & E3 & E4).
  rewrite <- E1. apply (routing_prefix_append (wf_routing _ HW) id); [done | by rewrite E1 | | by rewrite E3 |].
  - intros p (r & i & Hr & ->)%E4. simpl. split; [done|]. specialize (Ef r Hr). by destruct (db_asn d !! row_origin r).
  - intros p q Hp (r & i & Hr & ->)%E4 Hs. simpl. intros E. specialize (Hex p Hp).
    rewrite Hs, Z.eqb_refl in Hex. simpl in Hex. assert (existsb (fun r => bool_decide ((row_prefix r, row_origin r) = (pr_prefix p, pr_origin p))) rows = true) as Ht; [|congruence].
    apply existsb_exists. exists r. split; [done | by apply bool_decide_true].
Qed.

Lemma insert_geo_WF id provider code s share : Respects (Keeps (WFsnap id)) (insert_geo id provider code s share).
Proof.
  unfold insert_geo. respects. intros [H Hid]. split; [|exact Hid]. routing_write H.
  apply (routing_geo (wf_routing _ H)). intros k [<-|[_ Hk]]%lookup_insert_is_Some; [by right | by left].
Qed.

Lemma countTargets_WF id : Respects (Keeps (WFsnap id)) (countTargetsByCountry id).
Proof.
  unfold countTargetsByCountry. respects. intros [H Hid]. split; [|exact Hid]. routing_write H.
  apply (routing_geo (wf_routing _ H)). intros k. rewrite map_lookup_imap.
  destruct (db_provider_geo d !! k); [|intros [? ?]; done]. left. eauto.
Qed.

Lemma scheduling_targets {workers providers targets targets' assignments aseq leases} :
  (forall t, In t targets -> In t targets') ->
  scheduling_ok workers providers targets assignments aseq leases ->
  scheduling_ok workers providers targets' assignments aseq leases.
Proof.
  intros Ht []. split; try done. intros a Ha. apply in_map_iff.
  match goal with Hf : forall a, In a _ -> In (a_target a) _ |- _ => destruct (proj1 (in_map_iff _ _ _) (Hf a Ha)) as (t & Et & Hin) end. eauto.
Qed.

Lemma deriveTargets_WF cfg id : Respects (Keeps (WFsnap id)) (deriveTargets cfg id).
Proof.
  unfold deriveTargets. respects. set (l := chosen _ _ _) in *. intros [HW Hid]. destruct (forallb _ l) eqn:Ef; simpl in *; [|done].
  destruct (exists_row _ _) eqn:Ed; simplify_eq. split; [|exact Hid]. rewrite exists_row_false in Ed. rewrite forallb_forall in Ef.
  destruct (number_targets_map id l (db_target_seq d)) as (E1 & E2 & E3 & _).
  routing_write HW.
  2:{ apply (scheduling_targets (targets := db_target d)); [intros; apply in_app_iff; by left | exact (wf_scheduling _ HW)]. }
  rewrite <- E1. apply (routing_target_append (wf_routing _ HW) id); [done | by rewrite number_targets_ids, E1 | | rewrite E2; apply chosen_addresses |].
  - intros t (x & i & Hx & ->)%E3. simpl. split_and!; [done | specialize (Ef x Hx); by destruct (db_provider d !! c_provider x) |].
    apply chosen_candidate in Hx. unfold candidates in Hx. apply list_elem_of_In, list_elem_of_omap in Hx as (p & Hp & Ep).
    apply list_elem_of_In, select_In in Hp as [Hp Hs]. btrue. destruct (db_asn d !! pr_origin p); [|done]. injection Ep as <-.
    apply in_map_iff. exists p. split; [simpl; congruence | done].
  - intros t u Ht (x & i & Hx & ->)%E3 Hs. simpl. intros E. specialize (Ed t Ht). rewrite Hs, Z.eqb_refl in Ed. simpl in Ed.
    assert (existsb (fun x => bool_decide (c_address x = tg_address t)) l = true) as Hc; [|congruence].
    apply existsb_exists. exists x. split; [done | by apply bool_decide_true].
Qed.

(** ** Retention

    Deletes in the order of the references: what refers to a row goes first. *)
Definition Triple {D A} (P : D -> Prop) (m : M D A) (Q : A -> D -> Prop) (E : D -> Prop) : Prop :=
  forall w r w', m w = (r, w') -> P (w_db w) -> match r with Ok a => Q a (w_db w') | Err _ => E (w_db w') end.

Section Triples.
Context {D : Type}.
Lemma triple_bind {A B} (P E : D -> Prop) (Q : A -> D -> Prop) (R : B -> D -> Prop) (m : M D A) (k : A -> M D B) :
  Triple P m Q E -> (forall a, Triple (Q a) (k a) R E) -> Triple P (bindM m k) R E.
Proof.
  intros Hm Hk w r w' H HP. apply bind_cases in H as [(e & H & ->)|(a & w1 & H & H1)]; [exact (Hm _ _ _ H HP)|].
  exact (Hk _ _ _ _ H1 (Hm _ _ _ H HP)).
Qed.
Lemma triple_keeps {A} (I : D -> Prop) (m : M D A) : Respects (Keeps I) m -> Triple I m (fun _ => I) I.
Proof. intros Hm w r w' H HI. destruct (Hm _ _ _ H) as [_ HK]. destruct r; by apply HK. Qed.
Lemma triple_weaken {A} (P P' E E' : D -> Prop) (Q Q' : A -> D -> Prop) (m : M D A) :
  Triple P m Q E -> (forall d, P' d -> P d) -> (forall a d, Q a d -> Q' a d) -> (forall d, E d -> E' d) -> Triple P' m Q' E'.
Proof. intros Hm HP HQ HE w r w' H HP'. specialize (Hm _ _ _ H (HP _ HP')). destruct r; auto. Qed.
End Triples.

Lemma triple_lift {A} (P E : database -> Prop) (Q : A -> database -> Prop) (m : DB A) :
  Triple P m Q E -> Triple (fun s => P (sys_db s)) (lift m) (fun a s => Q a (sys_db s)) (fun s => E (sys_db s)).
Proof. intros Hm w r w' (dw & H & Ed & _)%lift_run HP. rewrite Ed. exact (Hm _ _ _ H HP). Qed.

Lemma triple_exec (P E : database -> Prop) (Q : database -> Prop) f :
  (forall n d, P d -> Q (f n d)) -> (forall d, P d -> E d) -> Triple P (exec f) (fun _ => Q) E.
Proof.
  intros Hf HE w r w' H HP. destruct r as [u|e].
  - apply exec_Ok in H as [-> _]. by apply Hf.
  - apply stmt_Err in H as [-> _]. by apply HE.
Qed.

Lemma count_delete {A} (p q : A -> bool) t : (count_rows p (delete_where q t) <= count_rows p t)%nat.
Proof.
  unfold count_rows, delete_where, select. induction t as [|x t IH]; simpl; [done|].
  destruct (q x), (p x) eqn:E; simpl; rewrite ?E; simpl; lia.
Qed.

Section PruneOne.
Variable v : Z.
Definition no_leases (d : database) : Prop := forall l, In l (db_lease d) -> assignment_in v d (l_assignment l) = false.
Definition no_assignments (d : database) : Prop := forall a, In a (db_assignment d) -> in_snapshot v d (a_target a) = false.
Definition no_targets (d : database) : Prop := forall t, In t (db_target d) -> tg_snapshot t <> v.

Lemma delete_leases_WF d : WF d ->
  let d' := set_lease (delete_where (fun l => assignment_in v d (l_assignment l))) d in WF d' /\ no_leases d'.
Proof.
  intros H. split; [|intros l [_ Hl]%delete_where_In; exact Hl].
  scheduling_write H. destruct (wf_scheduling _ H) as [H1 H2 H3 H4 H5 H6]. split; try done.
  - intros l [Hl _]%delete_where_In. by apply H4.
  - intros l [Hl _]%delete_where_In. by apply H5.
  - intros a w. etrans; [apply count_delete|apply (H6 a w)].
Qed.

Lemma delete_assignments_WF d : WF d -> no_leases d ->
  let d' := set_assignment (delete_where (fun a => in_snapshot v d (a_target a))) d in WF d' /\ no_assignments d'.
Proof.
  intros H Hn. split; [|intros a [_ Ha]%delete_where_In; exact Ha].
  scheduling_write H. destruct (wf_scheduling _ H) as [H1 H2 H3 H4 H5 H6]. split; try done.
  - by apply identity_delete.
  - intros a [Ha _]%delete_where_In. by apply H2.
  - intros a [Ha _]%delete_where_In. by apply H3.
  - intros l Hl. specialize (Hn l Hl). destruct (proj1 (in_map_iff _ _ _) (H4 l Hl)) as (a & Ea & Ha).
    apply in_map_iff. exists a. split; [done|]. apply delete_where_In. split; [done|].
    unfold assignment_in in Hn. rewrite exists_row_false in Hn. specialize (Hn a Ha).
    by rewrite Ea, Z.eqb_refl in Hn.
Qed.

Lemma target_of_In d t : WF d -> In t (db_target d) -> target_of (tg_id t) d = Some t.
Proof.
  intros H Ht. unfold target_of. destruct (List.find _ _) as [u|] eqn:E.
  - apply find_some in E as [Hu E]. btrue. f_equal. eapply (NoDup_key_eq tg_id); [|done|done|done].
    apply (id_unique _ _ _ (target_pkey _ _ _ _ _ _ _ _ _ (wf_routing _ H))).
  - eapply find_none in E; [|exact Ht]. by rewrite Z.eqb_refl in E.
Qed.

Lemma delete_targets_WF d : WF d -> no_assignments d ->
  let d' := set_target (delete_where (fun t => tg_snapshot t =? v)) d in WF d' /\ no_targets d'.
Proof.
  intros H Hn. split; [|intros t [_ Ht]%delete_where_In; by btrue]. routing_write H.
  - destruct (wf_routing _ H) as [H1 H2 H3 H4 H5 H6 H7 H8 H9 H10 H11 H12 H13]. split; try done;
      try (by apply identity_delete); try (by apply NoDup_select); intros t [Ht _]%delete_where_In; auto.
  - destruct (wf_scheduling _ H) as [H1 H2 H3 H4 H5 H6]. split; try done. intros a Ha. specialize (Hn a Ha).
    destruct (proj1 (in_map_iff _ _ _) (H2 a Ha)) as (t & Et & Ht). apply in_map_iff. exists t. split; [done|].
    apply delete_where_In. split; [done|]. unfold in_snapshot in Hn. by rewrite <- Et, target_of_In in Hn.
Qed.

Lemma delete_geo_WF d : WF d -> no_targets d ->
  let d' := set_provider_geo (filter (fun kv : (Z * string * string) * geo_row => kv.1.1.1 <> v)) d in WF d' /\ no_targets d'.
Proof.
  intros H Hn. split; [|exact Hn]. routing_write H. apply (routing_geo (wf_routing _ H)).
  intros k [g [Hk _]%map_lookup_filter_Some]. left. eauto.
Qed.

Lemma delete_prefixes_WF d : WF d -> no_targets d -> WF (set_prefix (delete_where (fun p => pr_snapshot p =? v)) d).
Proof.
  intros H Hn. routing_write H. destruct (wf_routing _ H) as [H1 H2 H3 H4 H5 H6 H7 H8 H9 H10 H11 H12 H13].
  split; try done; try (by apply identity_delete); try (by apply NoDup_select); try (intros p [Hp _]%delete_where_In; auto; fail).
  intros t Ht. destruct (proj1 (in_map_iff _ _ _) (H12 t Ht)) as (p & Ep & Hp). apply in_map_iff. exists p. split; [done|].
  apply delete_where_In. split; [done|]. apply Z.eqb_neq. injection Ep as _ ->. by apply Hn.
Qed.
End PruneOne.

Definition WFsys (s : sys) : Prop := WF (sys_db s).

Ltac prune_step P Q := eapply triple_bind; [apply (triple_lift P WF (fun _ => Q)), triple_exec | intros ?; cbv beta].

Lemma prune_one_WF v : Triple WFsys (prune_one v) (fun _ => WFsys) WFsys.
Proof.
  unfold prune_one. set (id := sn_id v).
  prune_step WF (fun d => WF d /\ no_leases id d); [intros n d; apply delete_leases_WF | done |].
  prune_step (fun d => WF d /\ no_leases id d) (fun d => WF d /\ no_assignments id d); [intros n d [? ?]; by apply delete_assignments_WF | by intros d [? _] |].
  prune_step (fun d => WF d /\ no_assignments id d) (fun d => WF d /\ no_targets id d); [intros n d [? ?]; by apply delete_targets_WF | by intros d [? _] |].
  prune_step (fun d => WF d /\ no_targets id d) (fun d => WF d /\ no_targets id d); [intros n d [? ?]; by apply delete_geo_WF | by intros d [? _] |].
  prune_step (fun d => WF d /\ no_targets id d) WF; [intros n d [? ?]; by apply delete_prefixes_WF | by intros d [? _] |].
  apply (triple_keeps WFsys). unfold Delete. respects; intros H; exact H.
Qed.

Lemma Prune_WF retain : Triple WFsys (Prune retain) (fun _ => WFsys) WFsys.
Proof.
  unfold Prune. destruct (retain <? 0); [apply (triple_keeps WFsys), respects_throw; apply _|].
  eapply triple_bind; [apply triple_keeps, respects_lift_query; apply _|]. intros vs. cbv beta.
  induction vs as [|v vs IH]; simpl; [apply triple_keeps; respects|].
  eapply triple_bind; [apply prune_one_WF | intros u; exact IH].
Qed.

(** ** A whole run of the builder *)
Lemma WFsnap_snapshots id p f d : (forall s, sn_id (f s) = sn_id s) -> (forall s, sn_version (f s) = sn_version s) ->
  WFsnap id d -> WFsnap id (set_snapshot (update_where p f) d).
Proof.
  intros Hi Hv [H Hid]. split; [|simpl; by rewrite update_map_id].
  routing_write H. by apply (routing_snapshot_update (wf_routing _ H)).
Qed.

Section BuilderRun.
Context {mo : MapOrder} {cr : Crypto} {mj : ManifestJSON} {sf : SQLiteFormat}.
Variables (versionOf : Z -> Z -> string) (cfg : BuilderConfig) (Key : PrivateKey) (MinVersion : string) (has_publisher : bool).

Definition WFsnap_sys (id : Z) (s : sys) : Prop := WFsnap id (sys_db s).

Lemma Publish_WF id v : Respects (Keeps WFsys) (Publish Key MinVersion id v).
Proof.
  unfold Publish, ExportSQLite, verifyReadback, Put.
  repeat first [ apply respects_lift_query; apply _ | apply respects_lift_query_row; apply _ | apply respects_clock; apply _
               | apply respects_Get; apply _ | progress respects
               | apply (respects_lift (Keeps WF)) ]; try (intros H; exact H).
  intros H. routing_write H. by apply (routing_snapshot_update (wf_routing _ H)).
Qed.

Lemma release_WF id version : Triple WFsys (release cfg Key MinVersion has_publisher id version) (fun _ => WFsys) WFsys.
Proof.
  unfold release. eapply triple_bind; [apply (triple_keeps WFsys); respects; apply Publish_WF | intros ?; cbv beta].
  eapply triple_bind; [apply (triple_keeps WFsys), (respects_lift (Keeps WF)), flip_WF | intros ?; cbv beta].
  destruct has_publisher; [|apply triple_keeps; respects].
  eapply triple_bind; [|intros u'; apply Prune_WF]. apply (triple_keeps WFsys). unfold SetCurrent, Put.
  respects; [apply respects_clock; apply _|]. intros H. exact H.
Qed.

Lemma load_WF rows stats : Triple WF (load versionOf rows stats) (fun lv => WFsnap lv.1) WF.
Proof.
  intros w r w' E H. destruct r as [[id v]|e]; [|apply tx_Err in E; by rewrite E].
  unfold load in E. apply tx_Ok in E as (w1 & w2 & E1 & _ & E & E2 & _). rewrite <- E1 in H.
  apply bindM_Ok in E as (n & w3 & [-> ->]%clock_Ok & E). apply bindM_Ok in E as (i & w4 & Hi & E).
  apply insert_snapshot_WF in Hi; [|done]. apply bindM_Ok in E as (u & w5 & Hc & E).
  apply copy_prefixes_WF in Hc as [_ Hc]. inv_ok. rewrite E2. exact (Hc Hi).
Qed.

Lemma Run_WF feed dump src :
  Triple WFsys (Run versionOf cfg Key MinVersion has_publisher feed dump src) (fun _ => WFsys) WFsys.
Proof.
  unfold Run. eapply triple_bind; [apply (triple_keeps WFsys), (respects_lift (Keeps WF)), SyncProviders_WF | intros m; cbv beta].
  destruct (extract _ _ _) as [[rows stats]|e]; [|apply triple_keeps; respects].
  destruct src as [src|e]; [|apply triple_keeps; respects].
  eapply triple_bind; [apply (triple_lift WF WF (fun lv => WFsnap lv.1)), load_WF | intros [id version]; cbv beta; simpl].
  assert (forall A (m : DB A), Respects (Keeps (WFsnap id)) m ->
    Triple (WFsnap_sys id) (lift m) (fun _ => WFsnap_sys id) WFsys) as Hstep.
  { intros A m0 Hm. eapply triple_weaken; [apply (triple_keeps (WFsnap_sys id)), (respects_lift (Keeps (WFsnap id))), Hm|..];
      try done. by intros d [? _]. }
  eapply triple_bind; [apply Hstep; unfold loadDistribution; respects; apply insert_geo_WF | intros ?; cbv beta].
  eapply triple_bind; [apply Hstep, deriveTargets_WF | intros ?; cbv beta].
  eapply triple_bind; [apply Hstep, countTargets_WF | intros ?; cbv beta].
  eapply triple_bind; [apply Hstep; unfold sanityGate; respects | intros ?; cbv beta].
  eapply triple_weaken; [apply release_WF | by intros d [? _] | done | done].
Qed.
End BuilderRun.

(** * The whole system

    One step of some service on the shared database: a request to the
    coordinator or its maintenance tick, a scheduler pass, the aggregator's
    passes, an outbox drain, a synchronization with the website, or a run of
    the snapshot builder; each with any configuration, at any time, with any
    statements failing. *)
Section System.
Context {cr : Crypto} {tm : TimeText} {oj : Observation.ObservationJSON} {at_ : AddrText} {ut : UuidText}
  {rj : RequestJSON} {hp : HostPort} {mo : MapOrder} {mj : ManifestJSON} {sf : SQLiteFormat}.

(** A database job of a background process. *)
Inductive job : Type :=
| JReconcile (md5 : string -> string) (c : SchedConfig)
| JTrust
| JWindow (c : AggConfig) (start : Z)
| JRollup (marshal : statusDoc -> json) (c : AggConfig)
| JRetention (c : AggConfig)
| JTelemetry (time_json : Z -> json)
| JSync (has_audit : bool) (ws : website) (since : option Z) (h : gmap string feedHealth).

Definition run_job (j : job) : DB unit :=
  match j with
  | JReconcile md5 c => Reconcile md5 c
  | JTrust => ComputeAll
  | JWindow c start => ComputeWindow c start
  | JRollup marshal c => RollupStatus marshal c
  | JRetention c => Retention c
  | JTelemetry tj => EnqueueFleetTelemetry tj
  | JSync a ws since h => done (SyncAdvisor a ws since h)
  end.

Inductive service : sys -> sys -> Prop :=
| sv_request cfg o e r w a w' : serve cfg o e r w = (a, w') -> service (w_db w) (w_db w')
| sv_maintenance w a w' : maintenance w = (a, w') -> service (w_db w) (w_db w')
| sv_job j w a w' : lift (run_job j) w = (a, w') -> service (w_db w) (w_db w')
| sv_drain accepts locked s log n fs a w' :
    DrainOnce accepts locked (World (Pub (sys_db s) log) n fs) = (a, w') -> service s (set_sys_db (pub_db (w_db w')) s)
| sv_build versionOf bcfg key minv publisher feed dump src w a w' :
    Run versionOf bcfg key minv publisher feed dump src w = (a, w') -> service (w_db w) (w_db w')
(** A coordinator process starts: the kill switch and the manifest cache are
    its memory. *)
| sv_start s : service s (Sys (sys_db s) (sys_store s) false None 0).

Lemma run_job_WF j : Respects (Keeps WF) (run_job j).
Proof.
  destruct j; simpl; unfold done.
  - apply Reconcile_WF.
  - apply ComputeAll_WF.
  - apply ComputeWindow_WF.
  - apply RollupStatus_WF.
  - apply Retention_WF.
  - apply Telemetry_WF.
  - respects. apply SyncAdvisor_respects_of; [apply _ | apply _ | apply SyncProviders_WF | apply audit_rows].
Qed.

Lemma service_WF s s' : service s s' -> WFsys s -> WFsys s'.
Proof.
  destruct 1 as [cfg o e r w a w' E|w a w' E|j w a w' E|accepts locked s log n fs a w' E|v b k mv p f dm src w a w' E|s].
  - exact (proj2 (serve_respects cfg (Keeps WF) o e r _ _ _ E)).
  - exact (proj2 (maintenance_respects (Keeps WF) _ _ _ E)).
  - exact (proj2 (respects_lift (Keeps WF) _ (run_job_WF j) _ _ _ E)).
  - exact (proj2 (DrainOnce_WF accepts locked _ _ _ E)).
  - intros H. pose proof (Run_WF v b k mv p f dm src _ _ _ E H) as HW. by destruct a.
  - done.
Qed.

(** C5: The database stays typed.  Whatever the services do, in any order, at
    any times and whichever statements fail, every database reached from the
    freshly migrated one satisfies the schema: identities are unique, every
    unique index holds, and no row refers to a worker, provider, ASN,
    snapshot, prefix, target or assignment that does not exist; in particular
    the retention pass never deletes a row something still refers to. *)
Theorem database_well_formed s s' : rtc service s s' -> sys_db s = empty_db -> WF (sys_db s').
Proof.
  intros H E. assert (WFsys s) as HW by (unfold WFsys; rewrite E; apply WF_empty).
  clear E. induction H as [s|s s1 s' H1 _ IH]; [done|]. by apply IH, (service_WF s).
Qed.
End System.

(** Two builds with a scheduler pass between them: the second build supersedes
    the first snapshot, and its retention pass removes that snapshot's
    prefixes, targets and assignments. *)
Module ToySystem.
Import Toy ToyUpload ToyServer ToyArtifact ToyGeo ToyBuilder.
Definition built (w : sysworld) : result unit * sysworld :=
  Run (fun _ now => pretty now) (MkBuilderConfig 2 1 (1 # 2) false 0) (cr:=toy_crypto) alice "1.0" true
    (Ok toy_feed) (Ok (toy_dump, None)) (Ok (Some toy_source)) w.
Definition day0 : sysworld := World (Sys empty_db ∅ false None 0) 7 [].
Definition day1 : sysworld := (built day0).2.
Definition day2 : sysworld := (lift (run_job (JReconcile (fun s => s) (MkSchedConfig 2 0 0 0 0))) day1).2.
Definition day3 : sysworld := (built (World (w_db day2) 9 [])).2.
End ToySystem.
Import Toy ToyUpload ToyServer ToyArtifact ToyGeo ToyBuilder.

Lemma database_well_formed_witness :
  length (db_assignment (sys_db (w_db ToySystem.day2))) = 2%nat /\
  db_assignment (sys_db (w_db ToySystem.day3)) = [] /\
  map sn_status (db_snapshot (sys_db (w_db ToySystem.day3))) = [Superseded; Published] /\
  WF (sys_db (w_db ToySystem.day3)).
Proof.
  split; [vm_compute; reflexivity|]. split; [vm_compute; reflexivity|]. split; [vm_compute; reflexivity|].
  apply (database_well_formed (cr:=toy_crypto) (w_db ToySystem.day0)); [|reflexivity].
  apply rtc_l with (w_db ToySystem.day1); [eapply sv_build, surjective_pairing|].
  apply rtc_l with (w_db ToySystem.day2); [eapply sv_job, surjective_pairing|].
  apply rtc_once. exact (sv_build _ _ _ _ _ _ _ _ (World (w_db ToySystem.day2) 9 []) _ _ (surjective_pairing _)).
Defined.

Lemma toy_system_WF : WF (sys_db (w_db ToySystem.day3)).
Proof.
  assert (WFsys (w_db ToySystem.day0)) as H0 by exact WF_empty.
  assert (WFsys (w_db ToySystem.day1)) as H1.
  { refine (service_WF _ _ _ H0). eapply sv_build, surjective_pairing. }
  assert (WFsys (w_db ToySystem.day2)) as H2.
  { refine (service_WF _ _ _ H1). eapply sv_job, surjective_pairing. }
  refine (service_WF (w_db ToySystem.day2) _ _ H2).
  exact (sv_build _ _ _ _ _ _ _ _ (World (w_db ToySystem.day2) 9 []) _ _ (surjective_pairing _)).
Qed.
