(* ===== verification/Probe.v ===== *)
(** [internal/probe]: the prober registry and the ICMP echo prober.

    The socket is a parameter: [icmp_conn] says whether it is a raw socket,
    what each [WriteTo] answers and what the reads yield.  A read either fails
    (the deadline passed) or yields a datagram after some microseconds, which
    [icmp.ParseMessage] decodes to an echo body, to another body, or not at
    all.  Round-trip times are exact rationals. *)
From stdpp Require Import base gmap strings list.
From Stdlib Require Import ZArith QArith Lia.
From S2P Require Import Prelude Netip Schema.
Open Scope Z_scope.

Definition Millisecond : Z := 1000000.

Record Params : Type := MkParams { Count : Z; Interval : Z; Timeout : Z }.

Definition withDefaults (p : Params) : Params :=
  MkParams (if Count p <=? 0 then 4 else Count p)
    (if Interval p <=? 0 then 200 * Millisecond else Interval p)
    (if Timeout p <=? 0 then 2 * Second else Timeout p).

Record Result : Type := MkResult {
  ROK : bool;
  RRTTMillis : Q;
  RPacketsSent : Z;
  RPacketsLost : Z;
  RMetrics : list (string * Q)
}.

(** A [Prober]: its type name and its [Probe] method, which runs against an
    environment [E] (the network it sees). *)
Record Prober (E : Type) : Type := MkProber {
  Type_ : string;
  Probe_ : E -> addr -> Params -> result Result
}.
Arguments MkProber {E} _ _.
Arguments Type_ {E} _.
Arguments Probe_ {E} _ _ _ _.

Definition Registry (E : Type) : Type := gmap string (Prober E).
Definition NewRegistry {E} (probers : list (Prober E)) : Registry E :=
  foldl (fun r p => <[Type_ p := p]> r) ∅ probers.
Definition Get {E} (r : Registry E) (probeType : string) : result (Prober E) :=
  match r !! probeType with
  | Some p => Ok p
  | None => Err (EMsg ("no prober for type " +:+ probeType))
  end.

(** * ICMP *)
Inductive icmp_body : Type :=
| Echo (id seq : Z)
| OtherBody.

(** One turn of the read loop: a datagram from [peer], [elapsed] microseconds
    after the request was sent, as [ParseMessage] sees it; or an error of
    [SetReadDeadline] or [ReadFrom]. *)
Inductive read_event : Type :=
| Datagram (peer : addr) (elapsed : Z) (msg : option icmp_body)
| ReadError.

(** The exchange of one sequence number: whether the context is done before
    it, whether the request could be marshalled and sent, and the reads that
    follow it. *)
Record exchange : Type := MkExchange {
  x_done : bool;
  x_marshalled : bool;
  x_sent : bool;
  x_reads : list read_event
}.

Record icmp_conn : Type := MkConn {
  is_raw : bool;
  pid : Z;
  exchanges : list exchange
}.

(** [awaitReply], reading at most [budget] datagrams; a connection that
    delivers nothing more times out. *)
Fixpoint await_loop (budget : nat) (raw : bool) (id seq : Z) (reads : list read_event)
    : option Q :=
  match budget with
  | O => None
  | S budget' =>
      match reads with
      | [] => None
      | ReadError :: _ => None
      | Datagram _ elapsed msg :: reads' =>
          match msg with
          | Some (Echo eid eseq) =>
              if negb (eseq =? seq) then await_loop budget' raw id seq reads'
              else if raw && negb (eid =? id) then await_loop budget' raw id seq reads'
              else Some (inject_Z elapsed / 1000)%Q
          | _ => await_loop budget' raw id seq reads'
          end
      end
  end.
Definition awaitReply (raw : bool) (id seq : Z) (reads : list read_event) : option Q :=
  await_loop 64 raw id seq reads.
#[global] Arguments awaitReply : simpl never.
#[global] Strategy 1000 [await_loop].

(** The send loop, from sequence number [seq] for the remaining exchanges: the
    replies so far and the requests counted as sent. *)
Fixpoint probe_loop (raw : bool) (id seq : Z) (xs : list exchange) (rtts : list Q) (sent : Z)
    : result (list Q * Z) :=
  match xs with
  | [] => Ok (rtts, sent)
  | x :: xs' =>
      if x_done x then Ok (rtts, sent)
      else if negb (x_marshalled x) then Err (EMsg "marshal")
      else if negb (x_sent x) then probe_loop raw id (seq + 1) xs' rtts (sent + 1)
      else
        match awaitReply raw id seq (x_reads x) with
        | Some rtt => probe_loop raw id (seq + 1) xs' (rtts ++ [rtt]) (sent + 1)
        | None => probe_loop raw id (seq + 1) xs' rtts (sent + 1)
        end
  end.

(** The result [Probe] builds from the replies. *)
Definition summarize (rtts : list Q) (sent : Z) : Result :=
  let n := length rtts in
  if Nat.ltb 0 n then
    let s := sort_by Qle_bool rtts in
    MkResult true (nth (n / 2) s 0%Q) sent (sent - Z.of_nat n)
      [("rtt_min_ms"%string, nth 0 s 0%Q); ("rtt_max_ms"%string, nth (n - 1) s 0%Q)]
  else MkResult false 0%Q sent (sent - Z.of_nat n) [].

(** [ICMP.Probe]; [None] when no socket could be opened.  An exchange the
    connection does not describe is one whose packet got no reply. *)
Definition silent : exchange := MkExchange false true true [].
Definition first_exchanges (n : nat) (xs : list exchange) : list exchange :=
  take n (xs ++ replicate n silent).

Definition Probe (openICMP : addr -> option icmp_conn) (target : addr) (params : Params) : result Result :=
  let p := withDefaults params in
  match openICMP target with
  | None => Err (EMsg "icmp socket")
  | Some conn =>
      let id := Z.land (pid conn) 65535 in
      match probe_loop (is_raw conn) id 0 (first_exchanges (Z.to_nat (Count p)) (exchanges conn)) [] 0 with
      | Err e => Err e
      | Ok (rtts, sent) => Ok (summarize rtts sent)
      end
  end.

Definition ICMP : Prober (addr -> option icmp_conn) := MkProber "icmp" Probe.

(** ** Sockets *)
(** The networks of [icmp.ListenPacket] the program asks for. *)
Inductive icmp_network : Type := Udp4 | Ip4Icmp | Udp6 | Ip6Icmp.

(** [openICMP]: the socket and the protocol number its messages are parsed
    with; [listen] is what the operating system grants. *)
Definition openICMP {C} (listen : icmp_network -> option C) (target : addr) : option (icmp_network * C * Z) :=
  if Is4 target then
    match listen Udp4 with
    | Some c => Some (Udp4, c, 1)
    | None => (fun c => (Ip4Icmp, c, 1)) <$> listen Ip4Icmp
    end
  else
    match listen Udp6 with
    | Some c => Some (Udp6, c, 58)
    | None => (fun c => (Ip6Icmp, c, 58)) <$> listen Ip6Icmp
    end.
(** [ipv4.ICMPTypeEcho] and [ipv6.ICMPTypeEchoRequest]. *)
Definition echoType (target : addr) : Z := if Is4 target then 8 else 128.
(** [addrFor]: a datagram socket takes a UDP address. *)
Definition udp_address (n : icmp_network) : bool := match n with Udp4 | Udp6 => true | _ => false end.

(** The connection [Probe] works on, with what arrives at it. *)
Definition open_conn (pid : Z) (listen : icmp_network -> option (list exchange)) (target : addr) : option icmp_conn :=
  (fun '(n, xs, _) => MkConn (negb (udp_address n)) pid xs) <$> openICMP listen target.

(** * Lemmas *)
Lemma Qle_bool_total x y : Qle_bool x y = false -> Qle_bool y x = true.
Proof.
  intros H. apply Qle_bool_iff. destruct (Qlt_le_dec y x) as [?|Hle]; [by apply Qlt_le_weak|].
  apply Qle_bool_iff in Hle. congruence.
Qed.
Lemma Qle_bool_trans x y z : Qle_bool x y = true -> Qle_bool y z = true -> Qle_bool x z = true.
Proof. rewrite !Qle_bool_iff. apply Qle_trans. Qed.

Lemma nth_sorted l i j : (i <= j < length l)%nat ->
  (nth i (sort_by Qle_bool l) 0 <= nth j (sort_by Qle_bool l) 0)%Q.
Proof.
  intros Hij. pose proof (sort_by_sorted Qle_bool l Qle_bool_total Qle_bool_trans) as Hs.
  assert (length (sort_by Qle_bool l) = length l) as Hl by (by rewrite sort_by_perm).
  revert i j Hij. rewrite <- Hl. clear Hl. induction Hs as [|x s Hs IH Hall]; intros i j Hij; simpl in *; [lia|].
  destruct i as [|i], j as [|j]; try lia.
  - apply Qle_refl.
  - rewrite Forall_forall in Hall. apply Qle_bool_iff, Hall, list_elem_of_In, nth_In. lia.
  - apply IH. lia.
Qed.

(** The socket is of the target's family, so is the protocol its replies are
    parsed with, and a raw socket is used only when no datagram socket is to be
    had; there is no connection only when neither is. *)
Lemma openICMP_spec {C} (listen : icmp_network -> option C) target :
  match openICMP listen target with
  | Some (n, c, proto) => listen n = Some c /\
      (if Is4 target then n = Udp4 \/ (n = Ip4Icmp /\ listen Udp4 = None) else n = Udp6 \/ (n = Ip6Icmp /\ listen Udp6 = None)) /\
      proto = (if Is4 target then 1 else 58)
  | None => if Is4 target then listen Udp4 = None /\ listen Ip4Icmp = None else listen Udp6 = None /\ listen Ip6Icmp = None
  end.
Proof.
  unfold openICMP. destruct (Is4 target).
  - destruct (listen Udp4) as [c|] eqn:E; [auto|]. destruct (listen Ip4Icmp) eqn:E'; simpl; auto.
  - destruct (listen Udp6) as [c|] eqn:E; [auto|]. destruct (listen Ip6Icmp) eqn:E'; simpl; auto.
Qed.

(** Whether a turn of the loop is the reply the loop waits for. *)
Definition matches (raw : bool) (id seq : Z) (e : read_event) : bool :=
  match e with
  | Datagram _ _ (Some (Echo eid eseq)) => (eseq =? seq) && (negb raw || (eid =? id))
  | _ => false
  end.
Definition is_datagram (e : read_event) : bool := match e with Datagram _ _ _ => true | ReadError => false end.

(** The reply the loop returns: the first matching datagram, reached within
    the budget and before any read error. *)
Definition reply_at (budget : nat) (raw : bool) (id seq : Z) (reads : list read_event) (rtt : Q) : Prop :=
  exists before peer elapsed msg after,
    reads = before ++ Datagram peer elapsed msg :: after /\ (length before < budget)%nat /\
    Forall (fun e => is_datagram e = true /\ matches raw id seq e = false) before /\
    matches raw id seq (Datagram peer elapsed msg) = true /\ rtt = (inject_Z elapsed / 1000)%Q.

Lemma reply_at_skip budget raw id seq e reads rtt :
  is_datagram e = true -> matches raw id seq e = false ->
  reply_at (S budget) raw id seq (e :: reads) rtt <-> reply_at budget raw id seq reads rtt.
Proof.
  intros Hd Hm. split.
  - intros ([|e0 before] & peer & elapsed & msg & after & E & Hl & Hf & Hm' & ?); simplify_list_eq; [congruence|].
    apply Forall_cons in Hf as [_ Hf]. exists before, peer, elapsed, msg, after. split_and!; [done|lia|done..].
  - intros (before & peer & elapsed & msg & after & -> & ? & ? & ? & ?).
    exists (e :: before), peer, elapsed, msg, after. split_and!; [done|simpl; lia|by constructor|done..].
Qed.

Lemma reply_at_hit budget raw id seq peer elapsed msg reads rtt :
  matches raw id seq (Datagram peer elapsed msg) = true ->
  reply_at (S budget) raw id seq (Datagram peer elapsed msg :: reads) rtt <-> rtt = (inject_Z elapsed / 1000)%Q.
Proof.
  intros Hm. split.
  - intros ([|e0 before] & peer' & elapsed' & msg' & after & E & _ & Hf & _ & ->); simplify_list_eq; [done|].
    apply Forall_cons in Hf as [[_ Hf] _]. simpl in *. congruence.
  - intros ->. exists [], peer, elapsed, msg, reads. split_and!; [done|simpl;lia|constructor|done..].
Qed.

Lemma reply_at_stop budget raw id seq reads rtt :
  budget = 0%nat \/ reads = [] \/ head reads = Some ReadError -> ~ reply_at budget raw id seq reads rtt.
Proof.
  intros H ([|e before] & peer & elapsed & msg & after & -> & Hl & Hf & _); destruct H as [->|[?|?]]; simplify_eq/=;
    try lia. apply Forall_cons in Hf as [[? _] _]. done.
Qed.

Lemma await_loop_spec budget raw id seq reads rtt :
  await_loop budget raw id seq reads = Some rtt <-> reply_at budget raw id seq reads rtt.
Proof.
  revert reads. induction budget as [|budget IH]; intros reads; simpl.
  { pose proof (reply_at_stop 0 raw id seq reads rtt (or_introl eq_refl)). split; [done|tauto]. }
  destruct reads as [|[peer elapsed msg|] reads'];
    [pose proof (reply_at_stop (S budget) raw id seq [] rtt ltac:(auto)); split; [done|tauto]
    |
    |pose proof (reply_at_stop (S budget) raw id seq (ReadError :: reads') rtt ltac:(auto)); split; [done|tauto]].
  destruct msg as [[eid eseq|]|]; [|by rewrite reply_at_skip..].
  destruct (matches raw id seq (Datagram peer elapsed (Some (Echo eid eseq)))) eqn:Hm.
  - rewrite reply_at_hit by done. simpl in Hm. apply andb_true_iff in Hm as [-> Hm]. simpl.
    destruct raw; simpl in *; [rewrite Hm; simpl|]; naive_solver.
  - rewrite reply_at_skip by done. simpl in Hm. destruct (eseq =? seq); simpl in *; [|done].
    destruct raw; simpl in *; [rewrite Hm; simpl|]; done.
Qed.

Lemma awaitReply_spec raw id seq reads rtt :
  awaitReply raw id seq reads = Some rtt <-> reply_at 64 raw id seq reads rtt.
Proof. exact (await_loop_spec 64 raw id seq reads rtt). Qed.

Lemma probe_loop_Ok raw id seq xs rtts sent rtts' sent' :
  probe_loop raw id seq xs rtts sent = Ok (rtts', sent') ->
  exists new n, rtts' = rtts ++ new /\ sent' = sent + Z.of_nat n /\ (length new <= n <= length xs)%nat /\
    Forall (fun rtt => exists x seq', In x xs /\ awaitReply raw id seq' (x_reads x) = Some rtt) new.
Proof.
  revert seq rtts sent. induction xs as [|x xs IH]; intros seq rtts sent; simpl.
  { intros E. simplify_eq. exists [], 0%nat. rewrite app_nil_r. split_and!; [done|lia|simpl; lia..|constructor]. }
  destruct (x_done x).
  { intros E. simplify_eq. exists [], 0%nat. rewrite app_nil_r. split_and!; [done|lia|simpl; lia..|constructor]. }
  destruct (x_marshalled x); [simpl|done].
  assert (forall new, Forall (fun rtt => exists x0 seq', In x0 xs /\ awaitReply raw id seq' (x_reads x0) = Some rtt) new ->
    Forall (fun rtt => exists x0 seq', (x = x0 \/ In x0 xs) /\ awaitReply raw id seq' (x_reads x0) = Some rtt) new) as Hw.
  { intros new Hf. eapply Forall_impl; [exact Hf|]. naive_solver. }
  destruct (x_sent x); simpl; [destruct (awaitReply _ _ _ _) as [rtt|] eqn:Er|];
    intros (new & n & -> & -> & Hn & Hf)%IH.
  - exists (rtt :: new), (S n). rewrite <- app_assoc. split_and!; [done|lia|simpl; lia..|].
    constructor; [|by apply Hw]. exists x, seq. auto.
  - exists new, (S n). split_and!; [done|lia|lia|lia|by apply Hw].
  - exists new, (S n). split_and!; [done|lia|lia|lia|by apply Hw].
Qed.

(** * Properties *)
Lemma first_exchanges_length n xs : length (first_exchanges n xs) = n.
Proof. unfold first_exchanges. rewrite length_take, length_app, length_replicate. lia. Qed.

Lemma summarize_In rtts sent : (0 < length rtts)%nat -> In (RRTTMillis (summarize rtts sent)) rtts.
Proof.
  intros Hn. unfold summarize. rewrite (proj2 (Nat.ltb_lt _ _) Hn). cbn [RRTTMillis].
  apply (Permutation_in _ (sort_by_perm Qle_bool rtts)), nth_In.
  rewrite (Permutation_length (sort_by_perm Qle_bool rtts)). apply Nat.div_lt; lia.
Qed.


(** On a raw socket the sender of a reply is not looked at: a reply of another
    host that carries this process's identifier and the current sequence
    number is taken for the target's, so a target that never answered is
    reported reachable with the other host's round trip. *)
Theorem foreign_reply_counts openICMP target params conn other elapsed x rest :
  openICMP target = Some conn -> is_raw conn = true -> other <> target -> exchanges conn = x :: rest ->
  x_done x = false -> x_marshalled x = true -> x_sent x = true ->
  x_reads x = [Datagram other elapsed (Some (Echo (Z.land (pid conn) 65535) 0))] ->
  Forall (fun y => x_marshalled y = true) rest ->
  exists res, Probe openICMP target params = Ok res /\ ROK res = true.
Proof.
  intros Ho Hraw _ Hx Hd Hm Hs Hr Hall. unfold Probe. rewrite Ho.
  set (p := withDefaults params).
  assert (0 < Count p) as Hc. { unfold p, withDefaults. simpl. destruct (_ <=? _) eqn:Ec; btrue; lia. }
  unfold first_exchanges. rewrite Hx. destruct (Z.to_nat (Count p)) as [|n] eqn:En; [lia|].
  cbn [app take probe_loop]. rewrite Hd, Hm, Hs. cbn [negb]. unfold awaitReply. rewrite Hr, Hraw.
  cbn [await_loop]. rewrite !Z.eqb_refl. cbn [negb andb]. cbn [app].
  assert (Forall (fun y => x_marshalled y = true) (take n (rest ++ replicate (S n) silent))) as Hall'.
  { apply Forall_take, Forall_app. split; [done|]. by apply Forall_replicate. }
  revert Hall'. generalize (take n (rest ++ replicate (S n) silent)) as xs. intros xs Hxs.
  assert (forall seq rtts sent, exists new sent', probe_loop true (Z.land (pid conn) 65535) seq xs rtts sent
    = Ok (rtts ++ new, sent')) as Hok.
  { induction Hxs as [|y xs Hy Hxs IH]; intros seq rtts sent; simpl; [exists [], sent; by rewrite app_nil_r|].
    destruct (x_done y); [exists [], sent; by rewrite app_nil_r|]. rewrite Hy. simpl.
    destruct (x_sent y); simpl; [|apply IH]. destruct (awaitReply _ _ _ _) as [r|]; [|apply IH].
    destruct (IH (seq + 1) (rtts ++ [r]) (sent + 1)) as (new & s' & ->). exists (r :: new), s'. by rewrite <- app_assoc. }
  destruct (Hok (0 + 1) [(inject_Z elapsed / 1000)%Q] (0 + 1)) as (new & s' & ->). eexists. split; [done|]. done.
Qed.

(** A probe whose context is cancelled before its first packet is not an
    error: it reports the target unreachable, with no packet sent. *)
Theorem cancelled_probe_reports_down openICMP target params conn x rest :
  openICMP target = Some conn -> exchanges conn = x :: rest -> x_done x = true ->
  Probe openICMP target params = Ok (MkResult false 0 0 0 []).
Proof.
  intros Ho Hx Hd. unfold Probe. rewrite Ho. set (p := withDefaults params).
  assert (0 < Count p) as Hc. { unfold p, withDefaults. simpl. destruct (_ <=? _) eqn:Ec; btrue; lia. }
  unfold first_exchanges. rewrite Hx. destruct (Z.to_nat (Count p)) as [|n] eqn:En; [lia|].
  cbn [app take probe_loop]. by rewrite Hd.
Qed.

(** Later probers of a type replace earlier ones; the registry has nothing
    else. *)
Lemma NewRegistry_Get {E} (probers : list (Prober E)) t p :
  Get (NewRegistry probers) t = Ok p -> In p probers /\ Type_ p = t.
Proof.
  unfold Get, NewRegistry. unfold Registry. assert (forall r : gmap string (Prober E), foldl (fun r p => <[Type_ p := p]> r) r probers !! t = Some p ->
    (In p probers /\ Type_ p = t) \/ r !! t = Some p) as H.
  { induction probers as [|q l IH]; intros r; simpl; [auto|]. intros [[? ?]|H]%IH; [auto|].
    apply lookup_insert_Some in H as [[? ->]|[? ?]]; subst; auto. }
  destruct (_ !! t) eqn:Eq; [|done]. intros [= <-]. apply H in Eq as [?|Eq]; [done|]. by rewrite lookup_empty in Eq.
Qed.

(** * Witnesses *)
Module ToyProbe.
Definition here : addr := Addr V4 16909060.
Definition there : addr := Addr V4 16909061.
(** Process 70000 (identifier 4464): the first packet is answered after a
    late reply to another sequence number, the second times out, the third
    cannot be sent. *)
Definition toy_conn : icmp_conn := MkConn true 70000 [
  MkExchange false true true [Datagram here 900 (Some (Echo 4464 3)); Datagram here 1500 (Some (Echo 4464 0))];
  MkExchange false true true [ReadError];
  MkExchange false true false []].
Definition toy_open (_ : addr) : option icmp_conn := Some toy_conn.
Definition toy_foreign : icmp_conn :=
  MkConn true 70000 [MkExchange false true true [Datagram there 800 (Some (Echo 4464 0))]].
End ToyProbe.


Lemma foreign_reply_counts_witness : ToyProbe.there <> ToyProbe.here /\ exists res,
  Probe (fun _ => Some ToyProbe.toy_foreign) ToyProbe.here (MkParams 0 0 0) = Ok res /\ ROK res = true.
Proof.
  split; [discriminate|].
  apply (foreign_reply_counts (fun _ => Some ToyProbe.toy_foreign) ToyProbe.here (MkParams 0 0 0) ToyProbe.toy_foreign
    ToyProbe.there 800 (MkExchange false true true [Datagram ToyProbe.there 800 (Some (Echo 4464 0))]) []);
    try reflexivity; [discriminate | constructor].
Defined.
