(* ===== verification/StateDir.v ===== *)
(** [internal/worker/state.go] and [status.go]: the worker's state directory.

    The directory is a map from file names to contents, together with what
    [crypto/rand] yields next.  A system call may fail at any point
    ([stmt]); [os.WriteFile] truncates, writes byte after byte and closes, so
    that a failure can leave any prefix of the data; [os.Rename] is atomic.
    The private-key encoding and the JSON form of the status are parameters. *)
From stdpp Require Import base gmap strings list.
From Stdlib Require Import ZArith Lia Ascii String.
From S2P Require Import Prelude Codec Wireauth Artifact.
Open Scope Z_scope.

(** [ed25519.NewKeyFromSeed] and [PrivateKey.Seed]. *)
Class SeedCrypto `{Crypto} : Type := {
  NewKeyFromSeed : string -> PrivateKey;
  Seed : PrivateKey -> string
}.
Class SeedLaws `{SeedCrypto} : Prop := {
  seed_size : forall k, String.length (Seed k) = 32%nat;
  key_of_seed : forall k, NewKeyFromSeed (Seed k) = k
}.
Definition SeedSize : nat := 32.

Record disk : Type := Disk {
  files : gmap string string;
  draws : list string
}.
Definition set_files (f : gmap string string -> gmap string string) (d : disk) : disk :=
  Disk (f (files d)) (draws d).
Abbreviation DM := (M disk).

Definition ErrNotExist : error := EMsg "file does not exist".

Definition newline : string := String (byte_of 10) "".

(** * File system calls *)
Definition ReadFile (name : string) : DM string :=
  stmt (fun _ d => match files d !! name with Some c => Ok (c, d) | None => Err ErrNotExist end).
Definition append_byte (name : string) (c : ascii) : DM unit :=
  exec (fun _ => set_files (alter (fun s => s +:+ String c "") name)).
Definition close_file : DM unit := exec (fun _ d => d).
Definition WriteFile (name content : string) : DM unit :=
  do! exec (fun _ => set_files (<[name := ""%string]>)) ;;
  do! forM (list_ascii_of_string content) (append_byte name) ;;
  close_file.
Definition Rename (old new : string) : DM unit :=
  stmt (fun _ d => match files d !! old with
                   | Some c => Ok (tt, set_files (fun f => <[new := c]> (delete old f)) d)
                   | None => Err ErrNotExist
                   end).
Definition Remove (name : string) : DM unit :=
  stmt (fun _ d => match files d !! name with
                   | Some _ => Ok (tt, set_files (delete name) d)
                   | None => Err ErrNotExist
                   end).
(** [rand.Read] of [n] bytes: the next draw, when it has that size. *)
Definition rand_read (n : nat) : DM string := fun w =>
  match draws (w_db w) with
  | s :: ds =>
      if Nat.eqb (String.length s) n
      then (Ok s, World (Disk (files (w_db w)) ds) (w_now w) (w_faults w))
      else (Err (EMsg "rand"), World (Disk (files (w_db w)) ds) (w_now w) (w_faults w))
  | [] => (Err (EMsg "rand"), w)
  end.

(** * The directory *)
Definition keyPath : string := "worker.key".
Definition idPath : string := "worker.id".
Definition SnapshotPath : string := "routing.sqlite".
Definition versionPath : string := "routing.version".
Definition StatusPath : string := "status.json".

Definition Ensure : DM unit := exec (fun _ d => d).

Section State.
Context {cr : Crypto} {sc : SeedCrypto}.

(** [ed25519.GenerateKey(rand.Reader)]. *)
Definition GenerateKey : DM PrivateKey :=
  let! seed := rand_read SeedSize in ret (NewKeyFromSeed seed).

Definition ErrCorruptKey : error := EMsg "corrupt worker key file".

Definition Key : DM PrivateKey :=
  let! r := attempt (ReadFile keyPath) in
  match r with
  | Ok raw =>
      match b64_decode (TrimSpace raw) with
      | None => throw ErrCorruptKey
      | Some seed =>
          if negb (Nat.eqb (String.length seed) SeedSize) then throw ErrCorruptKey
          else ret (NewKeyFromSeed seed)
      end
  | Err e =>
      if negb (bool_decide (e = ErrNotExist)) then throw e
      else
        let! priv := GenerateKey in
        do! WriteFile keyPath (b64_encode (Seed priv) +:+ newline) ;;
        ret priv
  end.

Definition ReplaceKey (priv : PrivateKey) : DM unit :=
  let tmp := (keyPath +:+ ".tmp")%string in
  do! WriteFile tmp (b64_encode (Seed priv) +:+ newline) ;;
  Rename tmp keyPath.
End State.

Definition WorkerID : DM string :=
  let! r := attempt (ReadFile idPath) in
  match r with
  | Ok raw => ret (TrimSpace raw)
  | Err e => if bool_decide (e = ErrNotExist) then ret ""%string else throw e
  end.

Definition SaveWorkerID (id : string) : DM unit := WriteFile idPath (id +:+ newline).

(** Any read error counts as "none installed". *)
Definition SnapshotVersion : DM string :=
  let! r := attempt (ReadFile versionPath) in
  match r with
  | Ok raw => ret (TrimSpace raw)
  | Err _ => ret ""%string
  end.

Definition InstallSnapshot (tmpPath version : string) : DM unit :=
  do! Rename tmpPath SnapshotPath ;;
  WriteFile versionPath (version +:+ newline).

(** * Status *)
Record Status : Type := MkStatus {
  st_WorkerID : string;
  st_State : string;
  st_SoftwareVersion : string;
  st_CoordinatorURL : string;
  st_SnapshotVersion : string;
  st_LastHeartbeatAt : Z;
  st_Assignments : Z;
  st_MeasurementsSubmitted : Z;
  st_LastUploadAt : option Z;
  st_LastUploadMillis : Z;
  st_QueueDepth : Z;
  st_UpdatedAt : Z
}.
Definition with_updated (t : Z) (s : Status) : Status :=
  MkStatus (st_WorkerID s) (st_State s) (st_SoftwareVersion s) (st_CoordinatorURL s) (st_SnapshotVersion s)
    (st_LastHeartbeatAt s) (st_Assignments s) (st_MeasurementsSubmitted s) (st_LastUploadAt s)
    (st_LastUploadMillis s) (st_QueueDepth s) t.

Class StatusJSON : Type := {
  marshal_status : Status -> option string;
  unmarshal_status : string -> option Status
}.
(** [encoding/json] reads back what it wrote of this type. *)
Class StatusJSONLaws `{StatusJSON} : Prop :=
  status_roundtrip : forall st s, marshal_status st = Some s -> unmarshal_status s = Some st.

Section Status.
Context {sj : StatusJSON}.

Definition WriteStatus (st : Status) : DM unit :=
  let! now := clock in
  match marshal_status (with_updated now st) with
  | None => throw (EMsg "json")
  | Some raw =>
      let tmp := (StatusPath +:+ ".tmp")%string in
      do! WriteFile tmp raw ;;
      Rename tmp StatusPath
  end.

Definition ReadStatus : DM Status :=
  let! raw := ReadFile StatusPath in
  match unmarshal_status raw with
  | Some st => ret st
  | None => throw (EMsg "json")
  end.
End Status.

(** * Lemmas *)
(** Every run leaves all files outside [P] as they are. *)
Definition Touches (P : string -> Prop) (n : Z) (d d' : disk) : Prop :=
  forall name, ~ P name -> files d' !! name = files d !! name.
#[global] Instance Touches_preorder P : PreOrderAt (Touches P).
Proof. split; unfold Touches; [done|]. intros ? d1 d2 d3 H1 H2 name Hn. by rewrite H2, H1. Qed.

Lemma rand_read_respects R `{!PreOrderAt R} n :
  (forall k d ds, R k d (Disk (files d) ds)) -> Respects R (rand_read n).
Proof.
  intros HR w r w' E. unfold rand_read in E. destruct (draws (w_db w)) as [|s ds]; [|destruct (_ =? _)%nat];
    simplify_eq; simpl; (split; [done|]); first [apply HR | apply at_refl].
Qed.

Section Touching.
Context (P : string -> Prop).

Lemma touches_WriteFile name content : P name -> Respects (Touches P) (WriteFile name content).
Proof.
  intros HP. unfold WriteFile, close_file, append_byte.
  respects; intros nm Hnm; simpl; [..|done]; assert (nm <> name) by congruence.
  - by rewrite lookup_insert_ne.
  - by rewrite lookup_alter_ne.
Qed.
Lemma touches_Rename old new : P old -> P new -> Respects (Touches P) (Rename old new).
Proof.
  intros Ho Hn. unfold Rename. respects. case_match; simplify_eq. intros nm Hnm. simpl.
  assert (nm <> old /\ nm <> new) as [? ?] by (split; congruence). by rewrite lookup_insert_ne, lookup_delete_ne.
Qed.
Lemma touches_Remove name : P name -> Respects (Touches P) (Remove name).
Proof.
  intros Hn. unfold Remove. respects. case_match; simplify_eq. intros nm Hnm. simpl.
  assert (nm <> name) by congruence. by rewrite lookup_delete_ne.
Qed.
Lemma touches_ReadFile name : Respects (Touches P) (ReadFile name).
Proof. unfold ReadFile. respects. case_match; simplify_eq. apply at_refl. Qed.
Lemma touches_rand n : Respects (Touches P) (rand_read n).
Proof. apply rand_read_respects; [apply _|]. intros ???? _. done. Qed.
End Touching.
#[export] Hint Resolve touches_WriteFile touches_Rename touches_Remove touches_ReadFile touches_rand : vapn.

(** [Touches] of a directory operation, by the rules above. *)
Ltac touches := repeat first [ solve [eauto with vapn] | apply respects_clock; apply _ | progress respects ].

Lemma append_loop name l : forall w u w', forM l (append_byte name) w = (Ok u, w') -> forall c,
  files (w_db w) !! name = Some c -> files (w_db w') !! name = Some (c +:+ string_of_list_ascii l).
Proof.
  assert (forall s : string, (s +:+ "")%string = s) as Hnil by (induction s as [|c s IH]; [done|exact (f_equal (String c) IH)]).
  induction l as [|x l IH]; simpl; intros w u w' E c Hc; inv_ok; [by rewrite Hnil|].
  rewrite (IH _ _ _ E (c +:+ String x "")%string); [by rewrite <- str_app_assoc|].
  unfold append_byte in *. inv_ok. worlds. simpl. by rewrite lookup_alter_eq, Hc.
Qed.

Lemma WriteFile_Ok name content w u w' : WriteFile name content w = (Ok u, w') ->
  files (w_db w') !! name = Some content.
Proof.
  unfold WriteFile, close_file. intros E.
  apply bindM_Ok in E as (? & w1 & [E1 _]%exec_Ok & E). apply bindM_Ok in E as (? & w2 & E2 & [-> _]%exec_Ok).
  rewrite (append_loop _ _ _ _ _ E2 ""%string); [|rewrite E1; simpl; by rewrite lookup_insert_eq].
  f_equal. apply string_of_list_ascii_of_string.
Qed.

Lemma Rename_Ok old new w u w' : Rename old new w = (Ok u, w') ->
  exists c, files (w_db w) !! old = Some c /\ files (w_db w') = <[new := c]> (delete old (files (w_db w))).
Proof.
  unfold Rename. intros E. inv_ok. destruct (files (w_db w) !! old) as [c|]; [|done]. injection H as _ <-.
  by exists c.
Qed.

Lemma Rename_Err old new w e w' : Rename old new w = (Err e, w') -> w_db w' = w_db w.
Proof. unfold Rename. by intros [? _]%stmt_Err. Qed.

Lemma ReadFile_run name w r w' : ReadFile name w = (r, w') ->
  w_db w' = w_db w /\
  match r with
  | Ok c => files (w_db w) !! name = Some c
  | Err e => e = ErrNotExist -> files (w_db w) !! name = None
  end.
Proof.
  unfold ReadFile, stmt. destruct (w_faults w) as [|[] fs]; intros E; simplify_eq; try done;
    destruct (files (w_db w) !! name) as [c|] eqn:Ef; simplify_eq; done.
Qed.

Lemma ReadFile_found name c d n : files d !! name = Some c -> ReadFile name (World d n []) = (Ok c, World d n []).
Proof. intros H. unfold ReadFile. rewrite stmt_nofault, H. done. Qed.

(** [name] holds [c] or the write failed: the atomic replacement of a file
    through a temporary one. *)
Lemma replace_atomic tmp name content w r w' :
  tmp <> name ->
  (do! WriteFile tmp content ;; Rename tmp name) w = (r, w') ->
  (forall nm, nm <> tmp -> nm <> name -> files (w_db w') !! nm = files (w_db w) !! nm) /\
  match r with
  | Ok _ => files (w_db w') !! name = Some content
  | Err _ => files (w_db w') !! name = files (w_db w) !! name
  end.
Proof.
  intros Hne E. assert (Respects (Touches (fun nm => nm = tmp \/ nm = name)) (do! WriteFile tmp content ;; Rename tmp name))
    as HT by touches. apply HT in E as HE. split; [intros; apply HE; tauto|].
  unfold bindM in E. destruct (WriteFile tmp content w) as [[u|e] w1] eqn:Ew.
  - pose proof (WriteFile_Ok _ _ _ _ _ Ew) as Hc. assert (Respects (Touches (eq tmp)) (WriteFile tmp content)) as HT1 by touches.
    apply HT1 in Ew as [_ Ht]. destruct r as [[]|e].
    + apply Rename_Ok in E as (c & Hc' & ->). rewrite lookup_insert_eq. congruence.
    + apply Rename_Err in E as ->. by apply Ht.
  - simplify_eq. assert (Respects (Touches (eq tmp)) (WriteFile tmp content)) as HT1 by touches.
    apply HT1 in Ew as [_ Ht]. by apply Ht.
Qed.

(** * Properties *)
Section Properties.
Context {cr : Crypto} {sc : SeedCrypto} {sl : SeedLaws}.

(** The file form of a key. *)
Definition key_file (k : PrivateKey) : string := b64_encode (Seed k) +:+ newline.

Lemma key_file_decodes k : b64_decode (TrimSpace (key_file k)) = Some (Seed k).
Proof.
  unfold key_file, newline. rewrite TrimSpace_line by apply b64_encode_graphic. apply b64_roundtrip.
Qed.

Lemma Key_reads k w r w' : files (w_db w) !! keyPath = Some (key_file k) -> Key w = (Ok r, w') ->
  r = k /\ w_db w' = w_db w.
Proof.
  intros Hk E. unfold Key in E. apply bindM_Ok in E as (r1 & w1 & Er & E). unfold attempt in Er.
  destruct (ReadFile keyPath w) as [r2 w2] eqn:Ef. injection Er as <- <-. apply ReadFile_run in Ef as [Hd Hr].
  destruct r2 as [raw|e].
  - rewrite Hk in Hr. injection Hr as <-. rewrite key_file_decodes, seed_size in E.
    simpl in E. unfold ret in E. injection E as <- <-. by rewrite key_of_seed.
  - destruct (bool_decide (e = ErrNotExist)) eqn:Eb; [|done]. btrue. rewrite Hk in Hr. by specialize (Hr Eb).
Qed.

Lemma Key_Ok w k w' : Key w = (Ok k, w') ->
  (files (w_db w') = files (w_db w) /\ exists raw seed, files (w_db w) !! keyPath = Some raw /\
     b64_decode (TrimSpace raw) = Some seed /\ String.length seed = SeedSize /\ k = NewKeyFromSeed seed) \/
  (files (w_db w) !! keyPath = None /\ files (w_db w') !! keyPath = Some (key_file k)).
Proof.
  unfold Key. intros (r & w1 & (r0 & [= ->] & [Hd Hf]%ReadFile_run)%attempt_run & E)%bindM_Ok.
  destruct r0 as [raw|e].
  - left. destruct (b64_decode (TrimSpace raw)) as [seed|] eqn:Eb; [|done].
    destruct (Nat.eqb _ _) eqn:El; simpl in E; [|done]. apply Nat.eqb_eq in El. unfold ret in E. injection E as <- <-.
    split; [by rewrite Hd|]. exists raw, seed. done.
  - right. destruct (bool_decide (e = ErrNotExist)) eqn:Ee; simpl in E; [|done]. btrue. split; [by apply Hf|].
    apply bindM_Ok in E as (k' & w2 & _ & E). apply bindM_Ok in E as ([] & w3 & E & Hk).
    unfold ret in Hk. injection Hk as <- <-. by apply WriteFile_Ok in E.
Qed.

(** The worker's identity is stable: once the key has been loaded or
    generated, every later load from the same directory that succeeds gives
    the same key. *)
Theorem identity_stable w k w1 w2 k' w3 :
  Key w = (Ok k, w1) -> files (w_db w2) = files (w_db w1) -> Key w2 = (Ok k', w3) -> k' = k.
Proof.
  intros [(Hf & raw & seed & Hraw & Hb & Hl & ->)|[Hn Hf]]%Key_Ok Hs E.
  - rewrite Hf in Hs. apply Key_Ok in E as [(_ & raw' & seed' & Hraw' & Hb' & _ & ->)|[Hn _]]; rewrite Hs, Hraw in *.
    + simplify_eq. congruence.
    + done.
  - rewrite <- Hs in Hf. by apply (Key_reads _ _ _ _ Hf) in E as [? _].
Qed.

(** Replacing the key is atomic: on success the directory yields the new key,
    on any failure the file is untouched; the other files of the directory
    are never written (only the temporary key file is). *)
Theorem replace_key_atomic k w r w' :
  ReplaceKey k w = (r, w') ->
  (forall name, name <> keyPath -> name <> (keyPath +:+ ".tmp")%string -> files (w_db w') !! name = files (w_db w) !! name) /\
  match r with
  | Ok _ => forall w2 k' w3, files (w_db w2) = files (w_db w') -> Key w2 = (Ok k', w3) -> k' = k
  | Err _ => files (w_db w') !! keyPath = files (w_db w) !! keyPath
  end.
Proof.
  intros [Ho H]%replace_atomic; [|done]. split; [auto|]. destruct r; [|done].
  intros w2 k' w3 Hs E. rewrite <- Hs in H. by apply (Key_reads _ _ _ _ H) in E as [? _].
Qed.

(** The first boot is not atomic: when the write of the fresh key fails after
    the file was created, the directory holds an unusable key, and no later
    start ever succeeds. *)
Theorem interrupted_first_boot seed n :
  String.length seed = SeedSize ->
  exists w', Key (World (Disk ∅ [seed]) n [false; false; true]) = (Err EDatabase, w') /\
    forall w2 k w3, files (w_db w2) = files (w_db w') -> Key w2 <> (Ok k, w3).
Proof.
  intros Hl. set (d0 := Disk ∅ [seed]).
  assert (ReadFile keyPath (World d0 n [false; false; true]) = (Err ErrNotExist, World d0 n [false; true])) as Hread by done.
  assert (GenerateKey (World d0 n [false; true]) = (Ok (NewKeyFromSeed seed), World (Disk ∅ []) n [false; true])) as Hgen.
  { unfold GenerateKey, rand_read, bindM, d0. cbn [w_db draws]. by rewrite Hl. }
  assert (Key (World d0 n [false; false; true]) = (Err EDatabase, World (Disk (<[keyPath := ""%string]> ∅) []) n [])) as ->.
  { unfold Key, attempt. unfold bindM at 1. rewrite Hread, bool_decide_true by done. cbn [negb]. unfold bindM at 1.
    rewrite Hgen. destruct (list_ascii_of_string (b64_encode (Seed (NewKeyFromSeed seed)) +:+ newline)) as [|c l] eqn:E.
    - exfalso. apply (f_equal string_of_list_ascii) in E. rewrite string_of_list_ascii_of_string in E.
      destruct (b64_encode (Seed (NewKeyFromSeed seed))); done.
    - unfold WriteFile. rewrite E. done. }
  eexists. split; [reflexivity|]. intros w2 k w3 Hf [(_ & raw & s & Hr & Hb & Hs & _)|[Hn _]]%Key_Ok.
  - rewrite Hf in Hr. cbn [w_db files] in Hr. rewrite lookup_insert_eq in Hr. injection Hr as <-.
    vm_compute in Hb. by injection Hb as <-.
  - rewrite Hf in Hn. cbn [w_db files] in Hn. by rewrite lookup_insert_eq in Hn.
Qed.

End Properties.

(** The stored worker id reads back. *)
Lemma worker_id_roundtrip id w u w' w2 : Forall (fun c => graphic c = true) (list_ascii_of_string id) ->
  SaveWorkerID id w = (Ok u, w') -> files (w_db w2) = files (w_db w') ->
  forall r w3, WorkerID w2 = (Ok r, w3) -> r = id.
Proof.
  intros Hg Hw%WriteFile_Ok Hs r w3 E. unfold WorkerID in E.
  apply bindM_Ok in E as (r0 & w1 & (r1 & [= ->] & [_ Hf]%ReadFile_run)%attempt_run & E). rewrite Hs, Hw in Hf.
  destruct r1 as [raw|e].
  - injection Hf as <-. unfold ret in E. injection E as <- _. by apply TrimSpace_line.
  - destruct (bool_decide _) eqn:Eb; [|done]. btrue. by specialize (Hf Eb).
Qed.

Lemma SnapshotVersion_run w r w' : SnapshotVersion w = (r, w') ->
  w_db w' = w_db w /\ exists v, r = Ok v /\
    (v = ""%string \/ exists raw, files (w_db w) !! versionPath = Some raw /\ v = TrimSpace raw).
Proof.
  unfold SnapshotVersion, bindM. intros E. destruct (attempt (ReadFile versionPath) w) as [r0 w0] eqn:Ea.
  apply attempt_run in Ea as (r1 & -> & [Hd Hf]%ReadFile_run). destruct r1; unfold ret in E; injection E as <- <-;
    (split; [done|]); eexists; (split; [done|]); [right|left]; eauto.
Qed.

(** Installing a snapshot: success puts the file in place under its version;
    a failure of the rename changes nothing; a failure of the version write
    leaves the new file in place with an older, empty or partial version. *)
Lemma InstallSnapshot_run tmp version w r w' : tmp <> SnapshotPath -> tmp <> versionPath ->
  InstallSnapshot tmp version w = (r, w') ->
  (forall name, name <> tmp -> name <> SnapshotPath -> name <> versionPath ->
     files (w_db w') !! name = files (w_db w) !! name) /\
  match r with
  | Ok _ => exists c, files (w_db w) !! tmp = Some c /\ files (w_db w') !! SnapshotPath = Some c /\
              files (w_db w') !! versionPath = Some (version +:+ newline)
  | Err _ => files (w_db w') = files (w_db w) \/
              exists c, files (w_db w) !! tmp = Some c /\ files (w_db w') !! SnapshotPath = Some c
  end.
Proof.
  intros Ht Ht' E. assert (Respects (Touches (fun nm => nm = tmp \/ nm = SnapshotPath \/ nm = versionPath))
    (InstallSnapshot tmp version)) as HT by (unfold InstallSnapshot; touches).
  split; [apply HT in E as HE; intros; apply HE; tauto|]. unfold InstallSnapshot, bindM in E.
  destruct (Rename tmp SnapshotPath w) as [[[]|e] w1] eqn:Er.
  - apply Rename_Ok in Er as (c & Hc & Hf).
    assert (Respects (Touches (eq versionPath)) (WriteFile versionPath (version +:+ newline))) as HW by touches.
    apply HW in E as HE. destruct HE as [_ HE]. specialize (HE SnapshotPath ltac:(done)).
    rewrite Hf, lookup_insert_eq in HE. destruct r as [[]|e]; [|by right; exists c].
    exists c. split_and!; [done..|]. by apply WriteFile_Ok in E.
  - apply Rename_Err in Er. injection E as <- <-. left. by rewrite Er.
Qed.

(** Installing is not atomic: when the version cannot be written, the error
    is reported with the new file already in place of the old one. *)
Theorem install_not_atomic d n tmp c version :
  files d !! tmp = Some c -> tmp <> SnapshotPath -> tmp <> versionPath ->
  exists w', InstallSnapshot tmp version (World d n [false; true]) = (Err EDatabase, w') /\
    files (w_db w') !! SnapshotPath = Some c /\ files (w_db w') !! versionPath = files d !! versionPath.
Proof.
  intros Hc Hs Hv. unfold InstallSnapshot, Rename, WriteFile, bindM, exec, stmt. cbn [w_faults w_db w_now]. rewrite Hc.
  cbn [tail w_faults]. eexists. split; [reflexivity|]. cbn [w_db set_files files].
  rewrite lookup_insert_eq, lookup_insert_ne by done. by rewrite lookup_delete_ne.
Qed.

Section StatusProperties.
Context {sj : StatusJSON} {sjl : StatusJSONLaws}.

(** The status file is replaced atomically: on success the operator tool
    reads exactly the written status, stamped with the time of the write; on
    failure the previous status stays. *)
Theorem status_atomic st w r w' :
  WriteStatus st w = (r, w') ->
  match r with
  | Ok _ => forall w2, w_db w2 = w_db w' -> w_faults w2 = [] ->
              ReadStatus w2 = (Ok (with_updated (w_now w) st), w2)
  | Err _ => files (w_db w') !! StatusPath = files (w_db w) !! StatusPath
  end.
Proof.
  unfold WriteStatus. unfold bindM at 1. unfold clock. cbn -[bindM].
  destruct (marshal_status _) as [raw|] eqn:Em; [|intros [= <- <-]; done].
  intros [_ H]%replace_atomic; [|done]. destruct r as [[]|e]; [|done].
  intros [d2 n2 f2] Hd Hf. simpl in *. subst. unfold ReadStatus, bindM. rewrite (ReadFile_found _ raw) by done.
  by rewrite (status_roundtrip _ _ Em).
Qed.
End StatusProperties.

(** * Witnesses

    Keys that are their own 32-byte seed, with the signatures of
    [Wireauth.Toy]. *)
Module ToySeed.
Definition seed32 : Type := { s : string | Nat.eqb (String.length s) 32 = true }.
#[export] Instance seed_crypto : Crypto := {|
  PrivateKey := seed32;
  Public k := proj1_sig k;
  ed25519_Sign k m := Toy.sig64 (proj1_sig k) m;
  ed25519_Verify pub m s := bool_decide (s = Toy.sig64 pub m);
  sha256 m := Toy.pad_to 32 m
|}.
#[export] Instance seed_crypto_laws : CryptoLaws.
Proof.
  split.
  - intros k m. by apply bool_decide_eq_true.
  - intros k m. apply Toy.pad_to_length.
  - intros [s H]. exact (proj1 (Nat.eqb_eq _ _) H).
  - intros m. apply Toy.pad_to_length.
Qed.
Definition padded (s : string) : seed32 := exist _ (Toy.pad_to 32 s) (proj2 (Nat.eqb_eq _ _) (Toy.pad_to_length 32 s)).
#[export] Instance seed_keys : SeedCrypto := {|
  NewKeyFromSeed s := match Bool.bool_dec (Nat.eqb (String.length s) 32) true with
                      | left H => exist _ s H
                      | right _ => padded s
                      end;
  Seed k := proj1_sig k
|}.
#[export] Instance seed_keys_laws : SeedLaws.
Proof.
  split.
  - intros [s H]. exact (proj1 (Nat.eqb_eq _ _) H).
  - intros [s H]. simpl. destruct (Bool.bool_dec _ _) as [H'|H']; [|done].
    f_equal. apply (Eqdep_dec.UIP_dec Bool.bool_dec).
Qed.

Definition draw (s : string) : string := Toy.pad_to 32 s.
Definition alice : PrivateKey := NewKeyFromSeed (draw "alice").
Definition bob : PrivateKey := NewKeyFromSeed (draw "bob").

(** A first boot, then a rotation to bob's key that cannot write. *)
Definition first_boot : result PrivateKey * world disk := Key (World (Disk ∅ [draw "alice"]) 1 []).
Definition before_rotation : world disk := World (w_db first_boot.2) 2 [false; true].
Definition full_disk : result unit * world disk := ReplaceKey bob before_rotation.
Definition rotated : result unit * world disk := ReplaceKey bob (World (w_db first_boot.2) 2 []).

Definition toy_status : Status := MkStatus "w1" "active" "1.0" "https://c" "v1" 5 1 2 None 0 0 5.
#[export] Instance status_eq_dec : EqDecision Status.
Proof. solve_decision. Defined.
(** A codec for one status. *)
#[export] Instance toy_status_json : StatusJSON := {|
  marshal_status st := if bool_decide (st = toy_status) then Some "{}"%string else None;
  unmarshal_status s := if bool_decide (s = "{}"%string) then Some toy_status else None
|}.
#[export] Instance toy_status_laws : StatusJSONLaws.
Proof. intros st s. simpl. repeat case_bool_decide; intros ?; simplify_eq; done. Qed.
End ToySeed.

Section Witnesses.
Import ToySeed.

Lemma identity_stable_witness : exists k, first_boot.1 = Ok k /\ (Key (World (w_db first_boot.2) 9 [])).1 = Ok k.
Proof.
  exists alice. split; [vm_compute; reflexivity|].
  assert (forall k, (Key (World (w_db first_boot.2) 9 [])).1 = Ok k -> k = alice) as H.
  { intros k Hk. apply (identity_stable (World (Disk ∅ [draw "alice"]) 1 []) alice first_boot.2
      (World (w_db first_boot.2) 9 []) k (Key (World (w_db first_boot.2) 9 [])).2);
      [vm_compute; reflexivity | reflexivity | rewrite <- Hk; apply surjective_pairing]. }
  destruct (Key (World (w_db first_boot.2) 9 [])).1 as [k|e] eqn:Ek; [by rewrite (H k eq_refl)|].
  vm_compute in Ek. discriminate.
Defined.

Lemma replace_key_atomic_witness :
  rotated.1 = Ok tt /\ is_ok full_disk.1 = false /\
  files (w_db full_disk.2) !! keyPath = files (w_db before_rotation) !! keyPath.
Proof.
  split; [vm_compute; reflexivity|]. split; [vm_compute; reflexivity|].
  assert (ReplaceKey bob before_rotation = (Err EDatabase, full_disk.2)) as H by (vm_compute; reflexivity).
  destruct (replace_key_atomic bob _ _ _ H) as [_ H2]. exact H2.
Defined.

Lemma interrupted_first_boot_witness : String.length (draw "alice") = SeedSize /\
  exists w', Key (World (Disk ∅ [draw "alice"]) 1 [false; false; true]) = (Err EDatabase, w') /\
    forall w2 k w3, files (w_db w2) = files (w_db w') -> Key w2 <> (Ok k, w3).
Proof. split; [reflexivity|]. apply (interrupted_first_boot (draw "alice") 1). reflexivity. Defined.

Definition downloaded : disk := Disk {[ "routing-1.sqlite.partial"%string := "new"%string ]} [].
Lemma install_not_atomic_witness : files downloaded !! SnapshotPath = None /\ exists w',
  InstallSnapshot "routing-1.sqlite.partial" "v2" (World downloaded 1 [false; true]) = (Err EDatabase, w') /\
    files (w_db w') !! SnapshotPath = Some "new"%string /\ files (w_db w') !! versionPath = files downloaded !! versionPath.
Proof.
  split; [reflexivity|].
  apply (install_not_atomic downloaded 1 "routing-1.sqlite.partial" "new" "v2"); [reflexivity | discriminate | discriminate].
Defined.

Lemma status_atomic_witness : exists w',
  WriteStatus toy_status (World (Disk ∅ []) 5 []) = (Ok tt, w') /\ ReadStatus (World (w_db w') 6 []) = (Ok toy_status, World (w_db w') 6 []).
Proof.
  set (w' := (WriteStatus toy_status (World (Disk ∅ []) 5 [])).2).
  assert (WriteStatus toy_status (World (Disk ∅ []) 5 []) = (Ok tt, w')) as H by (vm_compute; reflexivity).
  exists w'. split; [exact H|]. apply (status_atomic toy_status _ _ _ H (World (w_db w') 6 [])); reflexivity.
Defined.
End Witnesses.
