(* ===== verification/FSStore.v ===== *)
(** [FSStore] of [internal/artifact/store.go]: the object store kept in a
    directory, and that it implements the [Store] interface the publisher is
    verified against ([Artifact.Put], [Get] and [Delete]).

    The file system is the one of StateDir: writes land byte by byte and any
    call may fail.  Directories are created by [os.MkdirAll] before a file is
    written and hold nothing else, so a file is identified by its path. *)
From stdpp Require Import base gmap strings list.
From Stdlib Require Import ZArith Lia Ascii String.
From S2P Require Import Prelude Codec Schema Wireauth Artifact StateDir.
Open Scope Z_scope.

(** * [path/filepath] on Unix *)
Abbreviation slash := "/"%char.

Abbreviation split_slash := (split_on slash).

(** The elements [Clean] keeps, innermost first: empty elements and "." are
    dropped, ".." removes the element before it, and is kept at the start of a
    relative path. *)
Fixpoint clean_elems (rooted : bool) (acc : list string) (l : list string) : list string :=
  match l with
  | [] => acc
  | x :: l' =>
      if bool_decide (x = "") || bool_decide (x = ".") then clean_elems rooted acc l'
      else if bool_decide (x = "..") then
        match acc with
        | y :: acc' => if bool_decide (y = "..") then clean_elems rooted (x :: acc) l' else clean_elems rooted acc' l'
        | [] => clean_elems rooted (if rooted then [] else [x]) l'
        end
      else clean_elems rooted (x :: acc) l'
  end.

Definition is_rooted (p : string) : bool :=
  match p with String c _ => bool_decide (c = slash) | EmptyString => false end.

Definition render (rooted : bool) (elems : list string) : string :=
  match elems with
  | [] => if rooted then "/" else "."
  | _ => (if rooted then "/" else "") +:+ join "/" elems
  end.
Definition Clean (p : string) : string :=
  render (is_rooted p) (rev (clean_elems (is_rooted p) [] (split_slash p))).
Definition Join (root key : string) : string :=
  if bool_decide (root = "") then (if bool_decide (key = "") then "" else Clean key)
  else Clean (root +:+ "/" +:+ key).

(** * The store *)
Definition path (root key : string) : string := Join root key.

Definition MkdirAll : DM unit := exec (fun _ d => d).
Definition Create (name : string) : DM unit := exec (fun _ => set_files (<[name := ""%string]>)).
Definition Copy (name content : string) : DM unit := forM (list_ascii_of_string content) (append_byte name).

Definition FSPut (root key content : string) : DM unit :=
  let p := path root key in
  do! MkdirAll ;;
  let tmp := p +:+ ".tmp" in
  do! Create tmp ;;
  let! copied := attempt (Copy tmp content) in
  match copied with
  | Err e => do! attempt close_file ;; do! attempt (Remove tmp) ;; throw e
  | Ok _ =>
      let! closed := attempt close_file in
      match closed with
      | Err e => do! attempt (Remove tmp) ;; throw e
      | Ok _ => Rename tmp p
      end
  end.

Definition FSGet (root key : string) : DM string := ReadFile (path root key).

Definition FSDelete (root key : string) : DM unit :=
  let! r := attempt (Remove (path root key)) in
  match r with
  | Err e => if bool_decide (e = ErrNotExist) then ret tt else throw e
  | Ok _ => ret tt
  end.

(** * Paths of keys *)
Definition plain_elem (x : string) : bool :=
  negb (bool_decide (x = "") || bool_decide (x = ".") || bool_decide (x = "..")).
Definition plain_key (key : string) : bool := forallb plain_elem (split_slash key).

(** The keys the store is used with: no empty, "." or ".." element, and no
    name that is some other key's temporary file. *)
Definition valid_key (key : string) : bool := plain_key key && negb (has_suffix ".tmp" key).

(** What [path] puts in front of a plain key. *)
Definition root_prefix (root : string) : string :=
  if bool_decide (root = "") then ""
  else (if is_rooted root then "/" else "") +:+
       match rev (clean_elems (is_rooted root) [] (split_slash root)) with
       | [] => ""
       | l => join "/" l +:+ "/"
       end.

Lemma join_app l1 l2 : l1 <> [] -> l2 <> [] -> join "/" (l1 ++ l2) = join "/" l1 +:+ "/" +:+ join "/" l2.
Proof.
  intros H1 H2. induction l1 as [|x [|y l1] IH]; [done|by destruct l2|].
  change ((x :: y :: l1) ++ l2) with (x :: (y :: l1) ++ l2).
  change (join "/" (x :: (y :: l1) ++ l2)) with (x +:+ "/" +:+ join "/" ((y :: l1) ++ l2)). rewrite IH by done.
  change (join "/" (x :: y :: l1)) with (x +:+ "/" +:+ join "/" (y :: l1)). by rewrite !str_app_assoc.
Qed.

Lemma clean_elems_app rooted l1 l2 : forall acc,
  clean_elems rooted acc (l1 ++ l2) = clean_elems rooted (clean_elems rooted acc l1) l2.
Proof.
  induction l1 as [|x l1 IH]; intros acc; simpl; [done|]. destruct (_ || _); [done|].
  case_bool_decide; [|done]. destruct acc; [done|]. by case_bool_decide.
Qed.

Lemma clean_elems_plain rooted l : forallb plain_elem l = true -> forall acc, clean_elems rooted acc l = rev l ++ acc.
Proof.
  induction l as [|x l IH]; simpl; [done|]. intros [Hx Hl]%andb_true_iff acc. unfold plain_elem in Hx.
  apply negb_true_iff, orb_false_iff in Hx as [-> ->]. by rewrite IH, <- app_assoc.
Qed.

Lemma plain_not_rooted key : plain_key key = true -> is_rooted key = false.
Proof.
  destruct key as [|c s]; [done|]. unfold plain_key. simpl. by case_bool_decide.
Qed.

Lemma path_plain root key : plain_key key = true -> path root key = root_prefix root +:+ key.
Proof.
  intros Hk. pose proof (plain_not_rooted _ Hk) as Hr. unfold plain_key in Hk.
  pose proof ((split_on_ne slash) key) as Hne. unfold path, Join, root_prefix. case_bool_decide as Hroot.
  - case_bool_decide as Hkey; [by subst key|]. unfold Clean. rewrite Hr, clean_elems_plain, app_nil_r, rev_involutive by done.
    unfold render. destruct (split_slash key) as [|x l] eqn:E; [done|]. by rewrite <- E, (join_split_on slash).
  - assert (is_rooted (root +:+ "/" +:+ key) = is_rooted root) as Hrr by (by destruct root). unfold Clean.
    rewrite Hrr, (split_on_app slash root key), clean_elems_app, (clean_elems_plain _ _ Hk), rev_app_distr, rev_involutive.
    set (l := rev (clean_elems _ _ _)). unfold render. destruct (l ++ split_slash key) as [|y l'] eqn:E.
    { by apply app_eq_nil in E as [_ ?]. }
    rewrite <- E. clear E y l'. rewrite <- str_app_assoc. f_equal. destruct l as [|y l']; simpl app.
    + by rewrite (join_split_on slash).
    + change (y :: l' ++ split_slash key) with ((y :: l') ++ split_slash key).
      by rewrite join_app, (join_split_on slash), <- str_app_assoc by done.
Qed.

Lemma str_app_cancel s t u : s +:+ t = s +:+ u -> t = u.
Proof. induction s as [|c s IH]; [done|]. intros E. injection E as E. by apply IH. Qed.

Lemma path_inj root k1 k2 : valid_key k1 = true -> valid_key k2 = true -> path root k1 = path root k2 -> k1 = k2.
Proof.
  intros [H1 _]%andb_true_iff [H2 _]%andb_true_iff. rewrite !path_plain by done. apply str_app_cancel.
Qed.
Lemma path_not_tmp root k1 k2 : valid_key k1 = true -> valid_key k2 = true -> path root k1 +:+ ".tmp" <> path root k2.
Proof.
  intros [H1 _]%andb_true_iff [H2 Hs]%andb_true_iff. rewrite !path_plain, <- str_app_assoc by done.
  intros <-%str_app_cancel. by rewrite has_suffix_app in Hs.
Qed.

(** * Operations, whatever fails *)
Lemma Copy_nofault name content d n c : files d !! name = Some c -> exists d',
  Copy name content (World d n []) = (Ok tt, World d' n []) /\ is_Some (files d' !! name).
Proof.
  unfold Copy. revert d c. induction (list_ascii_of_string content) as [|x l IH]; intros d c Hc; simpl; [by exists d; rewrite Hc|].
  unfold bindM, append_byte, exec. rewrite stmt_nofault.
  eapply (IH _ (c +:+ String x "")). simpl. by rewrite lookup_alter_eq, Hc.
Qed.

Section Temporary.
Context (tmp : string).
Abbreviation OnlyTmp := (Touches (eq tmp)).

Lemma touches_Create : Respects OnlyTmp (Create tmp).
Proof. unfold Create. respects. intros nm Hnm. simpl. by rewrite lookup_insert_ne. Qed.
Lemma touches_Copy content : Respects OnlyTmp (Copy tmp content).
Proof. unfold Copy, append_byte. respects. intros nm Hnm. simpl. by rewrite lookup_alter_ne. Qed.
Lemma touches_none {A} (f : Z -> disk -> A) : Respects OnlyTmp (stmt (fun n d => Ok (f n d, d))).
Proof. respects. simplify_eq. apply at_refl. Qed.
End Temporary.
#[export] Hint Resolve touches_Create touches_Copy : vapn.

Lemma only_tmp {A} tmp p (m : DM A) w r w' : Respects (Touches (eq tmp)) m -> m w = (r, w') -> tmp <> p ->
  files (w_db w') !! p = files (w_db w) !! p.
Proof. intros Hm [_ H]%Hm Hne. by apply H. Qed.

(** The clean-up of a failed [Put] reports the failure. *)
Lemma cleanup_run tmp p e w r w' : (do! attempt (Remove tmp) ;; throw (A := unit) e) w = (r, w') -> tmp <> p ->
  r = Err e /\ files (w_db w') !! p = files (w_db w) !! p.
Proof.
  intros E Hne. split.
  - unfold bindM, attempt, throw in E. destruct (Remove tmp w) as [r1 w1]. by simplify_eq.
  - eapply only_tmp; [|exact E|done]. respects; eauto with vapn.
Qed.

(** Only the file and its temporary change; the file changes exactly when the
    call succeeds; without failures it does. *)
Lemma FSPut_run root key content w r w' :
  FSPut root key content w = (r, w') ->
  (forall nm, nm <> path root key -> nm <> path root key +:+ ".tmp" -> files (w_db w') !! nm = files (w_db w) !! nm) /\
  (path root key +:+ ".tmp" <> path root key ->
   files (w_db w') !! path root key = if is_ok r then Some content else files (w_db w) !! path root key) /\
  (w_faults w = [] -> is_ok r = true /\ w_faults w' = []).
Proof.
  set (p := path root key). set (tmp := p +:+ ".tmp"). intros E. split; [|split].
  - assert (Respects (Touches (fun nm => nm = p \/ nm = tmp)) (FSPut root key content)) as HT.
    { unfold FSPut. fold p. fold tmp. unfold MkdirAll, Create, Copy, append_byte, close_file.
      repeat first [solve [eauto with vapn] | progress respects]; try done;
        try (intros nm Hnm; simpl; assert (nm <> tmp) by tauto; by first [rewrite lookup_insert_ne | rewrite lookup_alter_ne]).
      all: case_match; respects; eauto with vapn; try done. }
    apply HT in E as [_ HE]. intros nm H1 H2. apply HE. tauto.
  - unfold FSPut in E. fold p tmp in E. intros Hne.
    apply bind_cases in E as [(e & [Ed _]%stmt_Err & ->)|(? & w1 & [E1 _]%exec_Ok & E)]; [by rewrite Ed|].
    apply bind_cases in E as [(e & [Ed _]%stmt_Err & ->)|(? & w2 & E2 & E)]; [by rewrite Ed, E1|].
    pose proof (only_tmp _ p _ _ _ _ (touches_Create tmp) E2 Hne) as H2. rewrite E1 in H2.
    apply exec_Ok in E2 as [E2 _]. 
    apply bind_cases in E as [(e & [? [? _]]%attempt_run & _)|(c & w3 & [? [[= <-] E3]]%attempt_run & E)]; [done|].
    pose proof (only_tmp _ p _ _ _ _ (touches_Copy tmp content) E3 Hne) as H3. rewrite H2 in H3.
    destruct c as [u|e].
    + apply bind_cases in E as [(e & [? [? _]]%attempt_run & _)|(c & w4 & [? [[= <-] E4]]%attempt_run & E)]; [done|].
      assert (w_db w4 = w_db w3) as H4.
      { destruct c; [by apply exec_Ok in E4 as [? _]|by apply stmt_Err in E4 as [? _]]. }
      destruct c as [u'|e].
      * destruct r as [[]|e]; simpl.
        -- apply Rename_Ok in E as (c & Hc & ->). rewrite lookup_insert_eq. f_equal.
           rewrite H4 in Hc. unfold Copy in E3. rewrite (append_loop _ _ _ _ _ E3 ""%string) in Hc.
           ++ injection Hc as <-. apply string_of_list_ascii_of_string.
           ++ rewrite E2. simpl. by rewrite lookup_insert_eq.
        -- apply Rename_Err in E as ->. by rewrite H4, H3.
      * apply (cleanup_run _ p) in E as [-> ->]; [|done]. by rewrite H4, H3.
    + apply bind_cases in E as [(e' & [? [? _]]%attempt_run & _)|(c & w4 & [? [[= <-] E4]]%attempt_run & E)]; [done|].
      assert (w_db w4 = w_db w3) as H4.
      { destruct c; [by apply exec_Ok in E4 as [? _]|by apply stmt_Err in E4 as [? _]]. }
      apply (cleanup_run _ p) in E as [-> ->]; [|done]. by rewrite H4, H3.
  - destruct w as [d n fs]. simpl. intros ->. unfold FSPut in E. fold p tmp in E.
    unfold bindM at 1, MkdirAll, exec in E. rewrite stmt_nofault in E. unfold bindM at 1, Create, exec in E.
    rewrite stmt_nofault in E. unfold bindM at 1, attempt at 1 in E.
    destruct (Copy_nofault tmp content (set_files (<[tmp:=""%string]>) d) n "") as (d' & Ec & c & Hc).
    { simpl. by rewrite lookup_insert_eq. }
    rewrite Ec in E. unfold bindM at 1, attempt at 1, close_file, exec, Rename in E. rewrite !stmt_nofault, Hc in E.
    by simplify_eq.
Qed.

Lemma FSGet_run root key w r w' : FSGet root key w = (r, w') ->
  w_db w' = w_db w /\
  match r with
  | Ok c => files (w_db w) !! path root key = Some c
  | Err _ => w_faults w = [] -> files (w_db w) !! path root key = None
  end /\ (w_faults w = [] -> w_faults w' = []).
Proof.
  intros E. pose proof (ReadFile_run _ _ _ _ E) as [Hd Hr]. split; [done|].
  destruct w as [d n fs]. unfold FSGet, ReadFile in E. destruct r as [c|e]; simpl in *.
  - split; [done|]. clear Hd Hr. intros ->. rewrite stmt_nofault in E. by destruct (files d !! path root key); simplify_eq.
  - clear Hd Hr. split; intros ->; rewrite stmt_nofault in E; by destruct (files d !! path root key); simplify_eq.
Qed.

Lemma FSDelete_run root key w r w' : FSDelete root key w = (r, w') ->
  (forall nm, nm <> path root key -> files (w_db w') !! nm = files (w_db w) !! nm) /\
  files (w_db w') !! path root key = (if is_ok r then None else files (w_db w) !! path root key) /\
  (w_faults w = [] -> is_ok r = true /\ w_faults w' = []).
Proof.
  unfold FSDelete. set (p := path root key). intros E.
  apply bind_cases in E as [(e & [? [? _]]%attempt_run & _)|(c & w1 & [? [[= <-] E1]]%attempt_run & E)]; [done|].
  destruct w as [d n fs]. unfold Remove, stmt in E1. simpl in *.
  destruct fs as [|[] fs]; simpl in *; destruct (files d !! p) as [x|] eqn:Ep; simplify_eq; simpl in E;
    try (case_bool_decide; [|try done]); unfold ret, throw in E; simplify_eq; simpl;
    repeat split; intros; simpl; rewrite ?lookup_delete_eq, ?lookup_delete_ne; done.
Qed.

(** * Refinement of the [Store] interface *)
Inductive store_op : Type :=
| OpPut (key : string) (o : object)
| OpGet (key : string)
| OpDelete (key : string).
Definition op_key (op : store_op) : string := match op with OpPut k _ | OpGet k | OpDelete k => k end.

Section Refinement.
(** What the publisher writes of an object: the bytes of a blob, the JSON of a
    manifest or of the pointer. *)
Context (encode : object -> string) (root : string).

Definition fs_op (op : store_op) : DM (option string) :=
  match op with
  | OpPut k o => do! FSPut root k (encode o) ;; ret None
  | OpGet k => let! c := FSGet root k in ret (Some c)
  | OpDelete k => do! FSDelete root k ;; ret None
  end.
Definition abs_op (op : store_op) : SM (option object) :=
  match op with
  | OpPut k o => do! Put k o ;; ret None
  | OpGet k => let! c := Get k in ret (Some c)
  | OpDelete k => do! Delete k ;; ret None
  end.

(** A client issues calls one after the other, whatever they return. *)
Fixpoint run_ops {D A} (f : store_op -> M D A) (ops : list store_op) (w : world D) : list (result A) * world D :=
  match ops with
  | [] => ([], w)
  | op :: ops' =>
      let (r, w1) := f op w in
      let (rs, w2) := run_ops f ops' w1 in (r :: rs, w2)
  end.

Definition Sim (d : disk) (s : sys) : Prop :=
  forall key, valid_key key = true -> files d !! path root key = encode <$> sys_store s !! key.
Definition same_result (r : result (option string)) (r' : result (option object)) : Prop :=
  match r, r' with
  | Ok c, Ok o => c = encode <$> o
  | Err _, Err _ => True
  | _, _ => False
  end.
Definition only_store (s s' : sys) : Prop := s' = set_sys_store (fun _ => sys_store s') s.

Lemma sim_change d d' s f key :
  valid_key key = true -> Sim d s ->
  (forall nm, nm <> path root key -> nm <> path root key +:+ ".tmp" -> files d' !! nm = files d !! nm) ->
  files d' !! path root key = encode <$> f (sys_store s) !! key ->
  (forall k, k <> key -> f (sys_store s) !! k = sys_store s !! k) ->
  Sim d' (set_sys_store f s).
Proof.
  intros Hk HS Hother Hkey Hf k Hv. simpl. destruct (decide (k = key)) as [->|Hne]; [done|].
  rewrite Hf, <- (HS k Hv) by done. apply Hother.
  - intros E. by apply Hne, (path_inj root).
  - intros E. by apply (path_not_tmp root key k).
Qed.

Lemma sim_kept d d' s key :
  valid_key key = true -> Sim d s ->
  (forall nm, nm <> path root key -> nm <> path root key +:+ ".tmp" -> files d' !! nm = files d !! nm) ->
  files d' !! path root key = files d !! path root key -> Sim d' s.
Proof.
  intros Hk HS Hother Hkey. replace s with (set_sys_store id s) by (by destruct s).
  apply (sim_change d d' s id key Hk HS Hother); [|done]. by rewrite Hkey, HS.
Qed.

Lemma op_refines op w s r w' :
  valid_key (op_key op) = true -> Sim (w_db w) s -> fs_op op w = (r, w') ->
  exists fault r' s', (forall now fs, abs_op op (World s now (fault :: fs)) = (r', World s' now fs)) /\
    same_result r r' /\ Sim (w_db w') s' /\ only_store s s' /\
    (w_faults w = [] -> fault = false /\ w_faults w' = []).
Proof.
  destruct op as [key o|key|key]; simpl; intros Hv HS E;
    (apply bind_cases in E as [(e & E & ->)|(x & w1 & E & [= <- <-])]).
  - apply FSPut_run in E as (Ho & Hp & Hf). exists true, (Err EDatabase), s.
    split; [done|]. split; [done|]. split; [|split; [by destruct s|by intros []%Hf]].
    apply (sim_kept _ _ _ key Hv HS Ho), Hp. by apply path_not_tmp.
  - apply FSPut_run in E as (Ho & Hp & Hf). exists false, (Ok None), (set_sys_store (<[key := o]>) s).
    split; [done|]. split; [done|]. split; [|split; [done|intros H; by split; [|apply Hf]]].
    apply (sim_change (w_db w) _ _ _ key Hv HS Ho).
    + rewrite Hp by (by apply path_not_tmp). by rewrite lookup_insert_eq.
    + intros k Hk. by rewrite lookup_insert_ne.
  - apply FSGet_run in E as (Hd & Hg & Hf). rewrite Hd. destruct (sys_store s !! key) as [o|] eqn:Es.
    + exists true, (Err EDatabase), s. split; [done|]. split; [done|]. split; [done|]. split; [by destruct s|].
      intros H. rewrite (HS _ Hv), Es in Hg. by specialize (Hg H).
    + exists false, (Err (EMsg "no such object")), s.
      split; [intros; unfold Get, bindM, stmt; simpl; by rewrite Es|]. split; [done|]. split; [done|].
      split; [by destruct s|]. intros H. by split; [|apply Hf].
  - apply FSGet_run in E as (Hd & Hg & Hf). rewrite (HS _ Hv) in Hg.
    destruct (sys_store s !! key) as [o|] eqn:Es; [|done]. exists false, (Ok (Some o)), s.
    split; [intros; unfold Get, bindM, stmt; simpl; by rewrite Es|]. split; [simpl in *; congruence|]. rewrite Hd.
    split; [done|]. split; [by destruct s|]. intros H. by split; [|apply Hf].
  - apply FSDelete_run in E as (Ho & Hp & Hf). exists true, (Err EDatabase), s.
    split; [done|]. split; [done|]. split; [|split; [by destruct s|by intros []%Hf]].
    apply (sim_kept _ _ _ key Hv HS); [|exact Hp]. intros nm H1 _. by apply Ho.
  - apply FSDelete_run in E as (Ho & Hp & Hf). exists false, (Ok None), (set_sys_store (delete key) s).
    split; [done|]. split; [done|]. split; [|split; [done|intros H; by split; [|apply Hf]]].
    apply (sim_change (w_db w) _ _ _ key Hv HS); [intros nm H1 _; by apply Ho|by rewrite Hp, lookup_delete_eq|].
    intros k Hk. by rewrite lookup_delete_ne.
Qed.

End Refinement.

(** The keys the publisher uses are valid when the version is one plain path
    element, as the builder's time stamps are. *)
Lemma published_keys_valid version : split_slash version = [version] -> plain_elem version = true ->
  Forall (fun k => valid_key k = true) [ObjectKeySQLite version; ObjectKeyManifest version; PointerKey].
Proof.
  intros Hs Hp.
  assert (forall name, (4 <= List.length (list_ascii_of_string name))%nat -> valid_key name = true ->
    valid_key ("snapshots" +:+ "/" +:+ version +:+ "/" +:+ name) = true) as Hk.
  { intros name Hl [H1 H2]%andb_true_iff. unfold valid_key, plain_key in *. apply andb_true_iff. split.
    - rewrite !(split_on_app slash), Hs. simpl. by rewrite Hp, H1.
    - by rewrite !str_app_assoc, has_suffix_tail. }
  apply Forall_cons; split; [exact (Hk "routing.sqlite"%string ltac:(vm_compute; lia) eq_refl)|].
  apply Forall_cons; split; [exact (Hk "manifest.json"%string ltac:(vm_compute; lia) eq_refl)|].
  apply Forall_cons; split; [reflexivity|constructor].
Qed.

(** * A concrete directory *)
Module ToyStore.
Definition toy_encode (o : object) : string :=
  match o with OBlob c => c | OManifest m => "manifest " +:+ Version m | OPointer p => "current" end.
Definition toy_ops : list store_op :=
  [OpPut (ObjectKeySQLite "v1") (OBlob "abc"); OpPut (ObjectKeySQLite "v1") (OBlob "xyz"); OpGet (ObjectKeySQLite "v1");
   OpDelete (ObjectKeySQLite "v0"); OpGet (ObjectKeySQLite "v0")].
(** The second write fails after its first byte. *)
Definition toy_start : world disk :=
  World (Disk ∅ []) 1 [false; false; false; false; false; false; false; false; false; false; true].
Definition toy_run := run_ops (fs_op toy_encode "/srv/./artifacts/") toy_ops toy_start.
End ToyStore.
Import ToyStore.


(** ".." in a key leaves the directory: the store relies on its callers for
    the names it is given. *)
Example key_escapes_root : path "/srv/artifacts" "../../etc/passwd" = "/etc/passwd"%string.
Proof. by vm_compute. Qed.
