(* ===== verification/Migrate.v ===== *)
(** [internal/platform/migrate/migrate.go]: applying the SQL migrations of a
    directory under an advisory lock.

    What PostgreSQL does with the text of a migration is the parameter
    [run_sql]; the table [schema_migrations] is absent until the first run
    creates it.  Every statement after the lock is made while it is held, so
    two deployments never interleave inside [Apply]; a caller that finds the
    lock taken waits until its context ends, and then fails. *)
From stdpp Require Import base gmap strings list.
From Stdlib Require Import ZArith Lia Sorting.Sorted.
From S2P Require Import Prelude Codec.
Open Scope Z_scope.

Section Migrate.
Context {S : Type} (run_sql : string -> S -> result S).

Record catalog : Type := Catalog {
  lock_held : bool;
  schema_migrations : option (list (string * Z));
  schema : S
}.
Abbreviation CM := (M catalog).

Definition set_lock (b : bool) (d : catalog) : catalog := Catalog b (schema_migrations d) (schema d).
Definition set_migrations (t : option (list (string * Z))) (d : catalog) : catalog := Catalog (lock_held d) t (schema d).
Definition set_schema (s : S) (d : catalog) : catalog := Catalog (lock_held d) (schema_migrations d) s.

Definition rows (d : catalog) : list (string * Z) := default [] (schema_migrations d).
Definition versions (d : catalog) : list string := map fst (rows d).

Definition pg_advisory_lock : CM unit :=
  stmt (fun _ d => if lock_held d then Err (EMsg "advisory lock") else Ok (tt, set_lock true d)).
(** [defer]: the lock is given back on every return; an error of the unlock
    itself is ignored and leaves it to the end of the session. *)
Definition defer_unlock {A} (m : CM A) : CM A := fun w =>
  let (r, w1) := m w in
  let (_, w2) := exec (fun _ => set_lock false) w1 in (r, w2).

Definition ensure_table : CM unit := exec (fun _ d => set_migrations (Some (rows d)) d).
Definition with_table {A} (f : Z -> list (string * Z) -> catalog -> result (A * catalog)) : CM A :=
  stmt (fun now d => match schema_migrations d with
                     | Some t => f now t d
                     | None => Err (EMsg "relation does not exist")
                     end).
Definition is_applied (version : string) (d : catalog) : bool := bool_decide (version ∈ versions d).
Definition insert_version (version : string) : CM unit :=
  with_table (fun now t d => if is_applied version d then Err (EConstraint "schema_migrations_pkey")
                             else Ok (tt, set_migrations (Some (t ++ [(version, now)])) d)).
Definition exec_sql (sql : string) : CM unit :=
  stmt (fun _ d => match run_sql sql (schema d) with
                   | Ok s => Ok (tt, set_schema s d)
                   | Err e => Err e
                   end).

(** A directory: the contents of its files by name.  [filepath.Glob] and
    [sort.Strings]; all paths share the directory as their prefix, so they
    are ordered as their base names are. *)
Definition migration_files (dir : gmap string string) : list string :=
  sort_by string_leb (List.filter (has_suffix ".sql") (map fst (map_to_list dir))).

Definition ReadMigration (dir : gmap string string) (version : string) : CM string :=
  stmt (fun _ d => match dir !! version with
                   | Some sql => Ok (sql, d)
                   | None => Err (EMsg "no such file")
                   end).

Definition apply_one (dir : gmap string string) (version : string) : CM unit :=
  let! exists_ := with_table (fun _ _ d => Ok (is_applied version d, d)) in
  if exists_ then ret tt
  else
    let! sql := ReadMigration dir version in
    tx (do! exec_sql sql ;; insert_version version).

Definition Acquire : CM unit := exec (fun _ d => d).
Definition Glob (dir : gmap string string) : CM (list string) := query (fun _ _ => migration_files dir).

Definition Apply (dir : gmap string string) : CM unit :=
  do! Acquire ;;
  do! pg_advisory_lock ;;
  defer_unlock (
    do! ensure_table ;;
    let! fs := Glob dir in
    if Nat.eqb (length fs) 0 then throw (EMsg "no migrations found")
    else forM fs (apply_one dir)).
End Migrate.
Arguments catalog : clear implicits.
Arguments Catalog {S} _ _ _.

(** * Properties *)
Section Properties.
Context {S : Type} (run_sql : string -> S -> result S) (dir : gmap string string).
Abbreviation fs := (migration_files dir).

(** The schema after running the given migrations in order. *)
Fixpoint replay (vs : list string) (s : S) : result S :=
  match vs with
  | [] => Ok s
  | v :: vs' =>
      match dir !! v with
      | None => Err (EMsg "no such file")
      | Some sql => match run_sql sql s with Ok s' => replay vs' s' | Err e => Err e end
      end
  end.

(** The first [k] migrations were applied to [s0], and nothing else. *)
Record Upto (s0 : S) (k : nat) (d : catalog S) : Prop := {
  upto_bound : (k <= length fs)%nat;
  upto_versions : versions d = take k fs;
  upto_schema : replay (take k fs) s0 = Ok (schema d)
}.

Lemma files_sorted : StronglySorted (fun x y => string_leb x y = true) fs.
Proof. apply sort_by_sorted; [apply string_leb_total|apply string_leb_trans]. Qed.
Lemma files_NoDup : NoDup fs.
Proof.
  unfold migration_files. rewrite sort_by_perm. apply NoDup_ListNoDup, List.NoDup_filter, NoDup_ListNoDup, NoDup_fst_map_to_list.
Qed.

Lemma replay_snoc vs v s : replay (vs ++ [v]) s =
  match replay vs s with
  | Ok s1 => match dir !! v with
             | None => Err (EMsg "no such file")
             | Some sql => run_sql sql s1
             end
  | Err e => Err e
  end.
Proof.
  revert s. induction vs as [|x vs IH]; intros s; simpl.
  - destruct (dir !! v); [|done]. by destruct (run_sql _ s).
  - destruct (dir !! x); [|done]. destruct (run_sql _ s); [apply IH|done].
Qed.

Section Runs.
Context (s0 : S).
Abbreviation Upto := (Upto s0).

Lemma upto_ext k d d' : rows d' = rows d -> schema d' = schema d -> Upto k d -> Upto k d'.
Proof. intros Hr Hs [H1 H2 H3]. split; unfold versions; rewrite ?Hr, ?Hs; done. Qed.

(** One migration: skipped when recorded, otherwise run and recorded in one
    transaction. *)
Lemma apply_one_run v i k w r w' :
  fs !! i = Some v -> (i <= k)%nat -> Upto k (w_db w) -> is_Some (schema_migrations (w_db w)) ->
  apply_one run_sql dir v w = (r, w') ->
  (w_db w' = w_db w /\ (is_ok r = true -> i < k)%nat) \/
  (i = k /\ Upto (Datatypes.S k) (w_db w') /\ is_ok r = true /\ is_Some (schema_migrations (w_db w')) /\
   lock_held (w_db w') = lock_held (w_db w)).
Proof.
  intros Hi Hk HU [t Ht] E. destruct HU as [Hb Hv Hs].
  apply bind_cases in E as [(e & [? _]%stmt_Err & ->)|(b & w1 & [E1 _]%stmt_Ok & E)]; [by left|].
  rewrite Ht in E1. injection E1 as <- E1. destruct (is_applied v (w_db w)) eqn:Ea.
  - injection E as <- <-. left. split; [done|]. intros _. unfold is_applied in Ea. btrue.
    rewrite Hv in Ea. apply list_elem_of_lookup in Ea as (j & Hj). apply lookup_take_Some in Hj as [Hj Hjk].
    by rewrite (NoDup_lookup _ _ _ _ files_NoDup Hi Hj).
  - assert (i = k) as ->.
    { destruct (decide (i = k)) as [|Hne]; [done|]. unfold is_applied in Ea. btrue. destruct Ea. rewrite Hv.
      apply list_elem_of_lookup. exists i. apply lookup_take_Some. split; [done|lia]. }
    apply bind_cases in E as [(e & [? _]%stmt_Err & ->)|(sql & w2 & [E2 _]%stmt_Ok & E)]; [left; split; [congruence|done]|].
    destruct (dir !! v) as [sql'|] eqn:Ed; [|done]. injection E2 as -> E2. assert (w_db w2 = w_db w) as Hw2 by congruence. clear E1 E2.
    destruct r as [[]|e].
    + right. apply tx_Ok in E as (w3 & w4 & H3 & _ & E & H4 & _). rewrite Hw2 in H3.
      apply bindM_Ok in E as (? & w5 & [E5 _]%stmt_Ok & [E _]%stmt_Ok). rewrite H3 in E5.
      destruct (run_sql sql _) as [s'|] eqn:Er; [|done]. injection E5 as _ E5. rewrite <- E5 in E. simpl in E. rewrite Ht in E.
      destruct (is_applied v _); [done|]. injection E as E. rewrite H4, <- E. simpl. split_and!; try done.
      assert (take (Datatypes.S k) fs = take k fs ++ [v]) as Htk by (by apply take_S_r).
      split; simpl.
      * apply lookup_lt_Some in Hi. lia.
      * unfold versions, rows in *. simpl. rewrite Ht in Hv. simpl in Hv. by rewrite map_app, Hv, Htk.
      * rewrite Htk, replay_snoc, Hs, Ed. done.
    + left. apply tx_Err in E. by rewrite E.
Qed.

Lemma loop_run suf : forall i k w r w',
  drop i fs = suf -> (i <= k)%nat -> Upto k (w_db w) -> is_Some (schema_migrations (w_db w)) ->
  forM suf (apply_one run_sql dir) w = (r, w') ->
  exists k', (k <= k')%nat /\ Upto k' (w_db w') /\ (is_ok r = true -> k' = length fs) /\
    (k = length fs -> w_db w' = w_db w).
Proof.
  induction suf as [|v suf IH]; simpl; intros i k w r w' Hd Hk HU Ht E.
  - injection E as <- <-. exists k. split_and!; try done. intros _. pose proof (upto_bound _ _ _ HU).
    assert (length (drop i fs) = 0%nat) as Hl by (by rewrite Hd). rewrite length_drop in Hl. lia.
  - assert (fs !! i = Some v) as Hi by (rewrite <- (Nat.add_0_r i), <- lookup_drop, Hd; done).
    assert (drop (Datatypes.S i) fs = suf) as Hd' by (rewrite <- (Nat.add_1_r i), <- drop_drop, Hd; done).
    apply bind_cases in E as [(e & E & ->)|(? & w1 & E1 & E)].
    + apply (apply_one_run v i k) in E as [[Hw _]|(_ & _ & ? & _)]; try done. rewrite Hw. by exists k.
    + apply (apply_one_run v i k) in E1 as [[Hw Hlt]|(-> & HU' & _ & Ht' & _)]; try done.
      * rewrite <- Hw in HU, Ht |- *. apply (IH (Datatypes.S i)) with (k := k) in E as (k' & ?); try done.
        -- exists k'. done.
        -- specialize (Hlt eq_refl). lia.
      * apply (IH (Datatypes.S k)) with (k := Datatypes.S k) in E as (k' & Hk' & ? & ? & _); try done.
        exists k'. split_and!; try done; [lia|]. intros ->. apply lookup_lt_Some in Hi. lia.
Qed.

Lemma defer_unlock_run {A} (m : M (catalog S) A) w r w' : defer_unlock m w = (r, w') -> exists w1,
  m w = (r, w1) /\ rows (w_db w') = rows (w_db w1) /\ schema (w_db w') = schema (w_db w1).
Proof.
  unfold defer_unlock. destruct (m w) as [r1 w1]. destruct (exec _ w1) as [[[]|e] w2] eqn:E; intros [= <- <-]; exists w1.
  - apply exec_Ok in E as [-> _]. done.
  - apply stmt_Err in E as [-> _]. done.
Qed.

Lemma Apply_run k w r w' : Upto k (w_db w) -> Apply run_sql dir w = (r, w') ->
  exists k', (k <= k')%nat /\ Upto k' (w_db w') /\ (is_ok r = true -> k' = length fs) /\
    (k = length fs -> rows (w_db w') = rows (w_db w) /\ schema (w_db w') = schema (w_db w)) /\
    (lock_held (w_db w) = true -> is_ok r = false /\ w_db w' = w_db w).
Proof.
  intros HU E. unfold Apply in E.
  apply bind_cases in E as [(e & [Hw _]%stmt_Err & ->)|(? & w1 & [E1 _]%exec_Ok & E)]; [rewrite Hw; by exists k|].
  apply bind_cases in E as [(e & [Hw _]%stmt_Err & ->)|(? & w2 & [E2 _]%stmt_Ok & E)]; [rewrite Hw, E1; by exists k|].
  rewrite E1 in E2. destruct (lock_held (w_db w)) eqn:Hl; [done|]. injection E2 as _ E2.
  apply defer_unlock_run in E as (w3 & E & Hr & Hs).
  assert (exists k', (k <= k')%nat /\ Upto k' (w_db w3) /\ (is_ok r = true -> k' = length fs) /\
    (k = length fs -> rows (w_db w3) = rows (w_db w) /\ schema (w_db w3) = schema (w_db w))) as (k' & H1 & H2 & H3 & H4).
  { apply bind_cases in E as [(e & [Hw _]%stmt_Err & ->)|(? & w4 & [E4 _]%exec_Ok & E)];
      [rewrite Hw, <- E2; exists k; split_and!; try done; by apply (upto_ext k (w_db w))|].
    assert (Upto k (w_db w4)) as HU4 by (rewrite E4, <- E2; by apply (upto_ext k (w_db w))).
    assert (rows (w_db w4) = rows (w_db w) /\ schema (w_db w4) = schema (w_db w)) as H4 by (rewrite E4, <- E2; done).
    apply bind_cases in E as [(e & [Hw _]%stmt_Err & ->)|(l & w5 & (-> & E5 & _)%query_Ok & E)]; [rewrite Hw; by exists k|].
    rewrite <- E5 in HU4, H4. destruct (length fs =? 0)%nat; [injection E as <- <-; by exists k|].
    apply (loop_run fs 0 k) in E as (k' & ? & ? & ? & Hsame); try done; [|lia|by rewrite E5, E4].
    exists k'. split_and!; try done. intros Hk. by rewrite Hsame. }
  exists k'. split; [done|]. split; [by apply (upto_ext k' (w_db w3))|]. split; [done|].
  split; [|done]. intros Hk. rewrite Hr, Hs. by apply H4.
Qed.

(** Any number of deployments, each with its own failures. *)
Fixpoint deploys (d : catalog S) (runs : list (Z * list bool)) : catalog S :=
  match runs with
  | [] => d
  | (now, faults) :: runs' => deploys (w_db (Apply run_sql dir (World d now faults)).2) runs'
  end.

Lemma deploys_upto runs : forall d k, Upto k d -> exists k', (k <= k')%nat /\ Upto k' (deploys d runs).
Proof.
  induction runs as [|[now faults] runs IH]; intros d k HU; simpl; [by exists k|].
  destruct (Apply run_sql dir (World d now faults)) as [r w'] eqn:E.
  apply (Apply_run k) in E as (k1 & Hk & HU1 & _); [|done]. destruct (IH _ _ HU1) as (k' & ? & ?).
  exists k'. split; [lia|done].
Qed.


Lemma replay_prefix vs1 vs2 s s' : replay (vs1 ++ vs2) s = Ok s' -> exists s1, replay vs1 s = Ok s1 /\ replay vs2 s1 = Ok s'.
Proof.
  revert s. induction vs1 as [|v vs1 IH]; simpl; intros s H; [eauto|].
  destruct (dir !! v); [|done]. destruct (run_sql _ s); [eauto|done].
Qed.

(** Without failures a migration that runs is recorded. *)
Lemma apply_one_nofault v d n t s : schema_migrations d = Some t ->
  (is_applied v d = false -> replay [v] (schema d) = Ok s) ->
  exists d', apply_one run_sql dir v (World d n []) = (Ok tt, World d' n []) /\ is_Some (schema_migrations d') /\
    lock_held d' = lock_held d.
Proof.
  intros Ht Hr. unfold apply_one, with_table. unfold bindM at 1. rewrite stmt_nofault, Ht.
  destruct (is_applied v d) eqn:Ea; [by exists d; rewrite Ht|]. specialize (Hr eq_refl). simpl in Hr.
  unfold bindM, ReadMigration. rewrite stmt_nofault. destruct (dir !! v) as [sql|]; [|done].
  destruct (run_sql sql (schema d)) as [s1|] eqn:Es; [|done].
  rewrite tx_nofault. unfold exec_sql, insert_version, with_table. rewrite stmt_nofault, Es, stmt_nofault. simpl.
  rewrite Ht. replace (is_applied v (set_schema s1 d)) with false. unfold begin_commit. rewrite stmt_nofault.
  eexists. split; [done|]. simpl. by eauto.
Qed.

Lemma loop_nofault suf s : forall i k d n,
  drop i fs = suf -> (i <= k)%nat -> Upto k d -> is_Some (schema_migrations d) -> replay fs s0 = Ok s ->
  exists d', forM suf (apply_one run_sql dir) (World d n []) = (Ok tt, World d' n []) /\ lock_held d' = lock_held d.
Proof.
  induction suf as [|v suf IH]; simpl; intros i k d n Hd Hk HU [t Ht] Hr; [by exists d|].
  assert (fs !! i = Some v) as Hi by (rewrite <- (Nat.add_0_r i), <- lookup_drop, Hd; done).
  assert (drop (Datatypes.S i) fs = suf) as Hd' by (rewrite <- (Nat.add_1_r i), <- drop_drop, Hd; done).
  assert (exists s1, is_applied v d = false -> replay [v] (schema d) = Ok s1) as [s1 Hs1].
  { destruct (is_applied v d) eqn:Ea; [by exists s|]. assert (i = k) as ->.
    { destruct (decide (i = k)) as [|Hne]; [done|]. unfold is_applied in Ea. btrue. destruct Ea. rewrite (upto_versions _ _ _ HU).
      apply list_elem_of_lookup. exists i. apply lookup_take_Some. split; [done|lia]. }
    rewrite <- (take_drop k fs), Hd in Hr. apply replay_prefix in Hr as (s1 & H1 & H2).
    rewrite (upto_schema _ _ _ HU) in H1. injection H1 as <-. apply (replay_prefix [v] suf) in H2 as (s2 & H2 & _). eauto. }
  destruct (apply_one_nofault v d n t s1 Ht Hs1) as (d1 & E1 & Ht1 & Hl1). unfold bindM. rewrite E1.
  apply (apply_one_run v i k (World d n [])) in E1 as [[Hw Hlt]|(-> & HU' & _)]; try done.
  - simpl in Hw. subst d1. destruct (IH (Datatypes.S i) k d n Hd') as (d' & -> & Hl'); eauto; try (by apply Hlt).
  - destruct (IH (Datatypes.S k) (Datatypes.S k) d1 n Hd' (le_n _) HU' Ht1 Hr) as (d' & -> & Hl'). exists d'. split; [done|congruence].
Qed.

(** Progress: once nothing fails, the lock is free and the migrations run, one
    deployment brings any database left by earlier ones to the full schema,
    and gives the lock back. *)
Theorem migrations_complete runs now s :
  lock_held (deploys (Catalog false None s0) runs) = false -> fs <> [] -> replay fs s0 = Ok s ->
  exists d', Apply run_sql dir (World (deploys (Catalog false None s0) runs) now []) = (Ok tt, World d' now []) /\
    schema d' = s /\ versions d' = fs /\ lock_held d' = false.
Proof.
  intros Hl Hne Hr. set (d := deploys _ runs) in *.
  destruct (deploys_upto runs (Catalog false None s0) 0) as (k & _ & HU); [by split; [lia|..]|]. fold d in HU.
  set (d1 := set_migrations (Some (rows (set_lock true d))) (set_lock true d)).
  destruct (loop_nofault fs s 0 k d1 now) as (d2 & E2 & Hl2); try done; [lia|by apply (upto_ext k d)|].
  assert (Apply run_sql dir (World d now []) = (Ok tt, World (set_lock false d2) now [])) as E.
  { unfold Apply, bindM at 1, Acquire, exec. rewrite stmt_nofault. unfold bindM at 1, pg_advisory_lock. rewrite stmt_nofault, Hl.
    unfold defer_unlock, bindM, ensure_table, exec, Glob, query. rewrite !stmt_nofault. fold d1.
    destruct (length fs =? 0)%nat eqn:E0; [by apply Nat.eqb_eq, nil_length_inv in E0|]. rewrite E2.
    by rewrite stmt_nofault. }
  exists (set_lock false d2). split; [done|]. apply (Apply_run k) in E as (k' & _ & HU' & Hk' & _); [|done].
  rewrite (Hk' eq_refl) in HU'. destruct HU' as [_ Hv Hs]. rewrite take_ge in Hv, Hs by lia. simpl in *.
  split_and!; try done. congruence.
Qed.
End Runs.
End Properties.

(** * A concrete directory: a migration appends its text to the schema *)
Module ToyMigrate.
Definition toy_sql (sql : string) (s : list string) : result (list string) :=
  if bool_decide (sql = "bad") then Err (EMsg "syntax error") else Ok (s ++ [sql]).
Definition toy_dir : gmap string string :=
  {[ "0002_b.sql" := "b"; "0001_a.sql" := "a"; "README.md" := "no"; "0003_c.sql" := "c" ]}%string.
(** The first deployment dies while recording the second migration. *)
Definition toy_runs : list (Z * list bool) :=
  [(1, [false; false; false; false; false; false; false; false; false; false; false; false; false; false; true])].
Definition toy_db : catalog (list string) := deploys toy_sql toy_dir (Catalog false None []) toy_runs.
Definition toy_second := Apply toy_sql toy_dir (World toy_db 2 []).
End ToyMigrate.
Import ToyMigrate.


Lemma migrations_complete_witness : exists d',
  Apply toy_sql toy_dir (World toy_db 2 []) = (Ok tt, World d' 2 []) /\ schema d' = ["a"; "b"; "c"]%string.
Proof.
  destruct (migrations_complete toy_sql toy_dir [] toy_runs 2 ["a"; "b"; "c"]%string) as (d' & H1 & H2 & _);
    [by vm_compute|intros H; vm_compute in H; discriminate H|vm_compute; reflexivity|]. exists d'. unfold toy_db. split; [exact H1|exact H2].
Defined.
