(* ===== verification/Config.v ===== *)
(** [internal/platform/config/config.go] and
    [internal/artifact/storeconfig.go]: settings from the environment.

    A [Source] remembers every lookup for the dump and every problem for the
    final error.  [time.ParseDuration] and [Duration.String] are a parameter
    with the law that a printed duration parses. *)
From stdpp Require Import base gmap strings list.
From Stdlib Require Import ZArith Lia Ascii String Decimal DecimalString DecimalZ.
From S2P Require Import Prelude Codec.
Open Scope Z_scope.

(** * [strconv] *)
Definition in_int64 (z : Z) : bool := (- 2 ^ 63 <=? z) && (z <? 2 ^ 63).
Definition Itoa (z : Z) : string := NilZero.string_of_int (Z.to_int z).
Definition Atoi (s : string) : option Z :=
  let digits := match s with
                | String "+"%char s' => Pos <$> NilZero.uint_of_string s'
                | _ => NilZero.int_of_string s
                end in
  match digits with
  | Some d => if in_int64 (Z.of_int d) then Some (Z.of_int d) else None
  | None => None
  end.
Definition FormatBool (b : bool) : string := if b then "true" else "false".
Definition ParseBool (s : string) : option bool :=
  if bool_decide (s ∈ ["1"; "t"; "T"; "TRUE"; "true"; "True"]%string) then Some true
  else if bool_decide (s ∈ ["0"; "f"; "F"; "FALSE"; "false"; "False"]%string) then Some false
  else None.
Class DurationText : Type := { ParseDuration : string -> option Z; DurationString : Z -> string }.
Class DurationLaws `{DurationText} : Prop :=
  duration_roundtrip : forall d, in_int64 d = true -> ParseDuration (DurationString d) = Some d.

(** * Sources *)
Record Source : Type := MkSource { seen : gmap string string; missing : list string }.
Definition New : Source := MkSource ∅ [].
Definition prefix : string := "VAPN_".

Section Source.
(** [strconv.Quote] of the %q verb, and the process environment. *)
Context {dt : DurationText} (Quote : string -> string) (LookupEnv : string -> option string).

Definition lookup_key (key def : string) (s : Source) : string * Source :=
  let v := default def (LookupEnv (prefix +:+ key)) in
  (v, MkSource (<[key := v]> (seen s)) (missing s)).
Definition complain (m : string) (s : Source) : Source := MkSource (seen s) (missing s ++ [m]).

Definition String_ (key def : string) (s : Source) : string * Source := lookup_key key def s.
Definition Require_ (key : string) (s : Source) : string * Source :=
  let (v, s) := lookup_key key "" s in
  if bool_decide (v = ""%string) then (v, complain (prefix +:+ key) s) else (v, s).

(** The shape [Int], [Bool] and [Duration] share. *)
Definition parsed {A} (parse : string -> option A) (print : A -> string) (what : string) (key : string) (def : A) (s : Source)
    : A * Source :=
  let (v, s) := lookup_key key (print def) s in
  match parse v with
  | Some a => (a, s)
  | None => (def, complain (prefix +:+ key +:+ " (not " +:+ what +:+ ": " +:+ Quote v +:+ ")") s)
  end.
Definition Int_ : string -> Z -> Source -> Z * Source := parsed Atoi Itoa "an integer".
Definition Bool_ : string -> bool -> Source -> bool * Source := parsed ParseBool FormatBool "a bool".
Definition Duration : string -> Z -> Source -> Z * Source := parsed ParseDuration DurationString "a duration".

Definition Err_ (s : Source) : option string :=
  match missing s with [] => None | ms => Some ("configuration errors: " +:+ join ", " ms) end.

(** * Dump *)
Definition secretMarkers : list string := ["TOKEN"; "SECRET"; "KEY"; "PASSWORD"; "DSN"; "CREDENTIAL"]%string.
Definition upper (c : ascii) : ascii := let v := byte_val c in if (97 <=? v) && (v <=? 122) then byte_of (v - 32) else c.
Definition ToUpper (s : string) : string := string_of_list_ascii (map upper (list_ascii_of_string s)).
Fixpoint Contains (s sub : string) : bool :=
  String.prefix sub s || match s with EmptyString => false | String _ s' => Contains s' sub end.
Definition redacted (key : string) : bool := existsb (Contains (ToUpper key)) secretMarkers.
Definition Dump (s : Source) : list (string * string) :=
  map (fun k => let v := default ""%string (seen s !! k) in
                (prefix +:+ k, if redacted k && negb (bool_decide (v = ""%string)) then "[redacted]"%string else v))
      (sort_by string_leb (map fst (map_to_list (seen s)))).

(** * The artifact store *)
Record S3Config : Type := MkS3Config {
  Endpoint : string; AccessKey : string; SecretKey : string; Bucket : string; Region : string; UseSSL : bool
}.
Inductive StoreChoice : Type := NoStore | S3Store (c : S3Config) | DirStore (root : string) | Exclusive.
Definition StoreFromConfig (s : Source) : StoreChoice * Source :=
  let (endpoint, s) := String_ "ARTIFACT_S3_ENDPOINT" "" s in
  let (dir, s) := String_ "ARTIFACT_DIR" "" s in
  let (access, s) := String_ "ARTIFACT_S3_ACCESS_KEY" "" s in
  let (secret, s) := String_ "ARTIFACT_S3_SECRET_KEY" "" s in
  let (bucket, s) := String_ "ARTIFACT_S3_BUCKET" "vapn-artifacts" s in
  let (region, s) := String_ "ARTIFACT_S3_REGION" "" s in
  let (ssl, s) := Bool_ "ARTIFACT_S3_USE_SSL" true s in
  let has v := negb (bool_decide (v = ""%string)) in
  (if has endpoint && has dir then Exclusive
   else if has endpoint then S3Store (MkS3Config endpoint access secret bucket region ssl)
   else if has dir then DirStore dir
   else NoStore, s).
End Source.

(** * Properties *)
Lemma Atoi_Itoa z : in_int64 z = true -> Atoi (Itoa z) = Some z.
Proof.
  intros Hz. unfold Atoi, Itoa. destruct (to_int_not_nil z) as [H1 H2]. pose proof (NilZero.isi _ H1 H2) as Hi.
  assert (forall s', NilZero.string_of_int (Z.to_int z) <> String "+"%char s') as Hplus.
  { intros s' E. rewrite E in Hi. simpl in Hi. destruct (NilEmpty.uint_of_string s'); discriminate Hi. }
  destruct (NilZero.string_of_int (Z.to_int z)) as [|c s'] eqn:E; [discriminate|].
  assert (match c with "+"%char => Pos <$> NilZero.uint_of_string s' | _ => NilZero.int_of_string (String c s') end
    = Some (Z.to_int z)) as ->.
  { destruct c as [[] [] [] [] [] [] [] []]; try exact Hi. by destruct (Hplus s'). }
  by rewrite DecimalZ.of_to, Hz.
Qed.
Lemma ParseBool_FormatBool b : ParseBool (FormatBool b) = Some b.
Proof. by destruct b. Qed.

Section Properties.
Context {dt : DurationText} {dl : DurationLaws} (Quote : string -> string) (env : string -> option string).

(** The lookups a service makes. *)
Inductive request : Type :=
| QString (key def : string) | QRequire (key : string)
| QInt (key : string) (def : Z) | QBool (key : string) (def : bool) | QDuration (key : string) (def : Z).
Definition run_request (s : Source) (q : request) : Source :=
  match q with
  | QString k d => (String_ env k d s).2
  | QRequire k => (Require_ env k s).2
  | QInt k d => (Int_ Quote env k d s).2
  | QBool k d => (Bool_ Quote env k d s).2
  | QDuration k d => (Duration Quote env k d s).2
  end.
Definition representable (q : request) : Prop :=
  match q with QInt _ d | QDuration _ d => in_int64 d = true | _ => True end.
(** A variable that is set but does not parse, or is required and empty. *)
Definition acceptable (q : request) : bool :=
  let valid {A} (parse : string -> option A) k := match env (prefix +:+ k) with Some v => is_some (parse v) | None => true end in
  match q with
  | QString _ _ => true
  | QRequire k => negb (bool_decide (default ""%string (env (prefix +:+ k)) = ""%string))
  | QInt k _ => valid Atoi k
  | QBool k _ => valid ParseBool k
  | QDuration k _ => valid ParseDuration k
  end.

Lemma parsed_missing {A} (parse : string -> option A) print what k d s : parse (print d) = Some d ->
  List.length (missing (parsed Quote env parse print what k d s).2) =
  (List.length (missing s) + if match env (prefix +:+ k) with Some v => is_some (parse v) | None => true end then 0 else 1)%nat.
Proof.
  intros Hd. unfold parsed, lookup_key. destruct (env _) as [v|]; simpl; [|rewrite Hd; simpl; lia].
  destruct (parse v); simpl; rewrite ?length_app; simpl; lia.
Qed.
Lemma request_missing q s : representable q ->
  List.length (missing (run_request s q)) = (List.length (missing s) + if acceptable q then 0 else 1)%nat.
Proof.
  destruct q as [k d|k|k d|k d|k d]; simpl; intros Hq; try (apply parsed_missing); eauto using Atoi_Itoa, ParseBool_FormatBool.
  unfold Require_, lookup_key. case_bool_decide; simpl; rewrite ?length_app; simpl; lia.
Qed.

(** No problem is lost and none is invented: after any lookups the source
    holds one complaint per required variable that is empty and per variable
    whose value does not parse, so the error is absent exactly when every
    lookup was acceptable. *)
Theorem config_errors_exact qs : Forall representable qs ->
  let s := foldl run_request New qs in
  List.length (missing s) = count_rows (fun q => negb (acceptable q)) qs /\
  (Err_ s = None <-> forallb acceptable qs = true).
Proof.
  intros Hqs s.
  assert (forall s0, List.length (missing (foldl run_request s0 qs)) =
    (List.length (missing s0) + count_rows (fun q => negb (acceptable q)) qs)%nat) as Hlen.
  { unfold count_rows, select. induction Hqs as [|q qs Hq Hqs IH]; intros s0; simpl; [lia|]. rewrite IH, request_missing by done.
    destruct (acceptable q); simpl; lia. }
  specialize (Hlen New). simpl in Hlen. split; [done|]. fold s in Hlen.
  assert (forallb acceptable qs = true <-> count_rows (fun q => negb (acceptable q)) qs = 0%nat) as ->.
  { unfold count_rows, select. clear. induction qs as [|q qs IH]; simpl; [done|]. by destruct (acceptable q). }
  rewrite <- Hlen. unfold Err_. by destruct (missing s).
Qed.

(** The dump shows every lookup with its effective value, except that a
    secret shows at most that it is set. *)
Theorem dump_hides_secrets s k v : In (k, v) (Dump s) ->
  exists key val, k = prefix +:+ key /\ seen s !! key = Some val /\
    (redacted key = false -> v = val) /\ (redacted key = true -> v = ""%string \/ v = "[redacted]"%string).
Proof.
  unfold Dump. intros (key & Hk & Hin)%in_map_iff. apply list_elem_of_In in Hin. rewrite sort_by_perm in Hin.
  apply list_elem_of_In, in_map_iff in Hin as ([key' val] & <- & Hval%list_elem_of_In%elem_of_map_to_list). simpl in *.
  rewrite Hval in Hk. simpl in Hk. injection Hk as <- <-. exists key', val. split_and!; try done.
  - by intros ->.
  - intros ->. simpl. case_bool_decide; simpl; auto.
Qed.
End Properties.

(** Every credential a service looks up is recognised as a secret. *)
Definition credentials : list string :=
  ["ADMIN_TOKEN"; "ADVISOR_TOKEN"; "DB_DSN"; "ARTIFACT_S3_ACCESS_KEY"; "ARTIFACT_S3_SECRET_KEY"; "DEV_ENROLLMENT_TOKEN";
   "ENROLLMENT_TOKEN"; "SNAPSHOT_SIGNING_KEY"]%string.
Lemma credentials_redacted : forallb redacted credentials = true.
Proof. vm_compute. reflexivity. Qed.
