(* ===== verification/Admin.v ===== *)
(** [internal/coordinator/admin.go] and [metrics.go]: the read side of the
    admin API (fleet overview, snapshot list, audit queries, worker detail)
    and the gauges of [/metrics], with the routing of the admin API and the
    query strings its handlers read.

    The writing admin endpoints are in Server.v.  The columns the schema of
    Schema.v leaves out (the identity and detail of audit and trust events,
    [created_at] of a snapshot) are left out of the answers too; rows come out
    of [order by id desc] in the reverse of insertion order.  The health of
    the website feeds is the map [SyncAdvisor] (Advisor.v) returned last. *)
From stdpp Require Import base gmap strings list.
From Stdlib Require Import ZArith QArith Lia String Ascii.
From S2P Require Import Prelude Codec Netip Schema Wireauth Artifact Observation Registry Leasing Upload Server.
From S2P Require Import Trust Consensus Rollup Outbox Advisor Builder WellFormed.
From S2P Require Config.
Open Scope Z_scope.

(** * Query strings

    [url.QueryUnescape], [url.ParseQuery] (malformed pairs are dropped) and
    [Values.Get]. *)
Fixpoint QueryUnescape (s : string) : option string :=
  match s with
  | EmptyString => Some EmptyString
  | String c s' =>
      if bool_decide (c = byte_of 37) then
        match s' with
        | String h (String l s2) =>
            match hex_value h, hex_value l, QueryUnescape s2 with
            | Some h, Some l, Some r => Some (String (byte_of (16 * h + l)) r)
            | _, _, _ => None
            end
        | _ => None
        end
      else String (if bool_decide (c = byte_of 43) then byte_of 32 else c) <$> QueryUnescape s'
  end.

Definition parse_pair (part : string) : option (string * string) :=
  if has_byte (byte_of 59) part || bool_decide (part = ""%string) then None
  else
    let '(k, v) := default (part, ""%string) (cut (byte_of 61) part) in
    match QueryUnescape k, QueryUnescape v with Some k, Some v => Some (k, v) | _, _ => None end.
Definition ParseQuery (raw : string) : list (string * string) := omap parse_pair (split_on (byte_of 38) raw).
Definition query_get (raw key : string) : string :=
  match List.find (fun kv => bool_decide (kv.1 = key)) (ParseQuery raw) with Some kv => kv.2 | None => ""%string end.

(** * Answers *)
Record overviewSnapshot : Type := MkOverviewSnapshot { os_Version : string; os_PublishedAt : Z; os_Targets : Z }.
Record fleetOverview : Type := MkOverview {
  WorkersByState : gmap string Z;
  SoftwareVersions : gmap string Z;
  ov_Snapshot : option overviewSnapshot;
  OpenAssignments : Z;
  LiveLeases : Z;
  OutboxQueued : Z;
  SecurityEvents24 : gmap string Z;
  SchedulerPaused : bool;
  AdvisorSync : gmap string feedHealth
}.
Record snapshotSummary : Type := MkSummary {
  ss_Version : string;
  ss_Status : snapshot_status;
  ss_PublishedAt : option Z;
  ss_PrefixCountV4 : Z;
  ss_PrefixCountV6 : Z;
  HasData : bool
}.
Record auditEvent : Type := MkAudit { ae_Category : string; ae_Actor : string; ae_Action : string; ae_Subject : option string; ae_CreatedAt : Z }.
Record workerDetail : Type := MkDetail {
  wd_ID : string;
  wd_Name : string;
  wd_State : worker_state;
  wd_StateReason : option string;
  wd_SoftwareVersion : option string;
  wd_SourceASN : option Z;
  wd_EnrolledAt : Z;
  wd_LastHeartbeatAt : option Z;
  wd_Trust : option trust_row;
  wd_LiveLeases : Z;
  RecentEvents : option (list auditEvent)
}.

Inductive read_body : Type :=
| RProblem (detail : string)
| ROverview (o : fleetOverview)
| RSnapshots (l : list snapshotSummary)
| RAudit (l : list auditEvent)
| RDetail (d : workerDetail).
Record read_response : Type := ReadResponse { r_status : Z; r_content : read_body }.

(** * Queries *)
(** [select key, count( * ) ... group by 1], read into a Go map. *)
Definition group_count {A} (key : A -> string) (l : list A) : gmap string Z := list_to_map (count_by key l).
Definition worker_rows (d : database) : list worker_row := map snd (map_to_list (db_worker d)).
Definition workers_by_state (d : database) : gmap string Z := group_count (fun w => state_name (w_state w)) (worker_rows d).
Definition active_versions (d : database) : gmap string Z :=
  group_count (fun w => default "unknown"%string (w_version w))
    (select (fun w => bool_decide (w_state w = Active)) (worker_rows d)).
Definition trust_events_24h (now : Z) (d : database) : gmap string Z :=
  group_count te_type (select (fun e => now - 24 * Hour <? te_created_at e) (db_trust_event d)).

Definition snapshot_targets (id : Z) (d : database) : Z := Z.of_nat (count_rows (fun t => tg_snapshot t =? id) (db_target d)).
(** A null [published_at] does not scan into a [time.Time]. *)
Definition published_snapshot (d : database) : option overviewSnapshot :=
  s ← newest_published d; t ← sn_published_at s; Some (MkOverviewSnapshot (sn_version s) t (snapshot_targets (sn_id s) d)).

Definition fleet_counts (d : database) : Z * Z * Z :=
  (Z.of_nat (count_rows working (db_assignment d)), Z.of_nat (count_rows live (db_lease d)),
   Z.of_nat (count_rows (fun r => is_none (ob_acked_at r)) (db_outbox d))).

Definition has_data (id : Z) (d : database) : bool := exists_row (fun p => pr_snapshot p =? id) (db_prefix d).
Definition summary (d : database) (s : snapshot_row) : snapshotSummary :=
  MkSummary (sn_version s) (sn_status s) (sn_published_at s) (default 0 (sn_count_v4 s)) (default 0 (sn_count_v6 s))
    (has_data (sn_id s) d).

Definition audit_rows_since (since : Z) (category : string) (limit : nat) (d : database) : list auditEvent :=
  map (fun e => MkAudit (au_category e) (au_actor e) (au_action e) (Some (au_subject e)) (au_created_at e))
    (take limit (rev (select (fun e => (since <? au_created_at e)
       && (bool_decide (category = ""%string) || bool_decide (au_category e = category))) (db_audit d)))).

Definition trust_rows_of (id : string) (d : database) : list auditEvent :=
  map (fun e => MkAudit "trust" (te_actor e) (te_type e) None (te_created_at e))
    (take 20 (rev (select (fun e => bool_decide (te_worker e = id)) (db_trust_event d)))).

(** * Handlers *)
Section Reads.
Context {tm : TimeText}.
Variable cfg : Server.Config.

Definition fail (st : Z) (detail : string) : SM read_response := ret (ReadResponse st (RProblem detail)).

(** A query whose error the handler passes over: the default stays. *)
Definition lenient {A} (def : A) (m : SM A) : SM A :=
  let! r := attempt m in ret (match r with Ok a => a | Err _ => def end).

Definition adminOverview (health : gmap string feedHealth) : SM read_response :=
  let! paused := read (fun _ s => sys_paused s) in
  let! states := attempt (lift (query (fun _ d => workers_by_state d))) in
  match states with
  | Err _ => fail 500 "overview failed"
  | Ok states =>
      let! versions := lenient ∅ (lift (query (fun _ d => active_versions d))) in
      let! snap := lenient None (lift (query (fun _ d => published_snapshot d))) in
      let! counts := lenient (0, 0, 0) (lift (query (fun _ d => fleet_counts d))) in
      let! events := lenient ∅ (lift (query trust_events_24h)) in
      ret (ReadResponse 200 (ROverview (MkOverview states versions snap counts.1.1 counts.1.2 counts.2 events paused health)))
  end.

Definition adminListSnapshots : SM read_response :=
  let! r := attempt (lift (query (fun _ d => map (summary d) (take 50 (rev (db_snapshot d)))))) in
  match r with
  | Err _ => fail 500 "snapshot list failed"
  | Ok l => ret (ReadResponse 200 (RSnapshots l))
  end.

Definition audit_limit (raw : string) : Z :=
  match Config.Atoi (query_get raw "limit") with
  | Some n => if (0 <? n) && (n <=? 1000) then n else 100
  | None => 100
  end.
Definition audit_since (now : Z) (raw : string) : Z :=
  default (now - 24 * Hour) (Parse_RFC3339 (query_get raw "since")).

Definition adminAudit (raw : string) : SM read_response :=
  let! now := clock in
  let! r := attempt (lift (query (fun _ d =>
    audit_rows_since (audit_since now raw) (query_get raw "category") (Z.to_nat (audit_limit raw)) d))) in
  match r with
  | Err _ => fail 500 "audit query failed"
  | Ok l => ret (ReadResponse 200 (RAudit l))
  end.

Definition adminWorkerDetail (id : string) : SM read_response :=
  let! r := attempt (lift (query_row (fun _ d =>
    (fun w => (w, db_trust_score d !! id, Z.of_nat (held_count id d))) <$> db_worker d !! id))) in
  match r with
  | Err _ => fail 404 "unknown worker"
  | Ok (w, trust, leases) =>
      let! events := attempt (lift (query (fun _ d => trust_rows_of id d))) in
      ret (ReadResponse 200 (RDetail (MkDetail id (w_name w) (w_state w) (w_reason w) (w_version w) (w_source_asn w)
        (w_enrolled_at w) (w_heartbeat_at w) trust leases (match events with Ok l => Some l | Err _ => None end))))
  end.

Inductive read_endpoint : Type :=
| RdOverview
| RdSnapshots
| RdAudit (raw_query : string)
| RdWorker (id : string).

Definition authorized (authorization : string) : bool :=
  negb (bool_decide (AdminToken cfg = ""%string)) && bool_decide (authorization = ("Bearer " +:+ AdminToken cfg)%string).

(** The read endpoints behind [s.admin]. *)
Definition serve_read (health : gmap string feedHealth) (e : read_endpoint) (authorization : string) : SM read_response :=
  if authorized authorization then
    match e with
    | RdOverview => adminOverview health
    | RdSnapshots => adminListSnapshots
    | RdAudit raw => adminAudit raw
    | RdWorker id => adminWorkerDetail id
    end
  else fail 401 "invalid admin credential".
End Reads.

(** * Gauges *)
Inductive metric : Type :=
| MWorkers (state : string) (n : Z)
| MAssignments (n : Z)
| MLeases (n : Z)
| MOutbox (n : Z)
| MSnapshotAge (nanoseconds : Z)
| MSnapshotTargets (n : Z).

Definition Collect : SM (list metric) :=
  let! ws := lenient [] (lift (query (fun _ d => map (fun kv => MWorkers kv.1 kv.2) (map_to_list (workers_by_state d))))) in
  let! cs := lenient [] (lift (query (fun _ d =>
    [MAssignments (fleet_counts d).1.1; MLeases (fleet_counts d).1.2; MOutbox (fleet_counts d).2]))) in
  let! now := clock in
  let! ss := lenient [] (lift (query (fun _ d =>
    match published_snapshot d with
    | Some s => [MSnapshotAge (now - os_PublishedAt s); MSnapshotTargets (os_Targets s)]
    | None => []
    end))) in
  ret (ws ++ cs ++ ss).

(** * Reads change nothing *)
Definition Same {S} (_ : Z) (s s' : S) : Prop := s' = s.
#[export] Instance Same_preorder {S} : PreOrderAt (Same (S := S)).
Proof. split; unfold Same; intros; congruence. Qed.

(** One step of [Respects] over a read. *)
Ltac reads := repeat first
  [ apply respects_lift_query; apply _ | apply respects_lift_query_row; apply _ | apply respects_clock; apply _
  | apply respects_read; apply _ | progress unfold fail, lenient | progress respects ].

Section ReadOnly.
Context {tm : TimeText}.
Variable cfg : Server.Config.

Lemma serve_read_same health e auth : Respects Same (serve_read cfg health e auth).
Proof.
  unfold serve_read, adminOverview, adminListSnapshots, adminAudit, adminWorkerDetail. destruct (authorized cfg auth); [|reads].
  destruct e; reads.
Qed.

Lemma Collect_same : Respects Same Collect.
Proof. unfold Collect. reads. Qed.

Lemma serve_read_total health e auth : Total (serve_read cfg health e auth).
Proof.
  unfold serve_read, adminOverview, adminListSnapshots, adminAudit, adminWorkerDetail, lenient, fail. destruct (authorized cfg auth); [|total].
  destruct e; repeat (total; try (match goal with |- Total (match ?x with _ => _ end) => destruct x end)).
Qed.
End ReadOnly.

(** * What the snapshot list promises *)
Lemma lift_query_nofault {A} (f : Z -> database -> A) s n : lift (query f) (World s n []) = (Ok (f n (sys_db s)), World s n []).
Proof. unfold lift, query. rewrite stmt_nofault. simpl. by rewrite set_sys_db_id. Qed.
Lemma lift_query_row_nofault {A} (f : Z -> database -> option A) s n :
  lift (query_row f) (World s n []) = (of_option ENoRows (f n (sys_db s)), World s n []).
Proof. unfold lift, query_row. rewrite stmt_nofault. simpl. destruct (f n (sys_db s)); simpl; by rewrite set_sys_db_id. Qed.

Lemma lenient_query {A} (def : A) f s n : lenient def (lift (query f)) (World s n []) = (Ok (f n (sys_db s)), World s n []).
Proof. unfold lenient, bindM, attempt. by rewrite lift_query_nofault. Qed.
Lemma bind_run {D A B} (m : M D A) (k : A -> M D B) w a w' : m w = (Ok a, w') -> bindM m k w = k a w'.
Proof. unfold bindM. by intros ->. Qed.

Definition flipped (n id : Z) (s : sys) : sys :=
  set_sys_db (set_snapshot (fun _ => flip_rows n id (db_snapshot (sys_db s))) (sys_db s)) s.
Lemma lift_flip_nofault id s n : lift (flip id) (World s n []) = (Ok tt, World (flipped n id s) n []).
Proof. unfold lift, flip. rewrite tx_nofault. done. Qed.

Definition not_pruned : error := EMsg "snapshot has been pruned; cannot roll back to it".

Lemma has_data_count id d : has_data id d = negb (Nat.eqb (count_rows (fun p => pr_snapshot p =? id) (db_prefix d)) 0).
Proof.
  unfold has_data. destruct (exists_row _ _) eqn:E.
  - apply exists_row_true in E as (p & Hp & Ep). symmetry. apply negb_true_iff, Nat.eqb_neq.
    pose proof (count_pos (fun p => pr_snapshot p =? id) (db_prefix d) p Hp Ep). lia.
  - rewrite exists_row_false, <- count_zero in E. by rewrite E.
Qed.

(** [RollbackTo] when nothing fails. *)
Lemma rollback_run version row s n :
  List.find (fun s => bool_decide (sn_version s = version)) (db_snapshot (sys_db s)) = Some row ->
  RollbackTo version (World s n []) =
    if has_data (sn_id row) (sys_db s)
    then (Ok tt, World (set_sys_store (<[PointerKey := OPointer (MkPointer version (ObjectKeyManifest version) n)]>)
                         (flipped n (sn_id row) s)) n [])
    else (Err not_pruned, World s n []).
Proof.
  intros Hf. rewrite has_data_count. unfold RollbackTo, bindM at 1, attempt. rewrite lift_query_row_nofault, Hf. simpl.
  unfold bindM at 1. rewrite lift_query_nofault. simpl. destruct (Nat.eqb _ 0); [done|].
  unfold bindM at 1. rewrite lift_flip_nofault. done.
Qed.

Lemma find_version d row : WF d -> In row (db_snapshot d) ->
  List.find (fun s => bool_decide (sn_version s = sn_version row)) (db_snapshot d) = Some row.
Proof.
  intros H Hin. destruct (List.find _ _) as [s|] eqn:E.
  - apply find_some in E as [Hs E]. btrue. f_equal. eapply (NoDup_key_eq sn_version); [|done|done|done].
    apply (snapshot_version_key _ _ _ _ _ _ _ _ _ (wf_routing _ H)).
  - eapply find_none in E; [|exact Hin]. btrue. done.
Qed.

Lemma calm_lift {A} (m : DB A) : Calm m -> Calm (lift m).
Proof. intros Hm w r w' E H. unfold lift in E. destruct (m _) as [r0 w0] eqn:Em. injection E as _ <-. by eapply Hm. Qed.
Lemma calm_memory f : Calm (memory f).
Proof. by intros w r w' [= _ <-]. Qed.
Ltac calm_sys := calm_with ltac:(first [apply calm_lift | apply calm_memory]).

Section Admin.
Context {cr : Crypto} {tm : TimeText} {oj : Observation.ObservationJSON} {at_ : AddrText} {ut : UuidText}
  {rj : RequestJSON} {hp : HostPort}.
Variable cfg : Server.Config.

Lemma admin_authorized next r : authorized cfg (Authorization r) = true -> admin cfg next r = next r.
Proof. unfold authorized, admin. intros H. btrue. by rewrite bool_decide_false, bool_decide_true by done. Qed.

Lemma audit_event_nofault c a ac sub s n : audit_event cfg c a ac sub (World s n []) =
  (Ok tt, World (set_sys_db (if Server.HasAudit cfg then set_audit (fun t => t ++ [AuditRow c a ac sub n]) (sys_db s) else sys_db s) s) n []).
Proof. unfold audit_event. destruct (Server.HasAudit cfg); simpl; [done|]. unfold ret. by rewrite set_sys_db_id. Qed.

(** The snapshot list is honest about rollbacks.  In a well-formed database
    whose statements do not fail, a version the list shows with data can be
    rolled back to, and the answer is 200, that version is then the only
    published one and the pointer names it; a version it shows as pruned
    cannot, the answer is 409 and nothing changes. *)
Theorem snapshot_list_honest health o r s n l w1 x :
  WF (sys_db s) -> authorized cfg (Authorization r) = true ->
  serve_read cfg health RdSnapshots (Authorization r) (World s n []) = (Ok (ReadResponse 200 (RSnapshots l)), w1) ->
  In x l ->
  let '(answer, w2) := serve cfg o (EpAdminRollback (ss_Version x)) r w1 in
  if HasData x
  then answer = Ok (Response 200 (BRolledBack (ss_Version x))) /\
       (forall row, In row (db_snapshot (sys_db (w_db w2))) -> sn_status row = Published <-> sn_version row = ss_Version x) /\
       sys_store (w_db w2) !! PointerKey = Some (OPointer (MkPointer (ss_Version x) (ObjectKeyManifest (ss_Version x)) n))
  else answer = Ok (Response 409 (BProblem "snapshot has been pruned; cannot roll back to it")) /\ w_db w2 = s.
Proof.
  intros HW Ha H Hx. unfold serve_read in H. rewrite Ha in H. unfold adminListSnapshots, bindM, attempt in H.
  rewrite lift_query_nofault in H. unfold ret in H. injection H as <- <-.
  apply in_map_iff in Hx as (row & <- & Hrow%take_In%in_rev). cbn [ss_Version HasData summary].
  simpl serve. rewrite admin_authorized by done. unfold adminRollbackSnapshot, handle, bindM at 1, attempt.
  rewrite (rollback_run _ _ _ _ (find_version _ _ HW Hrow)). destruct (has_data _ _) eqn:Ed; [|by split].
  unfold bindM at 1, invalidateManifestCache, memory. unfold bindM at 1. rewrite audit_event_nofault. unfold writeJSON, ret.
  split; [done|]. split; [|simpl; apply lookup_insert_eq].
  assert (forall row', In row' (flip_rows n (sn_id row) (db_snapshot (sys_db s))) -> sn_status row' = Published <-> sn_version row' = sn_version row) as Hp.
  { intros row' Hr. rewrite (flip_rows_only _ _ _ _ Hr). apply flip_rows_status in Hr as (r0 & Hr0 & -> & -> & _).
    split; intros E; f_equal; eapply NoDup_key_eq; [| exact Hr0 | exact Hrow | exact E | | exact Hr0 | exact Hrow | exact E];
      first [apply (id_unique _ _ _ (snapshot_pkey _ _ _ _ _ _ _ _ _ (wf_routing _ HW)))
            | apply (snapshot_version_key _ _ _ _ _ _ _ _ _ (wf_routing _ HW))]. }
  intros row'. simpl. destruct (Server.HasAudit cfg); apply Hp.
Qed.

(** ** What the audit log shows *)
(** The event an admin write leaves in the log. *)
Definition audited (e : endpoint) (r : request) : option (string * string) :=
  match e with
  | EpAdminState id => (fun sr => (("worker_state:" +:+ sr.1)%string, id)) <$> read_json (N.shiftl 1 20) decode_state r
  | EpAdminRotate id => Some ("rotation_requested"%string, id)
  | EpAdminPause => Some ("scheduler_paused"%string, ""%string)
  | EpAdminResume => Some ("scheduler_resumed"%string, ""%string)
  | EpAdminRollback version => Some ("snapshot_rollback"%string, version)
  | _ => None
  end.

Definition logged (row : audit_row) (s : sys) : sys := set_sys_db (set_audit (fun t => t ++ [row]) (sys_db s)) s.

(** A handler that does its work and then writes the event. *)
Lemma handle_logged {A} (m : SM A) bad action subject (k : A -> SM response) s n a w1 :
  Server.HasAudit cfg = true -> Calm m -> Respects (fun _ _ _ => True) m ->
  (forall e w b w', bad e w = (Ok b, w') -> 300 <= status b) ->
  (forall x s0, exists s1 b, k x (World s0 n []) = (Ok b, World (logged (AuditRow "admin" "admin" action subject n) s1) n [])) ->
  handle m bad k (World s n []) = (Ok a, w1) -> status a < 300 ->
  exists s1, w1 = World (logged (AuditRow "admin" "admin" action subject n) s1) n [].
Proof.
  intros Hau Hc Hr Hb Hk H Hst. unfold handle in H. apply bindM_Ok in H as (res & [s0 n0 f0] & E%attempt_Ok & H).
  pose proof (Hc _ _ _ E eq_refl) as Hf. destruct (Hr _ _ _ E) as [Hn _]. simpl in *. subst f0 n0.
  destruct res as [x|e]; [|apply Hb in H; lia]. destruct (Hk x s0) as (s1 & b & Ek). rewrite Ek in H.
  injection H as _ <-. eauto.
Qed.

Lemma audit_logged action subject s n : Server.HasAudit cfg = true ->
  audit_event cfg "admin" "admin" action subject (World s n []) =
    (Ok tt, World (logged (AuditRow "admin" "admin" action subject n) s) n []).
Proof. intros Hau. by rewrite audit_event_nofault, Hau. Qed.

Lemma write_logged o e r s n a w1 action subject :
  Server.HasAudit cfg = true -> serve cfg o e r (World s n []) = (Ok a, w1) -> status a < 300 ->
  audited e r = Some (action, subject) ->
  authorized cfg (Authorization r) = true /\ exists s1, w1 = World (logged (AuditRow "admin" "admin" action subject n) s1) n [].
Proof.
  intros Hau H Hst Ha.
  assert (exists next, serve cfg o e r = admin cfg next r) as [next Hs] by (destruct e; try done; eexists; reflexivity).
  destruct (authorized cfg (Authorization r)) eqn:Hok.
  2:{ rewrite Hs in H. unfold admin in H. unfold authorized in Hok. destruct (bool_decide (AdminToken cfg = _)); simpl in *;
      [|rewrite Hok in H; simpl in H]; unfold problem, ret in H; injection H as <- _; simpl in Hst; lia. }
  split; [done|]. clear Hs next.
  destruct e; try done; simpl in H; rewrite admin_authorized in H by done.
  - unfold adminSetState in H. simpl in Ha. destruct (read_json _ decode_state r) as [[st reason]|]; [|done].
    injection Ha as <- <-. eapply handle_logged in H; try done.
    + calm_sys.
    + apply (respects_lift (fun _ _ _ => True)). unfold SetState, insert_trust_event. by respects.
    + intros e0 w b w'. unfold problem, ret. destruct e0; intros [= <- _]; simpl; lia.
    + intros x s0. unfold bindM. rewrite audit_logged by done. unfold no_content, ret. eauto.
  - unfold adminRequestRotation in H. injection Ha as <- <-. eapply handle_logged in H; try done.
    + calm_sys.
    + apply (respects_lift (fun _ _ _ => True)). unfold RequestRotation. by respects.
    + intros e0 w b w'. unfold problem, ret. intros [= <- _]; simpl; lia.
    + intros x s0. unfold bindM. rewrite audit_logged by done. unfold no_content, ret. eauto.
  - unfold adminPause, bindM, memory, no_content, ret in H. rewrite audit_logged in H by done. injection Ha as <- <-. simplify_eq. eauto.
  - unfold adminPause, bindM, memory, no_content, ret in H. rewrite audit_logged in H by done. injection Ha as <- <-. simplify_eq. eauto.
  - unfold adminRollbackSnapshot in H. injection Ha as <- <-. eapply handle_logged in H; try done.
    + unfold RollbackTo, flip, SetCurrent, Put. calm_sys.
    + unfold RollbackTo, flip, SetCurrent, Put. reads; try (apply (respects_lift (fun _ _ _ => True)); by respects); done.
    + intros e0 w b w'. unfold problem, ret. intros [= <- _]; simpl; lia.
    + intros x s0. unfold bindM, invalidateManifestCache, memory. rewrite audit_logged by done. unfold writeJSON, ret. eauto.
Qed.

Lemma audit_rows_newest since limit d row : since < au_created_at row -> (0 < limit)%nat ->
  exists l, audit_rows_since since "" limit (set_audit (fun t => t ++ [row]) d) =
    MkAudit (au_category row) (au_actor row) (au_action row) (Some (au_subject row)) (au_created_at row) :: l.
Proof.
  intros Ht Hl. unfold audit_rows_since. simpl db_audit. rewrite select_app, rev_app_distr. simpl.
  rewrite (proj2 (Z.ltb_lt _ _) Ht). simpl. destruct limit as [|limit]; [lia|]. simpl. eauto.
Qed.


(** The gauges and the overview tell the same story: at one state, with no
    failing statement, the workers by state, the active assignments, the live
    leases, the queued publications and the targets of the published snapshot
    scraped from [/metrics] are those of the overview. *)
Theorem metrics_agree health auth s n : authorized cfg auth = true ->
  exists ov ms,
    serve_read cfg health RdOverview auth (World s n []) = (Ok (ReadResponse 200 (ROverview ov)), World s n []) /\
    Collect (World s n []) = (Ok ms, World s n []) /\
    (forall state k, In (MWorkers state k) ms <-> WorkersByState ov !! state = Some k) /\
    (forall k, In (MAssignments k) ms <-> k = OpenAssignments ov) /\
    (forall k, In (MLeases k) ms <-> k = LiveLeases ov) /\
    (forall k, In (MOutbox k) ms <-> k = OutboxQueued ov) /\
    (forall k, In (MSnapshotTargets k) ms <-> os_Targets <$> ov_Snapshot ov = Some k) /\
    (forall k, In (MSnapshotAge k) ms <-> (fun o => n - os_PublishedAt o) <$> ov_Snapshot ov = Some k).
Proof.
  intros Ha. do 2 eexists. split; [|split].
  - unfold serve_read. rewrite Ha. unfold adminOverview. erewrite bind_run by reflexivity.
    erewrite bind_run by (unfold attempt; rewrite lift_query_nofault; reflexivity). cbv beta iota.
    do 4 (erewrite bind_run by apply lenient_query). reflexivity.
  - unfold Collect. do 2 (erewrite bind_run by apply lenient_query). erewrite bind_run by reflexivity.
    erewrite bind_run by apply lenient_query. reflexivity.
  - cbn [WorkersByState OpenAssignments LiveLeases OutboxQueued ov_Snapshot].
    set (ws := workers_by_state (sys_db s)). set (snap := published_snapshot (sys_db s)).
    assert (forall m, In m (map (fun kv : string * Z => MWorkers kv.1 kv.2) (map_to_list ws)) <->
      exists state k, m = MWorkers state k /\ ws !! state = Some k) as Hw.
    { intros m. rewrite in_map_iff. split.
      - intros ([st k] & <- & Hin%list_elem_of_In%elem_of_map_to_list). eauto.
      - intros (st & k & -> & Hin). exists (st, k). by rewrite <- list_elem_of_In, elem_of_map_to_list. }
    split_and!; intros; rewrite !in_app_iff, Hw; simpl; destruct snap as [o|]; simpl; naive_solver.
Qed.
End Admin.

(** * Witnesses *)
Module ToyAdmin.
Import Toy ToyUpload ToyServer.
(** The system after two builds: version 9 published, version 7 pruned. *)
Definition state : sys := w_db ToySystem.day3.
Definition listed : list snapshotSummary :=
  match (serve_read toy_cfg ∅ RdSnapshots "Bearer s3cret" (World state 20 [])).1 with
  | Ok (ReadResponse _ (RSnapshots l)) => l
  | _ => []
  end.
Definition paused : result response * sysworld := serve toy_cfg toy_outside EpAdminPause toy_admin (World state 20 []).
End ToyAdmin.
Import Toy ToyUpload ToyServer ToyAdmin.

Lemma snapshot_list_honest_witness :
  map (fun x => (ss_Version x, HasData x)) listed = [("9"%string, true); ("7"%string, false)] /\
  (serve toy_cfg toy_outside (EpAdminRollback "9") toy_admin (World state 20 [])).1 = Ok (Response 200 (BRolledBack "9")).
Proof.
  assert (map (fun x => (ss_Version x, HasData x)) listed = [("9"%string, true); ("7"%string, false)]) as E by (vm_compute; reflexivity).
  split; [exact E|]. destruct listed as [|x l] eqn:El; [discriminate E|]. cbn [map] in E. injection E as E1 E2 _.
  pose proof (snapshot_list_honest toy_cfg ∅ toy_outside toy_admin state 20 listed (World state 20 []) x toy_system_WF) as H.
  rewrite E1, E2 in H. destruct (serve toy_cfg toy_outside (EpAdminRollback "9") toy_admin (World state 20 [])) as [a w2].
  apply H; [vm_compute; reflexivity | vm_compute; reflexivity | rewrite El; left; reflexivity].
Defined.


Lemma metrics_agree_witness :
  exists ov ms, Collect (World state 20 []) = (Ok ms, World state 20 []) /\
    (forall k, In (MAssignments k) ms <-> k = OpenAssignments ov).
Proof.
  destruct (metrics_agree toy_cfg ∅ "Bearer s3cret" state 20) as (ov & ms & _ & H2 & _ & H4 & _); [vm_compute; reflexivity|].
  exists ov, ms. split; [exact H2 | exact H4].
Defined.
