(* ===== verification/Console.v ===== *)
(** [cmd/vapnctl]: the operator's command line, from its arguments to the
    answer of the coordinator's admin API.

    A command is run against the coordinator of Server.v and Admin.v: the
    request line is routed by the patterns of [New], the answer is printed.
    [Console] is a run: the exit code, the lines on standard output (a line is
    its list of tab separated cells; [text/tabwriter] only pads them) and the
    coordinator afterwards.  The JSON of the request bodies and the layouts of
    times and scores are parameters; an answer reaches the command as the value
    the handler wrote. *)
From stdpp Require Import base gmap strings list pretty.
From Stdlib Require Import ZArith QArith Lia String Ascii.
From S2P Require Import Prelude Codec Netip Schema Wireauth Artifact Observation Registry Leasing Upload Server.
From S2P Require Import Trust Consensus Rollup Outbox Advisor Builder WellFormed Admin.
From S2P Require Config.
Open Scope Z_scope.

Abbreviation dash := (byte_of 45).
Abbreviation equals := (byte_of 61).

(** * Package flag *)
Inductive flag_end : Type :=
| Flags (values : gmap string string) (rest : list string)
| FlagExit (code : Z).

(** The name and the attached value of an argument, [None] when it is not a
    flag. *)
Inductive flag_word : Type := NotFlag | EndFlags | BadFlag | FlagName (name : string) (value : option string).
Definition flag_name (name : string) : flag_word :=
  match name with
  | EmptyString => BadFlag
  | String c _ =>
      if bool_decide (c = dash) || bool_decide (c = equals) then BadFlag
      else match cut equals name with Some (n, v) => FlagName n (Some v) | None => FlagName name None end
  end.
Definition flag_word_of (s : string) : flag_word :=
  match s with
  | String c0 (String c1 s') =>
      if negb (bool_decide (c0 = dash)) then NotFlag
      else if bool_decide (c1 = dash) then (if bool_decide (s' = ""%string) then EndFlags else flag_name s')
      else flag_name (String c1 s')
  | _ => NotFlag
  end.

(** [FlagSet.Parse] with [flag.ExitOnError]; [valid] is the [Set] of the named
    flag, [None] for a flag that is not defined. *)
Section Flags.
Variable valid : string -> option (string -> bool).

Definition set_flag (name value : string) (values : gmap string string) : option (gmap string string) :=
  match valid name with
  | Some ok => if ok value then Some (<[name := value]> values) else None
  | None => None
  end.
Definition undefined_exit (name : string) : Z :=
  if bool_decide (name = "help"%string) || bool_decide (name = "h"%string) then 0 else 2.

Fixpoint parse_flags (args : list string) (values : gmap string string) : flag_end :=
  match args with
  | [] => Flags values []
  | s :: rest =>
      match flag_word_of s with
      | NotFlag => Flags values args
      | EndFlags => Flags values rest
      | BadFlag => FlagExit 2
      | FlagName name attached =>
          if is_none (valid name) then FlagExit (undefined_exit name)
          else
            match attached with
            | Some v => match set_flag name v values with Some vs => parse_flags rest vs | None => FlagExit 2 end
            | None =>
                match rest with
                | [] => FlagExit 2
                | v :: rest' => match set_flag name v values with Some vs => parse_flags rest' vs | None => FlagExit 2 end
                end
            end
      end
  end.
End Flags.

(** ** [strconv.ParseInt(s, 0, 64)], of an integer flag *)
Definition digit_value (base : Z) (c : ascii) : option Z :=
  match hex_value c with Some v => if v <? base then Some v else None | None => None end.
Fixpoint digits (base : Z) (acc : Z) (l : list ascii) : option Z :=
  match l with
  | [] => Some acc
  | c :: l' => match digit_value base c with Some v => digits base (base * acc + v) l' | None => None end
  end.
Definition underscore : ascii := byte_of 95.
(** [underscoreOK] after the sign and prefix: every underscore stands between
    digits, of which the prefix counts as one. *)
Fixpoint underscores_ok (hex after_digit after_underscore : bool) (l : list ascii) : bool :=
  match l with
  | [] => negb after_underscore
  | c :: l' =>
      if bool_decide (c = underscore) then after_digit && underscores_ok hex false true l'
      else if is_some (digit_value (if hex then 16 else 10) c) then underscores_ok hex true false l'
      else negb after_underscore && underscores_ok hex false false l'
  end.
Definition int_prefix (l : list ascii) : Z * bool * list ascii :=
  match l with
  | z :: c :: l' =>
      if negb (bool_decide (z = byte_of 48)) then (10, false, l)
      else if bool_decide (c ∈ [byte_of 98; byte_of 66]) then (2, true, l')
      else if bool_decide (c ∈ [byte_of 111; byte_of 79]) then (8, true, l')
      else if bool_decide (c ∈ [byte_of 120; byte_of 88]) then (16, true, l')
      else (8, false, c :: l')
  | _ => (10, false, l)
  end.
Definition ParseInt0 (s : string) : option Z :=
  let '(neg, l) := match list_ascii_of_string s with
                   | c :: l => if bool_decide (c = dash) then (true, l) else if bool_decide (c = byte_of 43) then (false, l) else (false, c :: l)
                   | [] => (false, [])
                   end in
  match l with
  | [] => None
  | _ =>
      let '(base, named, body) := int_prefix l in
      let plain := List.filter (fun c => negb (bool_decide (c = underscore))) body in
      if negb (Nat.eqb (List.length plain) (List.length body)) &&
         negb (underscores_ok (base =? 16) (named || bool_decide (base = 8)) false body) then None
      else if bool_decide (body = []) then None
      else match digits base 0 plain with
           | Some v => let v := if neg then - v else v in if Config.in_int64 v then Some v else None
           | None => None
           end
  end.

(** * The admin API as the client sees it *)
(** Percent-decoding of a path segment. *)
Fixpoint PathUnescape (s : string) : option string :=
  match s with
  | EmptyString => Some EmptyString
  | String c s' =>
      if bool_decide (c = byte_of 37) then
        match s' with
        | String h (String l s2) =>
            match hex_value h, hex_value l, PathUnescape s2 with
            | Some h, Some l, Some r => Some (String (byte_of (16 * h + l)) r)
            | _, _, _ => None
            end
        | _ => None
        end
      else String c <$> PathUnescape s'
  end.

Definition ctl (c : ascii) : bool := (byte_val c <? 32) || (byte_val c =? 127).
Definition before (sep : ascii) (s : string) : string := match cut sep s with Some (k, _) => k | None => s end.
Definition after_sep (sep : ascii) (s : string) : string := match cut sep s with Some (_, v) => v | None => ""%string end.

(** [http.NewRequest] on an absolute path: the fragment is dropped, the rest is
    split into path segments and query.  [None]: the URL, or the request line
    made of it, is refused. *)
Definition parse_target (t : string) : option (list string * string) :=
  if existsb ctl (list_ascii_of_string t) then None
  else
    let t := before (byte_of 35) t in
    let raw := after_sep (byte_of 63) t in
    if has_byte (byte_of 32) raw then None
    else match mapM PathUnescape (split_on (byte_of 47) (before (byte_of 63) t)) with
         | Some (_ :: segments) => Some (segments, raw)
         | _ => None
         end.

(** A path the mux would redirect to its cleaned form instead of serving. *)
Definition clean_segment (s : string) : bool :=
  negb (bool_decide (s = ""%string)) && negb (bool_decide (s = "."%string)) && negb (bool_decide (s = ".."%string)).

Inductive api : Type := AWrite (e : endpoint) | ARead (e : read_endpoint).

(** The admin patterns of [New]. *)
Definition route (method : string) (segments : list string) (raw : string) : option api :=
  if negb (forallb clean_segment segments) then None
  else
    let post := bool_decide (method = "POST"%string) in
    let get := bool_decide (method = "GET"%string) in
    match segments with
    | [a; v; x] =>
        if negb (bool_decide (a = "admin"%string) && bool_decide (v = "v1"%string)) then None
        else if bool_decide (x = "workers"%string) then
          (if post then Some (AWrite EpAdminCreate) else if get then Some (AWrite EpAdminList) else None)
        else if negb get then None
        else if bool_decide (x = "overview"%string) then Some (ARead RdOverview)
        else if bool_decide (x = "snapshots"%string) then Some (ARead RdSnapshots)
        else if bool_decide (x = "audit"%string) then Some (ARead (RdAudit raw))
        else None
    | [a; v; x; y] =>
        if negb (bool_decide (a = "admin"%string) && bool_decide (v = "v1"%string)) then None
        else if bool_decide (x = "workers"%string) then (if get then Some (ARead (RdWorker y)) else None)
        else if bool_decide (x = "scheduler"%string) && post then
          (if bool_decide (y = "pause"%string) then Some (AWrite EpAdminPause)
           else if bool_decide (y = "resume"%string) then Some (AWrite EpAdminResume) else None)
        else None
    | [a; v; x; y; z] =>
        if negb (bool_decide (a = "admin"%string) && bool_decide (v = "v1"%string) && post) then None
        else if bool_decide (x = "workers"%string) then
          (if bool_decide (z = "state"%string) then Some (AWrite (EpAdminState y))
           else if bool_decide (z = "rotate-key"%string) then Some (AWrite (EpAdminRotate y)) else None)
        else if bool_decide (x = "snapshots"%string) && bool_decide (z = "rollback"%string)
        then Some (AWrite (EpAdminRollback y)) else None
    | _ => None
    end.

(** What came back: a write's answer, a read's answer, or the mux's own. *)
Inductive answer : Type :=
| FromWrite (r : response)
| FromRead (r : read_response)
| NotFound.
Definition answer_status (a : answer) : Z :=
  match a with FromWrite r => status r | FromRead r => r_status r | NotFound => 404 end.
Definition answer_detail (a : answer) : string :=
  match a with
  | FromWrite (Response _ (BProblem d)) => d
  | FromRead (ReadResponse _ (RProblem d)) => d
  | FromWrite _ | FromRead _ => ""
  | NotFound => "404 page not found"
  end.

(** What the network does with one exchange. *)
Inductive delivery : Type := Delivered | Unreachable | AnswerLost.

(** Layouts and encodings the command uses. *)
Class ConsoleText : Type := {
  marshal_create : string -> string -> string;
  marshal_state : string -> string -> string;
  marshal_empty : string;
  StatusText : Z -> string;
  local_seconds : Z -> string;
  local_rfc3339 : Z -> string;
  local_minutes : Z -> string;
  local_day_seconds : Z -> string;
  score_text : Q -> string
}.

Section Console.
Context {cr : Crypto} {tm : TimeText} {oj : Observation.ObservationJSON} {at_ : AddrText} {ut : UuidText}
  {rj : RequestJSON} {hp : HostPort} {ct : ConsoleText}.
(** The coordinator's configuration and feed health, the randomness of one
    request, the network, and the address the requests come from. *)
Variables (cfg : Server.Config) (health : gmap string feedHealth) (o : outside) (net : delivery) (remote : string).

Definition to_request (method path token : string) (body : option string) : request :=
  Request method path (AuthHeaders "" "" "" "") ("Bearer " +:+ token)%string remote (Some (default ""%string body)).

(** The coordinator's side of one exchange. *)
Definition exchange (method target token : string) (body : option string) (segments : list string) (raw : string) : SM answer :=
  match route method segments raw with
  | None => ret NotFound
  | Some (AWrite e) => let! r := serve cfg o e (to_request method target token body) in ret (FromWrite r)
  | Some (ARead e) => let! r := serve_read cfg health e ("Bearer " +:+ token)%string in ret (FromRead r)
  end.

(** [client.do]: the answer, or the error text. *)
Definition client_do (token method path : string) (body : option string) : SM (string + answer) :=
  match parse_target path with
  | None => ret (inl "invalid URL"%string)
  | Some (segments, raw) =>
      match net with
      | Unreachable => ret (inl "connection refused"%string)
      | _ =>
          let! a := exchange method path token body segments raw in
          match net with
          | AnswerLost => ret (inl "unexpected EOF"%string)
          | _ =>
              if 300 <=? answer_status a
              then ret (inl (pretty (answer_status a) +:+ " " +:+ StatusText (answer_status a) +:+ ": " +:+ answer_detail a)%string)
              else ret (inr a)
          end
      end
  end.

(** Lines on standard output, by cell. *)
Abbreviation output := (list (list string)).
Definition done_with (m : SM (string + answer)) (k : answer -> string + output) : SM (string + output) :=
  let! r := m in ret (match r with inl e => inl e | inr a => k a end).
(** [json.Unmarshal] of something else. *)
Definition undecodable : string + output := inl "json"%string.

Definition fmtTime (t : option Z) : string := match t with None => "-" | Some t => local_seconds t end.
Definition count_text (m : gmap string Z) (k : string) : string := (k +:+ "=" +:+ pretty (default 0 (m !! k)))%string.
Definition kv (m : gmap string Z) : string :=
  if bool_decide (m = ∅) then "none"
  else join "  " (map (count_text m) (sort_by string_leb (map fst (map_to_list m)))).

Definition feed_line (h : gmap string feedHealth) (name : string) : list string :=
  let f := default (MkHealth 0 None "" 0) (h !! name) in
  [("Advisor " +:+ name +:+ ":")%string;
   if 0 <? FailureStreak f then ("FAILING (" +:+ pretty (FailureStreak f) +:+ " in a row): " +:+ LastError f)%string
   else match LastSuccessAt f with
        | Some t => ("ok (last success " +:+ local_rfc3339 t +:+ ")")%string
        | None => "no pass yet"%string
        end].

Definition status_lines (ov : fleetOverview) : output :=
  [["Workers:"%string; kv (WorkersByState ov)];
   ["Versions:"%string; kv (SoftwareVersions ov)];
   ["Snapshot:"%string; match ov_Snapshot ov with
                | Some s => (os_Version s +:+ " (" +:+ pretty (os_Targets s) +:+ " targets, published "
                              +:+ local_rfc3339 (os_PublishedAt s) +:+ ")")%string
                | None => "none published"%string
                end];
   ["Assignments:"%string; (pretty (OpenAssignments ov) +:+ " open/leased, " +:+ pretty (LiveLeases ov) +:+ " live leases")%string];
   ["Outbox:"%string; (pretty (OutboxQueued ov) +:+ " queued")%string];
   ["Security (24h):"%string; kv (SecurityEvents24 ov)];
   ["Scheduler:"%string; if SchedulerPaused ov then "PAUSED"%string else "running"%string]]
  ++ map (feed_line (AdvisorSync ov)) (sort_by string_leb (map fst (map_to_list (AdvisorSync ov)))).

Definition cmdStatus (token : string) : SM (string + output) :=
  done_with (client_do token "GET" "/admin/v1/overview" None) (fun a =>
    match a with FromRead (ReadResponse _ (ROverview ov)) => inr (status_lines ov) | _ => undecodable end).

Definition worker_line (w : Worker) : list string :=
  [ID w; Name w; state_name (State w); SoftwareVersion w; fmtTime (LastHeartbeat w); StateReason w].

Definition detail_lines (d : workerDetail) : output :=
  [["ID:"%string; wd_ID d]; ["Name:"%string; wd_Name d];
   ["State:"%string; (state_name (wd_State d) +:+ match wd_StateReason d with
                        | Some r => if bool_decide (r = ""%string) then "" else " (" +:+ r +:+ ")"
                        | None => ""
                        end)%string]]
  ++ match wd_SoftwareVersion d with Some v => [["Version:"%string; v]] | None => [] end
  ++ match wd_SourceASN d with Some a => [["Source ASN:"%string; pretty a]] | None => [] end
  ++ [["Enrolled:"%string; local_seconds (wd_EnrolledAt d)]; ["Heartbeat:"%string; fmtTime (wd_LastHeartbeatAt d)];
      ["Trust:"%string; match wd_Trust d with Some t => score_text (ts_score t) | None => "not yet scored"%string end];
      ["Live leases:"%string; pretty (wd_LiveLeases d)]]
  ++ match RecentEvents d with
     | Some ((_ :: _) as l) => ["Recent trust events:"%string] ::
         map (fun e => [("  " +:+ local_minutes (ae_CreatedAt e))%string; ae_Action e; ("by " +:+ ae_Actor e)%string]) l
     | _ => []
     end.

(** A finished command: exit code and output, or an error for [die]. *)
Inductive finish : Type := Exit (code : Z) (out : output) | Die (err : string).
Definition finish_of (r : string + output) : finish := match r with inl e => Die e | inr out => Exit 0 out end.
Definition stop (f : finish) : SM finish := ret f.
Definition finishing (m : SM (string + output)) : SM finish := let! r := m in ret (finish_of r).

Definition any_text (names : list string) (name : string) : option (string -> bool) :=
  if bool_decide (name ∈ names) then Some (fun _ => true) else None.
Definition flag_value (values : gmap string string) (name : string) : string := default ""%string (values !! name).

(** The state a subcommand asks for. *)
Definition state_of (sub : string) : option string :=
  if bool_decide (sub = "approve"%string) then Some "active"%string
  else if bool_decide (sub = "suspend"%string) then Some "suspended"%string
  else if bool_decide (sub = "quarantine"%string) then Some "quarantined"%string
  else if bool_decide (sub = "retire"%string) then Some "retired"%string
  else None.

Definition cmdWorkers (token : string) (args : list string) : SM finish :=
  match args with
  | [] => stop (Die "workers: subcommand required (list|show|create|approve|suspend|quarantine|retire|rotate-key)")
  | sub :: rest =>
      if bool_decide (sub = "list"%string) then
        finishing (done_with (client_do token "GET" "/admin/v1/workers" None) (fun a =>
          match a with
          | FromWrite (Response _ (BWorkers l)) =>
              inr (["ID"; "NAME"; "STATE"; "VERSION"; "LAST HEARTBEAT"; "REASON"]%string :: map worker_line l)
          | _ => undecodable
          end))
      else if bool_decide (sub = "show"%string) then
        match rest with
        | [] => stop (Die "workers show: worker id required")
        | id :: _ =>
            finishing (done_with (client_do token "GET" ("/admin/v1/workers/" +:+ id) None) (fun a =>
              match a with FromRead (ReadResponse _ (RDetail d)) => inr (detail_lines d) | _ => undecodable end))
        end
      else if bool_decide (sub = "create"%string) then
        match parse_flags (any_text ["name"; "operator"]%string) rest ∅ with
        | FlagExit c => stop (Exit c [])
        | Flags vs _ =>
            if bool_decide (flag_value vs "name" = ""%string) then stop (Die "workers create: --name required")
            else finishing (done_with (client_do token "POST" "/admin/v1/workers"
                                (Some (marshal_create (flag_value vs "name") (flag_value vs "operator")))) (fun a =>
                   match a with
                   | FromWrite (Response _ (BCreated id tok)) =>
                       inr [["Worker ID:        " +:+ id]; ["Enrollment token: " +:+ tok]; [""];
                            ["The token is shown once and expires in 24 hours."]]%string
                   | _ => undecodable
                   end))
        end
      else match state_of sub with
      | Some state =>
          match rest with
          | [] => stop (Die ("workers " +:+ sub +:+ ": worker id required")%string)
          | id :: rest' =>
              match parse_flags (any_text ["reason"]%string) rest' ∅ with
              | FlagExit c => stop (Exit c [])
              | Flags vs _ =>
                  finishing (done_with (client_do token "POST" ("/admin/v1/workers/" +:+ id +:+ "/state")%string
                    (Some (marshal_state state (flag_value vs "reason"))))
                    (fun _ => inr [[("worker " +:+ id +:+ " → " +:+ state)%string]]))
              end
          end
      | None =>
          if bool_decide (sub = "rotate-key"%string) then
            match rest with
            | [] => stop (Die "workers rotate-key: worker id required")
            | id :: _ =>
                finishing (done_with (client_do token "POST" ("/admin/v1/workers/" +:+ id +:+ "/rotate-key")%string (Some marshal_empty))
                  (fun _ => inr [["rotation demanded; the worker rotates at its next heartbeat"%string]]))
            end
          else stop (Die ("workers: unknown subcommand " +:+ sub)%string)
      end
  end.

Definition snapshot_line (s : snapshotSummary) : list string :=
  [ss_Version s;
   match ss_Status s with Building => "building" | Published => "published" | Superseded => "superseded" | Failed => "failed" end%string;
   (pretty (ss_PrefixCountV4 s) +:+ "/" +:+ pretty (ss_PrefixCountV6 s))%string;
   fmtTime (ss_PublishedAt s);
   if HasData s then "yes"%string else "pruned"%string].

Definition cmdSnapshots (token : string) (args : list string) : SM finish :=
  match args with
  | [] => stop (Die "snapshots: subcommand required (list|rollback)")
  | sub :: rest =>
      if bool_decide (sub = "list"%string) then
        finishing (done_with (client_do token "GET" "/admin/v1/snapshots" None) (fun a =>
          match a with
          | FromRead (ReadResponse _ (RSnapshots l)) =>
              inr (["VERSION"; "STATUS"; "PREFIXES(v4/v6)"; "PUBLISHED"; "ROLLBACK?"]%string :: map snapshot_line l)
          | _ => undecodable
          end))
      else if bool_decide (sub = "rollback"%string) then
        match rest with
        | [] => stop (Die "snapshots rollback: version required")
        | version :: _ =>
            finishing (done_with (client_do token "POST" ("/admin/v1/snapshots/" +:+ version +:+ "/rollback")%string (Some marshal_empty))
              (fun _ => inr [[("published " +:+ version +:+ "; workers converge on their next heartbeat")%string]]))
        end
      else stop (Die ("snapshots: unknown subcommand " +:+ sub)%string)
  end.

Definition cmdScheduler (token : string) (args : list string) : SM finish :=
  match args with
  | sub :: _ =>
      if bool_decide (sub = "pause"%string) || bool_decide (sub = "resume"%string) then
        finishing (done_with (client_do token "POST" ("/admin/v1/scheduler/" +:+ sub)%string (Some marshal_empty)) (fun _ =>
          inr [[if bool_decide (sub = "pause"%string)
                then "scheduler paused: lease requests return empty; the fleet idles within one lease interval"
                else "scheduler resumed"]]%string))
      else stop (Die "scheduler: pause or resume required")
  | [] => stop (Die "scheduler: pause or resume required")
  end.

Definition audit_flags (name : string) : option (string -> bool) :=
  if bool_decide (name = "limit"%string) then Some (fun v => is_some (ParseInt0 v)) else any_text ["category"; "since"]%string name.
Definition limit_flag (values : gmap string string) : Z :=
  match values !! "limit"%string with Some v => default 100 (ParseInt0 v) | None => 100 end.
Definition audit_query (limit : Z) (category since : string) : string :=
  ("?limit=" +:+ pretty limit
    +:+ (if bool_decide (category = ""%string) then "" else "&category=" +:+ category)
    +:+ (if bool_decide (since = ""%string) then "" else "&since=" +:+ since))%string.

Definition audit_line (e : auditEvent) : list string :=
  [local_day_seconds (ae_CreatedAt e); ae_Category e; ae_Actor e; ae_Action e; default "-"%string (ae_Subject e)].

Definition cmdAudit (token : string) (args : list string) : SM finish :=
  match parse_flags audit_flags args ∅ with
  | FlagExit c => stop (Exit c [])
  | Flags vs _ =>
      finishing (done_with (client_do token "GET"
        ("/admin/v1/audit" +:+ audit_query (limit_flag vs) (flag_value vs "category") (flag_value vs "since"))%string None) (fun a =>
          match a with
          | FromRead (ReadResponse _ (RAudit l)) =>
              inr (["TIME"; "CATEGORY"; "ACTOR"; "ACTION"; "SUBJECT"; "DETAIL"]%string :: map audit_line l)
          | _ => undecodable
          end))
  end.

(** [main]; [env] is [os.Getenv].  Usage errors exit 2, failures exit 1. *)
Definition main (env : string -> string) (argv : list string) : SM finish :=
  match parse_flags (any_text ["url"; "token"]%string) argv ∅ with
  | FlagExit c => stop (Exit c [])
  | Flags vs args =>
      let url := default (env "VAPN_COORDINATOR_URL"%string) (vs !! "url"%string) in
      let token := default (env "VAPN_ADMIN_TOKEN"%string) (vs !! "token"%string) in
      match args with
      | [] => stop (Exit 2 [])
      | cmd :: rest =>
          if bool_decide (url = ""%string) || bool_decide (token = ""%string)
          then stop (Die "coordinator URL and admin token required (--url/--token or VAPN_COORDINATOR_URL/VAPN_ADMIN_TOKEN)")
          else if bool_decide (cmd = "status"%string) then finishing (cmdStatus token)
          else if bool_decide (cmd = "workers"%string) then cmdWorkers token rest
          else if bool_decide (cmd = "snapshots"%string) then cmdSnapshots token rest
          else if bool_decide (cmd = "scheduler"%string) then cmdScheduler token rest
          else if bool_decide (cmd = "audit"%string) then cmdAudit token rest
          else stop (Exit 2 [])
      end
  end.
Definition exit_code (f : finish) : Z := match f with Exit c _ => c | Die _ => 1 end.
End Console.

(** * Lemmas *)
(** ** Request lines *)
Definition safe (reserved : list ascii) (s : string) : bool :=
  forallb (fun c => graphic c && negb (bool_decide (c ∈ reserved))) (list_ascii_of_string s).
(** [/ ? # %]. *)
Definition path_reserved : list ascii := [byte_of 47; byte_of 63; byte_of 35; byte_of 37].
(** [# & % + ;]. *)
Definition query_reserved : list ascii := [byte_of 35; byte_of 38; byte_of 37; byte_of 43; byte_of 59].
Definition plain_segment (s : string) : Prop := safe path_reserved s = true /\ clean_segment s = true.

Lemma safe_app reserved s t : safe reserved (s +:+ t) = safe reserved s && safe reserved t.
Proof. unfold safe. by rewrite list_ascii_app, forallb_app. Qed.

Lemma safe_no_byte reserved s c : safe reserved s = true -> (c ∈ reserved \/ graphic c = false) -> has_byte c s = false.
Proof.
  intros Hs Hc. destruct (has_byte c s) eqn:E; [exfalso|done]. unfold has_byte in E. apply existsb_exists in E as (x & Hx & Ex).
  btrue. subst x. unfold safe in Hs. rewrite forallb_forall in Hs. specialize (Hs c Hx). btrue. destruct Hc; [done|congruence].
Qed.

Lemma safe_no_ctl reserved s : safe reserved s = true -> existsb ctl (list_ascii_of_string s) = false.
Proof.
  unfold safe. induction (list_ascii_of_string s) as [|c l IH]; simpl; [done|]. intros H. btrue. rewrite IH by done.
  rewrite orb_false_r. unfold ctl, graphic in *. btrue. apply orb_false_iff. rewrite Z.ltb_ge, Z.eqb_neq. lia.
Qed.

Lemma existsb_ctl_app s t : existsb ctl (list_ascii_of_string (s +:+ t)) =
  existsb ctl (list_ascii_of_string s) || existsb ctl (list_ascii_of_string t).
Proof. by rewrite list_ascii_app, existsb_app. Qed.

Lemma cut_none sep s : has_byte sep s = false -> cut sep s = None.
Proof.
  induction s as [|c s IH]; [done|]. rewrite has_byte_cons. intros H. btrue. simpl.
  rewrite (bool_decide_false (c = sep)), IH by done. done.
Qed.
Lemma before_plain sep s : has_byte sep s = false -> before sep s = s /\ after_sep sep s = ""%string.
Proof. intros H. unfold before, after_sep. by rewrite cut_none. Qed.
Lemma before_app sep s t : has_byte sep s = false ->
  before sep (s +:+ String sep "" +:+ t) = s /\ after_sep sep (s +:+ String sep "" +:+ t) = t.
Proof. intros H. unfold before, after_sep. by rewrite cut_app. Qed.

Lemma PathUnescape_plain s : has_byte (byte_of 37) s = false -> PathUnescape s = Some s.
Proof.
  induction s as [|c s IH]; [done|]. rewrite has_byte_cons. intros H. btrue. simpl. rewrite bool_decide_false by done.
  by rewrite IH.
Qed.

Lemma append_nil s : (s +:+ "")%string = s.
Proof. induction s as [|c s IH]; [done | exact (f_equal (String c) IH)]. Qed.

(** A path of plain segments is the list of its segments. *)
Fixpoint slashed (l : list string) : string :=
  match l with [] => "" | s :: l' => ("/" +:+ s +:+ slashed l')%string end.

Lemma slashed_split l : Forall (fun s => safe path_reserved s = true) l ->
  split_on (byte_of 47) (slashed l) = ""%string :: l.
Proof.
  induction 1 as [|s l Hs _ IH]; [done|]. simpl slashed.
  assert (has_byte (byte_of 47) s = false) as Hn by (apply (safe_no_byte path_reserved); [done | left; vm_compute; set_solver]).
  change ("/" +:+ s +:+ slashed l)%string with ("" +:+ String (byte_of 47) "" +:+ (s +:+ slashed l))%string.
  rewrite split_on_app. simpl app. f_equal. destruct l as [|s2 l]; [simpl; rewrite append_nil; by apply split_on_plain|].
  simpl slashed. change (s +:+ ("/" +:+ s2 +:+ slashed l))%string with (s +:+ String (byte_of 47) "" +:+ (s2 +:+ slashed l))%string.
  rewrite split_on_app, split_on_plain by done. simpl app. f_equal.
  simpl slashed in IH. change ("/" +:+ s2 +:+ slashed l)%string with ("" +:+ String (byte_of 47) "" +:+ (s2 +:+ slashed l))%string in IH.
  rewrite split_on_app in IH. by injection IH.
Qed.

Lemma slashed_safe l : Forall (fun s => safe path_reserved s = true) l ->
  safe [byte_of 63; byte_of 35; byte_of 37] (slashed l) = true.
Proof.
  induction 1 as [|s l Hs _ IH]; [done|]. simpl slashed. rewrite !safe_app, IH. rewrite andb_true_r. apply andb_true_iff. split; [done|].
  unfold safe in *. rewrite forallb_forall in *. intros c Hc. specialize (Hs c Hc). btrue. apply andb_true_iff. split; [done|].
  apply negb_true_iff, bool_decide_false. unfold path_reserved in *. set_solver.
Qed.

Lemma segments_decode l : Forall (fun s => safe path_reserved s = true) l -> mapM PathUnescape l = Some l.
Proof.
  intros Hl. apply mapM_Some. induction Hl as [|s l Hs _ IH]; constructor; [|done].
  apply PathUnescape_plain. apply (safe_no_byte path_reserved); [done|]. left. vm_compute. set_solver.
Qed.

Ltac no_byte := first [eapply safe_no_byte; [eassumption | left; set_solver] | eapply safe_no_byte; [eassumption | right; reflexivity]].

Lemma parse_slashed l : Forall (fun s => safe path_reserved s = true) l -> parse_target (slashed l) = Some (l, ""%string).
Proof.
  intros Hl. pose proof (slashed_safe l Hl) as Hs. unfold parse_target. rewrite (safe_no_ctl _ _ Hs).
  assert (has_byte (byte_of 35) (slashed l) = false) as H1 by no_byte.
  assert (has_byte (byte_of 63) (slashed l) = false) as H2 by no_byte.
  rewrite (proj1 (before_plain _ _ H1)), (proj1 (before_plain _ _ H2)), (proj2 (before_plain _ _ H2)).
  simpl has_byte. cbv iota. rewrite slashed_split by done.
  change (mapM PathUnescape (""%string :: l)) with (y ← PathUnescape ""; k ← mapM PathUnescape l; Some (y :: k)).
  by rewrite segments_decode.
Qed.

Lemma parse_slashed_query l q : Forall (fun s => safe path_reserved s = true) l -> safe [byte_of 35] q = true ->
  parse_target (slashed l +:+ "?" +:+ q) = Some (l, q).
Proof.
  intros Hl Hq. pose proof (slashed_safe l Hl) as Hs. unfold parse_target.
  rewrite !existsb_ctl_app, (safe_no_ctl _ _ Hs), (safe_no_ctl _ _ Hq). change (existsb ctl (list_ascii_of_string "?")) with false.
  cbv iota beta delta [orb].
  assert (has_byte (byte_of 35) (slashed l +:+ "?" +:+ q) = false) as H1.
  { rewrite !has_byte_app. apply orb_false_iff. split; [no_byte|]. apply orb_false_iff. split; [done|no_byte]. }
  assert (has_byte (byte_of 63) (slashed l) = false) as H2 by no_byte.
  rewrite (proj1 (before_plain _ _ H1)). change ("?" +:+ q)%string with (String (byte_of 63) "" +:+ q)%string.
  rewrite (proj1 (before_app _ _ q H2)), (proj2 (before_app _ _ q H2)).
  assert (has_byte (byte_of 32) q = false) as -> by no_byte. rewrite slashed_split by done.
  change (mapM PathUnescape (""%string :: l)) with (y ← PathUnescape ""; k ← mapM PathUnescape l; Some (y :: k)).
  by rewrite segments_decode.
Qed.

(** ** The coordinator's answers *)
Lemma lift_Err_same {A} (m : DB A) w e w' : (forall v e v', m v = (Err e, v') -> w_db v' = w_db v) ->
  lift m w = (Err e, w') -> w_db w' = w_db w.
Proof. intros Hm (dw & E & -> & _)%lift_run. rewrite (Hm _ _ _ E). apply set_sys_db_id. Qed.

Lemma SetState_Err id st reason actor w e w' : SetState id st reason actor w = (Err e, w') -> w_db w' = w_db w.
Proof. apply tx_Err. Qed.
Lemma RequestRotation_Err id w e w' : RequestRotation id w = (Err e, w') -> w_db w' = w_db w.
Proof. unfold RequestRotation. by intros [? _]%stmt_Err. Qed.
Lemma CreateWorker_Err {cr : Crypto} op name ttl raw uuid w e w' : CreateWorker op name ttl raw uuid w = (Err e, w') -> w_db w' = w_db w.
Proof. unfold CreateWorker. destruct raw; [apply tx_Err | unfold throw; congruence]. Qed.
Lemma RollbackTo_Err version s n e w' : RollbackTo version (World s n []) = (Err e, w') -> w_db w' = s.
Proof.
  destruct (List.find (fun s => bool_decide (sn_version s = version)) (db_snapshot (sys_db s))) as [row|] eqn:Ef.
  - rewrite (rollback_run _ _ _ _ Ef). destruct (has_data _ _); [done|]. by intros [= _ <-].
  - unfold RollbackTo, bindM at 1, attempt. rewrite lift_query_row_nofault, Ef. simpl. unfold throw. by intros [= _ <-].
Qed.

(** A handler that answers an error only when its call failed. *)
Lemma handle_refused {A} (m : SM A) bad (k : A -> SM response) s n a w' :
  (forall e w1, m (World s n []) = (Err e, w1) -> w_db w1 = s) ->
  (forall e w b w2, bad e w = (Ok b, w2) -> w2 = w) ->
  (forall x w b w2, k x w = (Ok b, w2) -> status b < 300) ->
  handle m bad k (World s n []) = (Ok a, w') -> 300 <= status a -> w_db w' = s.
Proof.
  intros Hm Hb Hk H Ha. unfold handle in H. apply bindM_Ok in H as (res & w1 & E%attempt_Ok & H).
  destruct res as [x|e]; [apply Hk in H; lia|]. apply Hb in H as ->. by eapply Hm.
Qed.

Definition admin_endpoint (e : endpoint) : bool :=
  match e with
  | EpAdminCreate | EpAdminList | EpAdminState _ | EpAdminRotate _ | EpAdminPause | EpAdminResume | EpAdminRollback _ => true
  | _ => false
  end.

Section Answers.
Context {cr : Crypto} {tm : TimeText} {oj : Observation.ObservationJSON} {at_ : AddrText} {ut : UuidText}
  {rj : RequestJSON} {hp : HostPort} {ct : ConsoleText}.
Variables (cfg : Server.Config) (health : gmap string feedHealth) (o : outside) (remote : string).

Lemma audit_Ok c a ac sub (k : SM response) w b w' : bindM (audit_event cfg c a ac sub) (fun _ => k) w = (Ok b, w') ->
  exists w1, k w1 = (Ok b, w').
Proof. intros (u & w1 & _ & H)%bindM_Ok. eauto. Qed.

(** An answer of 300 or more means the coordinator did nothing. *)
Lemma write_refused e r s n a w' : admin_endpoint e = true ->
  serve cfg o e r (World s n []) = (Ok a, w') -> 300 <= status a -> w_db w' = s.
Proof.
  intros He H Ha. destruct (authorized cfg (Authorization r)) eqn:Hok.
  2:{ assert (exists next, serve cfg o e r = admin cfg next r) as [next Hs] by (destruct e; try done; eexists; reflexivity).
      rewrite Hs in H. unfold admin in H. unfold authorized in Hok. destruct (bool_decide (AdminToken cfg = _)); simpl in *;
      [|rewrite Hok in H; simpl in H]; unfold problem, ret in H; by injection H as _ <-. }
  destruct e; try done; simpl in H; rewrite admin_authorized in H by done.
  - unfold adminCreateWorker in H. destruct (read_json _ decode_create r) as [[name op]|]; [|unfold problem, ret in H; by simplify_eq].
    case_bool_decide; [unfold problem, ret in H; by simplify_eq|]. eapply handle_refused in H; try done.
    + intros e w1. apply lift_Err_same. apply CreateWorker_Err.
    + intros e w b w2. unfold problem, ret. by intros [= _ <-].
    + intros x w b w2. unfold writeJSON, ret. by intros [= <- _].
  - unfold adminListWorkers in H. eapply handle_refused in H; try done.
    + intros e w b w2. unfold problem, ret. by intros [= _ <-].
    + intros x w b w2. unfold writeJSON, ret. by intros [= <- _].
  - unfold adminSetState in H. destruct (read_json _ decode_state r) as [[st reason]|]; [|unfold problem, ret in H; by simplify_eq].
    eapply handle_refused in H; try done.
    + intros e w1. apply lift_Err_same. apply SetState_Err.
    + intros e w b w2. unfold problem, ret. destruct e; by intros [= _ <-].
    + intros x w b w2 (w3 & E)%audit_Ok. unfold no_content, ret in E. by injection E as <- _.
  - unfold adminRequestRotation in H. eapply handle_refused in H; try done.
    + intros e w1. apply lift_Err_same. apply RequestRotation_Err.
    + intros e w b w2. unfold problem, ret. by intros [= _ <-].
    + intros x w b w2 (w3 & E)%audit_Ok. unfold no_content, ret in E. by injection E as <- _.
  - unfold adminPause in H. apply bindM_Ok in H as (u & w1 & _ & (w2 & E)%audit_Ok). unfold no_content, ret in E. injection E as <- _. simpl in Ha. lia.
  - unfold adminPause in H. apply bindM_Ok in H as (u & w1 & _ & (w2 & E)%audit_Ok). unfold no_content, ret in E. injection E as <- _. simpl in Ha. lia.
  - unfold adminRollbackSnapshot in H. eapply handle_refused in H; try done.
    + intros e w1. apply RollbackTo_Err.
    + intros e w b w2. unfold problem, ret. by intros [= _ <-].
    + intros x w b w2 (u & w1 & _ & (w3 & E)%audit_Ok)%bindM_Ok. unfold writeJSON, ret in E. by injection E as <- _.
Qed.

Lemma route_admin method seg raw e : route method seg raw = Some (AWrite e) -> admin_endpoint e = true.
Proof. unfold route. repeat (case_match; try done); intros; by simplify_eq. Qed.

Lemma route_get seg raw e : route "GET" seg raw = Some (AWrite e) -> e = EpAdminList.
Proof.
  unfold route. change (bool_decide ("GET"%string = "POST"%string)) with false. change (bool_decide ("GET"%string = "GET"%string)) with true.
  repeat (case_match; try done); intros; simplify_eq; try done; by rewrite ?andb_false_r in *.
Qed.

Lemma list_same r : Respects Same (serve cfg o EpAdminList r).
Proof.
  simpl. unfold admin, adminListWorkers, handle, problem, writeJSON, List_. reads.
Qed.

Abbreviation do_ := (client_do cfg health o Delivered remote).

Lemma client_refused token method path body s n err w' :
  do_ token method path body (World s n []) = (Ok (inl err), w') -> w_db w' = s.
Proof.
  unfold client_do. destruct (parse_target path) as [[seg raw]|]; [|unfold ret; by intros [= _ <-]].
  intros (a & w1 & E & H)%bindM_Ok. destruct (300 <=? answer_status a) eqn:Ea; unfold ret in H; simplify_eq. btrue.
  unfold exchange in E. destruct (route method seg raw) as [[e|e]|] eqn:Er.
  - apply bindM_Ok in E as (r & w2 & E & H). unfold ret in H. simplify_eq. simpl in Ea.
    exact (write_refused _ _ _ _ _ _ (route_admin _ _ _ _ Er) E Ea).
  - apply bindM_Ok in E as (r & w2 & E & H). unfold ret in H. simplify_eq. by apply serve_read_same in E as [_ ->].
  - unfold ret in E. by simplify_eq.
Qed.

Lemma client_get token path body s n r w' :
  do_ token "GET" path body (World s n []) = (Ok r, w') -> w_db w' = s.
Proof.
  unfold client_do. destruct (parse_target path) as [[seg raw]|]; [|unfold ret; by intros [= _ <-]].
  intros (a & w1 & E & H)%bindM_Ok. assert (w' = w1) as -> by (destruct (_ <=? _); unfold ret in H; by simplify_eq).
  unfold exchange in E. destruct (route "GET" seg raw) as [[e|e]|] eqn:Er.
  - apply route_get in Er as ->. apply bindM_Ok in E as (r1 & w2 & E & H1). unfold ret in H1. simplify_eq.
    by apply list_same in E as [_ ->].
  - apply bindM_Ok in E as (r1 & w2 & E & H1). unfold ret in H1. simplify_eq. by apply serve_read_same in E as [_ ->].
  - unfold ret in E. by simplify_eq.
Qed.

Lemma client_create token body w a w' : do_ token "POST" "/admin/v1/workers" body w = (Ok (inr a), w') ->
  exists id tok, a = FromWrite (Response 201 (BCreated id tok)).
Proof.
  unfold client_do. change (parse_target "/admin/v1/workers") with (Some (["admin"; "v1"; "workers"]%string, ""%string)).
  intros (a0 & w1 & E & H)%bindM_Ok. destruct (300 <=? answer_status a0) eqn:Ea; unfold ret in H; simplify_eq. btrue.
  change (exchange cfg health o remote "POST" "/admin/v1/workers" token body ["admin"; "v1"; "workers"]%string "")
    with (let! r := serve cfg o EpAdminCreate (to_request remote "POST" "/admin/v1/workers" token body) in ret (FromWrite r)) in E.
  apply bindM_Ok in E as (r & w2 & E & H). unfold ret in H. simplify_eq. simpl in *.
  unfold admin in E. destruct (_ || _); [unfold problem, ret in E; simplify_eq; simpl in Ea; lia|].
  unfold adminCreateWorker in E. destruct (read_json _ _ _) as [[name op]|]; [|unfold problem, ret in E; simplify_eq; simpl in Ea; lia].
  case_bool_decide; [unfold problem, ret in E; simplify_eq; simpl in Ea; lia|]. unfold handle in E.
  apply bindM_Ok in E as (res & w3 & _ & E). destruct res as [x|e]; unfold problem, writeJSON, ret in E; injection E as <- _; [eauto | simpl in Ea; lia].
Qed.

Lemma finishing_Ok (m : SM (string + answer)) k w f w' : finishing (done_with m k) w = (Ok f, w') ->
  exists r, m w = (Ok r, w') /\ f = finish_of (match r with inl e => inl e | inr a => k a end).
Proof.
  unfold finishing, done_with. intros (x & w1 & (r & w2 & Hm & H1)%bindM_Ok & H2)%bindM_Ok. unfold ret in *. simplify_eq. eauto.
Qed.

(** A command that reads. *)
Lemma reading_harmless token path body k s n f w' :
  finishing (done_with (do_ token "GET" path body) k) (World s n []) = (Ok f, w') -> w_db w' = s.
Proof. intros (r & E & _)%finishing_Ok. by apply client_get in E. Qed.

(** A command that writes, whose output never fails. *)
Lemma writing_harmless token path body (k : answer -> list (list string)) s n f w' :
  finishing (done_with (do_ token "POST" path body) (fun a => inr (k a))) (World s n []) = (Ok f, w') ->
  exit_code f <> 0 -> w_db w' = s.
Proof. intros ([e|a] & E & ->)%finishing_Ok Hf; [by apply client_refused in E | done]. Qed.

Abbreviation run := (main cfg health o Delivered remote).

Lemma stop_harmless f0 s n f w' : stop f0 (World s n []) = (Ok f, w') -> w_db w' = s.
Proof. unfold stop, ret. by intros [= _ <-]. Qed.

(** C30: A command that fails did nothing.  Whatever the arguments and the
    environment, when the coordinator is reachable and its statements do not
    fail, a run that exits with a code other than 0 (a usage error, a refused
    token, an unknown worker, an illegal transition, a pruned snapshot) leaves
    the coordinator exactly as it was. *)
Theorem failed_command_harmless env argv s n f w' :
  run env argv (World s n []) = (Ok f, w') -> exit_code f <> 0 -> w_db w' = s.
Proof.
  intros H Hf. unfold main in H. destruct (parse_flags _ argv ∅) as [vs args|c]; [|by eapply stop_harmless].
  destruct args as [|cmd rest]; [by eapply stop_harmless|]. destruct (_ || _); [by eapply stop_harmless|].
  destruct (bool_decide (cmd = "status"%string)); [by eapply reading_harmless|].
  destruct (bool_decide (cmd = "workers"%string)).
  { unfold cmdWorkers in H. destruct rest as [|sub rest]; [by eapply stop_harmless|].
    destruct (bool_decide (sub = "list"%string)); [by eapply reading_harmless|].
    destruct (bool_decide (sub = "show"%string)); [destruct rest; [by eapply stop_harmless | by eapply reading_harmless]|].
    destruct (bool_decide (sub = "create"%string)).
    - destruct (parse_flags _ rest ∅) as [vs2 r2|c]; [|by eapply stop_harmless].
      destruct (bool_decide (flag_value vs2 "name" = _)); [by eapply stop_harmless|].
      apply finishing_Ok in H as ([e|a] & E & ->); [by apply client_refused in E|].
      apply client_create in E as (id & tok & ->). done.
    - destruct (state_of sub) as [state|].
      + destruct rest as [|id rest]; [by eapply stop_harmless|]. destruct (parse_flags _ rest ∅); [|by eapply stop_harmless].
        exact (writing_harmless _ _ _ (fun _ => _) _ _ _ _ H Hf).
      + destruct (bool_decide (sub = "rotate-key"%string)); [|by eapply stop_harmless].
        destruct rest as [|id rest]; [by eapply stop_harmless | exact (writing_harmless _ _ _ (fun _ => _) _ _ _ _ H Hf)]. }
  destruct (bool_decide (cmd = "snapshots"%string)).
  { unfold cmdSnapshots in H. destruct rest as [|sub rest]; [by eapply stop_harmless|].
    destruct (bool_decide (sub = "list"%string)); [by eapply reading_harmless|].
    destruct (bool_decide (sub = "rollback"%string)); [|by eapply stop_harmless].
    destruct rest; [by eapply stop_harmless | exact (writing_harmless _ _ _ (fun _ => _) _ _ _ _ H Hf)]. }
  destruct (bool_decide (cmd = "scheduler"%string)).
  { unfold cmdScheduler in H. destruct rest as [|sub rest]; [by eapply stop_harmless|].
    destruct (_ || _); [exact (writing_harmless _ _ _ (fun _ => _) _ _ _ _ H Hf) | by eapply stop_harmless]. }
  destruct (bool_decide (cmd = "audit"%string)); [|by eapply stop_harmless].
  unfold cmdAudit in H. destruct (parse_flags _ rest ∅); [by eapply reading_harmless | by eapply stop_harmless].
Qed.

(** ** What a successful command did *)
Lemma exchange_ok token method path body segments e w a w' :
  parse_target path = Some (segments, ""%string) -> route method segments "" = Some (AWrite e) ->
  do_ token method path body w = (Ok (inr a), w') ->
  exists r, a = FromWrite r /\ status r < 300 /\ serve cfg o e (to_request remote method path token body) w = (Ok r, w').
Proof.
  intros Hp Hr. unfold client_do. rewrite Hp. intros (a0 & w1 & E & H)%bindM_Ok.
  destruct (300 <=? answer_status a0) eqn:Ea; unfold ret in H; simplify_eq. btrue.
  unfold exchange in E. rewrite Hr in E. apply bindM_Ok in E as (r & w2 & E & H). unfold ret in H. simplify_eq. eauto.
Qed.

(** The worker is in state [new] for reason [reason]. *)
Definition in_state (id : string) (new : worker_state) (reason : string) (s : sys) : Prop :=
  exists r, db_worker (sys_db s) !! id = Some r /\ w_state r = new /\ w_reason r = Some reason.

Lemma audit_keeps c a ac sub w u w' : audit_event cfg c a ac sub w = (Ok u, w') ->
  db_worker (sys_db (w_db w')) = db_worker (sys_db (w_db w)) /\ sys_paused (w_db w') = sys_paused (w_db w).
Proof.
  unfold audit_event. destruct (Server.HasAudit cfg); [|unfold ret; by intros [= <- <-]].
  intros (r & w1 & E%attempt_Ok & H)%bindM_Ok. unfold ret in H. simplify_eq.
  apply lift_run in E as (dw & E & -> & _). simpl. destruct r as [x|e].
  - apply exec_Ok in E as [-> _]. done.
  - apply stmt_Err in E as [-> _]. done.
Qed.

Lemma set_state_answer id r st reason w b w' :
  read_json (N.shiftl 1 20) decode_state r = Some (st, reason) ->
  serve cfg o (EpAdminState id) r w = (Ok b, w') -> status b < 300 ->
  exists r0 new, db_worker (sys_db (w_db w)) !! id = Some r0 /\ allowed (w_state r0) st = Some new /\
    in_state id new reason (w_db w').
Proof.
  intros Hj H Hb. simpl in H. unfold admin in H. destruct (_ || _); [unfold problem, ret in H; simplify_eq; simpl in Hb; lia|].
  unfold adminSetState in H. rewrite Hj in H. unfold handle in H. apply bindM_Ok in H as (res & w1 & E%attempt_Ok & H).
  destruct res as [u|e]; [|destruct e; unfold problem, ret in H; simplify_eq; simpl in Hb; lia].
  apply bindM_Ok in H as (u2 & w2 & [Ew _]%audit_keeps & H). unfold no_content, ret in H. injection H as <- <-.
  apply lift_run in E as (dw & (r0 & new & Hr & Ha & _ & Ed)%SetState_Ok & Ew1 & _). simpl in *.
  exists r0, new. split_and!; [done | done |]. unfold in_state. rewrite Ew, Ew1. simpl. rewrite Ed. unfold set_state_db.
  destruct (bool_decide (new = Retired)); simpl; rewrite lookup_alter_eq, Hr; simpl; eauto.
Qed.
End Answers.

(** The JSON of a state change decodes to what was encoded. *)
Class ConsoleLaws {rj : RequestJSON} {ct : ConsoleText} : Prop :=
  state_roundtrip : forall st reason, decode_state (marshal_state st reason) = Some (st, reason).

(** ** Audit queries *)
Lemma QueryUnescape_plain s : has_byte (byte_of 37) s = false -> has_byte (byte_of 43) s = false -> QueryUnescape s = Some s.
Proof.
  induction s as [|c s IH]; [done|]. rewrite !has_byte_cons. intros H1 H2. btrue. simpl.
  rewrite (bool_decide_false (c = byte_of 37)), (bool_decide_false (c = byte_of 43)) by done. by rewrite IH.
Qed.

Lemma parse_pair_plain k v : safe query_reserved k = true -> has_byte equals k = false -> k <> ""%string ->
  safe query_reserved v = true -> parse_pair (k +:+ "=" +:+ v) = Some (k, v).
Proof.
  intros Hk He Hne Hv. unfold parse_pair. change ("=" +:+ v)%string with (String equals "" +:+ v)%string.
  rewrite !has_byte_app, cut_app by done.
  assert (forall c, c ∈ query_reserved -> has_byte c k = false /\ has_byte c v = false) as Hb.
  { intros c Hc. split; by eapply safe_no_byte; [|left]. }
  destruct (Hb (byte_of 59)) as [H1 H2]; [unfold query_reserved; set_solver|]. rewrite H1, H2. simpl.
  rewrite bool_decide_false by (destruct k; [done|discriminate]).
  destruct (Hb (byte_of 37)) as [H3 H4]; [unfold query_reserved; set_solver|].
  destruct (Hb (byte_of 43)) as [H5 H6]; [unfold query_reserved; set_solver|].
  by rewrite !QueryUnescape_plain.
Qed.

Definition limit_ok (z : Z) : bool :=
  (z =? 0) || (safe query_reserved (pretty z) && bool_decide (Config.Atoi (pretty z) = Some z) && bool_decide (ParseInt0 (pretty z) = Some z)).
Lemma limits_ok z : 1 <= z <= 1000 -> safe query_reserved (pretty z) = true /\ Config.Atoi (pretty z) = Some z /\ ParseInt0 (pretty z) = Some z.
Proof.
  intros Hz. assert (limit_ok z = true) as H.
  { apply (forall_below 1001 limit_ok); [vm_compute; reflexivity | simpl; lia]. }
  unfold limit_ok in H. rewrite (proj2 (Z.eqb_neq z 0)) in H by lia. simpl in H. btrue. done.
Qed.

Lemma safe_weaken (r1 r2 : list ascii) s : r1 ⊆ r2 -> safe r2 s = true -> safe r1 s = true.
Proof.
  intros Hr. unfold safe. rewrite !forallb_forall. intros H c Hc. specialize (H c Hc). btrue. apply andb_true_iff.
  split; [done|]. apply negb_true_iff, bool_decide_false. set_solver.
Qed.

(** The pairs of an audit query. *)
Definition audit_pairs (limit : Z) (category since : string) : list (string * string) :=
  [("limit"%string, pretty limit)]
  ++ (if bool_decide (category = ""%string) then [] else [("category"%string, category)])
  ++ (if bool_decide (since = ""%string) then [] else [("since"%string, since)]).

Lemma audit_query_pairs limit category since :
  1 <= limit <= 1000 -> safe query_reserved category = true -> safe query_reserved since = true ->
  exists raw, audit_query limit category since = ("?" +:+ raw)%string /\ safe [byte_of 35] raw = true /\
    ParseQuery raw = audit_pairs limit category since.
Proof.
  intros Hl Hc Hs. destruct (limits_ok limit Hl) as (Hsafe & _ & _).
  assert (forall s, safe query_reserved s = true -> safe [byte_of 35] s = true) as Hw.
  { intros s0. apply safe_weaken. unfold query_reserved. set_solver. }
  assert (forall s, safe query_reserved s = true -> has_byte (byte_of 38) s = false) as Hamp.
  { intros s0 H0. eapply safe_no_byte; [exact H0|]. left. unfold query_reserved. set_solver. }
  exists (("limit=" +:+ pretty limit) +:+ (if bool_decide (category = ""%string) then "" else "&category=" +:+ category)
    +:+ (if bool_decide (since = ""%string) then "" else "&since=" +:+ since))%string. split; [reflexivity|].
  unfold ParseQuery, audit_pairs.
  assert (parse_pair ("limit=" +:+ pretty limit)%string = Some ("limit"%string, pretty limit)) as P1.
  { by apply (parse_pair_plain "limit"). }
  assert (parse_pair ("category=" +:+ category)%string = Some ("category"%string, category)) as P2.
  { by apply (parse_pair_plain "category"). }
  assert (parse_pair ("since=" +:+ since)%string = Some ("since"%string, since)) as P3.
  { by apply (parse_pair_plain "since"). }
  assert (has_byte (byte_of 38) ("limit=" +:+ pretty limit)%string = false) as A1 by (rewrite has_byte_app, (Hamp _ Hsafe); done).
  assert (has_byte (byte_of 38) ("category=" +:+ category)%string = false) as A2 by (rewrite has_byte_app, (Hamp _ Hc); done).
  assert (has_byte (byte_of 38) ("since=" +:+ since)%string = false) as A3 by (rewrite has_byte_app, (Hamp _ Hs); done).
  assert (forall s t, split_on (byte_of 38) (s +:+ ("&" +:+ t))%string = split_on (byte_of 38) s ++ split_on (byte_of 38) t) as Hsp.
  { intros s0 t0. apply (split_on_app (byte_of 38)). }
  split.
  - rewrite !safe_app, (Hw _ Hsafe). destruct (bool_decide (category = _)), (bool_decide (since = _)); simpl;
      rewrite ?safe_app, ?(Hw _ Hc), ?(Hw _ Hs); reflexivity.
  - destruct (bool_decide (category = _)), (bool_decide (since = _)).
    + rewrite append_nil, split_on_plain by done. simpl. by rewrite P1.
    + change ("" +:+ "&since=" +:+ since)%string with ("&" +:+ ("since=" +:+ since))%string. rewrite Hsp, !split_on_plain by done.
      simpl. by rewrite P1, P3.
    + rewrite append_nil. change ("&category=" +:+ category)%string with ("&" +:+ ("category=" +:+ category))%string.
      rewrite Hsp, !split_on_plain by done. simpl. by rewrite P1, P2.
    + change (("&category=" +:+ category) +:+ "&since=" +:+ since)%string
        with ("&" +:+ (("category=" +:+ category) +:+ ("&" +:+ ("since=" +:+ since))))%string.
      rewrite !Hsp, !split_on_plain by done. simpl. by rewrite P1, P2, P3.
Qed.

Lemma audit_flags_read limit category since : 1 <= limit <= 1000 ->
  exists vs, parse_flags audit_flags ["--limit"; pretty limit; "--category"; category; "--since"; since]%string ∅ = Flags vs [] /\
    limit_flag vs = limit /\ flag_value vs "category" = category /\ flag_value vs "since" = since.
Proof.
  intros Hl. destruct (limits_ok limit Hl) as (_ & _ & Hp).
  exists (<["since"%string := since]> (<["category"%string := category]> (<["limit"%string := pretty limit]> ∅))).
  split_and!.
  - simpl parse_flags. change (flag_word_of "--limit") with (FlagName "limit" None). cbv iota.
    assert (set_flag audit_flags "limit" (pretty limit) ∅ = Some (<["limit"%string := pretty limit]> ∅)) as Hset.
    { change (set_flag audit_flags "limit" (pretty limit) ∅)
        with (if is_some (ParseInt0 (pretty limit)) then Some (<["limit"%string := pretty limit]> (∅ : gmap string string)) else None).
      by rewrite Hp. }
    change (is_none (audit_flags "limit")) with false. cbv iota. rewrite Hset. reflexivity.
  - unfold limit_flag. rewrite !lookup_insert_ne, lookup_insert_eq, Hp by done. done.
  - unfold flag_value. by rewrite lookup_insert_ne, lookup_insert_eq.
  - unfold flag_value. by rewrite lookup_insert_eq.
Qed.

Lemma audit_pairs_get limit category since raw : ParseQuery raw = audit_pairs limit category since ->
  query_get raw "limit" = pretty limit /\ query_get raw "category" = category /\ query_get raw "since" = since.
Proof.
  intros H. unfold query_get. rewrite H. unfold audit_pairs.
  destruct (bool_decide (category = ""%string)) eqn:E1, (bool_decide (since = ""%string)) eqn:E2; btrue; subst; done.
Qed.

Section Effects.
Context {cr : Crypto} {tm : TimeText} {oj : Observation.ObservationJSON} {at_ : AddrText} {ut : UuidText}
  {rj : RequestJSON} {hp : HostPort} {ct : ConsoleText}.
Variables (cfg : Server.Config) (health : gmap string feedHealth) (o : outside) (remote : string).
Variable env : string -> string.
Hypothesis Hurl : env "VAPN_COORDINATOR_URL"%string <> ""%string.
Hypothesis Htok : env "VAPN_ADMIN_TOKEN"%string <> ""%string.

Lemma allowed_name s st new : allowed s st = Some new -> state_name new = st.
Proof. unfold allowed. intros [_ H]%find_some. by btrue. Qed.

(** The arguments of a state change reach the request. *)
Lemma state_command token sub st id reason : state_of sub = Some st ->
  cmdWorkers cfg health o Delivered remote token [sub; id; "--reason"; reason]%string =
  finishing (done_with (client_do cfg health o Delivered remote token "POST" ("/admin/v1/workers/" +:+ id +:+ "/state")%string
    (Some (marshal_state st reason))) (fun _ => inr [[("worker " +:+ id +:+ " → " +:+ st)%string]])).
Proof.
  intros Hst. unfold cmdWorkers. rewrite Hst.
  rewrite !bool_decide_false by (intros ->; discriminate Hst).
  change (parse_flags (any_text ["reason"]%string) ["--reason"; reason]%string ∅)
    with (Flags (<["reason"%string := reason]> ∅) []). cbv iota.
  unfold flag_value. by rewrite lookup_insert_eq.
Qed.

Lemma main_command cmd rest :
  flag_word_of cmd = NotFlag ->
  main cfg health o Delivered remote env (cmd :: rest) =
    let token := env "VAPN_ADMIN_TOKEN"%string in
    if bool_decide (cmd = "status"%string) then finishing (cmdStatus cfg health o Delivered remote token)
    else if bool_decide (cmd = "workers"%string) then cmdWorkers cfg health o Delivered remote token rest
    else if bool_decide (cmd = "snapshots"%string) then cmdSnapshots cfg health o Delivered remote token rest
    else if bool_decide (cmd = "scheduler"%string) then cmdScheduler cfg health o Delivered remote token rest
    else if bool_decide (cmd = "audit"%string) then cmdAudit cfg health o Delivered remote token rest
    else stop (Exit 2 []).
Proof using Hurl Htok.
  intros Hc. unfold main. simpl parse_flags. rewrite Hc, !lookup_empty. simpl default.
  by rewrite (bool_decide_false _ Hurl), (bool_decide_false _ Htok).
Qed.


(** An audit query returns what was asked for.  With the admin token, a
    limit between 1 and 1000 and a category and a lower bound free of the
    characters a query string reserves, [vapnctl audit --limit N --category C
    --since T] prints exactly the newest N events of that category after that
    time (a day ago when T is empty or not RFC 3339), and changes nothing. *)
Theorem audit_command_exact limit category since s n :
  AdminToken cfg = env "VAPN_ADMIN_TOKEN"%string -> 1 <= limit <= 1000 ->
  safe query_reserved category = true -> safe query_reserved since = true ->
  main cfg health o Delivered remote env ["audit"; "--limit"; pretty limit; "--category"; category; "--since"; since]%string (World s n []) =
  (Ok (Exit 0 (["TIME"; "CATEGORY"; "ACTOR"; "ACTION"; "SUBJECT"; "DETAIL"]%string ::
     map audit_line (audit_rows_since (default (n - 24 * Hour) (Parse_RFC3339 since)) category (Z.to_nat limit) (sys_db s)))),
   World s n []).
Proof using Hurl Htok.
  intros Ht Hl Hc Hs. rewrite main_command by done. cbv zeta.
  set (token := env "VAPN_ADMIN_TOKEN"%string) in *.
  match goal with |- ?lhs _ = _ => change (lhs) with (cmdAudit cfg health o Delivered remote token
    ["--limit"; pretty limit; "--category"; category; "--since"; since]%string) end.
  unfold cmdAudit. destruct (audit_flags_read limit category since Hl) as (vs & -> & -> & -> & ->).
  destruct (audit_query_pairs limit category since Hl Hc Hs) as (raw & -> & Hraw & Hpq).
  destruct (audit_pairs_get _ _ _ _ Hpq) as (G1 & G2 & G3).
  assert (parse_target ("/admin/v1/audit" +:+ "?" +:+ raw)%string = Some (["admin"; "v1"; "audit"]%string, raw)) as Hp.
  { apply (parse_slashed_query ["admin"; "v1"; "audit"]%string); [repeat constructor; done | done]. }
  unfold finishing, done_with, client_do. rewrite Hp. unfold exchange.
  change (route "GET" ["admin"; "v1"; "audit"]%string raw) with (Some (ARead (RdAudit raw))). cbv iota.
  assert (serve_read cfg health (RdAudit raw) ("Bearer " +:+ token)%string (World s n []) =
    (Ok (ReadResponse 200 (RAudit (audit_rows_since (default (n - 24 * Hour) (Parse_RFC3339 since)) category (Z.to_nat limit) (sys_db s)))),
     World s n [])) as E.
  { unfold serve_read, authorized. rewrite Ht. rewrite bool_decide_false, bool_decide_true by done. simpl.
    unfold adminAudit, bindM, clock, attempt. rewrite lift_query_nofault. cbn [w_now]. unfold audit_since, audit_limit.
    rewrite G1, G2, G3. destruct (limits_ok limit Hl) as (_ & -> & _).
    rewrite (proj2 (Z.ltb_lt 0 limit)), (proj2 (Z.leb_le limit 1000)) by lia. done. }
  unfold bindM. rewrite E. done.
Qed.
End Effects.

(** A lower bound with an offset east of Greenwich is not escaped: the server
    reads a space for the plus sign. *)
Example plus_becomes_space :
  query_get "limit=100&since=2026-01-01T00:00:00+02:00" "since" = "2026-01-01T00:00:00 02:00"%string.
Proof. reflexivity. Qed.

(** A limit over 1000 is not capped, it falls back to 100. *)
Example limit_falls_back : audit_limit "limit=1001" = 100 /\ audit_limit "limit=1000" = 1000.
Proof. split; reflexivity. Qed.

(** * Witnesses *)
Module ToyConsole.
Import Toy ToyUpload.
Definition bit0 : ascii := byte_of 48.
Definition bit1 : ascii := byte_of 49.
Fixpoint enc (st reason : string) : string :=
  match st with EmptyString => String bit0 reason | String c s => String bit1 (String c (enc s reason)) end.
Fixpoint dec (s : string) : option (string * string) :=
  match s with
  | String b (String c r as r0) =>
      if bool_decide (b = bit0) then Some (""%string, r0)
      else (fun p => (String c p.1, p.2)) <$> dec r
  | String b EmptyString => if bool_decide (b = bit0) then Some (""%string, ""%string) else None
  | EmptyString => None
  end.
Lemma dec_enc st reason : dec (enc st reason) = Some (st, reason).
Proof. induction st as [|c st IH]; [by destruct reason|]. simpl. by rewrite IH. Qed.

#[export] Instance toy_requests : RequestJSON := {|
  decode_register _ := None; decode_heartbeat s := Some s; decode_lease _ := None;
  decode_release _ := Some []; decode_upload _ := None; decode_rotate _ := None;
  decode_create := dec; decode_state := dec
|}.
#[export] Instance toy_hostport : HostPort := {| SplitHostPort _ := None |}.
#[export] Instance toy_text : ConsoleText := {|
  marshal_create := enc; marshal_state := enc; marshal_empty := "{}"; StatusText _ := "status"; local_seconds := pretty;
  local_rfc3339 := pretty; local_minutes := pretty; local_day_seconds := pretty; score_text _ := "0.500"
|}.
#[export] Instance toy_laws : ConsoleLaws := dec_enc.

Definition env (k : string) : string := "s3cret".
Definition state : sys := Sys restart_db ∅ false None 0.
Definition run (argv : list string) : result finish * sysworld :=
  main ToyServer.toy_cfg ∅ ToyServer.toy_outside Delivered "198.51.100.1:5" env argv (World state 100 []).
Definition retired := run ["workers"; "retire"; "w1"; "--reason"; "gone"]%string.
Definition refused := run ["workers"; "quarantine"; "w1"; "--reason"; "odd"]%string.
End ToyConsole.
Import Toy ToyUpload ToyConsole.

Lemma failed_command_harmless_witness :
  (exists e, refused.1 = Ok (Die e)) /\ w_db refused.2 = ToyConsole.state.
Proof.
  assert (exists e, refused.1 = Ok (Die e)) as [e E] by (vm_compute; eexists; reflexivity). split; [exists e; exact E|].
  eapply (failed_command_harmless ToyServer.toy_cfg ∅ ToyServer.toy_outside "198.51.100.1:5" env
    ["workers"; "quarantine"; "w1"; "--reason"; "odd"]%string ToyConsole.state 100 (Die e)); [|discriminate].
  rewrite <- E. apply surjective_pairing.
Defined.


Lemma audit_command_exact_witness :
  (main ToyServer.toy_cfg ∅ ToyServer.toy_outside Delivered "198.51.100.1:5" env
    ["audit"; "--limit"; "7"; "--category"; "admin"; "--since"; "3"]%string (World (w_db retired.2) 200 [])).1 =
  Ok (Exit 0 [["TIME"; "CATEGORY"; "ACTOR"; "ACTION"; "SUBJECT"; "DETAIL"];
              ["100"; "admin"; "admin"; "worker_state:retired"; "w1"]]%string).
Proof.
  change "7"%string with (pretty 7).
  rewrite (audit_command_exact ToyServer.toy_cfg ∅ ToyServer.toy_outside "198.51.100.1:5" env ltac:(discriminate) ltac:(discriminate)
    7 "admin" "3" (w_db retired.2) 200); [vm_compute; reflexivity | reflexivity | split; discriminate | reflexivity | reflexivity].
Defined.
