(* ===== verification/Ticker.v ===== *)
(** [time.Ticker] and the loops that wait on one: [for { select { case
    <-ctx.Done(): ...; case <-ticker.C: pass } }], as they appear in
    [internal/scheduler], [internal/trust], [internal/aggregate],
    [internal/publisher], [internal/coordinator] and [internal/worker].

    A goroutine is its tickers and the time at which it is back at its
    [select]; a pass that starts at [at_] and ends at [fin] is one [turn].
    Which ready case a [select] takes, how late the runtime wakes a goroutine
    and how long a pass takes are inputs, so the theorems cover them all. *)
From stdpp Require Import base list option.
From Stdlib Require Import ZArith Lia.
From S2P Require Import Prelude.
Open Scope Z_scope.

(** * Tickers *)
(** The channel holds one tick; [tk_next] is when the oldest tick that was not
    received yet fires. *)
Record ticker : Type := Ticker { tk_period : Z; tk_next : Z }.

(** [time.NewTicker] panics ([None]) unless the period is positive. *)
Definition NewTicker (d now : Z) : option ticker := if d <=? 0 then None else Some (Ticker d (now + d)).

(** A receive at [at_]: not before the tick fired.  Ticks that fire while one
    is waiting in the channel are dropped, and the deadlines stay on the grid
    of the first one, so the next is the first grid point after the receive. *)
Definition receive (at_ : Z) (tk : ticker) : option ticker :=
  if at_ <? tk_next tk then None
  else Some (Ticker (tk_period tk) (tk_next tk + tk_period tk * (1 + (at_ - tk_next tk) / tk_period tk))).

(** The zero [time.Time], in nanoseconds of the Unix epoch. *)
Definition zero_time : Z := - 62135596800 * Second.
(** [Time.Truncate]: rounds down to a multiple of [d] since the zero time. *)
Definition Truncate (t d : Z) : Z := if d <=? 0 then t else t - (t - zero_time) mod d.

(** * Goroutines *)
(** [g_first]: the pass before the first [select] is still to come. *)
Record goroutine : Type := Goroutine { g_first : bool; g_free : Z; g_tickers : list ticker }.

(** [go func() { ticker := time.NewTicker(...) ... }] at [now]. *)
Definition spawn (first : bool) (periods : list Z) (now : Z) : option goroutine :=
  Goroutine first now <$> mapM (fun d => NewTicker d now) periods.

(** A pass from [at_] to [fin]: the one before the first [select], or the one
    of the [select]'s case on the [i]-th ticker. *)
Definition turn (i : nat) (at_ fin : Z) (g : goroutine) : option goroutine :=
  if (at_ <? g_free g) || (fin <? at_) then None
  else if g_first g then Some (Goroutine false fin (g_tickers g))
  else tk ← g_tickers g !! i; tk' ← receive at_ tk; Some (Goroutine false fin (<[i := tk']> (g_tickers g))).

(** A call that starts at [p_at], ends at [p_fin] and meets the faults
    [p_faults]. *)
Record pass : Type := Pass { p_at : Z; p_fin : Z; p_faults : list bool }.

(** Successive passes of a loop over a single ticker. *)
Fixpoint turns (passes : list (Z * Z)) (g : goroutine) : option goroutine :=
  match passes with
  | [] => Some g
  | (at_, fin) :: passes' => g' ← turn 0 at_ fin g; turns passes' g'
  end.

(** * Lemmas *)
(** Take a step that was accepted apart. *)
Ltac accepted H :=
  repeat match type of H with
  | mbind _ _ = Some _ => let E := fresh "E" in apply bind_Some in H as (? & E & H)
  | (if ?b then None else _) = Some _ => let E := fresh "E" in destruct b eqn:E; [discriminate H|]
  | (let (_, _) := ?x in _) = Some _ => let E := fresh "E" in destruct x eqn:E
  | Some _ = Some _ => injection H as <-
  end.

Lemma receive_Some at_ tk tk' : 0 < tk_period tk -> receive at_ tk = Some tk' ->
  tk_next tk <= at_ /\ tk_period tk' = tk_period tk /\ at_ < tk_next tk' <= at_ + tk_period tk /\
  tk_next tk + tk_period tk <= tk_next tk' /\ (tk_next tk' - tk_next tk) mod tk_period tk = 0.
Proof.
  unfold receive. intros HP H. destruct (Z.ltb_spec at_ (tk_next tk)) as [|Hle]; [done|]. injection H as <-. simpl.
  set (P := tk_period tk) in *. set (q := (at_ - tk_next tk) / P).
  pose proof (Z.div_mod (at_ - tk_next tk) P ltac:(lia)) as Hd. pose proof (Z.mod_pos_bound (at_ - tk_next tk) P HP) as Hb.
  assert (0 <= q) as Hq by (apply Z.div_pos; lia). fold q in Hd.
  split_and!; try done; try nia.
  replace (tk_next tk + P * (1 + q) - tk_next tk) with ((1 + q) * P) by ring. apply Z_mod_mult.
Qed.

Lemma receive_enabled at_ tk : tk_next tk <= at_ -> is_Some (receive at_ tk).
Proof. unfold receive. intros H. destruct (Z.ltb_spec at_ (tk_next tk)); [lia|eauto]. Qed.

(** The first boundary of the windows of length [d] after [t]. *)
Lemma Truncate_spec t d : 0 < d -> Truncate t d <= t < Truncate t d + d /\ (Truncate t d - zero_time) mod d = 0.
Proof.
  intros Hd. unfold Truncate. destruct (Z.leb_spec d 0); [lia|].
  pose proof (Z.mod_pos_bound (t - zero_time) d Hd). split; [lia|].
  pose proof (Z.div_mod (t - zero_time) d ltac:(lia)) as E.
  replace (t - (t - zero_time) mod d - zero_time) with ((t - zero_time) / d * d) by lia. apply Z_mod_mult.
Qed.

Lemma Truncate_unique t d s : 0 < d -> s <= t < s + d -> (s - zero_time) mod d = 0 -> Truncate t d = s.
Proof.
  intros Hd Hs Hm. destruct (Truncate_spec t d Hd) as [Hb Hm']. set (u := Truncate t d) in *.
  apply Z.mod_divide in Hm as [k Hk]; [|lia]. apply Z.mod_divide in Hm' as [k' Hk']; [|lia].
  assert (k = k') by nia. nia.
Qed.

(** A goroutine past its first pass that loops over one ticker. *)
Definition one_ticker (P : Z) (tk : ticker) (g : goroutine) : Prop :=
  g_tickers g = [tk] /\ tk_period tk = P.

Lemma turn_one P tk g at_ fin g' : 0 < P -> one_ticker P tk g -> turn 0 at_ fin g = Some g' ->
  g_free g <= at_ <= fin /\ g_first g' = false /\ g_free g' = fin /\
  exists tk', one_ticker P tk' g' /\
    if g_first g then tk' = tk else tk_next tk <= at_ /\ at_ < tk_next tk' <= at_ + P /\ tk_next tk + P <= tk_next tk'.
Proof.
  intros HP [Ht HPk] H. unfold turn in H.
  destruct (Z.ltb_spec at_ (g_free g)); [done|]. destruct (Z.ltb_spec fin at_); [done|]. cbn [orb] in H.
  destruct (g_first g); [injection H as <-; split_and!; [lia|lia|done..|]; exists tk; done|].
  rewrite Ht in H. simpl in H. destruct (receive at_ tk) as [tk'|] eqn:E; [|done]. injection H as <-.
  apply receive_Some in E as (? & ? & ? & ? & _); [|lia]. split_and!; [lia|lia|done..|]. exists tk'.
  unfold one_ticker. simpl. subst P. split_and!; try done; lia.
Qed.

Lemma turn_enabled P tk g at_ fin : one_ticker P tk g -> g_first g = false ->
  g_free g <= at_ -> tk_next tk <= at_ -> at_ <= fin -> is_Some (turn 0 at_ fin g).
Proof.
  intros [Ht _] Hf H1 H2 H3. unfold turn. rewrite (proj2 (Z.ltb_ge _ _)), (proj2 (Z.ltb_ge _ _)), Hf, Ht by lia. simpl.
  destruct (receive_enabled at_ tk H2) as [tk' ->]. eauto.
Qed.

Lemma spawn_one first P now g : spawn first [P] now = Some g ->
  0 < P /\ g_first g = first /\ g_free g = now /\ one_ticker P (Ticker P (now + P)) g.
Proof.
  unfold spawn, NewTicker. simpl. destruct (Z.leb_spec P 0); [done|]. simpl. intros [= <-]. done.
Qed.

(** A turn on another ticker, and on the first, of a loop that has several. *)
Lemma turn_other i at_ fin g g' : turn (S i) at_ fin g = Some g' -> g_first g = false ->
  g_first g' = false /\ g_tickers g' !! 0%nat = g_tickers g !! 0%nat.
Proof.
  unfold turn. intros H Hf. destruct (_ || _); [done|]. rewrite Hf in H. accepted H. simpl.
  by rewrite list_lookup_insert_ne.
Qed.

Lemma turn_tick at_ fin g g' tk : turn 0 at_ fin g = Some g' -> g_first g = false -> g_tickers g !! 0%nat = Some tk ->
  0 < tk_period tk -> tk_next tk <= at_ /\ g_first g' = false /\
  exists tk', g_tickers g' !! 0%nat = Some tk' /\ tk_period tk' = tk_period tk /\ tk_next tk + tk_period tk <= tk_next tk'.
Proof.
  unfold turn. intros H Hf Ht HP. destruct (_ || _); [done|]. rewrite Hf, Ht in H. simpl in H. accepted H.
  apply receive_Some in E as (? & ? & _ & ? & _); [|done]. split; [done|]. split; [done|]. simpl. eexists.
  split; [apply list_lookup_insert_eq; by apply lookup_lt_Some in Ht|done].
Qed.

Lemma turns_app l1 l2 g : turns (l1 ++ l2) g = turns l1 g ≫= turns l2.
Proof.
  revert g. induction l1 as [|[a f] l1 IH]; intros g; [done|]. simpl. destruct (turn 0 a f g); [apply IH|done].
Qed.

(** What holds of a loop after any passes: it keeps one ticker, and once it
    has taken a tick its next deadline is later than that pass began, by at
    most the period. *)
Lemma turns_one P l : 0 < P -> forall tk g g', one_ticker P tk g -> turns l g = Some g' ->
  (l <> [] -> g_first g' = false) /\
  exists tk', one_ticker P tk' g' /\ tk_next tk <= tk_next tk' /\
    (g_first g = false -> tk_next tk + P * Z.of_nat (length l) <= tk_next tk').
Proof.
  intros HP. induction l as [|[a f] l IH]; intros tk g g' H1 H; simpl in H.
  - injection H as <-. split; [done|]. exists tk. split_and!; [done|lia|]. intros _. simpl. lia.
  - destruct (turn 0 a f g) as [g1|] eqn:E; [|done]. simpl in H.
    destruct (turn_one _ _ _ _ _ _ HP H1 E) as (_ & Hf1 & _ & tk1 & Ht1 & Hc).
    destruct (IH _ _ _ Ht1 H) as (Hf & tk' & Ht & Hle & Hn). specialize (Hn Hf1).
    split.
    { intros _. destruct l; [simpl in H; by injection H as <-|by apply Hf]. }
    exists tk'. split; [done|]. cbn [length]. destruct (g_first g); [subst; split; [lia|done]|].
    split; [lia|]. intros _. lia.
Qed.

Lemma paced first P now g before at_ fin g1 :
  spawn first [P] now = Some g -> turns (before ++ [(at_, fin)]) g = Some g1 ->
  (first = true -> before <> []) ->
  (forall later x y g2, turns (later ++ [(x, y)]) g1 = Some g2 ->
     fin <= x /\ at_ + P * Z.of_nat (length later) < x) /\
  (forall x y, fin <= x -> at_ + P <= x -> x <= y -> is_Some (turn 0 x y g1)).
Proof.
  intros (HP & Hfirst & _ & H1)%spawn_one H Hb. rewrite turns_app in H.
  destruct (turns before g) as [g0|] eqn:E0; [|done]. simpl in H.
  destruct (turn 0 at_ fin g0) as [g1'|] eqn:E1; [|done]. simpl in H. injection H as ->.
  destruct (turns_one _ _ HP _ _ _ H1 E0) as (Hf0 & tk0 & Ht0 & _).
  assert (g_first g0 = false) as Hg0.
  { destruct before; [|by apply Hf0]. simpl in E0. injection E0 as <-. destruct first; [by specialize (Hb eq_refl)|done]. }
  destruct (turn_one _ _ _ _ _ _ HP Ht0 E1) as (Hfin & Hf1 & Hfree & tk1 & Ht1 & Hc). rewrite Hg0 in Hc.
  split.
  - intros later x y g2 H. rewrite turns_app in H. destruct (turns later g1) as [g3|] eqn:E3; [|done]. simpl in H.
    destruct (turn 0 x y g3) as [g4|] eqn:E4; [|done].
    destruct (turns_one _ _ HP _ _ _ Ht1 E3) as (Hf3 & tk3 & Ht3 & _ & Hn3). specialize (Hn3 Hf1).
    destruct (turn_one _ _ _ _ _ _ HP Ht3 E4) as (Hx & _ & _ & tk4 & _ & Hc4).
    assert (g_first g3 = false) as Hg3 by (destruct later; [simpl in E3; by injection E3 as <-|by apply Hf3]).
    rewrite Hg3 in Hc4. assert (fin <= g_free g3) as Hfr; [|split; [lia|lia]].
    clear -E3 Hfree Ht1 HP. revert tk1 g1 fin Hfree Ht1 E3. induction later as [|[a f] l IH]; intros tk g fin Hfree Ht E; simpl in E.
    { injection E as <-. lia. }
    destruct (turn 0 a f g) as [g5|] eqn:E5; [|done]. simpl in E.
    destruct (turn_one _ _ _ _ _ _ HP Ht E5) as (? & _ & Hfr & tk5 & Ht5 & _). pose proof (IH _ _ _ Hfr Ht5 E). lia.
  - intros x y Hx1 Hx2 Hxy. apply (turn_enabled P tk1); [done|done|lia|lia|done].
Qed.

(** * Properties *)
(** A loop over a ticker is paced.  Its passes never overlap; a burst
    after a delay is bounded, since after a pass that followed a tick the
    [n]-th next one begins later than [n - 1] periods on; and it does not
    starve: once a pass is over and a period has passed since it began, the
    next one may begin at any time. *)
Theorem loop_paced first P now g before at_ fin g1 :
  spawn first [P] now = Some g -> turns (before ++ [(at_, fin)]) g = Some g1 ->
  (first = true -> before <> []) ->
  (forall later x y g2, turns (later ++ [(x, y)]) g1 = Some g2 ->
     fin <= x /\ at_ + P * Z.of_nat (length later) < x) /\
  (forall x y, fin <= x -> at_ + P <= x -> x <= y -> is_Some (turn 0 x y g1)).
Proof. apply paced. Qed.

(** A loop of 30 s whose second pass begins 50 s late: the ticks missed
    meanwhile are dropped, and the third pass is back on the grid. *)
Lemma loop_paced_witness :
  turns [(0, 5); (80, 85); (89, 91)] (Goroutine true 0 [Ticker 30 30]) = None /\
  turns [(0, 5); (80, 85); (90, 91)] (Goroutine true 0 [Ticker 30 30]) = Some (Goroutine false 91 [Ticker 30 120]) /\
  is_Some (turn 0 110 111 (Goroutine false 85 [Ticker 30 90])).
Proof.
  split; [reflexivity|]. split; [reflexivity|].
  refine (proj2 (loop_paced true 30 0 (Goroutine true 0 [Ticker 30 30]) [(0, 5)] 80 85 _ eq_refl eq_refl _) 110 111 _ _ _);
    [discriminate|lia..].
Defined.
