(* ===== verification/Website.v ===== *)
(** The VPS Advisor website as the platform talks to it: the HTTP client of
    [internal/advisor] (client.go, results.go) and the stand-in server of
    [internal/mockadvisor].

    JSON documents travel as [json] values; decoding into a struct follows
    [encoding/json] (missing fields and nulls are zero values, keys match
    without regard to case, the last one wins).  [url.Parse] and the nanosecond
    layout of times are parameters.  The client against the stand-in gives the
    [website] record that [SyncAdvisor] (Advisor.v) consumes. *)
From stdpp Require Import base gmap strings list.
From Stdlib Require Import ZArith QArith Qround Lia String Ascii DecimalString DecimalZ.
From S2P Require Import Prelude Codec Netip Schema Wireauth Registry Leasing Server Advisor Admin Console Ticker.
From S2P Require Config.
Open Scope Z_scope.

(** * Exchanges *)
Record areq : Type := MkReq { q_method : string; q_target : string; q_auth : string; q_body : option json }.
Record aresp : Type := MkResp { a_status : Z; a_location : string; a_body : option json }.

(** ** [encoding/json] *)
Definition fold_eq (a b : string) : bool := bool_decide (Config.ToUpper a = Config.ToUpper b).
Definition is_null (v : json) : bool := match v with JNull => true | _ => false end.
(** The value a struct field receives; a null leaves it alone. *)
Definition field (key : string) (l : list (string * json)) : json :=
  match last (List.filter (fun kv => fold_eq kv.1 key && negb (is_null kv.2)) l) with Some (_, v) => v | None => JNull end.
(** The value of a key of a decoded map. *)
Definition map_key (key : string) (l : list (string * json)) : option json :=
  snd <$> last (List.filter (fun kv => bool_decide (kv.1 = key)) l).

Definition as_string (v : json) : option string := match v with JNull => Some ""%string | JStr s => Some s | _ => None end.
Definition as_bool (v : json) : option bool := match v with JNull => Some false | JBool b => Some b | _ => None end.
Definition as_int (v : json) : option Z :=
  match v with
  | JNull => Some 0
  | JNum q => if Qeq_bool q (inject_Z (Qfloor q)) && Config.in_int64 (Qfloor q) then Some (Qfloor q) else None
  | _ => None
  end.
Definition as_list {A} (f : json -> option A) (v : json) : option (list A) :=
  match v with JNull => Some [] | JArr l => mapM f l | _ => None end.

(** [time.Time] in JSON: RFC 3339 with nanoseconds. *)
Class NanoText {tm : TimeText} : Type := {
  Format_Nano : Z -> string
}.
Class NanoLaws {tm : TimeText} {nt : NanoText} : Prop := {
  nano_roundtrip : forall t, rfc3339_range t -> Parse_RFC3339 (Format_Nano t) = Some t;
  nano_nonempty : forall t, Format_Nano t <> ""%string
}.

Section Codec.
Context {tm : TimeText} {nt : NanoText}.

Definition as_time (v : json) : option Z :=
  match v with JNull => Some zero_time | JStr s => Parse_RFC3339 s | _ => None end.

Definition decode_provider (v : json) : option Provider :=
  match v with
  | JNull => Some (MkProvider "" "" [] false 0)
  | JObj l =>
      id ← as_string (field "provider_id" l); name ← as_string (field "name" l);
      asns ← as_list as_int (field "asns" l); enabled ← as_bool (field "monitoring_enabled" l);
      priority ← as_int (field "priority" l); _ ← as_time (field "updated_at" l);
      Some (MkProvider id name asns enabled priority)
  | _ => None
  end.
Definition decode_enrollment (v : json) : option PendingEnrollment :=
  match v with
  | JNull => Some (MkEnrollment "" "" "" "" "" zero_time)
  | JObj l =>
      e ← as_string (field "enrollment_id" l); w ← as_string (field "worker_id" l); n ← as_string (field "worker_name" l);
      o ← as_string (field "operator_id" l); h ← as_string (field "token_hash" l); t ← as_time (field "expires_at" l);
      Some (MkEnrollment e w n o h t)
  | _ => None
  end.
Definition decode_decision (v : json) : option Decision_ :=
  match v with
  | JNull => Some (MkDecision "" "" "" "" zero_time)
  | JObj l =>
      i ← as_string (field "decision_id" l); w ← as_string (field "worker_id" l); s ← as_string (field "state" l);
      r ← as_string (field "reason" l); t ← as_time (field "decided_at" l);
      Some (MkDecision i w s r t)
  | _ => None
  end.

(** [json.Marshal] of the stand-in's rows. *)
Record mock_provider : Type := MkMock { mp_provider : Provider; UpdatedAt : Z }.
Definition num (z : Z) : json := JNum (inject_Z z).
Definition encode_provider (p : mock_provider) : json :=
  JObj [("provider_id", JStr (ProviderID (mp_provider p))); ("name", JStr (ProviderName (mp_provider p)));
        ("asns", JArr (map num (ASNs (mp_provider p)))); ("monitoring_enabled", JBool (MonitoringEnabled (mp_provider p)));
        ("priority", num (Priority (mp_provider p))); ("updated_at", JStr (Format_Nano (UpdatedAt p)))]%string.
Definition encode_enrollment (e : PendingEnrollment) : json :=
  JObj [("enrollment_id", JStr (EnrollmentID e)); ("worker_id", JStr (e_WorkerID e)); ("worker_name", JStr (e_WorkerName e));
        ("operator_id", JStr (e_OperatorID e)); ("token_hash", JStr (TokenHash e)); ("expires_at", JStr (Format_Nano (ExpiresAt e)))]%string.
Definition encode_decision (d : Decision_) : json :=
  JObj [("decision_id", JStr (DecisionID d)); ("worker_id", JStr (d_WorkerID d)); ("state", JStr (d_State d));
        ("reason", JStr (d_Reason d)); ("decided_at", JStr (Format_Nano (DecidedAt d)))]%string.
End Codec.

(** * The client *)
(** [url.QueryEscape]. *)
Definition unreserved (c : ascii) : bool :=
  let v := byte_val c in
  ((48 <=? v) && (v <=? 57)) || ((65 <=? v) && (v <=? 90)) || ((97 <=? v) && (v <=? 122)) ||
  bool_decide (c ∈ [byte_of 45; byte_of 95; byte_of 46; byte_of 126]).
Definition upper_hex (v : Z) : ascii := byte_of (if v <? 10 then 48 + v else 55 + v).
Fixpoint QueryEscape (s : string) : string :=
  match s with
  | EmptyString => EmptyString
  | String c s' =>
      if unreserved c then String c (QueryEscape s')
      else if bool_decide (c = byte_of 32) then String (byte_of 43) (QueryEscape s')
      else String (byte_of 37) (String (upper_hex (byte_val c / 16)) (String (upper_hex (byte_val c mod 16)) (QueryEscape s')))
  end.

Definition withCursor (path cursor : string) : string :=
  (path +:+ (if has_byte (byte_of 63) path then "&" else "?") +:+ "cursor=" +:+ QueryEscape cursor)%string.

Section Client.
Context {tm : TimeText} {nt : NanoText}.
(** What answers the client's requests: [None] is a transport error. *)
Variables (srv : areq -> option aresp) (token : string).

Definition send_json (method path : string) (body : option json) : result aresp :=
  match srv (MkReq method path ("Bearer " +:+ token) body) with
  | None => Err (EMsg "advisor request")
  | Some r =>
      if (300 <=? a_status r) && (a_status r <? 400) then Err (EMsg ("redirects to " +:+ a_location r))
      else if 400 <=? a_status r then Err (EMsg "advisor status")
      else Ok r
  end.
(** [doJSON] with [out] set. *)
Definition get_json (method path : string) (body : option json) : result json :=
  match send_json method path body with
  | Err e => Err e
  | Ok r => match a_body r with Some v => Ok v | None => Err (EMsg "EOF") end
  end.
(** [doJSON] with [out] nil. *)
Definition doJSON (method path : string) (body : option json) : result unit :=
  match send_json method path body with Err e => Err e | Ok _ => Ok tt end.

Definition Ping : result unit :=
  match get_json "GET" "/api/v1/monitoring/providers?enabled=true&limit=1" None with
  | Err e => Err e
  | Ok (JObj l) => match as_list (fun v => Some v) (field "providers" l) with Some _ => Ok tt | None => Err (EMsg "json") end
  | Ok JNull => Ok tt
  | Ok _ => Err (EMsg "json")
  end.

(** One page of a feed. *)
Definition page {T} (decode : json -> option T) (path key : string) (cursor : string) : result (list T * string) :=
  let next := if bool_decide (cursor = ""%string) then path else withCursor path cursor in
  match get_json "GET" next None with
  | Err e => Err e
  | Ok v =>
      match v with
      | JObj _ | JNull =>
          let l := match v with JObj l => l | _ => [] end in
          match (match map_key key l with Some raw => as_list decode raw | None => Some [] end) with
          | None => Err (EMsg ("decode " +:+ key))
          | Some rows =>
              Ok (rows, match map_key "next_cursor" l with Some (JStr s) => s | _ => ""%string end)
          end
      | _ => Err (EMsg "json")
      end
  end.
Definition fetch_feed {T} (decode : json -> option T) (path key : string) : result (list T) :=
  fetchPages (fun _ => page decode path key).

Definition ListProviders (enabledOnly : bool) : result (list Provider) :=
  fetch_feed decode_provider ("/api/v1/monitoring/providers" +:+ (if enabledOnly then "?enabled=true" else ""))%string "providers".
Definition ListPendingEnrollments : result (list PendingEnrollment) :=
  fetch_feed decode_enrollment "/api/v1/monitoring/enrollments/pending" "enrollments".
Definition ListDecisions (since : option Z) : result (list Decision_) :=
  fetch_feed decode_decision ("/api/v1/monitoring/admin/decisions" +:+
    match since with Some t => "?since=" +:+ QueryEscape (Format_Nano t) | None => "" end)%string "decisions".

Definition PutProviderStatus (providerID : string) (doc : json) : result unit :=
  doJSON "PUT" ("/api/v1/monitoring/results/providers/" +:+ providerID) (Some doc).
Definition PostAnomaly (doc : json) : result unit := doJSON "POST" "/api/v1/monitoring/results/anomalies" (Some doc).
Definition PostFleetTelemetry (doc : json) : result unit := doJSON "POST" "/api/v1/monitoring/telemetry/fleet" (Some doc).
Definition MarkEnrollmentRegistered (id : string) : result unit :=
  doJSON "POST" ("/api/v1/monitoring/enrollments/" +:+ id +:+ "/registered")%string None.

(** What a synchronization pass gets to see. *)
Definition client_website : website :=
  Website (ListProviders true) ListPendingEnrollments ListDecisions.
End Client.

(** ** The base URL *)
Record URL : Type := MkURL { Scheme : string; User : option string; Host : string; UPath : string; RawQuery : string; Fragment : string }.
(** [url.Parse] and [URL.String]. *)
Class URLParser : Type := { url_Parse : string -> option URL; url_String : URL -> string }.

Section Base.
Context {up : URLParser}.
Definition slash : ascii := byte_of 47.
Fixpoint trim_slashes (l : list ascii) : list ascii :=
  match l with c :: l' => if bool_decide (c = slash) then trim_slashes l' else l | [] => [] end.
(** [strings.TrimRight(s, "/")] and [strings.Trim(s, "/")]. *)
Definition TrimRight (s : string) : string :=
  string_of_list_ascii (rev (trim_slashes (rev (list_ascii_of_string s)))).
Definition TrimBoth (s : string) : string :=
  string_of_list_ascii (trim_slashes (list_ascii_of_string (TrimRight s))).

Definition New (baseURL : string) : string := TrimRight baseURL.
Definition redactUserinfo (raw : string) : string :=
  match url_Parse raw with
  | Some u => match User u with
              | Some _ => url_String (MkURL (Scheme u) (Some "[redacted]"%string) (Host u) (UPath u) (RawQuery u) (Fragment u))
              | None => raw
              end
  | None => raw
  end.
Definition Validate (baseURL : string) : option string :=
  if bool_decide (baseURL = ""%string) then Some "VAPN_ADVISOR_URL is empty"%string
  else match url_Parse baseURL with
       | None => Some "VAPN_ADVISOR_URL is not a URL"%string
       | Some u =>
           if negb (bool_decide (Scheme u = "http"%string)) && negb (bool_decide (Scheme u = "https"%string))
           then Some "VAPN_ADVISOR_URL must be http or https"%string
           else if bool_decide (Host u = ""%string) then Some "VAPN_ADVISOR_URL has no host"%string
           else if negb (bool_decide (TrimBoth (UPath u) = ""%string)) then Some "VAPN_ADVISOR_URL must be a bare base URL with no path"%string
           else if negb (bool_decide (RawQuery u = ""%string)) || negb (bool_decide (Fragment u = ""%string))
           then Some "VAPN_ADVISOR_URL must not carry a query or fragment"%string
           else None
       end.
End Base.

(** * The stand-in *)
Section Mock.
Context {tm : TimeText} {nt : NanoText}.

Record Fixtures : Type := MkFixtures {
  fx_Providers : list mock_provider;
  fx_Enrollments : list PendingEnrollment;
  fx_Decisions : list Decision_
}.
Variables (f : Fixtures) (secret : string).

Definition mock_problem (st : Z) (detail : string) : aresp :=
  MkResp st "" (Some (JObj [("status"%string, num st); ("title"%string, JStr ""); ("detail"%string, JStr detail)])).
Definition writeRows (key : string) (rows : list json) : aresp :=
  MkResp 200 "" (Some (JObj [(key, JArr rows); ("next_cursor"%string, JNull)])).
Definition accept (st : Z) : aresp := MkResp st "" None.

Definition listProviders (raw : string) : aresp :=
  let onlyEnabled := bool_decide (query_get raw "enabled" = "true"%string) in
  let v := query_get raw "updated_since" in
  match (if bool_decide (v = ""%string) then Some zero_time else Parse_RFC3339 v) with
  | None => mock_problem 400 "updated_since must be RFC 3339"
  | Some since =>
      writeRows "providers" (map encode_provider (List.filter (fun p =>
        negb (onlyEnabled && negb (MonitoringEnabled (mp_provider p)))
        && negb (negb (since =? zero_time) && negb (since <? UpdatedAt p))) (fx_Providers f)))
  end.
Definition getProvider (id : string) : aresp :=
  match List.find (fun p => bool_decide (ProviderID (mp_provider p) = id)) (fx_Providers f) with
  | Some p => MkResp 200 "" (Some (encode_provider p))
  | None => mock_problem 404 "unknown provider"
  end.
Definition listASNs : aresp :=
  writeRows "asns" (List.concat (map (fun p => map (fun asn => JObj [("asn"%string, num asn);
      ("provider_id"%string, JStr (ProviderID (mp_provider p))); ("monitoring_enabled"%string, JBool (MonitoringEnabled (mp_provider p)));
      ("updated_at"%string, JStr (Format_Nano (UpdatedAt p)))]) (ASNs (mp_provider p))) (fx_Providers f))).
Definition listEnrollments : aresp := writeRows "enrollments" (map encode_enrollment (fx_Enrollments f)).
Definition listDecisions (raw : string) : aresp :=
  let v := query_get raw "since" in
  let since := if bool_decide (v = ""%string) then zero_time else default zero_time (Parse_RFC3339 v) in
  writeRows "decisions" (map encode_decision (List.filter (fun d => since <? DecidedAt d) (fx_Decisions f))).
Definition acceptResults (body : option json) : aresp :=
  match body with
  | Some (JObj _) | Some JNull => accept 202
  | _ => mock_problem 400 "invalid JSON body"
  end.

(** The patterns of [NewServer]. *)
Definition mock_route (method : string) (segments : list string) (raw : string) (body : option json) : option aresp :=
  let verb := fun (m : string) => bool_decide (method = m) in
  match segments with
  | a :: v :: m :: rest =>
      if negb (bool_decide ([a; v; m] = ["api"; "v1"; "monitoring"]%string) && forallb clean_segment rest) then None
      else match rest with
      | [x] =>
          if bool_decide (x = "providers"%string) && verb "GET"%string then Some (listProviders raw)
          else if bool_decide (x = "asns"%string) && verb "GET"%string then Some listASNs
          else None
      | [x; y] =>
          if bool_decide (x = "providers"%string) && verb "GET"%string then Some (getProvider y)
          else if bool_decide ([x; y] = ["enrollments"; "pending"]%string) && verb "GET"%string then Some listEnrollments
          else if bool_decide ([x; y] = ["admin"; "decisions"]%string) && verb "GET"%string then Some (listDecisions raw)
          else if bool_decide ([x; y] = ["results"; "anomalies"]%string) && verb "POST"%string then Some (accept 202)
          else if bool_decide ([x; y] = ["results"; "history"]%string) && verb "POST"%string then Some (accept 202)
          else if bool_decide ([x; y] = ["telemetry"; "fleet"]%string) && verb "POST"%string then Some (accept 202)
          else None
      | [x; y; z] =>
          if bool_decide (x = "enrollments"%string) && bool_decide (z = "registered"%string) && verb "POST"%string then Some (accept 204)
          else if bool_decide (x = "results"%string) && bool_decide (y = "providers"%string) && verb "PUT"%string
          then Some (acceptResults body)
          else None
      | _ => None
      end
  | _ => None
  end.

(** [NewServer]: [auth] around the mux. *)
Definition mock_server (r : areq) : option aresp :=
  match parse_target (q_target r) with
  | None => None
  | Some (segments, raw) =>
      if negb (bool_decide (q_auth r = ("Bearer " +:+ secret)%string))
      then Some (mock_problem 401 "invalid or missing service credential")
      else Some (default (mock_problem 404 "404 page not found") (mock_route (q_method r) segments raw (q_body r)))
  end.
End Mock.

(** * Query escaping *)
Definition escape_ok (v : Z) : bool :=
  bool_decide (hex_value (upper_hex v) = Some v) && graphic (upper_hex v) &&
  negb (bool_decide (upper_hex v ∈ [byte_of 35; byte_of 38; byte_of 59])).
Lemma upper_hex_ok v : 0 <= v < 16 -> hex_value (upper_hex v) = Some v /\ graphic (upper_hex v) = true /\
  upper_hex v ∉ [byte_of 35; byte_of 38; byte_of 59].
Proof.
  intros Hv. assert (escape_ok v = true) as H by (apply (forall_below 16 escape_ok); [vm_compute; reflexivity | done]).
  unfold escape_ok in H. btrue. done.
Qed.

Lemma nibbles c : 0 <= byte_val c / 16 < 16 /\ 0 <= byte_val c mod 16 < 16 /\ 16 * (byte_val c / 16) + byte_val c mod 16 = byte_val c.
Proof.
  pose proof (byte_val_range c). split_and!; try (apply Z.mod_pos_bound; lia); try (apply Z.div_pos; lia);
    [apply Z.div_lt_upper_bound; lia | symmetry; apply Z.div_mod; lia].
Qed.

Lemma unreserved_not c : unreserved c = true -> c <> byte_of 37 /\ c <> byte_of 43.
Proof. intros H. split; intros ->; vm_compute in H; discriminate. Qed.

Lemma QueryEscape_roundtrip s : QueryUnescape (QueryEscape s) = Some s.
Proof.
  induction s as [|c s IH]; [done|]. cbn [QueryEscape]. destruct (unreserved c) eqn:Eu.
  - destruct (unreserved_not c Eu) as [H1 H2]. cbn [QueryUnescape]. rewrite !bool_decide_false by done. by rewrite IH.
  - case_bool_decide as Es.
    + subst c. cbn [QueryUnescape]. change (bool_decide (byte_of 43 = byte_of 37)) with false. cbv iota. by rewrite IH.
    + cbn [QueryUnescape]. rewrite bool_decide_true by done. destruct (nibbles c) as (Hh & Hl & He).
      destruct (upper_hex_ok _ Hh) as (-> & _). destruct (upper_hex_ok _ Hl) as (-> & _). rewrite IH, He. by rewrite byte_of_val.
Qed.

Definition unreserved_ok (v : Z) : bool :=
  negb (unreserved (byte_of v)) || (graphic (byte_of v) && negb (bool_decide (byte_of v ∈ [byte_of 35; byte_of 38; byte_of 59]))).
Lemma unreserved_safe c : unreserved c = true -> graphic c = true /\ c ∉ [byte_of 35; byte_of 38; byte_of 59].
Proof.
  intros Hc. assert (unreserved_ok (byte_val c) = true) as H.
  { apply (forall_below 256 unreserved_ok); [vm_compute; reflexivity | apply byte_val_range]. }
  unfold unreserved_ok in H. rewrite byte_of_val, Hc in H. simpl in H. btrue. done.
Qed.

Lemma safe_cons r c s : graphic c = true -> c ∉ r -> safe r s = true -> safe r (String c s) = true.
Proof. intros Hg Hr Hs. unfold safe in *. simpl. by rewrite Hg, Hs, bool_decide_false. Qed.

Lemma QueryEscape_safe s : safe [byte_of 35; byte_of 38; byte_of 59] (QueryEscape s) = true.
Proof.
  induction s as [|c s IH]; [done|]. cbn [QueryEscape]. destruct (unreserved c) eqn:Eu.
  - apply unreserved_safe in Eu as [? ?]. by apply safe_cons.
  - destruct (nibbles c) as (Hh & Hl & _). destruct (upper_hex_ok _ Hh) as (_ & ? & ?), (upper_hex_ok _ Hl) as (_ & ? & ?).
    case_bool_decide; repeat (apply safe_cons; [first [done | reflexivity] | first [done | vm_compute; set_solver] | try done]).
Qed.

Lemma QueryEscape_unfragmented s : safe [byte_of 35] (QueryEscape s) = true.
Proof. eapply safe_weaken; [|apply QueryEscape_safe]. set_solver. Qed.

(** One escaped pair. *)
Lemma parse_pair_escaped k v : safe query_reserved k = true -> has_byte equals k = false -> k <> ""%string ->
  parse_pair (k +:+ "=" +:+ QueryEscape v) = Some (k, v).
Proof.
  intros Hk He Hne. unfold parse_pair. change ("=" +:+ QueryEscape v)%string with (String equals "" +:+ QueryEscape v)%string.
  rewrite !has_byte_app, cut_app by done.
  assert (has_byte (byte_of 59) k = false) as -> by (eapply safe_no_byte; [exact Hk | left; unfold query_reserved; set_solver]).
  assert (has_byte (byte_of 59) (QueryEscape v) = false) as -> by (eapply safe_no_byte; [apply QueryEscape_safe | left; set_solver]).
  simpl. rewrite bool_decide_false by (destruct k; [done|discriminate]). rewrite QueryEscape_roundtrip.
  rewrite QueryUnescape_plain; [done | |]; (eapply safe_no_byte; [exact Hk | left; unfold query_reserved; set_solver]).
Qed.

Lemma split_plain_amp k v : safe query_reserved k = true ->
  split_on (byte_of 38) (k +:+ "=" +:+ QueryEscape v)%string = [(k +:+ "=" +:+ QueryEscape v)%string].
Proof.
  intros Hk. apply split_on_plain. rewrite !has_byte_app. apply orb_false_iff. split; [|apply orb_false_iff; split; [done|]].
  - eapply safe_no_byte; [exact Hk | left; unfold query_reserved; set_solver].
  - eapply safe_no_byte; [apply QueryEscape_safe | left; set_solver].
Qed.

Lemma ParseQuery_escaped k v : safe query_reserved k = true -> has_byte equals k = false -> k <> ""%string ->
  ParseQuery (k +:+ "=" +:+ QueryEscape v) = [(k, v)].
Proof. intros Hk He Hne. unfold ParseQuery. rewrite split_plain_amp by done. simpl. by rewrite parse_pair_escaped. Qed.

Lemma ParseQuery_app q t : ParseQuery (q +:+ ("&" +:+ t)) = ParseQuery q ++ ParseQuery t.
Proof. unfold ParseQuery. change ("&" +:+ t)%string with (String (byte_of 38) "" +:+ t)%string. by rewrite split_on_app, omap_app. Qed.

(** * Cursors survive the trip *)
Definition with_query (l : list string) (q : option string) : string :=
  (slashed l +:+ match q with Some q => "?" +:+ q | None => "" end)%string.

Lemma with_query_mark l q : Forall (fun s => safe path_reserved s = true) l ->
  has_byte (byte_of 63) (with_query l q) = is_some q.
Proof.
  intros Hl. unfold with_query. rewrite has_byte_app.
  assert (has_byte (byte_of 63) (slashed l) = false) as ->
    by (eapply safe_no_byte; [apply slashed_safe, Hl | left; set_solver]).
  destruct q; [simpl; done | done].
Qed.

Lemma append_assoc (a b c : string) : ((a +:+ b) +:+ c)%string = (a +:+ (b +:+ c))%string.
Proof. induction a as [|x a IH]; [done | exact (f_equal (String x) IH)]. Qed.

Lemma find_app {A} (p : A -> bool) l1 l2 :
  List.find p (l1 ++ l2) = match List.find p l1 with Some x => Some x | None => List.find p l2 end.
Proof. induction l1 as [|x l1 IH]; [done|]. simpl. by destruct (p x). Qed.

(** A cursor reaches the site unchanged: whatever bytes the site put into
    [next_cursor], the request for the next page is for the same resource with
    the same parameters, and reading the parameter [cursor] on the other side
    gives back that very cursor. *)
Theorem cursor_roundtrip l q cursor :
  Forall (fun s => safe path_reserved s = true) l ->
  (forall q', q = Some q' -> safe [byte_of 35] q' = true /\ ~ In "cursor"%string (map fst (ParseQuery q'))) ->
  exists raw, parse_target (withCursor (with_query l q) cursor) = Some (l, raw) /\
    query_get raw "cursor" = cursor /\
    forall k, k <> "cursor"%string -> query_get raw k = query_get (default ""%string q) k.
Proof.
  intros Hl Hq.
  assert (ParseQuery ("cursor=" +:+ QueryEscape cursor) = [("cursor"%string, cursor)]) as Hc by (by apply (ParseQuery_escaped "cursor")).
  assert (safe [byte_of 35] ("cursor=" +:+ QueryEscape cursor)%string = true) as Hsafe.
  { rewrite safe_app. apply andb_true_iff. split; [done|]. apply QueryEscape_unfragmented. }
  unfold withCursor. rewrite with_query_mark by done. destruct q as [q|]; simpl is_some; cbv iota.
  - destruct (Hq q eq_refl) as [Hq1 Hq2]. exists (q +:+ ("&" +:+ ("cursor=" +:+ QueryEscape cursor)))%string. split_and!.
    + unfold with_query. rewrite append_assoc, append_assoc.
      apply parse_slashed_query; [done|]. rewrite safe_app, Hq1, safe_app, Hsafe. done.
    + unfold query_get. rewrite ParseQuery_app, Hc. rewrite find_app.
      destruct (List.find _ (ParseQuery q)) as [[k v]|] eqn:Ef; [|done].
      apply find_some in Ef as [Hin Ek]. btrue. simpl in Ek. subst k. destruct Hq2. apply in_map_iff. by exists ("cursor"%string, v).
    + intros k Hk. unfold query_get. rewrite ParseQuery_app, Hc, find_app. simpl default.
      destruct (List.find _ (ParseQuery q)); [done|]. simpl. by rewrite bool_decide_false by (intros E; by apply Hk).
  - exists ("cursor=" +:+ QueryEscape cursor)%string. split_and!.
    + unfold with_query. rewrite append_nil. by apply parse_slashed_query.
    + unfold query_get. by rewrite Hc.
    + intros k Hk. unfold query_get. rewrite Hc. simpl. by rewrite bool_decide_false by (intros E; by apply Hk).
Qed.

(** * The client against the stand-in *)
Section ClientMock.
Context {tm : TimeText} {nt : NanoText} {nl : NanoLaws}.

Lemma as_int_num z : Config.in_int64 z = true -> as_int (num z) = Some z.
Proof.
  intros Hz. unfold num, as_int. rewrite Qfloor_Z, Hz.
  rewrite (proj2 (Qeq_bool_iff _ _)) by reflexivity. done.
Qed.

Definition mock_ok (p : mock_provider) : Prop :=
  rfc3339_range (UpdatedAt p) /\ Config.in_int64 (Priority (mp_provider p)) = true /\ Forall (fun a => Config.in_int64 a = true) (ASNs (mp_provider p)).

Lemma provider_roundtrip p : mock_ok p -> decode_provider (encode_provider p) = Some (mp_provider p).
Proof using nl.
  intros (Ht & Hp & Ha). unfold decode_provider, encode_provider. set (l := [_; _; _; _; _; _]).
  assert (field "provider_id" l = JStr (ProviderID (mp_provider p))) as -> by reflexivity.
  assert (field "name" l = JStr (ProviderName (mp_provider p))) as -> by reflexivity.
  assert (field "asns" l = JArr (map num (ASNs (mp_provider p)))) as -> by reflexivity.
  assert (field "monitoring_enabled" l = JBool (MonitoringEnabled (mp_provider p))) as -> by reflexivity.
  assert (field "priority" l = num (Priority (mp_provider p))) as -> by reflexivity.
  assert (field "updated_at" l = JStr (Format_Nano (UpdatedAt p))) as -> by reflexivity.
  assert (as_list as_int (JArr (map num (ASNs (mp_provider p)))) = Some (ASNs (mp_provider p))) as ->.
  { simpl. apply mapM_Some. induction Ha as [|a asns H _ IH]; constructor; [by apply as_int_num | done]. }
  rewrite as_int_num by done. simpl. rewrite nano_roundtrip by done. simpl. by destruct (mp_provider p).
Qed.

Lemma enrollment_roundtrip e : rfc3339_range (ExpiresAt e) -> decode_enrollment (encode_enrollment e) = Some e.
Proof using nl.
  intros Ht. unfold decode_enrollment, encode_enrollment. set (l := [_; _; _; _; _; _]).
  assert (field "enrollment_id" l = JStr (EnrollmentID e)) as -> by reflexivity.
  assert (field "worker_id" l = JStr (e_WorkerID e)) as -> by reflexivity.
  assert (field "worker_name" l = JStr (e_WorkerName e)) as -> by reflexivity.
  assert (field "operator_id" l = JStr (e_OperatorID e)) as -> by reflexivity.
  assert (field "token_hash" l = JStr (TokenHash e)) as -> by reflexivity.
  assert (field "expires_at" l = JStr (Format_Nano (ExpiresAt e))) as -> by reflexivity.
  simpl. rewrite nano_roundtrip by done. simpl. by destruct e.
Qed.

Lemma decision_roundtrip d : rfc3339_range (DecidedAt d) -> decode_decision (encode_decision d) = Some d.
Proof using nl.
  intros Ht. unfold decode_decision, encode_decision. set (l := [_; _; _; _; _]).
  assert (field "decision_id" l = JStr (DecisionID d)) as -> by reflexivity.
  assert (field "worker_id" l = JStr (d_WorkerID d)) as -> by reflexivity.
  assert (field "state" l = JStr (d_State d)) as -> by reflexivity.
  assert (field "reason" l = JStr (d_Reason d)) as -> by reflexivity.
  assert (field "decided_at" l = JStr (Format_Nano (DecidedAt d))) as -> by reflexivity.
  simpl. rewrite nano_roundtrip by done. simpl. by destruct d.
Qed.

Lemma mapM_map {A B} (dec : B -> option A) (enc : A -> B) l : (forall x, In x l -> dec (enc x) = Some x) -> mapM dec (map enc l) = Some l.
Proof.
  intros H. apply mapM_Some. induction l as [|x l IH]; constructor; [apply H; by left|]. apply IH. intros y Hy. apply H. by right.
Qed.

(** A feed served in one page. *)
Lemma one_page {T} srv token (decode : json -> option T) path key rows js :
  (key <> "next_cursor")%string ->
  srv (MkReq "GET" path ("Bearer " +:+ token) None) = Some (writeRows key js) -> mapM decode js = Some rows ->
  fetch_feed srv token decode path key = Ok rows.
Proof.
  intros Hk Hs Hm.
  assert (page srv token decode path key "" = Ok (rows, ""%string)) as Hp.
  { assert (get_json srv token "GET" path None = Ok (JObj [(key, JArr js); ("next_cursor"%string, JNull)])) as Hg
      by (unfold get_json, send_json; by rewrite Hs).
    unfold page. rewrite (bool_decide_true (""%string = ""%string)) by done. rewrite Hg.
    assert (map_key key [(key, JArr js); ("next_cursor"%string, JNull)] = Some (JArr js)) as ->.
    { unfold map_key. cbn [List.filter fst]. by rewrite (bool_decide_true (key = key)), (bool_decide_false ("next_cursor"%string = key)) by congruence. }
    assert (map_key "next_cursor" [(key, JArr js); ("next_cursor"%string, JNull)] = Some JNull) as ->.
    { unfold map_key. cbn [List.filter fst]. by rewrite (bool_decide_false (key = "next_cursor"%string)) by congruence. }
    simpl. by rewrite Hm. }
  unfold fetch_feed, fetchPages.
  rewrite (fetch_serves (fun _ => page srv token decode path key) [rows] maxPages 0 "" [] []);
    [simpl; by rewrite app_nil_r | exact Hp | apply Nat.leb_le; reflexivity].
Qed.

Variables (f : Fixtures) (secret : string).
Hypothesis Hints : Forall mock_ok (fx_Providers f).
Hypothesis Hexpiry : Forall (fun e => rfc3339_range (ExpiresAt e)) (fx_Enrollments f).
Hypothesis Hdecided : Forall (fun d => rfc3339_range (DecidedAt d)) (fx_Decisions f).

Definition enabled_providers : list mock_provider := List.filter (fun p => MonitoringEnabled (mp_provider p)) (fx_Providers f).
Definition decisions_after (since : option Z) : list Decision_ :=
  List.filter (fun d => default zero_time since <? DecidedAt d) (fx_Decisions f).

Abbreviation mock := (mock_server f secret).

Lemma mock_answers method target body segments raw r : parse_target target = Some (segments, raw) ->
  mock_route f method segments raw body = Some r ->
  mock (MkReq method target ("Bearer " +:+ secret) body) = Some r.
Proof. intros Hp Hr. unfold mock_server. cbn [q_target q_auth q_method q_body]. rewrite Hp, bool_decide_true, Hr by done. done. Qed.

Lemma mock_providers : ListProviders mock secret true = Ok (map mp_provider enabled_providers).
Proof using nl Hints.
  apply (one_page mock secret decode_provider _ _ _ (map encode_provider enabled_providers)); [done | |].
  - eapply mock_answers; [reflexivity|].
    match goal with |- mock_route _ _ _ ?raw _ = _ => change (mock_route f "GET" ["api"; "v1"; "monitoring"; "providers"]%string "enabled=true" None =
      Some (writeRows "providers" (map encode_provider enabled_providers))) end.
    change (Some (listProviders f "enabled=true") = Some (writeRows "providers" (map encode_provider enabled_providers))).
    unfold listProviders. change (query_get "enabled=true" "enabled") with "true"%string.
    change (query_get "enabled=true" "updated_since") with ""%string. rewrite !bool_decide_true by done. cbv iota zeta.
    do 3 f_equal. unfold enabled_providers. apply List.filter_ext. intros p. rewrite Z.eqb_refl. simpl. rewrite andb_true_r. by rewrite negb_involutive.
  - apply mapM_Some. rewrite <- (map_id (map encode_provider enabled_providers)). clear -Hints nl.
    assert (Forall mock_ok enabled_providers) as H.
    { unfold enabled_providers. rewrite Forall_forall in *. intros p Hp%list_elem_of_In. apply filter_In in Hp as [Hp _].
      by apply Hints, list_elem_of_In. }
    induction H as [|p l Hp _ IH]; constructor; [by apply provider_roundtrip | done].
Qed.

Lemma mock_enrollments : ListPendingEnrollments mock secret = Ok (fx_Enrollments f).
Proof using nl Hexpiry.
  apply (one_page mock secret decode_enrollment _ _ _ (map encode_enrollment (fx_Enrollments f))); [done | |].
  - eapply mock_answers; [reflexivity|]. reflexivity.
  - apply mapM_map. intros e He. rewrite Forall_forall in Hexpiry. by apply enrollment_roundtrip, Hexpiry, list_elem_of_In.
Qed.

Lemma mock_decisions since : (forall t, since = Some t -> rfc3339_range t) -> ListDecisions mock secret since = Ok (decisions_after since).
Proof using nl Hdecided.
  intros Hsince.
  apply (one_page mock secret decode_decision _ _ _ (map encode_decision (decisions_after since))); [done | |].
  2:{ apply mapM_map. intros d Hd. apply filter_In in Hd as [Hd _]. rewrite Forall_forall in Hdecided. by apply decision_roundtrip, Hdecided, list_elem_of_In. }
  destruct since as [t|].
  - eapply mock_answers.
    + apply (parse_slashed_query ["api"; "v1"; "monitoring"; "admin"; "decisions"]%string ("since=" +:+ QueryEscape (Format_Nano t))%string); [repeat constructor|].
      rewrite safe_app. apply andb_true_iff. split; [done|]. apply QueryEscape_unfragmented.
    + change (Some (listDecisions f ("since=" +:+ QueryEscape (Format_Nano t))%string) = Some (writeRows "decisions" (map encode_decision (decisions_after (Some t))))).
      unfold listDecisions. assert (query_get ("since=" +:+ QueryEscape (Format_Nano t)) "since" = Format_Nano t) as ->.
      { unfold query_get. assert (ParseQuery ("since=" +:+ QueryEscape (Format_Nano t)) = [("since"%string, Format_Nano t)]) as -> by (by apply (ParseQuery_escaped "since")). done. }
      rewrite bool_decide_false by apply nano_nonempty. by rewrite nano_roundtrip by (by apply Hsince).
  - eapply mock_answers; [reflexivity|]. reflexivity.
Qed.

(** C20: The client and the stand-in agree on the contract: with the service
    credential, every feed the coordinator pulls from the stand-in arrives
    complete and unchanged (the enabled providers, the pending enrollments,
    the decisions after the cursor), so that a synchronization pass behaves as
    if it read the fixtures directly; with any other credential every feed is
    refused. *)
Theorem mock_serves_contract has_audit since h token : (forall t, since = Some t -> rfc3339_range t) ->
  (token = secret ->
     SyncAdvisor has_audit (client_website mock token) since h =
     SyncAdvisor has_audit (Website (Ok (map mp_provider enabled_providers)) (Ok (fx_Enrollments f)) (fun s => Ok (decisions_after s))) since h) /\
  (token <> secret -> (exists e, ws_providers (client_website mock token) = Err e) /\
     (exists e, ws_enrollments (client_website mock token) = Err e) /\
     forall s, exists e, ws_decisions (client_website mock token) s = Err e).
Proof using nl Hints Hexpiry Hdecided.
  intros Hsince. split.
  - intros ->. unfold SyncAdvisor, client_website. cbn [ws_providers ws_enrollments ws_decisions].
    by rewrite mock_providers, mock_enrollments, mock_decisions by done.
  - intros Ht. assert (forall T (dec : json -> option T) path key, exists e, fetch_feed mock token dec path key = Err e) as Hf.
    { intros T dec path key. assert (exists e, page mock token dec path key "" = Err e) as [e He].
      { unfold page, get_json, send_json, mock_server. cbn [q_target q_auth]. rewrite (bool_decide_true (""%string = ""%string)) by done.
        destruct (parse_target path) as [[seg raw]|]; [|eauto].
        rewrite bool_decide_false; [simpl; eauto|]. intros E. apply Ht. by simplify_eq. }
      exists e. unfold fetch_feed, fetchPages. change maxPages with (S (pred maxPages)).
      change (match page mock token dec path key "" with
              | Err e => Err e
              | Ok (rows, advance) => if bool_decide (advance = ""%string) || bool_decide (advance = ""%string) then Ok ([] ++ rows)
                  else fetch (fun _ => page mock token dec path key) (pred maxPages) 1 advance ([] ++ rows)
              end = Err e). by rewrite He. }
    split_and!; [apply Hf | apply Hf | intros s; apply Hf].
Qed.
End ClientMock.

(** * Concrete instances *)
Module ToyWebsite.
(** A time as the decimal text of its nanoseconds. *)
Definition nano_format (t : Z) : string := String "t" (NilZero.string_of_int (Z.to_int t)).
Definition nano_parse (s : string) : option Z :=
  match s with String _ r => Z.of_int <$> NilZero.int_of_string r | EmptyString => None end.
Definition nano_time : TimeText := {| Format_RFC3339 := nano_format; Parse_RFC3339 := nano_parse |}.
Definition nano_text : @NanoText nano_time := {| Format_Nano := nano_format |}.

Lemma nano_laws : @NanoLaws nano_time nano_text.
Proof.
  split; [|done]. intros t _. simpl. destruct (to_int_not_nil t). rewrite NilZero.isi by done. simpl. by rewrite DecimalZ.of_to.
Qed.

Definition fixtures : Fixtures := MkFixtures
  [MkMock (MkProvider "p1" "Example Hosting" [64500; 64501] true 5) 10; MkMock (MkProvider "p2" "Other" [64502] false 0) 20]
  [MkEnrollment "e1" "w1" "edge" "op" "hash" 1000]
  [MkDecision "d1" "w1" "active" "" 50; MkDecision "d2" "w1" "suspended" "abuse" 150].
End ToyWebsite.

Lemma cursor_roundtrip_witness :
  exists raw, parse_target (withCursor "/api/v1/monitoring/providers?enabled=true" "a&b=c#/+ ") =
      Some (["api"; "v1"; "monitoring"; "providers"]%string, raw) /\
    query_get raw "cursor" = "a&b=c#/+ "%string /\ query_get raw "enabled" = "true"%string.
Proof.
  destruct (cursor_roundtrip ["api"; "v1"; "monitoring"; "providers"]%string (Some "enabled=true"%string) "a&b=c#/+ ") as (raw & Hp & Hc & Hk).
  - repeat constructor.
  - intros q' [= <-]. split; [reflexivity|]. vm_compute. intros [E|[]]. discriminate E.
  - exists raw. split; [exact Hp|]. split; [exact Hc|]. apply (Hk "enabled"%string). discriminate.
Defined.

Lemma mock_serves_contract_witness :
  let mock := @mock_server ToyWebsite.nano_time ToyWebsite.nano_text ToyWebsite.fixtures "s3cret" in
  let client := @client_website ToyWebsite.nano_time ToyWebsite.nano_text mock in
  (forall h, SyncAdvisor true (client "s3cret"%string) (Some 100) h =
     SyncAdvisor true (Website (Ok [MkProvider "p1" "Example Hosting" [64500; 64501] true 5])
       (Ok [MkEnrollment "e1" "w1" "edge" "op" "hash" 1000])
       (fun s => Ok (decisions_after ToyWebsite.fixtures s))) (Some 100) h) /\
  decisions_after ToyWebsite.fixtures (Some 100) = [MkDecision "d2" "w1" "suspended" "abuse" 150] /\
  exists e, ws_enrollments (client "guess"%string) = Err e.
Proof.
  assert (Forall mock_ok (fx_Providers ToyWebsite.fixtures)) as H1.
  { repeat constructor; unfold rfc3339_range, Second; simpl; try lia; reflexivity. }
  assert (Forall (fun e => rfc3339_range (ExpiresAt e)) (fx_Enrollments ToyWebsite.fixtures)) as H2.
  { repeat constructor; unfold rfc3339_range, Second; simpl; lia. }
  assert (Forall (fun d => rfc3339_range (DecidedAt d)) (fx_Decisions ToyWebsite.fixtures)) as H3.
  { repeat constructor; unfold rfc3339_range, Second; simpl; lia. }
  assert (forall t, Some 100 = Some t -> rfc3339_range t) as H4.
  { intros t [= <-]. unfold rfc3339_range, Second. lia. }
  pose proof (fun h token => @mock_serves_contract _ _ ToyWebsite.nano_laws ToyWebsite.fixtures "s3cret" H1 H2 H3 true (Some 100) h token H4) as H.
  split; [intros h; exact (proj1 (H h "s3cret"%string) eq_refl)|]. split; [reflexivity|].
  apply (proj2 (H ∅ "guess"%string)). discriminate.
Defined.
