(* ===== verification/Client.v ===== *)
(** The worker process ([internal/worker]): its memory, its state directory
    and the other end of its connections, and the signed coordinator client
    ([client.go]).

    The other end is any [Network]: a transition function from requests to
    responses, trusted with nothing.  The JSON codecs of the client and the
    path of a URL are parameters. *)
From stdpp Require Import base gmap strings list.
From Stdlib Require Import ZArith QArith Lia String.
From S2P Require Import Prelude Codec Netip Schema Wireauth StateDir.
From S2P Require Artifact Observation Upload Server.
Import Observation(Observation).
Open Scope Z_scope.

(** * Wire *)
Record wire_response : Type := WireResponse { wr_status : Z; wr_text : string }.
(** [http.Client.Do]: [None] is a transport error. *)
Class Network (N : Type) : Type := {
  round_trip : Server.request -> Z -> N -> option wire_response * N
}.

Record RegisterResponse : Type := MkRegisterResponse { rr_WorkerID : string; rr_State : string }.
Record HeartbeatResponse : Type := MkHeartbeatResponse {
  hb_State : string;
  hb_Actions : list string;
  hb_Snapshot : option string
}.
Record ManifestResponse : Type := MkManifestResponse {
  mr_Manifest : Artifact.Manifest;
  mr_DownloadPath : string
}.
Record Assignment : Type := MkAssignment {
  as_ID : Z;
  as_Target : string;
  as_ProbeType : string;
  as_IntervalSeconds : Z;
  as_Params : string
}.

(** [encoding/json] on the client's side; a marshalling error is possible only
    for observations (their metrics are arbitrary). *)
Class ClientJSON : Type := {
  encode_register : Server.registerRequest -> string;
  encode_heartbeat : string -> string;
  encode_rotate : string -> string;
  encode_lease : Z -> string;
  encode_upload : Upload.uploadRequest -> option string;
  decode_register : string -> option RegisterResponse;
  decode_heartbeat : string -> option HeartbeatResponse;
  decode_manifest : string -> option ManifestResponse;
  decode_assignments : string -> option (list Assignment)
}.
(** The path of a URL, as [http.NewRequest] parses it. *)
Class URLText : Type := { url_path : string -> option string }.

Section Worker.
Context {cr : Crypto} {tm : TimeText} {sc : SeedCrypto}.

Record Client : Type := MkClient { BaseURL : string; c_WorkerID : string; c_Key : PrivateKey }.
Definition NewClient (baseURL : string) (key : PrivateKey) : Client := MkClient baseURL "" key.
Definition WithID (id : string) (c : Client) : Client := MkClient (BaseURL c) id (c_Key c).
Definition with_key (k : PrivateKey) (c : Client) : Client := MkClient (BaseURL c) (c_WorkerID c) k.

(** * The process

    A measurement goroutine between two channel operations: probing or
    waiting; it found the queue full and will take the oldest element out; it
    will try to send once more. *)
Inductive phase : Type :=
| Idle
| QueueFull (obs : Observation)
| Resend (obs : Observation).

Record loop : Type := Loop {
  lp_assignment : Assignment;
  lp_target : addr;
  lp_cancelled : bool;
  lp_phase : phase
}.

(** The executor: [ex_running] maps an assignment to the goroutine its cancel
    function stops, [ex_loops] are the goroutines, [ex_pending] is the
    uploader's slice.  [ex_crashed] is a panic of the process. *)
Record Executor : Type := MkExecutor {
  ex_key : PrivateKey;
  ex_capacity : Z;
  ex_queue : list Observation;
  ex_running : gmap Z nat;
  ex_loops : gmap nat loop;
  ex_next : nat;
  ex_pending : list Observation;
  ex_submitted : Z;
  ex_lastUploadAt : Z;
  ex_lastUploadMS : Z;
  ex_crashed : bool
}.

(** The agent's variables; a zero time is [None]. *)
Record Agent : Type := MkAgent {
  ag_lastState : string;
  ag_waitingSince : option Z;
  ag_lastWaitLog : option Z;
  ag_executor : option Executor;
  ag_started : bool
}.

Section Net.
Context {N : Type} {nw : Network N} {cj : ClientJSON} {ut : URLText}.

Record worker : Type := MkWorker {
  wk_disk : disk;
  wk_client : Client;
  wk_agent : Agent;
  wk_net : N
}.
Definition set_disk (d : disk) (w : worker) : worker := MkWorker d (wk_client w) (wk_agent w) (wk_net w).
Definition set_client (f : Client -> Client) (w : worker) : worker :=
  MkWorker (wk_disk w) (f (wk_client w)) (wk_agent w) (wk_net w).
Definition set_agent (f : Agent -> Agent) (w : worker) : worker :=
  MkWorker (wk_disk w) (wk_client w) (f (wk_agent w)) (wk_net w).

Abbreviation WM := (M worker).

Definition on_disk {A} (m : DM A) : WM A := fun w =>
  let (r, w') := m (World (wk_disk (w_db w)) (w_now w) (w_faults w)) in
  (r, World (set_disk (w_db w') (w_db w)) (w_now w') (w_faults w')).
Definition look {A} (f : worker -> A) : WM A := fun w => (Ok (f (w_db w)), w).
Definition mutate (f : worker -> worker) : WM unit := fun w => (Ok tt, World (f (w_db w)) (w_now w) (w_faults w)).

(** * Requests *)
Definition send (r : Server.request) : WM wire_response := fun w =>
  match round_trip r (w_now w) (wk_net (w_db w)) with
  | (resp, n) =>
      let w' := World (MkWorker (wk_disk (w_db w)) (wk_client (w_db w)) (wk_agent (w_db w)) n) (w_now w) (w_faults w) in
      match resp with
      | Some resp => (Ok resp, w')
      | None => (Err (EMsg "transport"), w')
      end
  end.

(** [wireauth.Sign] with a fresh nonce. *)
Definition sign_request (method path body : string) : WM auth_headers :=
  let! raw := attempt (on_disk (rand_read 16)) in
  let! now := clock in
  let! c := look wk_client in
  match Wireauth.Sign method path (c_WorkerID c) (c_Key c) body
          (match raw with Ok s => Some s | Err _ => None end) now with
  | Ok h => ret h
  | Err e => throw e
  end.

Definition no_headers : auth_headers := AuthHeaders "" "" "" "".

(** [Client.do]: [body] is the outcome of [json.Marshal]. *)
Definition do {A} (method path : string) (body : option string) (decode : string -> option A) : WM A :=
  match body with
  | None => throw (EMsg "json")
  | Some payload =>
      let! c := look wk_client in
      match url_path (BaseURL c +:+ path) with
      | None => throw (EMsg "url")
      | Some p =>
          let! h := (if bool_decide (c_WorkerID c = "") then ret no_headers else sign_request method p payload) in
          let! resp := send (Server.Request method p h "" "" (Some payload)) in
          if 300 <=? wr_status resp then throw (EMsg (method +:+ " " +:+ path))
          else match decode (wr_text resp) with Some a => ret a | None => throw (EMsg "json") end
      end
  end.
Definition no_result (_ : string) : option unit := Some tt.

Definition Register (enrollmentToken name version : string) : WM RegisterResponse :=
  let! c := look wk_client in
  let req := Server.RegisterRequest enrollmentToken (b64_encode (Public (c_Key c))) name version in
  let! resp := do "POST" "/api/v1/workers/register" (Some (encode_register req)) decode_register in
  do! mutate (set_client (WithID (rr_WorkerID resp))) ;;
  ret resp.

Definition Heartbeat (version : string) : WM HeartbeatResponse :=
  do "POST" "/api/v1/workers/heartbeat" (Some (encode_heartbeat version)) decode_heartbeat.

Definition CurrentManifest : WM ManifestResponse :=
  do "GET" "/api/v1/artifacts/routing/current" (Some ""%string) decode_manifest.

Definition RotateKey (nextPub : string) : WM unit :=
  do "POST" "/api/v1/workers/keys/rotate" (Some (encode_rotate (b64_encode nextPub))) no_result.

Definition Retire : WM unit := do "POST" "/api/v1/workers/retire" (Some "{}"%string) no_result.

Definition LeaseAssignments (capacity : Z) : WM (list Assignment) :=
  do "POST" "/api/v1/assignments/lease" (Some (encode_lease capacity)) decode_assignments.

Definition UploadObservations (batchID : string) (obs : list Observation) : WM unit :=
  do "POST" "/api/v1/observations" (encode_upload (Upload.UploadRequest batchID obs)) no_result.

(** [os.CreateTemp(dir, "routing-*.sqlite.partial")]; [rnd] is the random part
    it settled on, which names no existing file. *)
Definition temp_name (rnd : string) : string := "routing-" +:+ rnd +:+ ".sqlite.partial".
Definition CreateTemp (name : string) : DM unit :=
  stmt (fun _ d => match files d !! name with
                   | Some _ => Err (EMsg "file exists")
                   | None => Ok (tt, set_files (<[name := ""%string]>) d)
                   end).

Definition DownloadArtifact (downloadPath rnd : string) : WM string :=
  let! c := look wk_client in
  match url_path (BaseURL c +:+ downloadPath) with
  | None => throw (EMsg "url")
  | Some p =>
      let! h := sign_request "GET" p "" in
      let! resp := send (Server.Request "GET" p h "" "" (Some ""%string)) in
      if negb (wr_status resp =? 200) then throw (EMsg "download")
      else
        let tmp := temp_name rnd in
        do! on_disk (CreateTemp tmp) ;;
        let! copied := attempt (on_disk (forM (list_ascii_of_string (wr_text resp)) (append_byte tmp))) in
        match copied with
        | Err e =>
            do! attempt (on_disk close_file) ;; do! attempt (on_disk (Remove tmp)) ;; throw e
        | Ok _ =>
            let! closed := attempt (on_disk close_file) in
            match closed with
            | Err e => do! attempt (on_disk (Remove tmp)) ;; throw e
            | Ok _ => ret tmp
            end
        end
  end.
End Net.
End Worker.
Arguments worker {cr} N.

(** * Lemmas *)
Section Rules.
Context {cr : Crypto} {tm : TimeText} {sc : SeedCrypto} {N : Type} {nw : Network N} {cj : ClientJSON} {ut : URLText}.
Implicit Types (R : Z -> worker N -> worker N -> Prop).

(** A two-state property of the process that looks at neither the network nor
    the random source. *)
Class Indifferent R : Prop := indifferent : forall n w w',
  files (wk_disk w') = files (wk_disk w) -> wk_client w' = wk_client w -> wk_agent w' = wk_agent w -> R n w w'.

(** What a directory operation has to respect. *)
Definition OnDisk R : Z -> disk -> disk -> Prop := fun n d d' => forall w, R n (set_disk d w) (set_disk d' w).
#[global] Instance OnDisk_preorder R `{!PreOrderAt R} : PreOrderAt (OnDisk R).
Proof. split; unfold OnDisk; [intros; apply at_refl | intros ???? H1 H2 w; eapply at_trans; eauto]. Qed.

Lemma set_disk_eta (w : worker N) : set_disk (wk_disk w) w = w.
Proof. by destruct w. Qed.

Section Lifted.
Context R {po : PreOrderAt R}.

Lemma respects_on_disk {A} (m : DM A) : Respects (OnDisk R) m -> Respects R (on_disk m).
Proof.
  intros Hm w r w' E. unfold on_disk in E. destruct (m _) as [r0 w0] eqn:Em. injection E as <- <-.
  apply Hm in Em as [Hn HR]. simpl in *. split; [done|]. specialize (HR (w_db w)). by rewrite set_disk_eta in HR.
Qed.
Lemma respects_look {A} (f : worker N -> A) : Respects R (look f).
Proof. intros w r w' E. unfold look in E. simplify_eq. split; [done|apply at_refl]. Qed.
Lemma respects_mutate f : (forall n w, R n w (f w)) -> Respects R (mutate f).
Proof. intros Hf w r w' E. unfold mutate in E. simplify_eq. simpl. auto. Qed.

Context {ind : Indifferent R}.
Lemma respects_send q : Respects R (send q).
Proof.
  intros w r w' E. unfold send in E. destruct (round_trip _ _ _) as [[resp|] n]; simplify_eq; simpl;
    (split; [done|]); by apply indifferent.
Qed.
Lemma on_disk_rand n : Respects (OnDisk R) (rand_read n).
Proof. apply rand_read_respects; [apply _|]. intros k d ds w. by apply indifferent. Qed.
Lemma on_disk_read name : Respects (OnDisk R) (ReadFile name).
Proof. unfold ReadFile. respects. case_match; simplify_eq. apply at_refl. Qed.
Lemma respects_sign m p b : Respects R (sign_request m p b).
Proof.
  unfold sign_request. respects; [apply respects_on_disk, on_disk_rand | apply respects_clock; apply _ | apply respects_look].
Qed.
Lemma respects_do {A} m p b (decode : string -> option A) : Respects R (do m p b decode).
Proof. unfold do. respects; [apply respects_look | apply respects_sign | apply respects_send]. Qed.
Lemma on_disk_version : Respects (OnDisk R) SnapshotVersion.
Proof. unfold SnapshotVersion. respects. apply on_disk_read. Qed.
End Lifted.

(** A request makes no system call that the fault schedule counts. *)
Lemma do_faults {A} m p b (decode : string -> option A) w r w' :
  do (N := N) m p b decode w = (r, w') -> w_faults w' = w_faults w.
Proof.
  unfold do, sign_request, on_disk, rand_read, send, attempt, bindM, look, clock, ret, throw.
  intros H. repeat case_match; by simplify_eq.
Qed.
End Rules.
Arguments OnDisk {cr N} R n d d'.

#[export] Hint Resolve respects_on_disk respects_look respects_mutate respects_send respects_sign respects_do on_disk_rand
  on_disk_read on_disk_version : vapn.

(** One step of [Respects R] over a computation of the process. *)
Ltac worker_step :=
  match goal with
  | |- Respects _ (on_disk _) => apply respects_on_disk
  | |- Respects _ (look _) => apply respects_look; apply _
  | |- Respects _ (mutate _) => apply respects_mutate
  | |- Respects _ (do _ _ _ _) => apply respects_do; apply _
  | |- Respects _ (send _) => apply respects_send; apply _
  | |- Respects _ (sign_request _ _ _) => apply respects_sign; apply _
  | |- Respects _ clock => apply respects_clock; apply _
  | |- Respects _ (rand_read _) => apply on_disk_rand; apply _
  | |- Respects _ (ReadFile _) => apply on_disk_read; apply _
  | |- Respects _ SnapshotVersion => apply on_disk_version; apply _
  end.
Ltac process := repeat first [ worker_step | progress respects ].
