(* ===== verification/Executor.v ===== *)
(** [internal/worker/executor.go]: the probe executor.

    Every operation that the code performs under its mutex or as one channel
    operation is one computation on the process ([Client.worker]); the
    goroutines interleave in any order ([estep] below).  The bounded channel
    is a list of at most 4096 observations. *)
From stdpp Require Import base gmap strings list.
From Stdlib Require Import ZArith QArith Lia.
From S2P Require Import Prelude Codec Netip Schema Wireauth StateDir Probe Client.
From S2P Require Artifact Observation Upload Server.
Import Observation(Observation, ObservationJSON, MkObservation).
Open Scope Z_scope.

(** Two's complement [int64]. *)
Definition int64 (z : Z) : Z := (z + 2 ^ 63) mod 2 ^ 64 - 2 ^ 63.

Definition queueCapacity : nat := 4096.
Definition maxBatch : nat := 256.

(** The reader of a SQLite file: [None] when the content is not one. *)
Class SQLiteReader : Type := {
  sqlite_targets : string -> option (list string)
}.

Section Executor.
Context {cr : Crypto} {tm : TimeText} {sc : SeedCrypto} {oj : ObservationJSON} {at_ : Upload.AddrText}
  {sr : SQLiteReader} {mo : MapOrder} {N : Type} {nw : Network N} {cj : ClientJSON} {ut : URLText}.
Context {E : Type} (registry : Registry E).

#[local] Abbreviation WM := (M (worker N)).

Definition NewExecutor (key : PrivateKey) : Executor :=
  MkExecutor key 64 [] ∅ ∅ 0 [] 0 0 0 false.

(** ** Access to the executor of the process *)
Definition ErrNoExecutor : error := EMsg "no executor".
Definition look_exec : WM Executor :=
  let! a := look wk_agent in
  match ag_executor a with Some e => ret e | None => throw ErrNoExecutor end.
Definition map_exec (f : Executor -> Executor) (a : Agent) : Agent :=
  MkAgent (ag_lastState a) (ag_waitingSince a) (ag_lastWaitLog a) (f <$> ag_executor a) (ag_started a).
Definition mutate_exec (f : Executor -> Executor) : WM unit := mutate (set_agent (map_exec f)).

Definition set_queue (q : list Observation) (e : Executor) : Executor :=
  MkExecutor (ex_key e) (ex_capacity e) q (ex_running e) (ex_loops e) (ex_next e) (ex_pending e) (ex_submitted e)
    (ex_lastUploadAt e) (ex_lastUploadMS e) (ex_crashed e).
Definition set_loops (f : gmap nat loop -> gmap nat loop) (e : Executor) : Executor :=
  MkExecutor (ex_key e) (ex_capacity e) (ex_queue e) (ex_running e) (f (ex_loops e)) (ex_next e) (ex_pending e)
    (ex_submitted e) (ex_lastUploadAt e) (ex_lastUploadMS e) (ex_crashed e).
Definition set_running (f : gmap Z nat -> gmap Z nat) (e : Executor) : Executor :=
  MkExecutor (ex_key e) (ex_capacity e) (ex_queue e) (f (ex_running e)) (ex_loops e) (ex_next e) (ex_pending e)
    (ex_submitted e) (ex_lastUploadAt e) (ex_lastUploadMS e) (ex_crashed e).
Definition set_pending (p : list Observation) (e : Executor) : Executor :=
  MkExecutor (ex_key e) (ex_capacity e) (ex_queue e) (ex_running e) (ex_loops e) (ex_next e) p
    (ex_submitted e) (ex_lastUploadAt e) (ex_lastUploadMS e) (ex_crashed e).
Definition cancel (l : loop) : loop := Loop (lp_assignment l) (lp_target l) true (lp_phase l).
Definition set_phase (p : phase) (l : loop) : loop := Loop (lp_assignment l) (lp_target l) (lp_cancelled l) p.

(** [Stats]. *)
Definition Stats (e : Executor) : Z * Z * option Z * Z * Z :=
  (Z.of_nat (size (ex_running e)), ex_submitted e,
   (if 0 <? ex_lastUploadAt e then Some (ex_lastUploadAt e * Millisecond) else None),
   ex_lastUploadMS e, Z.of_nat (length (ex_queue e))).

(** ** Leases *)
(** [targetInSnapshot]: opening, querying or scanning may fail. *)
Definition targetInSnapshot (target : string) : WM bool :=
  let! r := attempt (on_disk (ReadFile SnapshotPath)) in
  match r with
  | Err _ => ret false
  | Ok content =>
      match sqlite_targets content with
      | None => ret false
      | Some l => ret (bool_decide (target ∈ l))
      end
  end.

(** Stop one assignment: [cancel()] and [delete(e.running, id)]. *)
Definition stop_one (id : Z) (e : Executor) : Executor :=
  match ex_running e !! id with
  | Some g => set_running (delete id) (set_loops (alter cancel g) e)
  | None => e
  end.

(** [go e.probeLoop(runCtx, a)]: the goroutine returns at once for an
    unsupported probe type or a bad address, and panics in [rand.N] when the
    interval is not positive. *)
Definition spawn (id : Z) (a : Assignment) (e : Executor) : Executor :=
  let g := ex_next e in
  let interval := int64 (as_IntervalSeconds a * Second) in
  let '(loops, crashed) :=
    match Get registry (as_ProbeType a), Upload.ParseAddr (as_Target a) with
    | Ok _, Some target =>
        if interval <=? 0 then (ex_loops e, true)
        else (<[g := Loop a target false Idle]> (ex_loops e), ex_crashed e)
    | _, _ => (ex_loops e, ex_crashed e)
    end in
  MkExecutor (ex_key e) (ex_capacity e) (ex_queue e) (<[id := g]> (ex_running e)) loops (S g) (ex_pending e)
    (ex_submitted e) (ex_lastUploadAt e) (ex_lastUploadMS e) crashed.

Definition start_one (x : Z * Assignment) : WM unit :=
  let '(id, a) := x in
  let! e := look_exec in
  if is_some (ex_running e !! id) then ret tt
  else
    let! listed := targetInSnapshot (as_Target a) in
    if negb listed then ret tt else mutate_exec (spawn id a).

Definition current_of (assignments : list Assignment) : gmap Z Assignment :=
  foldl (fun m a => <[as_ID a := a]> m) ∅ assignments.

Definition lease : WM unit :=
  let! e := look_exec in
  let! r := attempt (LeaseAssignments (ex_capacity e)) in
  match r with
  | Err _ => ret tt
  | Ok assignments =>
      let current := current_of assignments in
      do! mutate_exec (fun e =>
            foldl (fun e id => if is_some (current !! id) then e else stop_one id e) e (shuffle (map fst (map_to_list (ex_running e))))) ;;
      forM (shuffle (map_to_list current)) start_one
  end.

Definition stopAll : WM unit :=
  mutate_exec (fun e => foldl (fun e id => stop_one id e) e (shuffle (map fst (map_to_list (ex_running e))))).

(** ** Probing *)
Definition observation_of (a : Assignment) (measured : Z) (res : Result) : Observation :=
  MkObservation (as_ID a) (as_Target a) (as_ProbeType a) measured (ROK res)
    (if ROK res then Some (RRTTMillis res) else None) (RPacketsSent res) (RPacketsLost res)
    (JObj (map (fun '(k, q) => (k, JNum q)) (RMetrics res))) "".

(** [execute] by goroutine [g], up to its first channel operation: the probe,
    the signature, and the send; [measured] is the clock after the probe. *)
Definition execute (g : nat) (env : E) (measured : Z) (e : Executor) : Executor :=
  match ex_loops e !! g with
  | Some l =>
      match lp_phase l with
      | Idle =>
          match Get registry (as_ProbeType (lp_assignment l)) with
          | Err _ => e
          | Ok prober =>
              match Probe_ prober env (lp_target l) (MkParams 0 0 0) with
              | Err _ => e
              | Ok res =>
                  match Observation.Sign (observation_of (lp_assignment l) measured res) (ex_key e) with
                  | Err _ => e
                  | Ok obs =>
                      if Nat.ltb (length (ex_queue e)) queueCapacity then set_queue (ex_queue e ++ [obs]) e
                      else set_loops (alter (set_phase (QueueFull obs)) g) e
                  end
              end
          end
      | _ => e
      end
  | None => e
  end.

(** The two further channel operations when the queue was full: take the
    oldest element out if there is one, then send if there is room. *)
Definition drop_oldest (g : nat) (e : Executor) : Executor :=
  match ex_loops e !! g with
  | Some l =>
      match lp_phase l with
      | QueueFull obs => set_loops (alter (set_phase (Resend obs)) g) (set_queue (tail (ex_queue e)) e)
      | _ => e
      end
  | None => e
  end.
Definition resend (g : nat) (e : Executor) : Executor :=
  match ex_loops e !! g with
  | Some l =>
      match lp_phase l with
      | Resend obs =>
          set_loops (alter (set_phase Idle) g)
            (if Nat.ltb (length (ex_queue e)) queueCapacity then set_queue (ex_queue e ++ [obs]) e else e)
      | _ => e
      end
  | None => e
  end.
(** A cancelled goroutine returns after the [execute] it is in. *)
Definition finish (g : nat) (e : Executor) : Executor :=
  match ex_loops e !! g with
  | Some (Loop _ _ true Idle) => set_loops (delete g) e
  | _ => e
  end.

(** ** Uploading *)
(** What one round of the flush loop reads from outside: the batch id and the
    clock before and after the upload. *)
Record round : Type := Round { rd_uuid : string; rd_start : Z; rd_end : Z }.

Definition uploaded (n : nat) (rd : round) (e : Executor) : Executor :=
  MkExecutor (ex_key e) (ex_capacity e) (ex_queue e) (ex_running e) (ex_loops e) (ex_next e) (drop n (ex_pending e))
    ((ex_submitted e + Z.of_nat n) mod 2 ^ 64) (rd_end rd / Millisecond) (Z.quot (rd_end rd - rd_start rd) Millisecond)
    (ex_crashed e).

(** The loop of [flush]: [true] when it ended with nothing pending, [false]
    when an upload failed.  [fuel] bounds the rounds; every round uploads at
    least one observation, so the number pending is enough. *)
Fixpoint flush_loop (fuel : nat) (rounds : nat -> round) : WM bool :=
  match fuel with
  | O => ret true
  | S fuel' =>
      let! e := look_exec in
      match ex_pending e with
      | [] => ret true
      | _ =>
          let n := Nat.min (length (ex_pending e)) maxBatch in
          let rd := rounds 0%nat in
          let! r := attempt (UploadObservations (rd_uuid rd) (take n (ex_pending e))) in
          match r with
          | Err _ => ret false
          | Ok _ => do! mutate_exec (uploaded n rd) ;; flush_loop fuel' (fun i => rounds (S i))
          end
      end
  end.
Definition flush (rounds : nat -> round) : WM bool :=
  let! e := look_exec in flush_loop (length (ex_pending e)) rounds.

(** A receive from the channel: [pending = append(pending, obs)]. *)
Definition take_one (e : Executor) : Executor :=
  match ex_queue e with
  | [] => e
  | obs :: q => set_pending (ex_pending e ++ [obs]) (set_queue q e)
  end.

(** [case obs := <-e.queue] of the uploader; it blocks on an empty queue. *)
Definition receive (rounds : nat -> round) : WM unit :=
  let! e := look_exec in
  match ex_queue e with
  | [] => ret tt
  | _ =>
      do! mutate_exec take_one ;;
      if Nat.leb maxBatch (length (ex_pending e) + 1) then do! flush rounds ;; ret tt else ret tt
  end.

(** [case <-ctx.Done()]: drain the queue, then a last flush. *)
Definition shutdown (rounds : nat -> round) : WM unit :=
  let! e := look_exec in
  do! mutate_exec (fun e' => Nat.iter (length (ex_queue e)) take_one e') ;;
  do! flush rounds ;; ret tt.
End Executor.

(** * Lemmas *)
Section Lemmas.
Context {cr : Crypto} {tm : TimeText} {sc : SeedCrypto} {oj : ObservationJSON} {at_ : Upload.AddrText}
  {sr : SQLiteReader} {mo : MapOrder} {N : Type} {nw : Network N} {cj : ClientJSON} {ut : URLText}.
Context {E : Type} (registry : Registry E).

Definition exec_of (w : world (worker N)) : option Executor := ag_executor (wk_agent (w_db w)).

(** The agent's variables, the client and the files stay as they are. *)
Definition Quiet (_ : Z) (w w' : worker N) : Prop :=
  files (wk_disk w') = files (wk_disk w) /\ wk_client w' = wk_client w /\ wk_agent w' = wk_agent w.
#[global] Instance Quiet_preorder : PreOrderAt Quiet.
Proof. split; unfold Quiet; [done|]. intros ???? (?&?&?) (?&?&?). split_and!; congruence. Qed.
#[global] Instance Quiet_indifferent : Indifferent Quiet.
Proof. by intros n w w' ???. Qed.

Lemma look_exec_run e w : exec_of w = Some e -> look_exec w = (Ok e, w).
Proof. unfold exec_of, look_exec, look, bindM. intros ->. done. Qed.

Lemma mutate_exec_run f e w : exec_of w = Some e ->
  exists w', mutate_exec f w = (Ok tt, w') /\ exec_of w' = Some (f e) /\ w_now w' = w_now w /\
    w_faults w' = w_faults w /\ wk_disk (w_db w') = wk_disk (w_db w) /\ wk_client (w_db w') = wk_client (w_db w).
Proof.
  intros He. eexists. split; [reflexivity|]. unfold exec_of in *. simpl. by rewrite He.
Qed.

Lemma Upload_quiet id obs : Respects Quiet (UploadObservations (N := N) id obs).
Proof. unfold UploadObservations. process. Qed.

Lemma quiet_exec w w' n : Quiet n (w_db w) (w_db w') -> exec_of w' = exec_of w.
Proof. intros (_ & _ & H). unfold exec_of. by rewrite H. Qed.

(** ** The flush loop *)
(** Batches uploaded one after the other, every one acknowledged. *)
Inductive Acked : list (list Observation) -> world (worker N) -> world (worker N) -> Prop :=
| Acked_nil w : Acked [] w w
| Acked_cons batch batches id n rd w w1 w2 w3 :
    UploadObservations id batch w = (Ok tt, w1) ->
    mutate_exec (uploaded n rd) w1 = (Ok tt, w2) ->
    Acked batches w2 w3 -> Acked (batch :: batches) w w3.

Definition batch_ok (b : list Observation) : Prop := (1 <= length b <= maxBatch)%nat.

(** What a flush that starts in [w] with executor [e] has done in [w']: a
    prefix of the pending observations was uploaded in batches, every one of
    them acknowledged; nothing else of the executor changed than the
    counters; [b] is false exactly when the next upload failed. *)
Definition Flushed (w : world (worker N)) (e : Executor) (b : bool) (w' : world (worker N)) : Prop :=
  exists (e' : Executor) (batches : list (list Observation)) (w1 : world (worker N)),
    exec_of w' = Some e' /\ ex_pending e = concat batches ++ ex_pending e' /\
    Forall batch_ok batches /\ Acked batches w w1 /\
    e' = MkExecutor (ex_key e) (ex_capacity e) (ex_queue e) (ex_running e) (ex_loops e) (ex_next e) (ex_pending e')
      (ex_submitted e') (ex_lastUploadAt e') (ex_lastUploadMS e') (ex_crashed e) /\
    (0 <= ex_submitted e < 2 ^ 64 ->
       ex_submitted e' = (ex_submitted e + Z.of_nat (length (concat batches))) mod 2 ^ 64) /\
    (if b then ex_pending e' = [] /\ w' = w1
     else ex_pending e' <> [] /\ exists id err,
       UploadObservations id (take (Nat.min (length (ex_pending e')) maxBatch) (ex_pending e')) w1 = (Err err, w')).

Lemma Flushed_none w w' e (b : bool) : exec_of w' = Some e ->
  (if b then ex_pending e = [] /\ w' = w
   else ex_pending e <> [] /\ exists id err,
     UploadObservations id (take (Nat.min (length (ex_pending e)) maxBatch) (ex_pending e)) w = (Err err, w')) ->
  Flushed w e b w'.
Proof.
  intros He Hb. exists e, [], w. split; [done|]. split; [done|]. split; [constructor|]. split; [constructor|].
  split; [by destruct e|]. split; [|done]. intros Hs. simpl. by rewrite Z.add_0_r, Z.mod_small.
Qed.

Lemma flush_loop_spec fuel : forall rounds w e,
  exec_of w = Some e -> (length (ex_pending e) <= fuel)%nat ->
  exists b w', flush_loop fuel rounds w = (Ok b, w') /\ Flushed w e b w'.
Proof.
  induction fuel as [|fuel IH]; intros rounds w e He Hf.
  { exists true, w. split; [done|]. apply Flushed_none; [done|]. by destruct (ex_pending e); [|simpl in Hf; lia]. }
  cbn [flush_loop]. unfold bindM at 1. rewrite (look_exec_run _ _ He).
  destruct (ex_pending e) as [|o p] eqn:Ep; [exists true, w; split; [done|by apply Flushed_none]|]. rewrite <- Ep.
  set (n := Nat.min (length (ex_pending e)) maxBatch).
  assert (1 <= n <= length (ex_pending e))%nat as Hn by (subst n; rewrite Ep; unfold maxBatch; simpl; lia).
  unfold bindM at 1. unfold attempt at 1.
  destruct (UploadObservations _ _ w) as [r w1] eqn:Eu.
  apply Upload_quiet in Eu as Hq. destruct Hq as [_ Hq%quiet_exec]. rewrite He in Hq.
  destruct r as [[]|err].
  - destruct (mutate_exec_run (uploaded n (rounds 0%nat)) e w1 Hq) as (w2 & Em & He2 & _).
    unfold bindM at 1. rewrite Em. destruct (IH (fun i => rounds (S i)) w2 _ He2) as (b & w' & Hrun & HF).
    { simpl. rewrite length_drop. rewrite Ep in *. simpl in *. lia. }
    exists b, w'. split; [done|]. destruct HF as (e' & batches & w3 & He' & Hcat & Hok & Hack & Hfr & Hsub & Hb).
    exists e', (take n (ex_pending e) :: batches), w3. split; [done|]. split.
    { simpl in Hcat. simpl. rewrite <- app_assoc, <- Hcat. by rewrite take_drop. }
    split. { constructor; [|done]. unfold batch_ok. rewrite length_take. subst n. lia. }
    split; [by econstructor|]. split; [done|]. split; [|done].
    intros Hs. simpl in Hsub. rewrite Hsub by (apply Z.mod_pos_bound; lia). simpl. rewrite length_app, length_take.
    rewrite Zplus_mod_idemp_l. f_equal. subst n. lia.
  - exists false, w1. split; [done|]. apply Flushed_none; [done|]. split; [by rewrite Ep|]. eauto.
Qed.

Lemma flush_run rounds w e : exec_of w = Some e -> exists b w', flush rounds w = (Ok b, w') /\ Flushed w e b w'.
Proof.
  intros He. unfold flush, bindM. rewrite (look_exec_run _ _ He). by apply flush_loop_spec.
Qed.

(** ** Leases *)
(** The installed snapshot lists [t]. *)
Definition listed (f : gmap string string) (t : string) : Prop :=
  exists c l, f !! SnapshotPath = Some c /\ sqlite_targets c = Some l /\ t ∈ l.

(** Goroutine numbers are fresh and an assignment has its own. *)
Definition ExecWF (e : Executor) : Prop :=
  (forall id g, ex_running e !! id = Some g -> (g < ex_next e)%nat) /\
  (forall g, is_Some (ex_loops e !! g) -> (g < ex_next e)%nat) /\
  (forall i j g, ex_running e !! i = Some g -> ex_running e !! j = Some g -> i = j).

Lemma targetInSnapshot_run t w : exists b w',
  targetInSnapshot t w = (Ok b, w') /\ Quiet (w_now w) (w_db w) (w_db w') /\ w_now w' = w_now w /\
  (w_faults w = [] -> w_faults w' = []) /\
  (b = true -> listed (files (wk_disk (w_db w))) t) /\
  (w_faults w = [] -> listed (files (wk_disk (w_db w))) t -> b = true).
Proof.
  unfold targetInSnapshot, bindM, attempt, on_disk.
  destruct (ReadFile SnapshotPath _) as [r d] eqn:Er. pose proof Er as Er'. apply ReadFile_run in Er as [Hd Hf].
  simpl in Hd, Hf.
  assert (w_now d = w_now w) as Hnow.
  { destruct r; [by apply stmt_Ok in Er' as [_ ?]|by apply stmt_Err in Er' as [_ ?]]. }
  assert (w_faults w = [] -> w_faults d = [] /\ forall c, files (wk_disk (w_db w)) !! SnapshotPath = Some c -> r = Ok c) as Hnf.
  { intros Hw. unfold ReadFile, stmt in Er'. simpl in Er'. rewrite Hw in Er'.
    destruct (files _ !! SnapshotPath); simplify_eq; simpl; naive_solver. }
  set (w1 := World (set_disk (w_db d) (w_db w)) (w_now d) (w_faults d)).
  assert (Quiet (w_now w) (w_db w) (w_db w1)) as Hq by (subst w1; unfold Quiet; simpl; by rewrite Hd).
  destruct r as [c|err]; [destruct (sqlite_targets c) as [l|] eqn:El|]; eexists _, w1; (split; [reflexivity|]);
    (split; [done|]); (split; [done|]); (split; [naive_solver|]); split; try done.
  - intros Hb. btrue. by exists c, l.
  - intros Hw (c' & l' & Hc & Hl & Ht). destruct (Hnf Hw) as [_ Hr]. specialize (Hr _ Hc). simplify_eq.
    by apply bool_decide_eq_true.
  - intros Hw (c' & l' & Hc & Hl & Ht). destruct (Hnf Hw) as [_ Hr]. specialize (Hr _ Hc). simplify_eq.
  - intros Hw (c' & l' & Hc & Hl & Ht). destruct (Hnf Hw) as [_ Hr]. by specialize (Hr _ Hc).
Qed.

(** What starting assignments of [cur] may do to the executor. *)
Record Started (f : gmap string string) (cur : gmap Z Assignment) (e e' : Executor) : Prop := {
  started_kept : ex_key e' = ex_key e /\ ex_capacity e' = ex_capacity e /\ ex_queue e' = ex_queue e /\
    ex_pending e' = ex_pending e /\ ex_submitted e' = ex_submitted e;
  started_next : (ex_next e <= ex_next e')%nat;
  started_running : forall id g, ex_running e !! id = Some g -> ex_running e' !! id = Some g;
  started_new : forall id g, ex_running e' !! id = Some g -> ex_running e !! id = Some g \/
    (ex_running e !! id = None /\ (ex_next e <= g)%nat /\ exists a, cur !! id = Some a /\ listed f (as_Target a));
  started_loops : forall g l, ex_loops e' !! g = Some l -> ex_loops e !! g = Some l \/
    ((ex_next e <= g)%nat /\ lp_phase l = Idle /\ lp_cancelled l = false /\ listed f (as_Target (lp_assignment l)) /\
     exists id, cur !! id = Some (lp_assignment l));
  started_old : forall g, (g < ex_next e)%nat -> ex_loops e' !! g = ex_loops e !! g;
  started_wf : ExecWF e -> ExecWF e'
}.

Lemma Started_refl f cur e : Started f cur e e.
Proof. by split; auto. Qed.

Lemma Started_trans f cur e1 e2 e3 : Started f cur e1 e2 -> Started f cur e2 e3 -> Started f cur e1 e3.
Proof.
  intros [K1 N1 R1 W1 L1 O1 F1] [K2 N2 R2 W2 L2 O2 F2]. split.
  - destruct K1 as (?&?&?&?&?), K2 as (?&?&?&?&?). split_and!; congruence.
  - lia.
  - auto.
  - intros id g [H|(H & Hg & Ha)]%W2; [auto|right]. split; [|split; [lia|done]].
    destruct (ex_running e1 !! id) as [g'|] eqn:E1; [|done]. apply R1 in E1. congruence.
  - intros g l [H|(Hg & H)]%L2; [auto|right]. split; [lia|done].
  - intros g Hg. rewrite O2 by lia. by apply O1.
  - auto.
Qed.

Lemma spawn_Started f cur id a e : ex_running e !! id = None -> cur !! id = Some a -> listed f (as_Target a) ->
  (forall g, is_Some (ex_loops e !! g) -> (g < ex_next e)%nat) ->
  Started f cur e (spawn registry id a e).
Proof.
  intros Hid Hcur Hl Hwf. unfold spawn.
  assert (forall g l, <[ex_next e := l]> (ex_loops e) !! g = ex_loops e !! g \/ g = ex_next e) as Hins.
  { intros g l. destruct (decide (g = ex_next e)) as [->|Hn]; [by right|left]. by rewrite lookup_insert_ne. }
  assert (forall loops crashed, (loops = ex_loops e \/
      exists t, loops = <[ex_next e := Loop a t false Idle]> (ex_loops e)) ->
    Started f cur e (MkExecutor (ex_key e) (ex_capacity e) (ex_queue e) (<[id := ex_next e]> (ex_running e)) loops
      (S (ex_next e)) (ex_pending e) (ex_submitted e) (ex_lastUploadAt e) (ex_lastUploadMS e) crashed)) as H.
  { intros loops crashed Hloops. split; simpl.
    - done.
    - lia.
    - intros i g Hi. destruct (decide (i = id)) as [->|Hn]; [congruence|]. by rewrite lookup_insert_ne.
    - intros i g [[<- <-]|[Hn Hi]]%lookup_insert_Some; [right|by left]. split; [done|]. split; [lia|]. by exists a.
    - intros g l Hg. destruct Hloops as [->|(t & ->)]; [by left|].
      apply lookup_insert_Some in Hg as [[<- <-]|[_ Hg]]; [right|by left]. simpl. split; [lia|]. eauto.
    - intros g Hg. destruct Hloops as [->|(t & ->)]; [done|]. rewrite lookup_insert_ne by lia. done.
    - intros (Hr & Hlp & Hinj). split; simpl; [|split].
      + intros i g [[<- <-]|[_ Hi]]%lookup_insert_Some; [lia|]. apply Hr in Hi. lia.
      + intros g Hg. destruct Hloops as [->|(t & ->)]; [apply Hwf in Hg; lia|].
        destruct (decide (g = ex_next e)) as [->|Hn]; [lia|]. rewrite lookup_insert_ne in Hg by done. apply Hwf in Hg. lia.
      + intros i j g [[<- <-]|[Hi1 Hi]]%lookup_insert_Some [[<- Hj1]|[Hj1 Hj]]%lookup_insert_Some; try done.
        * apply Hr in Hj. lia.
        * apply Hr in Hi. lia.
        * by eapply Hinj. }
  destruct (Get registry (as_ProbeType a)), (Upload.ParseAddr (as_Target a)); try (apply H; by left).
  destruct (_ <=? 0); apply H; [by left|right; eauto].
Qed.

Lemma start_one_run f cur id a w e : exec_of w = Some e -> files (wk_disk (w_db w)) = f -> cur !! id = Some a -> ExecWF e ->
  exists w' e', start_one registry (id, a) w = (Ok tt, w') /\ exec_of w' = Some e' /\ files (wk_disk (w_db w')) = f /\
    wk_client (w_db w') = wk_client (w_db w) /\ Started f cur e e' /\
    (w_faults w = [] -> w_faults w' = [] /\ (listed f (as_Target a) -> is_Some (ex_running e' !! id))).
Proof.
  intros He Hf Hcur Hwf. unfold start_one, bindM. rewrite (look_exec_run _ _ He).
  destruct (ex_running e !! id) as [g|] eqn:Er; simpl.
  { exists w, e. do 4 (split; [done|]). split; [apply Started_refl|]. intros ->. rewrite Er. eauto. }
  destruct (targetInSnapshot_run (as_Target a) w) as (b & w1 & -> & Hq & _ & Hnf & Hb & Hb'). rewrite Hf in *.
  pose proof (quiet_exec _ _ _ Hq) as He1. rewrite He in He1. destruct Hq as (Hf1 & Hc1 & _). rewrite Hf in Hf1.
  destruct b; simpl.
  - destruct (mutate_exec_run (spawn registry id a) e w1 He1) as (w2 & -> & He2 & Hn2 & Hfa2 & Hd2 & Hc2).
    exists w2, (spawn registry id a e). split; [done|]. split; [done|]. split; [congruence|]. split; [congruence|]. split.
    + apply spawn_Started; auto. apply Hwf.
    + intros Hw. split; [rewrite Hfa2; auto|]. intros _. unfold spawn. repeat case_match; simpl; rewrite lookup_insert_eq; eauto.
  - exists w1, e. do 4 (split; [done|]). split; [apply Started_refl|]. intros Hw. split; [auto|].
    intros Hl. by specialize (Hb' Hw Hl).
Qed.

Lemma start_all_run f cur l : forall w e, exec_of w = Some e -> files (wk_disk (w_db w)) = f ->
  (forall id a, In (id, a) l -> cur !! id = Some a) -> ExecWF e ->
  exists w' e', forM l (start_one registry) w = (Ok tt, w') /\ exec_of w' = Some e' /\ files (wk_disk (w_db w')) = f /\
    wk_client (w_db w') = wk_client (w_db w) /\ Started f cur e e' /\
    (w_faults w = [] -> forall id a, In (id, a) l -> listed f (as_Target a) -> is_Some (ex_running e' !! id)).
Proof.
  induction l as [|[id a] l IH]; intros w e He Hf Hin Hwf; cbn [forM].
  { exists w, e. do 4 (split; [done|]). split; [apply Started_refl|done]. }
  destruct (start_one_run f cur id a w e He Hf ltac:(apply Hin; by left) Hwf)
    as (w1 & e1 & E1 & He1 & Hf1 & Hc1 & Hs1 & Hn1).
  destruct (IH w1 e1 He1 Hf1 ltac:(intros; apply Hin; by right) (started_wf _ _ _ _ Hs1 Hwf))
    as (w2 & e2 & E2 & He2 & Hf2 & Hc2 & Hs2 & Hn2).
  exists w2, e2. unfold bindM. rewrite E1. split; [done|]. split; [done|]. split; [done|]. split; [congruence|].
  split; [by eapply Started_trans|]. intros [Hw1 Hl]%Hn1 i b [Eia|Hi] Hb; [|by eapply Hn2].
  injection Eia as <- <-. destruct (Hl Hb) as [g Hg]. apply (started_running _ _ _ _ Hs2) in Hg. eauto.
Qed.

(** Stopping: the assignments of [ids] leave the map and their goroutines are
    cancelled. *)
Lemma stop_one_spec id e :
  (forall i, ex_running (stop_one id e) !! i = if decide (i = id) then None else ex_running e !! i) /\
  (forall g, ex_loops (stop_one id e) !! g =
     if decide (ex_running e !! id = Some g) then cancel <$> ex_loops e !! g else ex_loops e !! g) /\
  stop_one id e = set_running (fun _ => ex_running (stop_one id e)) (set_loops (fun _ => ex_loops (stop_one id e)) e).
Proof.
  unfold stop_one. destruct (ex_running e !! id) as [g|] eqn:Eg; simpl.
  - split; [|split; [|done]].
    + intros i. destruct (decide (i = id)) as [->|Hn]; [by rewrite lookup_delete_eq | by rewrite lookup_delete_ne].
    + intros h. destruct (decide (Some g = Some h)) as [Eg'|Hn].
      * injection Eg' as <-. by rewrite lookup_alter_eq.
      * rewrite lookup_alter_ne; [done|congruence].
  - split; [|split; [|by destruct e]].
    + intros i. destruct (decide (i = id)) as [->|Hn]; done.
    + intros h. first [done | by case_decide].
Qed.

(** What stopping the assignments outside [keep] does. *)
Record Stopped (keep : Z -> bool) (e e' : Executor) : Prop := {
  stopped_kept : ex_key e' = ex_key e /\ ex_capacity e' = ex_capacity e /\ ex_queue e' = ex_queue e /\
    ex_pending e' = ex_pending e /\ ex_submitted e' = ex_submitted e /\ ex_next e' = ex_next e /\ ex_crashed e' = ex_crashed e;
  stopped_running : forall i g, ex_running e' !! i = Some g -> ex_running e !! i = Some g;
  stopped_keep : forall i, keep i = true -> ex_running e' !! i = ex_running e !! i;
  stopped_loops : forall g, ex_loops e' !! g = ex_loops e !! g \/ (ex_loops e' !! g = cancel <$> ex_loops e !! g /\
    exists i, keep i = false /\ ex_running e !! i = Some g)
}.

Lemma stop_fold (keep : Z -> bool) ids e :
  let e' := foldl (fun e id => if keep id then e else stop_one id e) e ids in
  Stopped keep e e' /\ (forall i, In i ids -> keep i = false -> ex_running e' !! i = None) /\
  (forall i g, In i ids -> keep i = false -> ex_running e !! i = Some g -> ex_loops e' !! g = cancel <$> ex_loops e !! g).
Proof.
  revert e. induction ids as [|id ids IH]; intros e; simpl.
  { split; [|done]. split; [done|done|done|]. intros g. by left. }
  destruct (keep id) eqn:Ek.
  { destruct (IH e) as (HS & HR & HL). split; [done|]. split; intros i; [intros [->|?]|intros g [->|?]]; eauto; congruence. }
  destruct (stop_one_spec id e) as (Hr & Hl & Hk). destruct (IH (stop_one id e)) as ([K R P L] & HR & HL).
  set (e' := foldl _ _ _) in *. split; [split|].
  - destruct K as (?&?&?&?&?&?&?). rewrite Hk in *. simpl in *. done.
  - intros i g H. apply R in H. rewrite Hr in H. by destruct (decide (i = id)).
  - intros i Hi. rewrite P, Hr by done. rewrite decide_False; [done|]. intros ->. congruence.
  - intros g. specialize (Hl g). destruct (L g) as [->|[-> (i & Hi & Hg)]].
    + rewrite Hl. destruct (decide _); [right; eauto|by left].
    + right. rewrite Hr in Hg. destruct (decide (i = id)); [done|]. split; [|eauto].
      rewrite Hl. destruct (decide _); [|done]. destruct (ex_loops e !! g); done.
  - split.
    + intros i [->|Hi] Hki; [|auto]. destruct (ex_running e' !! i) as [g|] eqn:Eg; [|done].
      apply R in Eg. rewrite Hr, decide_True in Eg by done. done.
    + intros i g Hi Hki Hg. specialize (Hl g).
      destruct (decide (i = id)) as [->|Hn].
      * rewrite decide_True in Hl by done. destruct (L g) as [->|[-> _]]; rewrite Hl; [done|]. by destruct (ex_loops e !! g).
      * destruct Hi as [->|Hi]; [done|]. rewrite (HL i g Hi Hki); [|by rewrite Hr, decide_False].
        rewrite Hl. destruct (decide _); [|done]. by destruct (ex_loops e !! g).
Qed.

Lemma Stopped_wf keep e e' : Stopped keep e e' -> ExecWF e -> ExecWF e'.
Proof.
  intros [K R P L] (Hr & Hl & Hi). destruct K as (_&_&_&_&_&Hn&_). split; [|split].
  - intros i g H%R. rewrite Hn. eauto.
  - intros g Hg. rewrite Hn. apply Hl. destruct (L g) as [<-|[Ec _]]; [done|]. rewrite Ec in Hg. by apply fmap_is_Some in Hg.
  - intros i j g H1%R H2%R. eauto.
Qed.

Lemma current_of_In l id a : current_of l !! id = Some a -> In a l /\ as_ID a = id.
Proof.
  unfold current_of. assert (forall m : gmap Z Assignment, foldl (fun m a => <[as_ID a := a]> m) m l !! id = Some a ->
    (In a l /\ as_ID a = id) \/ m !! id = Some a) as H.
  { induction l as [|x l IH]; intros m; simpl; [auto|]. intros [[? ?]|H]%IH; [auto|].
    apply lookup_insert_Some in H as [[? ->]|[? ?]]; auto. }
  intros [?|Em]%H; [done|]. by rewrite lookup_empty in Em.
Qed.
Lemma current_of_held l a : In a l -> is_Some (current_of l !! as_ID a).
Proof.
  unfold current_of. assert (forall m : gmap Z Assignment, In a l \/ is_Some (m !! as_ID a) ->
    is_Some (foldl (fun m a => <[as_ID a := a]> m) m l !! as_ID a)) as H.
  { induction l as [|x l IH]; intros m; simpl; [naive_solver|]. intros [[->|?]|Hm]; apply IH; auto; right.
    - rewrite lookup_insert_eq. eauto.
    - destruct (decide (as_ID x = as_ID a)) as [->|Hn]; [rewrite lookup_insert_eq|rewrite lookup_insert_ne by done]; eauto. }
  intros Hin. apply H. auto.
Qed.

Context {mol : MapOrderLaws}.

Lemma shuffle_In {A} (l : list A) x : In x (shuffle l) <-> In x l.
Proof. rewrite <- !list_elem_of_In. by rewrite shuffle_perm. Qed.

Lemma running_ids e i : In i (shuffle (map fst (map_to_list (ex_running e)))) <-> is_Some (ex_running e !! i).
Proof.
  rewrite shuffle_In, in_map_iff. split.
  - intros ([i' g] & <- & H). apply list_elem_of_In, elem_of_map_to_list in H. eauto.
  - intros [g Hg]. exists (i, g). split; [done|]. by apply list_elem_of_In, elem_of_map_to_list.
Qed.

Lemma lease_quiet cap : Respects Quiet (LeaseAssignments (N := N) cap).
Proof. unfold LeaseAssignments. process. Qed.

Lemma lease_run w e : exec_of w = Some e -> ExecWF e ->
  exists w' e', lease registry w = (Ok tt, w') /\ exec_of w' = Some e' /\
    files (wk_disk (w_db w')) = files (wk_disk (w_db w)) /\ wk_client (w_db w') = wk_client (w_db w) /\
    match (LeaseAssignments (ex_capacity e) w).1 with
    | Err _ => e' = e
    | Ok l =>
        let cur := current_of l in
        exists e1, Stopped (fun i => is_some (cur !! i)) e e1 /\
          (forall i, cur !! i = None -> ex_running e1 !! i = None) /\
          (forall i g, cur !! i = None -> ex_running e !! i = Some g -> ex_loops e1 !! g = cancel <$> ex_loops e !! g) /\
          Started (files (wk_disk (w_db w))) cur e1 e' /\
          (w_faults w = [] -> forall i a, cur !! i = Some a -> listed (files (wk_disk (w_db w))) (as_Target a) ->
             is_Some (ex_running e' !! i))
    end.
Proof.
  intros He Hwf. unfold lease. unfold bindM at 1. rewrite (look_exec_run _ _ He).
  unfold bindM at 1, attempt. destruct (LeaseAssignments (ex_capacity e) w) as [r w1] eqn:El.
  apply lease_quiet in El as Hq. destruct Hq as [_ Hq]. pose proof (quiet_exec _ _ _ Hq) as He1. rewrite He in He1.
  destruct Hq as (Hf1 & Hc1 & _). pose proof (do_faults _ _ _ _ _ _ _ El) as Hfa1. cbn [fst].
  destruct r as [l|err]; [|by exists w1, e].
  set (cur := current_of l). set (keep := fun i => is_some (cur !! i)).
  destruct (stop_fold keep (shuffle (map fst (map_to_list (ex_running e)))) e) as (HS & HR & HL).
  set (e1 := foldl _ e _) in *.
  unfold bindM at 1.
  destruct (mutate_exec_run (fun e0 => foldl (fun e2 id => if is_some (cur !! id) then e2 else stop_one id e2) e0
    (shuffle (map fst (map_to_list (ex_running e0))))) e w1 He1) as (w2 & -> & He2 & _ & Hfa2 & Hd2 & Hc2).
  change (exec_of w2 = Some e1) in He2.
  destruct (start_all_run (files (wk_disk (w_db w))) cur (shuffle (map_to_list cur)) w2 e1 He2)
    as (w3 & e3 & E3 & He3 & Hf3 & Hc3 & Hs3 & Hn3).
  { by rewrite Hd2. }
  { intros i a Hi. apply shuffle_In, list_elem_of_In, elem_of_map_to_list in Hi. done. }
  { by eapply Stopped_wf. }
  exists w3, e3. split; [done|]. split; [done|]. split; [done|]. split; [congruence|].
  assert (forall i, cur !! i = None -> keep i = false) as Hkeep by (intros i Hi; unfold keep; by rewrite Hi).
  exists e1. split; [done|]. split.
  { intros i Hi. destruct (ex_running e1 !! i) as [g|] eqn:Eg; [|done]. rewrite (HR i) in Eg; [done| |by apply Hkeep].
    apply running_ids. apply (stopped_running _ _ _ HS) in Eg. eauto. }
  split.
  { intros i g Hi Hg. eapply HL; [|by apply Hkeep|exact Hg]. apply running_ids. eauto. }
  split; [done|]. intros Hw i a Hi Hl. eapply Hn3; [congruence| |done].
  by apply shuffle_In, list_elem_of_In, elem_of_map_to_list.
Qed.


(** C25: Uploading ends: a flush returns, whatever the coordinator does, with
    nothing pending or at the first upload that failed.  What it uploaded is a
    prefix of what was pending, in order, each observation once, in batches
    of 1 to 256 that were all acknowledged; the rest stays pending for the
    next flush, and the counter of submitted measurements grows by what was
    acknowledged. *)
Theorem flush_delivers rounds w e :
  exec_of w = Some e -> exists b w', flush rounds w = (Ok b, w') /\ Flushed w e b w'.
Proof. apply flush_run. Qed.

(** ** Accounting for every observation *)
(** What happened to the observations so far: those that entered the queue,
    those evicted from it, and the acknowledged batches. *)
Record trail : Type := Trail {
  pushed : list Observation;
  evicted : list Observation;
  acked : list (list Observation)
}.
Definition no_trail : trail := Trail [] [] [].

Definition with_exec (e : Executor) (d : worker N) : worker N := set_agent (map_exec (fun _ => e)) d.

(** The steps of the executor's goroutines, in any order: the lease ticker,
    the shutdown of the measurement goroutines, each channel operation of a
    measurement goroutine, and the two actions of the uploader. *)
Inductive estep : trail * worker N -> trail * worker N -> Prop :=
| ES_lease t d now fs r w' :
    lease registry (World d now fs) = (r, w') -> estep (t, d) (t, w_db w')
| ES_stop t d now fs r w' :
    stopAll (World d now fs) = (r, w') -> estep (t, d) (t, w_db w')
| ES_execute t d e g env measured :
    ag_executor (wk_agent d) = Some e ->
    estep (t, d)
      (Trail (pushed t ++ drop (length (ex_queue e)) (ex_queue (execute registry g env measured e))) (evicted t) (acked t),
       with_exec (execute registry g env measured e) d)
| ES_drop t d e g :
    ag_executor (wk_agent d) = Some e ->
    estep (t, d)
      (Trail (pushed t) (evicted t ++ take (length (ex_queue e) - length (ex_queue (drop_oldest g e))) (ex_queue e)) (acked t),
       with_exec (drop_oldest g e) d)
| ES_resend t d e g :
    ag_executor (wk_agent d) = Some e ->
    estep (t, d)
      (Trail (pushed t ++ drop (length (ex_queue e)) (ex_queue (resend g e))) (evicted t) (acked t), with_exec (resend g e) d)
| ES_finish t d e g :
    ag_executor (wk_agent d) = Some e -> estep (t, d) (t, with_exec (finish g e) d)
| ES_take t d e :
    ag_executor (wk_agent d) = Some e -> estep (t, d) (t, with_exec (take_one e) d)
| ES_flush t d now fs e rounds b w' e' batches w1 :
    ag_executor (wk_agent d) = Some e -> flush rounds (World d now fs) = (Ok b, w') -> exec_of w' = Some e' ->
    Acked batches (World d now fs) w1 -> ex_pending e = concat batches ++ ex_pending e' ->
    estep (t, d) (Trail (pushed t) (evicted t) (acked t ++ batches), w_db w').

(** Every observation that entered the queue is in exactly one place, and the
    ones on their way or delivered are in the order they were measured. *)
Definition Accounted (t : trail) (e : Executor) : Prop :=
  (length (ex_queue e) <= queueCapacity)%nat /\
  pushed t ≡ₚ concat (acked t) ++ ex_pending e ++ ex_queue e ++ evicted t /\
  (concat (acked t) ++ ex_pending e ++ ex_queue e) `sublist_of` pushed t.

Lemma Accounted_same t e e' : ex_queue e' = ex_queue e -> ex_pending e' = ex_pending e -> Accounted t e -> Accounted t e'.
Proof. unfold Accounted. by intros -> ->. Qed.

Lemma Accounted_push t e e' obs : ex_queue e' = ex_queue e ++ [obs] -> ex_pending e' = ex_pending e ->
  (length (ex_queue e) < queueCapacity)%nat -> Accounted t e ->
  Accounted (Trail (pushed t ++ [obs]) (evicted t) (acked t)) e'.
Proof.
  unfold Accounted. intros -> -> Hl (_ & Hp & Hs). simpl. split; [rewrite length_app; simpl; lia|]. split.
  - rewrite Hp. solve_Permutation.
  - rewrite !app_assoc. apply sublist_app; [|done]. by rewrite <- app_assoc.
Qed.

Lemma Accounted_evict t e e' obs q : ex_queue e = obs :: q -> ex_queue e' = q -> ex_pending e' = ex_pending e ->
  Accounted t e -> Accounted (Trail (pushed t) (evicted t ++ [obs]) (acked t)) e'.
Proof.
  unfold Accounted. intros Hq -> -> (Hl & Hp & Hs). rewrite Hq in *. simpl in *. split; [lia|]. split.
  - rewrite Hp. solve_Permutation.
  - etrans; [|exact Hs]. apply sublist_app; [done|]. apply sublist_app; [done|]. by apply sublist_cons.
Qed.

Lemma take_one_Accounted t e : Accounted t e -> Accounted t (take_one e).
Proof.
  unfold take_one. destruct (ex_queue e) as [|obs q] eqn:Hq; [done|]. unfold Accounted. simpl. rewrite Hq.
  intros (Hl & Hp & Hs). simpl in Hl. split; [lia|]. rewrite <- !app_assoc. done.
Qed.

Lemma with_exec_exec e e0 d : ag_executor (wk_agent d) = Some e0 -> ag_executor (wk_agent (with_exec e d)) = Some e.
Proof. intros H. simpl. by rewrite H. Qed.

Lemma stopAll_run w e : exec_of w = Some e ->
  exists w' e', stopAll w = (Ok tt, w') /\ exec_of w' = Some e' /\ wk_disk (w_db w') = wk_disk (w_db w) /\
    wk_client (w_db w') = wk_client (w_db w) /\ Stopped (fun _ => false) e e' /\ ex_running e' = ∅.
Proof.
  intros He. unfold stopAll.
  destruct (mutate_exec_run (fun e => foldl (fun e id => stop_one id e) e (shuffle (map fst (map_to_list (ex_running e))))) e w He)
    as (w' & Hm & He' & _ & _ & Hd & Hc).
  destruct (stop_fold (fun _ => false) (shuffle (map fst (map_to_list (ex_running e)))) e) as (HS & HR & _).
  exists w', (foldl (fun e id => stop_one id e) e (shuffle (map fst (map_to_list (ex_running e))))).
  do 5 (split; [done|]). apply map_empty. intros i. destruct (_ !! i) as [g|] eqn:Eg; [|done].
  cbn in HR. rewrite (HR i) in Eg; [done| |done].
  apply running_ids. apply (stopped_running _ _ _ HS) in Eg. eauto.
Qed.

(** The goroutine operations keep the numbering and the assignments. *)
Lemma alter_loops_wf f g e : ExecWF e -> ExecWF (set_loops (alter f g) e).
Proof.
  intros (Hr & Hl & Hi). split; [done|]. split; [|done]. simpl. intros h Hh. apply Hl.
  destruct (decide (g = h)) as [->|Hn]; [rewrite lookup_alter_eq in Hh; by apply fmap_is_Some in Hh|].
  by rewrite lookup_alter_ne in Hh.
Qed.
Lemma queue_wf q e : ExecWF e -> ExecWF (set_queue q e).
Proof. done. Qed.

Lemma execute_cases g env measured e :
  execute registry g env measured e = e \/
  (exists obs, execute registry g env measured e = set_queue (ex_queue e ++ [obs]) e /\ (length (ex_queue e) < queueCapacity)%nat) \/
  (exists obs, execute registry g env measured e = set_loops (alter (set_phase (QueueFull obs)) g) e).
Proof.
  unfold execute. repeat (case_match; try by left).
  - right; left. eexists. split; [done|]. by apply Nat.ltb_lt.
  - right; right. eauto.
Qed.
Lemma drop_cases g e : drop_oldest g e = e \/
  exists obs, drop_oldest g e = set_loops (alter (set_phase (Resend obs)) g) (set_queue (tail (ex_queue e)) e).
Proof. unfold drop_oldest. repeat (case_match; try by left). right. eauto. Qed.
Lemma resend_cases g e : resend g e = e \/
  (exists obs, resend g e = set_loops (alter (set_phase Idle) g) (set_queue (ex_queue e ++ [obs]) e) /\
     (length (ex_queue e) < queueCapacity)%nat) \/
  resend g e = set_loops (alter (set_phase Idle) g) e.
Proof.
  unfold resend. repeat (case_match; try by left); [|by right; right]. right; left. eexists. split; [done|]. by apply Nat.ltb_lt.
Qed.

Definition EInv (x : trail * worker N) : Prop :=
  exists e, ag_executor (wk_agent x.2) = Some e /\ ExecWF e /\ Accounted x.1 e.

Lemma EInv_exec t d e0 e : ag_executor (wk_agent d) = Some e0 -> ExecWF e -> Accounted t e -> EInv (t, with_exec e d).
Proof. intros He Hwf HA. exists e. split; [by eapply with_exec_exec|done]. Qed.

Lemma estep_EInv x y : estep x y -> EInv x -> EInv y.
Proof.
  intros Hs (e & He & Hwf & HA).
  destruct Hs as [t d now fs r w' Hl|t d now fs r w' Hl|t d e0 g env measured He0|t d e0 g He0|t d e0 g He0|t d e0 g He0
    |t d e0 He0|t d now fs e0 rounds b w' e' batches w1 He0 Hfl He' Hack Hcat]; cbn [fst snd] in *;
    try (rewrite He in He0; injection He0 as <-).
  - destruct (lease_run (World d now fs) e He Hwf) as (w1 & e1 & Hrun & He1 & _ & _ & H). rewrite Hrun in Hl. injection Hl as <- <-.
    exists e1. split; [done|]. destruct (LeaseAssignments _ _) as [[l|err] w2]; cbn [fst] in H; [|by subst].
    destruct H as (e2 & HS & _ & _ & HT & _). split; [by eapply started_wf, Stopped_wf|].
    pose proof (started_kept _ _ _ _ HT) as (_ & _ & Hq & Hp & _).
    pose proof (stopped_kept _ _ _ HS) as (_ & _ & Hq' & Hp' & _). eapply Accounted_same; [..|exact HA]; cbn [fst]; congruence.
  - destruct (stopAll_run (World d now fs) e He) as (w1 & e1 & Hrun & He1 & _ & _ & HS & _). rewrite Hrun in Hl. injection Hl as <- <-.
    exists e1. split; [done|]. split; [by eapply Stopped_wf|]. destruct (stopped_kept _ _ _ HS) as (_ & _ & Hq' & Hp' & _).
    by eapply Accounted_same.
  - eapply EInv_exec; [done|..]; destruct (execute_cases g env measured e) as [->|[(obs & -> & Hlt)|(obs & ->)]];
      try done; try (by apply alter_loops_wf).
    + by rewrite drop_all, app_nil_r; destruct t.
    + simpl. rewrite drop_app_length. by eapply Accounted_push.
    + simpl. rewrite drop_all, app_nil_r. by destruct t.
  - eapply EInv_exec; [done|..]; destruct (drop_cases g e) as [->|(obs & ->)]; try done; try (by apply alter_loops_wf).
    + rewrite Nat.sub_diag, take_0, app_nil_r. by destruct t.
    + simpl. destruct (ex_queue e) as [|o q] eqn:Hq; simpl.
      * rewrite app_nil_r. destruct t. by eapply Accounted_same; [..|exact HA].
      * rewrite Nat.sub_succ_l, Nat.sub_diag by done. simpl. rewrite take_0. by eapply Accounted_evict; [exact Hq|..|exact HA].
  - eapply EInv_exec; [done|..]; destruct (resend_cases g e) as [->|[(obs & -> & Hlt)| ->]]; try done;
      try (by apply alter_loops_wf).
    + by rewrite drop_all, app_nil_r; destruct t.
    + simpl. rewrite drop_app_length. by eapply Accounted_push.
    + simpl. rewrite drop_all, app_nil_r. by destruct t.
  - eapply EInv_exec; [done|..]; unfold finish; repeat case_match; try done.
    destruct Hwf as (Hr & Hlp & Hi). split; [done|]. split; [|done]. simpl. intros h [l' Hh].
    apply lookup_delete_Some in Hh as [_ Hh]. eauto.
  - eapply EInv_exec; [done| |by apply take_one_Accounted]. unfold take_one. by destruct (ex_queue e).
  - destruct (flush_run rounds (World d now fs) e He) as (b1 & w2 & Hrun & HF). rewrite Hrun in Hfl. injection Hfl as -> <-.
    destruct HF as (e2 & bs & w3 & He2 & Hcat2 & _ & _ & Hfr & _). rewrite He2 in He'. injection He' as <-.
    assert (ex_queue e2 = ex_queue e) as Hq by (by rewrite Hfr).
    exists e2. split; [done|]. split; [rewrite Hfr; done|].
    unfold Accounted in *. cbn [fst pushed evicted acked] in *. rewrite Hq, concat_app. rewrite Hcat in HA.
    rewrite <- !app_assoc in *. done.
Qed.

Lemma mutate_with f e d now fs : ag_executor (wk_agent d) = Some e ->
  mutate_exec f (World d now fs) = (Ok tt, World (with_exec (f e) d) now fs).
Proof. intros He. unfold mutate_exec, mutate, with_exec, set_agent, map_exec. simpl. by rewrite He. Qed.

Lemma flush_steps t d now fs e rounds : ag_executor (wk_agent d) = Some e ->
  exists b w' t', flush rounds (World d now fs) = (Ok b, w') /\ estep (t, d) (t', w_db w').
Proof.
  intros He. destruct (flush_run rounds (World d now fs) e He) as (b & w' & Hrun & HF).
  destruct HF as (e' & batches & w1 & He' & Hcat & _ & Hack & _). exists b, w'. eexists. split; [done|].
  by eapply ES_flush.
Qed.

(** The uploader's three cases are made of the steps above. *)
Lemma receive_steps t d now fs rounds r w' e : ag_executor (wk_agent d) = Some e ->
  receive rounds (World d now fs) = (r, w') -> exists t', rtc estep (t, d) (t', w_db w').
Proof.
  intros He H. unfold receive in H. unfold bindM at 1 in H. rewrite (look_exec_run e) in H by done.
  destruct (ex_queue e) as [|o q] eqn:Hq; [unfold ret in H; simplify_eq; simpl; by eexists; apply rtc_refl|].
  unfold bindM at 1 in H. rewrite (mutate_with _ e) in H by done.
  assert (estep (t, d) (t, with_exec (take_one e) d)) as H1 by (by apply ES_take).
  destruct (_ <=? _)%nat.
  - unfold bindM in H. destruct (flush_steps t (with_exec (take_one e) d) now fs _ rounds (with_exec_exec _ _ _ He))
      as (b & w1 & t' & Hf & Hs). rewrite Hf in H. unfold ret in H. simplify_eq. exists t'. by eapply rtc_l, rtc_once.
  - unfold ret in H. simplify_eq. exists t. by apply rtc_once.
Qed.

Lemma shutdown_steps t d now fs rounds r w' e : ag_executor (wk_agent d) = Some e ->
  shutdown rounds (World d now fs) = (r, w') -> exists t', rtc estep (t, d) (t', w_db w').
Proof.
  intros He H. unfold shutdown in H. unfold bindM at 1 in H. rewrite (look_exec_run e) in H by done.
  unfold bindM at 1 in H. rewrite (mutate_with _ e) in H by done. cbn beta in H.
  assert (forall n, exists d', rtc estep (t, d) (t, d') /\ d' = with_exec (Nat.iter n take_one e) d) as Hn.
  { intros n. induction n as [|n (d' & Hn & ->)].
    - exists d. split; [apply rtc_refl|]. unfold with_exec, set_agent, map_exec. simpl. rewrite He. by destruct d as [? ? [] ?]; simpl in *; subst.
    - eexists. split; [|done]. eapply rtc_r; [exact Hn|].
      replace (with_exec (Nat.iter (S n) take_one e) d)
        with (with_exec (take_one (Nat.iter n take_one e)) (with_exec (Nat.iter n take_one e) d)).
      + apply ES_take. by eapply with_exec_exec.
      + unfold with_exec, set_agent, map_exec. simpl. by rewrite He. }
  destruct (Hn (length (ex_queue e))) as (d' & Hs & ->). unfold bindM in H.
  destruct (flush_steps t (with_exec (Nat.iter (length (ex_queue e)) take_one e) d) now fs _ rounds (with_exec_exec _ _ _ He))
    as (b & w1 & t' & Hf & Hs'). rewrite Hf in H. unfold ret in H. simplify_eq. exists t'. by eapply rtc_r.
Qed.


(** An assignment with an interval that is not positive (after the 64-bit
    conversion to nanoseconds) stops the whole process as soon as it is
    started. *)
Theorem bad_interval_crashes w e a w1 :
  exec_of w = Some e -> ExecWF e -> w_faults w = [] ->
  LeaseAssignments (ex_capacity e) w = (Ok [a], w1) -> ex_running e !! as_ID a = None ->
  listed (files (wk_disk (w_db w))) (as_Target a) ->
  is_ok (Get registry (as_ProbeType a)) = true -> is_Some (Upload.ParseAddr (as_Target a)) ->
  int64 (as_IntervalSeconds a * Second) <= 0 ->
  exists w' e', lease registry w = (Ok tt, w') /\ exec_of w' = Some e' /\ ex_crashed e' = true.
Proof.
  intros He Hwf Hw Hl Hrun Hli Hg [ad Ha] Hi. unfold lease. unfold bindM at 1. rewrite (look_exec_run _ _ He).
  unfold bindM at 1, attempt. rewrite Hl. set (cur := current_of [a]).
  assert (cur = {[as_ID a := a]}) as Hc by done.
  apply lease_quiet in Hl as Hq. destruct Hq as [_ Hq]. pose proof (quiet_exec _ _ _ Hq) as He1. rewrite He in He1.
  destruct Hq as (Hf1 & _ & _). pose proof (do_faults _ _ _ _ _ _ _ Hl) as Hfa1. rewrite Hw in Hfa1.
  destruct (mutate_exec_run (fun e0 => foldl (fun e2 id => if is_some (cur !! id) then e2 else stop_one id e2) e0
    (shuffle (map fst (map_to_list (ex_running e0))))) e w1 He1) as (w2 & Hm & He2 & _ & Hfa2 & Hd2 & _).
  destruct (stop_fold (fun i => is_some (cur !! i)) (shuffle (map fst (map_to_list (ex_running e)))) e) as (HS & _ & _).
  set (e1 := foldl _ e _) in *. unfold bindM at 1. rewrite Hm.
  assert (shuffle (map_to_list cur) = [(as_ID a, a)]) as ->.
  { apply Permutation_singleton_r. rewrite shuffle_perm, Hc. by rewrite map_to_list_singleton. }
  assert (ex_running e1 !! as_ID a = None) as Hr1.
  { destruct (ex_running e1 !! as_ID a) as [g|] eqn:Eg; [|done]. apply (stopped_running _ _ _ HS) in Eg. congruence. }
  cbn [forM]. unfold start_one. unfold bindM at 1. unfold bindM at 1.
  rewrite (look_exec_run e1) by done. rewrite Hr1. cbn [is_some].
  destruct (targetInSnapshot_run (as_Target a) w2) as (b & w3 & Ht & Hq3 & _ & _ & _ & Hb). unfold bindM at 1. rewrite Ht.
  rewrite Hb; [|congruence|by rewrite Hd2, Hf1]. cbn [negb]. pose proof (quiet_exec _ _ _ Hq3) as He3. rewrite He2 in He3.
  destruct (mutate_exec_run (spawn registry (as_ID a) a) e1 w3 He3) as (w4 & -> & He4 & _). cbn [ret].
  eexists _, _. split; [reflexivity|]. split; [exact He4|].
  unfold spawn. destruct (Get registry (as_ProbeType a)); [|done]. rewrite Ha.
  rewrite (proj2 (Z.leb_le _ _) Hi). done.
Qed.
End Lemmas.

(** * Witnesses

    A network that acknowledges every upload and leases one assignment, on a
    directory whose snapshot lists its target. *)
Module ToyExecutor.
Import ToySeed.
#[export] Existing Instance Toy.toy_time.
#[export] Instance toy_addr : Upload.AddrText := {|
  Upload.ParseAddr s := if bool_decide (s = "192.0.2.1"%string) then Some (Addr V4 3221225985) else None
|}.
#[export] Instance toy_observation : ObservationJSON := {|
  Observation.marshal_observation o := Some ("obs:" +:+ Observation.Target o)
|}.
#[export] Instance toy_reader : SQLiteReader := {|
  sqlite_targets c := if bool_decide (c = "snapshot"%string) then Some ["192.0.2.1"%string] else None
|}.
#[export] Instance toy_order : MapOrder := {| shuffle A l := l |}.
#[export] Instance toy_order_laws : MapOrderLaws.
Proof. by split. Qed.
#[export] Instance toy_url : URLText := {| url_path s := Some s |}.
Definition toy_assignment (seconds : Z) : Assignment := MkAssignment 7 "192.0.2.1" "icmp" seconds "".
(** The body of the answer selects the interval of the leased assignment. *)
#[export] Instance toy_client : ClientJSON := {|
  encode_register _ := "register"%string; encode_heartbeat v := v; encode_rotate p := p; encode_lease _ := "lease"%string;
  encode_upload _ := Some "upload"%string; decode_register _ := None; decode_heartbeat _ := None;
  decode_manifest _ := None;
  decode_assignments s := Some [toy_assignment (if bool_decide (s = "bad"%string) then 0 else 60)]
|}.
#[export] Instance toy_network : Network string := {| round_trip _ _ n := (Some (WireResponse 200 n), n) |}.

Definition unreachable : Result := MkResult false 0 4 4 [].
Definition toy_registry : Registry unit := NewRegistry [MkProber "icmp" (fun _ _ _ => Ok unreachable)].
Definition toy_disk : disk := Disk {[ SnapshotPath := "snapshot"%string ]} [].
Definition toy_worker (answer : string) (e : Executor) : worker string :=
  MkWorker toy_disk (MkClient "" "" alice) (MkAgent "active" None None (Some e) true) answer.
Definition toy_obs (id : Z) : Observation := MkObservation id "192.0.2.1" "icmp" 1 false None 4 4 (JObj []) "".
Definition busy : Executor :=
  set_pending [toy_obs 1; toy_obs 2] (set_running (fun _ => {[ 3 := 0%nat ]})
    (MkExecutor alice 64 [] ∅ ∅ 1 [] 0 0 0 false)).
Definition toy_start (answer : string) : world (worker string) := World (toy_worker answer busy) 10 [].
Definition toy_rounds (i : nat) : round := Round "b1" 10 (10 + 3 * Millisecond).

Lemma busy_wf : ExecWF busy.
Proof.
  split; [|split]; simpl.
  - intros id g [_ <-]%lookup_singleton_Some. lia.
  - intros g [l Hl]. by rewrite lookup_empty in Hl.
  - intros i j g [<- _]%lookup_singleton_Some [<- _]%lookup_singleton_Some. done.
Qed.

Lemma toy_listed : listed (files toy_disk) "192.0.2.1".
Proof. exists "snapshot"%string, ["192.0.2.1"%string]. split; [reflexivity|]. split; [reflexivity|]. by constructor. Qed.

(** The measurement of one assignment: leased, probed, taken by the uploader. *)
Definition fresh_start : worker string := toy_worker "ok" (NewExecutor alice).
Definition leased : worker string := w_db (lease toy_registry (World fresh_start 20 [])).2.
Definition exec_at (d : worker string) : Executor := default busy (ag_executor (wk_agent d)).
Definition probed : Executor := execute toy_registry 0 tt 30 (exec_at leased).
End ToyExecutor.

Section Witnesses.
Import ToySeed ToyExecutor.

Lemma flush_delivers_witness : ex_pending busy = [toy_obs 1; toy_obs 2] /\
  exists b w', flush toy_rounds (toy_start "ok") = (Ok b, w') /\ Flushed (toy_start "ok") busy b w'.
Proof. split; [reflexivity|]. apply (flush_delivers toy_rounds (toy_start "ok") busy). reflexivity. Defined.



Lemma bad_interval_crashes_witness : as_IntervalSeconds (toy_assignment 0) = 0 /\
  exists w' e', lease toy_registry (toy_start "bad") = (Ok tt, w') /\ exec_of w' = Some e' /\ ex_crashed e' = true.
Proof.
  split; [reflexivity|].
  apply (bad_interval_crashes toy_registry (toy_start "bad") busy (toy_assignment 0) (LeaseAssignments 64 (toy_start "bad")).2);
    [reflexivity | apply busy_wf | reflexivity | vm_compute; reflexivity | reflexivity | apply toy_listed | reflexivity
    | vm_compute; eauto | vm_compute; discriminate].
Defined.
End Witnesses.
