(* ===== verification/Agent.v ===== *)
(** [internal/worker/agent.go]: registration, the heartbeat tick, key rotation
    and verified snapshot synchronization, and the interleaving of the agent
    with its executor.

    The coordinator is an arbitrary [Network]: the theorems of this file hold
    whatever it answers. *)
From stdpp Require Import base gmap strings list.
From Stdlib Require Import ZArith QArith Lia.
From S2P Require Import Prelude Codec Netip Schema Wireauth StateDir Probe Client Executor.
From S2P Require Artifact Observation Upload Server.
Import Observation(Observation, ObservationJSON).
Import Artifact(ManifestJSON).
Open Scope Z_scope.

Record AgentConfig : Type := MkAgentConfig {
  CoordinatorURL : string;
  EnrollmentToken : string;
  AgentName : string;
  SnapshotPubKey : string
}.

(** [waitingReminder]. *)
Definition waitingReminder : Z := 10 * Minute.

Section Agent.
Context {cr : Crypto} {tm : TimeText} {sc : SeedCrypto} {oj : ObservationJSON} {mj : ManifestJSON}
  {at_ : Upload.AddrText} {sj : StatusJSON} {sr : SQLiteReader} {mo : MapOrder}
  {N : Type} {nw : Network N} {cj : ClientJSON} {ut : URLText}.
Variable cfg : AgentConfig.
(** [version.Version]. *)
Variable Version : string.

#[local] Abbreviation WM := (M (worker N)).

(** [NewAgent]: the client it builds; the agent's variables start empty. *)
Definition NewAgent : DM Client :=
  do! Ensure ;;
  let! key := Key in
  let client := NewClient (CoordinatorURL cfg) key in
  let! id := WorkerID in
  ret (if bool_decide (id = "") then client else WithID id client).
Definition fresh_agent : Agent := MkAgent "" None None None false.

(** The process after [main]: a new agent armed with a new executor, which
    gets the key of that moment. *)
Definition SetExecutor (e : Executor) : WM unit :=
  mutate (set_agent (fun a => MkAgent (ag_lastState a) (ag_waitingSince a) (ag_lastWaitLog a) (Some e) (ag_started a))).
Definition boot (d : disk) (n : N) (c : Client) : worker N :=
  MkWorker d c (MkAgent "" None None (Some (NewExecutor (c_Key c))) false) n.

(** ** Registration *)
(** The retry loop; [done i] says whether the context is cancelled while
    waiting after attempt [i]. *)
Fixpoint register_attempts (left i : nat) (done : nat -> bool) : WM (result RegisterResponse) :=
  match left with
  | O => ret (Err (EMsg "unreachable"))
  | S left' =>
      let! r := attempt (Register (EnrollmentToken cfg) (AgentName cfg) Version) in
      match r with
      | Ok resp => ret (Ok resp)
      | Err e =>
          if done i then throw (EMsg "context canceled")
          else match left' with
               | O => ret (Err e)
               | _ => register_attempts left' (S i) done
               end
      end
  end.

Definition register (done : nat -> bool) : WM unit :=
  if bool_decide (EnrollmentToken cfg = "") then throw (EMsg "first boot requires VAPN_ENROLLMENT_TOKEN")
  else
    let! r := register_attempts 30 0 done in
    match r with
    | Err e => throw e
    | Ok resp => on_disk (SaveWorkerID (rr_WorkerID resp))
    end.

(** ** Lifecycle notes *)
Definition noteState (state : string) : WM unit :=
  mutate (set_agent (fun a =>
    if bool_decide (state = ag_lastState a) then a
    else if bool_decide (state = "pending")
    then MkAgent state (ag_waitingSince a) (ag_lastWaitLog a) (ag_executor a) (ag_started a)
    else MkAgent state None None (ag_executor a) (ag_started a))).

(** [noteWaiting]; the answer is whether it logged. *)
Definition noteWaiting : WM bool :=
  let! now := clock in
  let! a := look wk_agent in
  match ag_waitingSince a with
  | None =>
      do! mutate (set_agent (fun a => MkAgent (ag_lastState a) (Some now) (Some now) (ag_executor a) (ag_started a))) ;;
      ret true
  | Some _ =>
      if time_Sub now (default 0 (ag_lastWaitLog a)) <? waitingReminder then ret false
      else
        do! mutate (set_agent (fun a =>
              MkAgent (ag_lastState a) (ag_waitingSince a) (Some now) (ag_executor a) (ag_started a))) ;;
        ret true
  end.

(** Best effort: an error is only logged. *)
Definition writeStatus (state : string) : WM unit :=
  let! version := on_disk SnapshotVersion in
  let! now := clock in
  let! a := look wk_agent in
  let! c := look wk_client in
  let '(assignments, submitted, lastUpload, lastMS, depth) :=
    match ag_executor a with Some e => Stats e | None => (0, 0, None, 0, 0) end in
  do! attempt (on_disk (WriteStatus
        (MkStatus (c_WorkerID c) state Version (CoordinatorURL cfg) version now assignments submitted lastUpload lastMS depth 0))) ;;
  ret tt.

(** ** Keys *)
Definition rotateKey : WM unit :=
  let! next := on_disk GenerateKey in
  do! RotateKey (Public next) ;;
  do! on_disk (ReplaceKey next) ;;
  mutate (set_client (with_key next)).

(** ** Snapshots *)
(** [defer os.Remove(tmp)]. *)
Definition defer_remove {A} (tmp : string) (m : WM A) : WM A :=
  let! r := attempt m in
  do! attempt (on_disk (Remove tmp)) ;;
  match r with Ok a => ret a | Err e => throw e end.

Definition verify {A} (r : result A) : WM A :=
  match r with Ok a => ret a | Err e => throw e end.

(** [artifact.VerifyFile] on a file of the directory. *)
Definition verify_file (tmp : string) (m : Artifact.Manifest) : WM unit :=
  let! content := on_disk (ReadFile tmp) in verify (Artifact.VerifyFile content m).

(** The second version is read for the comparison with an older one, which
    only logs. *)
Definition SyncSnapshot (rnd : string) : WM unit :=
  let! mr := CurrentManifest in
  let m := mr_Manifest mr in
  do! verify (Artifact.Verify m (SnapshotPubKey cfg)) ;;
  let! installed := on_disk SnapshotVersion in
  if bool_decide (Artifact.Version m = installed) then ret tt
  else
    do! on_disk SnapshotVersion ;;
    let! tmp := DownloadArtifact (mr_DownloadPath mr) rnd in
    defer_remove tmp (
      do! verify_file tmp m ;;
      on_disk (InstallSnapshot tmp (Artifact.Version m))).

(** ** The tick *)
Definition run_action (action : string) : WM unit :=
  if bool_decide (action = "rotate_key") then do! attempt rotateKey ;; ret tt else ret tt.

(** One heartbeat; [rnd] names the temporary file of a download. *)
Definition tick (rnd : string) : WM unit :=
  let! r := attempt (Heartbeat Version) in
  match r with
  | Err _ => ret tt
  | Ok hb =>
      do! writeStatus (hb_State hb) ;;
      do! noteState (hb_State hb) ;;
      if bool_decide (hb_State hb = "pending") then do! noteWaiting ;; ret tt
      else if negb (bool_decide (hb_State hb = "active") || bool_decide (hb_State hb = "quarantined")) then ret tt
      else
        do! forM (hb_Actions hb) run_action ;;
        do! (match hb_Snapshot hb with
             | Some v =>
                 let! installed := on_disk SnapshotVersion in
                 if bool_decide (v = installed) then ret tt else do! attempt (SyncSnapshot rnd) ;; ret tt
             | None => ret tt
             end) ;;
        let! a := look wk_agent in
        if is_some (ag_executor a) && negb (ag_started a) then
          let! v := on_disk SnapshotVersion in
          if bool_decide (v = "") then ret tt
          else mutate (set_agent (fun a =>
                 MkAgent (ag_lastState a) (ag_waitingSince a) (ag_lastWaitLog a) (ag_executor a) true))
        else ret tt
  end.

(** [Doctor]: which of the checks (identity key, registration, coordinator,
    snapshot) failed. *)
Definition Doctor : WM (list string) :=
  let! k := attempt (on_disk Key) in
  let! id := attempt (on_disk WorkerID) in
  let unregistered := match id with Ok s => bool_decide (s = "") | Err _ => true end in
  let! hb := (if unregistered then ret (Err (EMsg "not registered yet"))
              else attempt (Heartbeat Version)) in
  let! v := on_disk SnapshotVersion in
  ret ((if is_ok k then [] else ["identity key"%string]) ++
       (if unregistered then ["registration"%string]
        else if is_ok hb then [] else ["coordinator reachable"%string]) ++
       (if bool_decide (v = "") then ["routing snapshot"%string] else [])).
End Agent.

(** * Lemmas *)
Section Lemmas.
Context {cr : Crypto} {tm : TimeText} {sc : SeedCrypto} {oj : ObservationJSON} {mj : ManifestJSON}
  {at_ : Upload.AddrText} {sj : StatusJSON} {sr : SQLiteReader} {mo : MapOrder}
  {N : Type} {nw : Network N} {cj : ClientJSON} {ut : URLText}.
Variable cfg : AgentConfig.
Variable Version : string.

(** Client and agent variables stay, and all files outside [P]. *)
Definition TouchesW (P : string -> Prop) (_ : Z) (w w' : worker N) : Prop :=
  wk_client w' = wk_client w /\ wk_agent w' = wk_agent w /\
  forall name, ~ P name -> files (wk_disk w') !! name = files (wk_disk w) !! name.
#[global] Instance TouchesW_preorder P : PreOrderAt (TouchesW P).
Proof.
  split; unfold TouchesW; [done|]. intros ???? (?&?&H1) (?&?&H2). split_and!; [congruence..|].
  intros name Hn. by rewrite H2, H1.
Qed.
#[global] Instance TouchesW_indifferent P : Indifferent (TouchesW P).
Proof. intros n w w' Hf Hc Ha. split_and!; [done..|]. intros. by rewrite Hf. Qed.
Lemma touchesW_disk {A} P (m : DM A) : Respects (Touches P) m -> Respects (TouchesW P) (on_disk m).
Proof.
  intros Hm. apply respects_on_disk. intros w r w' H. apply Hm in H as [Hn HT]. split; [done|].
  intros x. unfold TouchesW. simpl. done.
Qed.

Lemma touches_append P name l : P name -> Respects (Touches P) (forM l (append_byte name)).
Proof.
  intros HP. unfold append_byte. respects. intros nm Hnm. simpl. rewrite lookup_alter_ne; [done|]. congruence.
Qed.
Lemma touches_close P : Respects (Touches P) close_file.
Proof. unfold close_file. respects. intros nm Hnm. done. Qed.
Lemma touches_temp (P : string -> Prop) name : P name -> Respects (Touches P) (CreateTemp name).
Proof.
  intros HP. unfold CreateTemp. respects. case_match; simplify_eq. intros nm Hnm. simpl.
  rewrite lookup_insert_ne; [done|]. congruence.
Qed.

Lemma download_touches path rnd : Respects (TouchesW (eq (temp_name rnd))) (DownloadArtifact (N := N) path rnd).
Proof.
  unfold DownloadArtifact.
  respects; first [apply touchesW_disk; solve [auto using touches_append, touches_close, touches_temp, touches_Remove] | worker_step].
Qed.

Lemma download_name path rnd w tmp w' : DownloadArtifact (N := N) path rnd w = (Ok tmp, w') -> tmp = temp_name rnd.
Proof.
  unfold DownloadArtifact, bindM, attempt, look, throw, ret. intros H.
  repeat case_match; by simplify_eq.
Qed.

(** ** Snapshots *)
(** The pinned key vouches for the content: some manifest signed by it
    describes exactly this file. *)
Definition vouched (pub content : string) : Prop :=
  exists m, Artifact.Verify m pub = Ok tt /\ Artifact.VerifyFile content m = Ok tt.

Definition snapshot_file (w : world (worker N)) : option string := files (wk_disk (w_db w)) !! SnapshotPath.
Definition version_file (w : world (worker N)) : option string := files (wk_disk (w_db w)) !! versionPath.

Lemma on_disk_run {A} (m : DM A) (w : world (worker N)) r w' : on_disk m w = (r, w') ->
  exists d, m (World (wk_disk (w_db w)) (w_now w) (w_faults w)) = (r, d) /\ wk_disk (w_db w') = w_db d /\
    wk_client (w_db w') = wk_client (w_db w) /\ wk_agent (w_db w') = wk_agent (w_db w).
Proof. unfold on_disk. destruct (m _) as [r0 d]. intros [= <- <-]. by exists d. Qed.

Lemma version_read (w : world (worker N)) r w' : on_disk SnapshotVersion w = (r, w') ->
  TouchesW (fun _ => False) 0 (w_db w) (w_db w') /\
  exists v, r = Ok v /\ (v = ""%string \/ exists raw, version_file w = Some raw /\ v = TrimSpace raw).
Proof.
  intros (d & H & Hd & Hc & Ha)%on_disk_run. apply SnapshotVersion_run in H as (Hd' & v & -> & Hv).
  split; [|by exists v]. split_and!; [done..|]. intros. by rewrite Hd, Hd'.
Qed.

Lemma touchesW_weaken P Q n w w' : (forall nm, P nm -> Q nm) -> TouchesW P n w w' -> TouchesW Q n w w'.
Proof. intros HPQ (?&?&H). split_and!; [done..|]. intros nm Hn. apply H. auto. Qed.

Lemma temp_fresh rnd : temp_name rnd <> SnapshotPath /\ temp_name rnd <> versionPath /\
  temp_name rnd <> keyPath /\ temp_name rnd <> idPath.
Proof. split_and!; discriminate. Qed.

Definition sync_files (rnd : string) (nm : string) : Prop :=
  nm = temp_name rnd \/ nm = SnapshotPath \/ nm = versionPath.

(** The part after the download. *)
Lemma install_run rnd m (w : world (worker N)) r w' :
  defer_remove (temp_name rnd) (do! verify_file (temp_name rnd) m ;;
    on_disk (InstallSnapshot (temp_name rnd) (Artifact.Version m))) w = (r, w') ->
  TouchesW (sync_files rnd) 0 (w_db w) (w_db w') /\
  ((snapshot_file w' = snapshot_file w /\ version_file w' = version_file w /\ is_ok r = false) \/
   exists c, Artifact.VerifyFile c m = Ok tt /\ snapshot_file w' = Some c /\
     (is_ok r = true -> version_file w' = Some (Artifact.Version m +:+ newline))).
Proof.
  unfold defer_remove. intros [(e & (r0 & [=] & _)%attempt_run & _)|(r1 & w1 & (r0 & [= ->] & Hi)%attempt_run & H)]%bind_cases.
  (* the deferred removal only touches the temporary file *)
  apply bind_cases in H as [(e & (r2 & [=] & _)%attempt_run & _)|(r2 & w2 & (r3 & [= ->] & Hrm)%attempt_run & H)].
  assert (w' = w2 /\ is_ok r = is_ok r0) as [-> Hr].
  { destruct r0; unfold ret, throw in H; injection H as <- <-; done. }
  assert (TouchesW (eq (temp_name rnd)) 0 (w_db w1) (w_db w2)) as HT2.
  { assert (Respects (TouchesW (eq (temp_name rnd))) (on_disk (N := N) (Remove (temp_name rnd)))) as HR
      by (apply touchesW_disk; auto with vapn). apply HR in Hrm as [_ HT]. exact HT. }
  assert (snapshot_file w2 = snapshot_file w1 /\ version_file w2 = version_file w1) as [Hs2 Hv2]
    by (destruct HT2 as (_ & _ & Hf); split; apply Hf, temp_fresh).
  enough (TouchesW (sync_files rnd) 0 (w_db w) (w_db w1) /\
    ((snapshot_file w1 = snapshot_file w /\ version_file w1 = version_file w /\ is_ok r0 = false) \/
     exists c, Artifact.VerifyFile c m = Ok tt /\ snapshot_file w1 = Some c /\
       (is_ok r0 = true -> version_file w1 = Some (Artifact.Version m +:+ newline)))) as [HT1 Hc].
  { split; [eapply at_trans; [exact HT1|]; eapply touchesW_weaken; [|exact HT2]; intros nm <-; by left|].
    rewrite Hs2, Hv2, Hr. done. }
  clear H Hrm Hr HT2 Hs2 Hv2 w2 r3 r.
  assert (Respects (TouchesW (fun _ => False)) (verify_file (N := N) (temp_name rnd) m)) as HV.
  { unfold verify_file, verify. respects. apply touchesW_disk. auto with vapn. }
  apply bind_cases in Hi as [(e & Hi & ->)|([] & w3 & H3 & Hi)].
  { apply HV in Hi as [_ HT]. split; [by eapply touchesW_weaken; [|exact HT]|]. left.
    destruct HT as (_ & _ & Hf). split; [apply Hf; tauto|]. split; [apply Hf; tauto|done]. }
  apply HV in H3 as HT3. destruct HT3 as [_ HT3].
  unfold verify_file in H3. apply bindM_Ok in H3 as (c & w4 & H4 & H3).
  apply on_disk_run in H4 as (d4 & H4 & Hd4 & _). apply ReadFile_run in H4 as [Hd4' Hc]. simpl in Hc, Hd4'.
  destruct (Artifact.VerifyFile c m) as [[]|e] eqn:Ev; unfold verify, ret, throw in H3; simplify_eq.
  assert (files (wk_disk (w_db w3)) = files (wk_disk (w_db w))) as Hf3 by (by rewrite Hd4, Hd4').
  apply on_disk_run in Hi as (d5 & Hi & Hd5 & Hc5 & Ha5).
  apply InstallSnapshot_run in Hi as [Hfr Hcase]; [|apply temp_fresh..]. simpl in Hfr, Hcase.
  split.
  { destruct HT3 as (Hc3 & Ha3 & _). split_and!; [congruence..|]. intros nm Hnm. unfold sync_files in Hnm.
    rewrite Hd5, Hfr by tauto. by rewrite Hf3. }
  unfold snapshot_file, version_file. rewrite Hd5.
  destruct r0 as [[]|e].
  - destruct Hcase as (c' & Hc' & Hs & Hv). rewrite Hf3 in Hc'. simplify_eq. right. by exists c.
  - destruct Hcase as [Hsame|(c' & Hc' & Hs)].
    + left. by rewrite Hsame, Hf3.
    + rewrite Hf3 in Hc'. simplify_eq. right. by exists c.
Qed.

Lemma SyncSnapshot_run rnd w r w' : SyncSnapshot cfg rnd w = (r, w') ->
  TouchesW (sync_files rnd) 0 (w_db w) (w_db w') /\
  ((snapshot_file w' = snapshot_file w /\ version_file w' = version_file w /\
    (is_ok r = true -> exists m, Artifact.Verify m (SnapshotPubKey cfg) = Ok tt /\
       (Artifact.Version m = ""%string \/ exists raw, version_file w = Some raw /\ Artifact.Version m = TrimSpace raw))) \/
   exists m c, Artifact.Verify m (SnapshotPubKey cfg) = Ok tt /\ Artifact.VerifyFile c m = Ok tt /\
     snapshot_file w' = Some c /\ (is_ok r = true -> version_file w' = Some (Artifact.Version m +:+ newline))).
Proof.
  intros H. unfold SyncSnapshot in H.
  assert (forall (w0 : world (worker N)), TouchesW (fun _ => False) 0 (w_db w) (w_db w0) ->
    TouchesW (sync_files rnd) 0 (w_db w) (w_db w0) /\ snapshot_file w0 = snapshot_file w /\ version_file w0 = version_file w) as Hq.
  { intros w0 HT. split; [by eapply touchesW_weaken; [|exact HT]|]. destruct HT as (_ & _ & Hf). split; apply Hf; tauto. }
  assert (Respects (TouchesW (fun _ => False)) (CurrentManifest (N := N))) as HM by (unfold CurrentManifest; process).
  apply bind_cases in H as [(e & H & ->)|(mr & w1 & H1 & H)].
  { apply HM in H as [_ HT]. apply Hq in HT as (? & ? & ?). split; [done|]. by left. }
  apply HM in H1 as [_ HT1]. set (m := mr_Manifest mr) in *.
  destruct (Artifact.Verify m (SnapshotPubKey cfg)) as [[]|e] eqn:Ev; unfold verify at 1 in H.
  2: { unfold bindM, throw in H. simplify_eq. apply Hq in HT1 as (? & ? & ?). split; [done|]. by left. }
  unfold bindM at 1 in H. unfold ret at 1 in H.
  apply bind_cases in H as [(e & (_ & v & [=] & _)%version_read & _)|(v & w2 & (HT2 & v' & [= <-] & Hv)%version_read & H)].
  assert (TouchesW (fun _ => False) 0 (w_db w) (w_db w2)) as HT12 by (by eapply at_trans).
  assert (version_file w1 = version_file w) as Hv1 by (destruct HT1 as (_ & _ & Hf); apply Hf; tauto).
  case_bool_decide as Evr.
  { unfold ret in H. simplify_eq. apply Hq in HT12 as (? & ? & ?). split; [done|]. left. split_and!; [done..|].
    intros _. exists m. split; [done|]. by rewrite <- Hv1. }
  apply bind_cases in H as [(e & (_ & v2 & [=] & _)%version_read & _)|(v2 & w3 & (HT3 & _)%version_read & H)].
  assert (TouchesW (fun _ => False) 0 (w_db w) (w_db w3)) as HT13 by (by eapply at_trans). apply Hq in HT13 as (Hq1 & Hq2 & Hq3).
  apply bind_cases in H as [(e & H & ->)|(tmp & w4 & H4 & H)].
  { apply download_touches in H as [_ HT]. split.
    - eapply at_trans; [exact Hq1|]. eapply touchesW_weaken; [|exact HT]. intros nm <-. by left.
    - left. destruct HT as (_ & _ & Hf). split; [rewrite <- Hq2; apply Hf, temp_fresh|].
      split; [rewrite <- Hq3; apply Hf, temp_fresh|done]. }
  apply download_name in H4 as Ht. subst tmp. apply download_touches in H4 as [_ HT4].
  apply install_run in H as [HT5 Hc].
  assert (snapshot_file w4 = snapshot_file w /\ version_file w4 = version_file w) as [Hs4 Hv4].
  { destruct HT4 as (_ & _ & Hf). split; [rewrite <- Hq2|rewrite <- Hq3]; apply Hf, temp_fresh. }
  split.
  - eapply at_trans; [exact Hq1|]. eapply at_trans; [|exact HT5]. eapply touchesW_weaken; [|exact HT4]. intros nm <-. by left.
  - rewrite Hs4, Hv4 in Hc. destruct Hc as [(? & ? & Hr)|(c & Hc & Hs & Hv')]; [left|right; by exists m, c].
    split_and!; [done..|]. by rewrite Hr.
Qed.

(** ** Keys *)
(** The directory holds [k]. *)
Definition holds_key (f : gmap string string) (k : PrivateKey) : Prop :=
  exists raw seed, f !! keyPath = Some raw /\ b64_decode (TrimSpace raw) = Some seed /\
    String.length seed = SeedSize /\ k = NewKeyFromSeed seed.

Lemma rotateKey_run (w : world (worker N)) r w' : rotateKey w = (r, w') ->
  wk_agent (w_db w') = wk_agent (w_db w) /\
  (forall nm, nm <> keyPath -> nm <> (keyPath +:+ ".tmp")%string ->
     files (wk_disk (w_db w')) !! nm = files (wk_disk (w_db w)) !! nm) /\
  match r with
  | Ok _ => exists next w1 w2, RotateKey (Public next) w1 = (Ok tt, w2) /\ wk_client (w_db w1) = wk_client (w_db w) /\
      wk_client (w_db w') = with_key next (wk_client (w_db w)) /\
      files (wk_disk (w_db w')) !! keyPath = Some (key_file next)
  | Err _ => wk_client (w_db w') = wk_client (w_db w) /\
      files (wk_disk (w_db w')) !! keyPath = files (wk_disk (w_db w)) !! keyPath
  end.
Proof.
  intros H. unfold rotateKey in H.
  assert (Respects (TouchesW (fun _ => False)) (on_disk (N := N) GenerateKey)) as HG.
  { apply touchesW_disk. unfold GenerateKey. touches. }
  assert (forall p, Respects (TouchesW (fun _ => False)) (RotateKey (N := N) p)) as HK by (intros; unfold RotateKey; process).
  assert (forall w0 : world (worker N), TouchesW (fun _ => False) 0 (w_db w) (w_db w0) ->
    wk_agent (w_db w0) = wk_agent (w_db w) /\
    (forall nm, nm <> keyPath -> nm <> (keyPath +:+ ".tmp")%string ->
     files (wk_disk (w_db w0)) !! nm = files (wk_disk (w_db w)) !! nm) /\
    wk_client (w_db w0) = wk_client (w_db w) /\
    files (wk_disk (w_db w0)) !! keyPath = files (wk_disk (w_db w)) !! keyPath) as Hq.
  { intros w0 (Hc & Ha & Hf). split_and!; [done| |done|]; intros; apply Hf; tauto. }
  apply bind_cases in H as [(e & [_ H]%HG & ->)|(next & w1 & [_ H1]%HG & H)]; [by apply Hq in H as (? & ? & ? & ?)|].
  apply bind_cases in H as [(e & [_ H]%HK & ->)|([] & w2 & H2 & H)].
  { assert (TouchesW (fun _ => False) 0 (w_db w) (w_db w')) as HT by (by eapply at_trans). by apply Hq in HT as (? & ? & ? & ?). }
  apply HK in H2 as HT2. destruct HT2 as [_ HT2].
  assert (TouchesW (fun _ => False) 0 (w_db w) (w_db w2)) as HT by (by eapply at_trans). apply Hq in HT as (Ha & Hf & Hc & Hk).
  apply bind_cases in H as [(e & H & ->)|([] & w3 & H3 & H)].
  - apply on_disk_run in H as (d & H & Hd & Hc' & Ha'). apply replace_atomic in H as [Ho Hk']; [|done]. simpl in *.
    split; [congruence|]. split; [intros; rewrite Hd, Ho by done; by apply Hf|]. split; [congruence|]. rewrite Hd, Hk'. done.
  - apply on_disk_run in H3 as (d & H3 & Hd & Hc' & Ha'). apply replace_atomic in H3 as [Ho Hk']; [|done]. simpl in *.
    unfold mutate in H. injection H as <- <-. simpl. split; [congruence|].
    split; [intros; rewrite Hd, Ho by done; by apply Hf|]. exists next, w1, w2.
    split; [done|]. destruct H1 as (Hc1 & _). split; [done|]. split; [by rewrite Hc', Hc|]. by rewrite Hd, Hk'.
Qed.

(** ** The tick *)
Context {sl : SeedLaws}.

Lemma holds_key_file f k : f !! keyPath = Some (key_file k) -> holds_key f k.
Proof. intros H. exists (key_file k), (Seed k). by rewrite key_file_decodes, seed_size, key_of_seed. Qed.

(** What no step of the agent does: touch the measurements, or replace the
    snapshot by something the pinned key does not vouch for, or lose the key
    that is in use. *)
Definition AgentSafe (_ : Z) (w w' : worker N) : Prop :=
  ag_executor (wk_agent w') = ag_executor (wk_agent w) /\
  (files (wk_disk w') !! SnapshotPath = files (wk_disk w) !! SnapshotPath \/
   exists c, files (wk_disk w') !! SnapshotPath = Some c /\ vouched (SnapshotPubKey cfg) c) /\
  (holds_key (files (wk_disk w)) (c_Key (wk_client w)) -> holds_key (files (wk_disk w')) (c_Key (wk_client w'))).
#[local] Instance AgentSafe_preorder : PreOrderAt AgentSafe.
Proof.
  split; unfold AgentSafe; [auto|]. intros n w1 w2 w3 (A1 & B1 & C1) (A2 & B2 & C2). split; [congruence|]. split; [|auto].
  destruct B2 as [->|B2]; auto.
Qed.
#[local] Instance AgentSafe_indifferent : Indifferent AgentSafe.
Proof. intros n w w' Hf Hc Ha. unfold AgentSafe. rewrite Hf, Hc, Ha. auto. Qed.

Lemma holds_key_same f f' k : f' !! keyPath = f !! keyPath -> holds_key f k -> holds_key f' k.
Proof. unfold holds_key. by intros ->. Qed.

Lemma safe_touches P n w w' : ~ P SnapshotPath -> ~ P keyPath -> TouchesW P n w w' -> AgentSafe n w w'.
Proof.
  intros H1 H2 (Hc & Ha & Hf). split; [by rewrite Ha|]. split; [left; by apply Hf|]. rewrite Hc.
  apply holds_key_same. by apply Hf.
Qed.
Lemma respects_touches {A} P (m : M (worker N) A) : ~ P SnapshotPath -> ~ P keyPath ->
  Respects (TouchesW P) m -> Respects AgentSafe m.
Proof. intros H1 H2 Hm w r w' H. apply Hm in H as [Hn HT]. split; [done|]. by eapply safe_touches. Qed.

(** Every computation runs at one reading of the clock. *)
Ltac same_clock :=
  assert (Indifferent (N := N) (fun _ _ _ => True)) as Hindifferent by done;
  unfold WriteFile, append_byte, close_file, Rename; process; repeat case_match; by simplify_eq.

Lemma rotateKey_safe : Respects AgentSafe rotateKey.
Proof.
  intros w r w' H. split.
  - assert (Respects (fun _ _ _ => True) (rotateKey (N := N))) as HT.
    { unfold rotateKey, GenerateKey, RotateKey, ReplaceKey. same_clock. }
    by apply HT in H as [? _].
  - apply rotateKey_run in H as (Ha & Hf & Hr). split; [by rewrite Ha|]. split; [left; by apply Hf|].
    intros Hk. destruct r as [[]|e].
    + destruct Hr as (next & w1 & w2 & _ & _ & -> & Hk'). by apply holds_key_file.
    + destruct Hr as [-> Hk']. by eapply holds_key_same.
Qed.

Lemma sync_safe rnd : Respects AgentSafe (SyncSnapshot cfg rnd).
Proof.
  intros w r w' H. split.
  - assert (Respects (fun _ _ _ => True) (SyncSnapshot (N := N) cfg rnd)) as HT.
    { unfold SyncSnapshot, defer_remove, verify_file, verify, CurrentManifest, InstallSnapshot, DownloadArtifact, Remove,
        CreateTemp. same_clock. }
    by apply HT in H as [? _].
  - apply SyncSnapshot_run in H as [HT Hc]. destruct HT as (Hcl & Ha & Hf). split; [by rewrite Ha|]. split.
    + destruct Hc as [(Hs & _)|(m & c & Hm & Hv & Hs & _)]; [by left|right]. exists c. split; [done|]. by exists m.
    + rewrite Hcl. apply holds_key_same. apply Hf. unfold sync_files. pose proof (temp_fresh rnd) as (?&?&?&?).
      intros [?|[?|?]]; [congruence|discriminate..].
Qed.

Lemma safe_agent (f : Agent -> Agent) n (w : worker N) : (forall a, ag_executor (f a) = ag_executor a) -> AgentSafe n w (set_agent f w).
Proof. intros Hf. unfold AgentSafe. simpl. rewrite Hf. auto. Qed.

Lemma WriteStatus_safe st : Respects AgentSafe (on_disk (WriteStatus st)).
Proof.
  apply (respects_touches (fun nm => nm = StatusPath \/ nm = (StatusPath +:+ ".tmp")%string)); [by intros [?|?]..|].
  apply touchesW_disk. unfold WriteStatus. touches.
Qed.

Lemma tick_safe rnd : Respects AgentSafe (tick cfg Version rnd).
Proof.
  unfold tick, Heartbeat, writeStatus, noteState, noteWaiting, run_action.
  repeat first [ apply sync_safe | apply rotateKey_safe | apply WriteStatus_safe | worker_step | progress respects ];
    apply safe_agent; intros; repeat case_bool_decide; done.
Qed.

Lemma Register_safe token name version : Respects AgentSafe (Register (N := N) token name version).
Proof. unfold Register. process. unfold AgentSafe. simpl. auto. Qed.

Lemma register_safe done_ : Respects AgentSafe (register cfg Version done_).
Proof.
  assert (forall left i, Respects AgentSafe (register_attempts (N := N) cfg Version left i done_)) as HR.
  { induction left as [|left IH]; intros i; cbn [register_attempts]; [process|].
    apply respects_bind; [apply _|apply respects_attempt, Register_safe|]. intros [resp|e]; [process|].
    destruct (done_ i); [process|]. destruct left; [process|apply IH]. }
  unfold register. respects; [apply HR|].
  apply (respects_touches (eq idPath)); [done..|]. apply touchesW_disk. unfold SaveWorkerID. touches.
Qed.

(** ** The process *)
Context {mol : MapOrderLaws} {E : Type} (registry : Registry E).

(** Files and client stay. *)
Definition Outside_exec (_ : Z) (w w' : worker N) : Prop :=
  files (wk_disk w') = files (wk_disk w) /\ wk_client w' = wk_client w.
#[local] Instance Outside_preorder : PreOrderAt Outside_exec.
Proof. split; unfold Outside_exec; [done|]. intros ???? (?&?) (?&?). split; congruence. Qed.
#[local] Instance Outside_indifferent : Indifferent Outside_exec.
Proof. by intros n w w' ???. Qed.

Lemma flush_outside rounds : Respects Outside_exec (flush (N := N) rounds).
Proof.
  assert (forall fuel rds, Respects Outside_exec (flush_loop (N := N) fuel rds)) as HF.
  { induction fuel as [|fuel IH]; intros rds; cbn [flush_loop]; [process|].
    unfold look_exec, UploadObservations, mutate_exec. process; auto. done. }
  unfold flush, look_exec. process. apply HF.
Qed.

(** The goroutines of [e'] are those of [e], or new ones for listed targets. *)
Definition FromListed (f : gmap string string) (e e' : Executor) : Prop :=
  forall g l, ex_loops e' !! g = Some l ->
    (exists l0, ex_loops e !! g = Some l0 /\ lp_assignment l0 = lp_assignment l) \/ listed f (as_Target (lp_assignment l)).

Lemma FromListed_same f e e' : ex_loops e' = ex_loops e -> FromListed f e e'.
Proof. intros He g l H. rewrite He in H. left. eauto. Qed.
Lemma FromListed_alter f e q p g : FromListed f e (set_loops (alter (set_phase p) g) (set_queue q e)).
Proof.
  intros h l H. simpl in H. left. destruct (decide (g = h)) as [->|Hn].
  - rewrite lookup_alter_eq in H. destruct (ex_loops e !! h) as [l0|]; simplify_eq/=. by exists l0.
  - rewrite lookup_alter_ne in H by done. eauto.
Qed.
Lemma queue_eta e : set_queue (ex_queue e) e = e.
Proof. by destruct e. Qed.

Lemma estep_loops x y e : estep registry x y -> ag_executor (wk_agent x.2) = Some e -> ExecWF e ->
  files (wk_disk y.2) = files (wk_disk x.2) /\ wk_client y.2 = wk_client x.2 /\
  exists e', ag_executor (wk_agent y.2) = Some e' /\ ExecWF e' /\ FromListed (files (wk_disk x.2)) e e'.
Proof.
  intros Hs He Hwf.
  destruct Hs as [t d now fs r w' Hl|t d now fs r w' Hl|t d e0 g env measured He0|t d e0 g He0|t d e0 g He0|t d e0 g He0
    |t d e0 He0|t d now fs e0 rounds b w' e' batches w1 He0 Hfl He' Hack Hcat]; cbn [snd] in *;
    try (rewrite He in He0; injection He0 as <-).
  - destruct (lease_run registry (World d now fs) e He Hwf) as (w1 & e1 & Hrun & He1 & Hf & Hc & H). rewrite Hrun in Hl. injection Hl as <- <-.
    split; [done|]. split; [done|]. exists e1. split; [done|].
    destruct (LeaseAssignments _ _) as [[l|err] w2]; cbn [fst] in H; [|subst; split; [done|by apply FromListed_same]].
    destruct H as (e2 & HS & _ & _ & HT & _). split; [by eapply started_wf, Stopped_wf|].
    intros g l' [Hg|(_ & _ & _ & Hli & _)]%(started_loops _ _ _ _ HT); [left|by right].
    destruct (stopped_loops _ _ _ HS g) as [Eg|[Eg _]]; rewrite Eg in Hg; [eauto|].
    destruct (ex_loops e !! g) as [l0|]; simplify_eq/=. by exists l0.
  - destruct (stopAll_run (World d now fs) e He) as (w1 & e1 & Hrun & He1 & Hd & Hc & HS & _). rewrite Hrun in Hl. injection Hl as <- <-.
    split; [by rewrite Hd|]. split; [done|]. exists e1. split; [done|]. split; [by eapply Stopped_wf|].
    intros g l' Hg. left. destruct (stopped_loops _ _ _ HS g) as [Eg|[Eg _]]; rewrite Eg in Hg; [eauto|].
    destruct (ex_loops e !! g) as [l0|]; simplify_eq/=. by exists l0.
  - do 2 (split; [done|]). eexists. split; [by eapply with_exec_exec|].
    destruct (execute_cases registry g env measured e) as [->|[(obs & -> & Hlt)|(obs & ->)]].
    + split; [done|by apply FromListed_same].
    + split; [done|]. by apply FromListed_same.
    + split; [by apply alter_loops_wf|]. rewrite <- (queue_eta e) at 2. apply FromListed_alter.
  - do 2 (split; [done|]). eexists. split; [by eapply with_exec_exec|].
    destruct (drop_cases g e) as [->|(obs & ->)]; [split; [done|by apply FromListed_same]|].
    split; [by apply alter_loops_wf|]. apply FromListed_alter.
  - do 2 (split; [done|]). eexists. split; [by eapply with_exec_exec|].
    destruct (resend_cases g e) as [->|[(obs & -> & Hlt)| ->]]; [split; [done|by apply FromListed_same]|..].
    + split; [by apply alter_loops_wf|]. apply FromListed_alter.
    + split; [by apply alter_loops_wf|]. rewrite <- (queue_eta e) at 2. apply FromListed_alter.
  - do 2 (split; [done|]). eexists. split; [by eapply with_exec_exec|].
    unfold finish. repeat case_match; try (split; [done|by apply FromListed_same]).
    destruct Hwf as (Hr & Hlp & Hi). split.
    + split; [done|]. split; [|done]. simpl. intros h [l' Hh]. apply lookup_delete_Some in Hh as [_ Hh]. eauto.
    + intros h l' Hh. simpl in Hh. apply lookup_delete_Some in Hh as [_ Hh]. left. eauto.
  - do 2 (split; [done|]). eexists. split; [by eapply with_exec_exec|]. unfold take_one.
    destruct (ex_queue e); (split; [done|by apply FromListed_same]).
  - apply flush_outside in Hfl as HO. destruct HO as [_ [HOf HOc]]. split; [done|]. split; [done|].
    destruct (flush_run rounds (World d now fs) e He) as (b1 & w2 & Hrun & HF). rewrite Hrun in Hfl. injection Hfl as -> <-.
    destruct HF as (e2 & bs & w3 & He2 & _ & _ & _ & Hfr & _). exists e2. split; [done|]. rewrite Hfr.
    split; [done|]. by apply FromListed_same.
Qed.

(** The steps of the worker: a heartbeat tick, a registration, a step of the
    executor once it was started, and a restart, which keeps only the
    directory.  Between steps the other end of the network and the random
    source may become anything. *)
Inductive pstep : worker N -> worker N -> Prop :=
| PS_tick d now fs rnd r w' :
    tick cfg Version rnd (World d now fs) = (r, w') -> pstep d (w_db w')
| PS_register d now fs done_ r w' :
    register cfg Version done_ (World d now fs) = (r, w') -> pstep d (w_db w')
| PS_exec t d t' d' :
    ag_started (wk_agent d) = true -> estep registry (t, d) (t', d') -> pstep d d'
| PS_restart d now fs c w' :
    NewAgent cfg (World (wk_disk d) now fs) = (Ok c, w') -> pstep d (boot (w_db w') (wk_net d) c)
| PS_outside d n ds :
    pstep d (MkWorker (Disk (files (wk_disk d)) ds) (wk_client d) (wk_agent d) n).

Definition contents (d : worker N) : list string :=
  match files (wk_disk d) !! SnapshotPath with Some c => [c] | None => [] end.

(** The states reached from [d0], each with the snapshots that have been
    installed so far. *)
Inductive reached (d0 : worker N) : list string -> worker N -> Prop :=
| reached_start : reached d0 (contents d0) d0
| reached_step h d d' : reached d0 h d -> pstep d d' -> reached d0 (contents d' ++ h) d'.

(** A process just booted, with an unregistered or registered identity, on a
    directory whose snapshot (if any) the pinned key vouches for. *)
Definition Booted (d : worker N) : Prop :=
  exists now fs disk0 c w', NewAgent cfg (World disk0 now fs) = (Ok c, w') /\
    d = boot (w_db w') (wk_net d) c /\
    (forall content, files disk0 !! SnapshotPath = Some content -> vouched (SnapshotPubKey cfg) content).

Definition PInv (h : list string) (d : worker N) : Prop :=
  (forall c, c ∈ h -> vouched (SnapshotPubKey cfg) c) /\
  (forall c, c ∈ contents d -> c ∈ h) /\
  holds_key (files (wk_disk d)) (c_Key (wk_client d)) /\
  exists e, ag_executor (wk_agent d) = Some e /\ ExecWF e /\
    forall g l, ex_loops e !! g = Some l ->
      exists c lst, c ∈ h /\ sqlite_targets c = Some lst /\ as_Target (lp_assignment l) ∈ lst.

Lemma NewExecutor_wf k : ExecWF (NewExecutor k).
Proof. split; [|split]; simpl; intros; by rewrite ?lookup_empty in *. Qed.

Lemma NewAgent_Ok d now fs c w' : NewAgent cfg (World d now fs) = (Ok c, w') ->
  files (w_db w') !! SnapshotPath = files d !! SnapshotPath /\ holds_key (files (w_db w')) (c_Key c).
Proof.
  unfold NewAgent. intros H.
  apply bindM_Ok in H as (u & w1 & [E1 _]%exec_Ok & H). apply bindM_Ok in H as (k & w2 & Hk & H).
  apply bindM_Ok in H as (id & w3 & Hid & H). unfold ret in H. injection H as <- <-. simpl in E1.
  assert (Respects (Touches (eq keyPath)) Key) as HTk by (unfold Key, GenerateKey; touches).
  assert (Respects (Touches (fun _ => False)) WorkerID) as HTw by (unfold WorkerID; touches).
  apply HTk in Hk as HT1. destruct HT1 as [_ HT1]. apply HTw in Hid as [_ HT2].
  split; [rewrite HT2, HT1, E1; [done|done|tauto]|].
  assert (holds_key (files (w_db w2)) k) as Hh.
  { apply Key_Ok in Hk as [(Hf & raw & seed & Hr & Hb & Hl & Hke)|[_ Hf]]; [|by apply holds_key_file].
    exists raw, seed. by rewrite Hf. }
  assert (c_Key (if bool_decide (id = "") then NewClient (CoordinatorURL cfg) k
    else WithID id (NewClient (CoordinatorURL cfg) k)) = k) as -> by (by destruct (bool_decide _)).
  eapply holds_key_same; [|exact Hh]. apply HT2. tauto.
Qed.

Lemma PInv_boot h d c disk0 now fs w' n :
  NewAgent cfg (World disk0 now fs) = (Ok c, w') -> d = boot (w_db w') n c ->
  (forall x, files disk0 !! SnapshotPath = Some x -> x ∈ h) -> (forall x, x ∈ h -> vouched (SnapshotPubKey cfg) x) ->
  PInv (contents d ++ h) d.
Proof.
  intros [Hs Hk]%NewAgent_Ok -> Hh Hv. unfold contents. simpl. rewrite Hs.
  assert (forall x, x ∈ (match files disk0 !! SnapshotPath with Some c0 => [c0] | None => [] end) ++ h -> x ∈ h) as Hin.
  { intros x. rewrite elem_of_app. intros [Hx|?]; [|done]. destruct (files disk0 !! SnapshotPath) as [y|]; [|set_solver].
    apply list_elem_of_singleton in Hx as ->. by apply Hh. }
  split; [auto|]. split; [unfold contents; simpl; rewrite Hs; set_solver|]. split; [done|].
  exists (NewExecutor (c_Key c)). split; [done|]. split; [apply NewExecutor_wf|]. intros g l Hg. simpl in Hg.
  by rewrite lookup_empty in Hg.
Qed.

Lemma PInv_step h d d' : pstep d d' -> PInv h d -> PInv (contents d' ++ h) d'.
Proof.
  intros Hs (Hv & Hc & Hk & e & He & Hwf & Hl).
  assert (forall d1, AgentSafe 0 d d1 -> PInv (contents d1 ++ h) d1) as Hsafe.
  { intros d1 (Ha & Hsn & Hk').
    assert (forall x, x ∈ contents d1 -> x ∈ h \/ vouched (SnapshotPubKey cfg) x) as Hcd.
    { intros x Hx. unfold contents in *. destruct Hsn as [Hsn|(c & Hsn & Hvc)]; rewrite Hsn in Hx; [left; auto|right].
      by apply list_elem_of_singleton in Hx as ->. }
    split; [intros x; rewrite elem_of_app; intros [[?|?]%Hcd|?]; auto|].
    split; [set_solver|]. split; [auto|]. exists e. split; [by rewrite Ha|]. split; [done|].
    intros g l Hg. destruct (Hl g l Hg) as (c & lst & ? & ? & ?). exists c, lst. set_solver. }
  destruct Hs as [d now fs rnd r w' H|d now fs done_ r w' H|t d t' d' _ H|d now fs c w' H|d n ds].
  - apply Hsafe. by apply tick_safe in H as [_ H].
  - apply Hsafe. by apply register_safe in H as [_ H].
  - destruct (estep_loops _ _ e H He Hwf) as (Hf & Hcl & e' & He' & Hwf' & HF). cbn [snd] in *.
    assert (contents d' = contents d) as Hcd by (unfold contents; by rewrite Hf). rewrite Hcd.
    split; [intros x; rewrite elem_of_app; intros [?|?]; auto|]. split; [rewrite Hcd; set_solver|].
    split; [by rewrite Hf, Hcl|]. exists e'. split; [done|]. split; [done|]. intros g l Hg.
    destruct (HF g l Hg) as [(l0 & Hl0 & <-)|(c & lst & Hcs & Hls & Ht)].
    + destruct (Hl g l0 Hl0) as (c & lst & ? & ? & ?). exists c, lst. set_solver.
    + exists c, lst. split_and!; [|done..]. apply elem_of_app. left. unfold contents. rewrite Hcs. set_solver.
  - eapply PInv_boot; [exact H|done| |done]. intros x Hx. apply Hc. unfold contents. rewrite Hx. set_solver.
  - apply Hsafe. by apply AgentSafe_indifferent.
Qed.

Lemma reached_PInv d0 h d : Booted d0 -> reached d0 h d -> PInv h d.
Proof.
  intros (now & fs & disk0 & c & w' & HN & Hd0 & Hv). induction 1 as [|h d d' _ IH Hs]; [|by eapply PInv_step].
  pose proof (NewAgent_Ok _ _ _ _ _ HN) as [Hs _].
  assert (contents d0 = match files disk0 !! SnapshotPath with Some x => [x] | None => [] end) as Hcd.
  { unfold contents. rewrite Hd0. simpl. by rewrite Hs. }
  destruct (PInv_boot (contents d0) d0 c disk0 now fs w' (wk_net d0) HN Hd0) as (H1 & H2 & H3 & H4).
  - intros x Hx. rewrite Hcd, Hx. set_solver.
  - intros x. rewrite Hcd. destruct (files disk0 !! SnapshotPath) as [y|]; [|set_solver].
    rewrite list_elem_of_singleton. intros ->. by apply Hv.
  - split; [set_solver|]. split; [done|]. split; [done|]. destruct H4 as (e & ? & ? & Hl). exists e. split_and!; [done..|].
    intros g l Hg. destruct (Hl g l Hg) as (x & lst & ? & ? & ?). exists x, lst. set_solver.
Qed.

(** * Properties *)
(** C6: Whatever the coordinator and the network do, in any interleaving of ticks,
    registrations, measurements, restarts and failures: every snapshot ever
    installed is one a manifest signed by the pinned key describes, and every
    measurement goroutine probes a target that one of those snapshots
    lists. *)
Theorem probes_only_listed d0 h d :
  Booted d0 -> reached d0 h d ->
  (forall c, c ∈ h -> vouched (SnapshotPubKey cfg) c) /\
  (forall c, files (wk_disk d) !! SnapshotPath = Some c -> vouched (SnapshotPubKey cfg) c) /\
  forall e g l, ag_executor (wk_agent d) = Some e -> ex_loops e !! g = Some l ->
    exists c lst, c ∈ h /\ vouched (SnapshotPubKey cfg) c /\ sqlite_targets c = Some lst /\
      as_Target (lp_assignment l) ∈ lst.
Proof.
  intros HB HR. pose proof (reached_PInv _ _ _ HB HR) as (Hv & Hc & _ & e & He & _ & Hl). split; [done|]. split.
  - intros c Hs. apply Hv, Hc. unfold contents. rewrite Hs. set_solver.
  - intros e' g l He' Hg. simplify_eq. destruct (Hl g l Hg) as (c & lst & ? & ? & ?). exists c, lst. auto.
Qed.

(** A restart at any point of the worker's life, key rotations included,
    gives the process the key it was using. *)
Theorem restart_same_key d0 h d now fs c w' :
  Booted d0 -> reached d0 h d -> NewAgent cfg (World (wk_disk d) now fs) = (Ok c, w') ->
  c_Key c = c_Key (wk_client d).
Proof.
  intros HB HR HN. pose proof (reached_PInv _ _ _ HB HR) as (_ & _ & (raw & seed & Hr & Hb & Hl & Hk) & _).
  unfold NewAgent in HN. apply bindM_Ok in HN as (u & w1 & [E1 _]%exec_Ok & H). apply bindM_Ok in H as (k & w2 & H2 & H).
  apply bindM_Ok in H as (id & w3 & _ & H). unfold ret in H. injection H as <- _. simpl in E1.
  assert (k = c_Key (wk_client d)) as <-; [|by destruct (bool_decide _)].
  apply Key_Ok in H2 as [(_ & raw' & seed' & Hr' & Hb' & _ & ->)|[Hn _]]; rewrite E1, Hr in *; simplify_eq. congruence.
Qed.

(** C11: One synchronization, whatever the coordinator answers and whatever fails:
    the identity (client, key and id files) and the measurements are never
    touched, and the installed file either stays or becomes one that a
    manifest signed by the pinned key describes.  A success means that the
    version on disk is that of such a manifest. *)
Theorem sync_verified rnd w r w' :
  SyncSnapshot (N := N) cfg rnd w = (r, w') ->
  wk_client (w_db w') = wk_client (w_db w) /\ wk_agent (w_db w') = wk_agent (w_db w) /\
  (forall nm, In nm [keyPath; idPath; StatusPath] ->
     files (wk_disk (w_db w')) !! nm = files (wk_disk (w_db w)) !! nm) /\
  (snapshot_file w' = snapshot_file w \/
   exists m c, Artifact.Verify m (SnapshotPubKey cfg) = Ok tt /\ Artifact.VerifyFile c m = Ok tt /\ snapshot_file w' = Some c) /\
  (is_ok r = true -> exists m, Artifact.Verify m (SnapshotPubKey cfg) = Ok tt /\
     ((snapshot_file w' = snapshot_file w /\
       (Artifact.Version m = ""%string \/ exists raw, version_file w' = Some raw /\ Artifact.Version m = TrimSpace raw)) \/
      exists c, Artifact.VerifyFile c m = Ok tt /\ snapshot_file w' = Some c /\
        version_file w' = Some (Artifact.Version m +:+ newline))).
Proof.
  intros [(Hc & Ha & Hf) Hcase]%SyncSnapshot_run. split; [done|]. split; [done|]. split.
  { intros nm Hnm. apply Hf. unfold sync_files. pose proof (temp_fresh rnd) as (?&?&?&?).
    intros Hs. simpl in Hnm. destruct Hnm as [<-|[<-|[<-|[]]]]; destruct Hs as [?|[?|?]]; first [discriminate | congruence]. }
  destruct Hcase as [(Hs & Hv & Hok)|(m & c & Hm & Hvf & Hs & Hok)].
  - split; [by left|]. intros (m & Hm & Hver)%Hok. exists m. split; [done|]. left. split; [done|]. by rewrite Hv.
  - split; [right; eauto|]. intros Hr%Hok. exists m. split; [done|]. right. eauto.
Qed.

(** Rotation: on any failure the process and the directory stay with the old
    key; on success both have the new one, whose public part the coordinator
    had accepted over a request of the old identity.  The executor is never
    told: it goes on signing observations with the key it was built with. *)
Theorem rotation_atomic w r w' :
  rotateKey (N := N) w = (r, w') ->
  match r with
  | Ok _ => exists next w1 w2, RotateKey (Public next) w1 = (Ok tt, w2) /\ wk_client (w_db w1) = wk_client (w_db w) /\
      c_Key (wk_client (w_db w')) = next /\ c_WorkerID (wk_client (w_db w')) = c_WorkerID (wk_client (w_db w)) /\
      holds_key (files (wk_disk (w_db w'))) next
  | Err _ => wk_client (w_db w') = wk_client (w_db w) /\
      files (wk_disk (w_db w')) !! keyPath = files (wk_disk (w_db w)) !! keyPath
  end /\
  ag_executor (wk_agent (w_db w')) = ag_executor (wk_agent (w_db w)).
Proof.
  intros (Ha & _ & Hr)%rotateKey_run. split; [|by rewrite Ha]. destruct r as [[]|e]; [|done].
  destruct Hr as (next & w1 & w2 & H2 & Hc1 & Hc & Hk). exists next, w1, w2. rewrite Hc.
  split_and!; try done. by apply holds_key_file.
Qed.

(** A goroutine once started is not checked against later snapshots: while
    its assignment is leased it goes on, whatever the installed snapshot
    lists. *)
Theorem running_not_rechecked w e i g l w1 :
  exec_of w = Some e -> ExecWF e -> ex_running e !! i = Some g ->
  LeaseAssignments (ex_capacity e) w = (Ok l, w1) -> is_Some (current_of l !! i) ->
  exists w' e', lease registry w = (Ok tt, w') /\ exec_of w' = Some e' /\
    ex_running e' !! i = Some g /\ ex_loops e' !! g = ex_loops e !! g.
Proof.
  intros He Hwf Hg Hl Hcur. destruct (lease_run registry w e He Hwf) as (w' & e' & Hrun & He' & _ & _ & H).
  exists w', e'. split; [done|]. split; [done|]. rewrite Hl in H. cbn [fst] in H.
  destruct H as (e1 & HS & _ & _ & HT & _). destruct Hcur as [a Ha].
  assert (ex_running e1 !! i = Some g) as H1 by (rewrite (stopped_keep _ _ _ HS); [done|by rewrite Ha]).
  split; [by apply (started_running _ _ _ _ HT)|].
  assert ((g < ex_next e1)%nat) as Hlt by (by eapply (proj1 (Stopped_wf _ _ _ HS Hwf))).
  rewrite (started_old _ _ _ _ HT) by done.
  destruct (stopped_loops _ _ _ HS g) as [->|[_ (j & Hj & Hgj)]]; [done|].
  rewrite (proj2 (proj2 Hwf) j i g Hgj Hg), Ha in Hj. done.
Qed.
End Lemmas.

(** * Witnesses

    A coordinator that advertises version v2 and serves a snapshot signed by
    bob, whose key is pinned; the worker is alice's. *)
Module ToyAgent.
Import ToySeed ToyExecutor.
#[export] Existing Instance Artifact.ToyArtifact.toy_manifest_json.
Definition unsigned_manifest : Artifact.Manifest :=
  Artifact.MkManifest "v2" 0 "k" (hex_encode (sha256 "snapshot")) 8 0 0 1 "1.0" "".
Definition toy_manifest : Artifact.Manifest :=
  match Artifact.Sign unsigned_manifest bob with Ok m => m | Err _ => unsigned_manifest end.
#[export] Instance agent_client : ClientJSON := {|
  encode_register _ := "register"%string; encode_heartbeat v := v; encode_rotate p := p; encode_lease _ := "lease"%string;
  encode_upload _ := Some "upload"%string;
  decode_register _ := Some (MkRegisterResponse "w1" "pending");
  decode_heartbeat _ := Some (MkHeartbeatResponse "active" ["rotate_key"%string] (Some "v2"%string));
  decode_manifest _ := Some (MkManifestResponse toy_manifest "/dl");
  decode_assignments _ := Some [toy_assignment 60]
|}.
#[export] Instance agent_network : Network unit := {|
  round_trip r _ n := (Some (WireResponse 200 (if bool_decide (Server.Path r = "/dl"%string) then "snapshot" else "")%string), n)
|}.
Definition toy_config : AgentConfig := MkAgentConfig "" "token" "toy" (Public bob).
Definition nonce : string := "0123456789abcdef".
(** The seed of the first key, then what the first tick and lease draw. *)
Definition toy_draws : list string := [draw "alice"; nonce; draw "alice2"; nonce; nonce; nonce; nonce].
Definition empty_dir : disk := Disk {[ idPath := ("w1" +:+ newline)%string ]} toy_draws.
Definition booting : result Client * world disk := NewAgent toy_config (World empty_dir 1 []).
Definition booted_client : Client := match booting.1 with Ok c => c | Err _ => NewClient "" alice end.
Definition day0 : worker unit := boot (w_db booting.2) tt booted_client.
Definition ticked : result unit * world (worker unit) := tick toy_config "1.0" "5" (World day0 10 []).
Definition day1 : worker unit := w_db ticked.2.
Definition leasing : result unit * world (worker unit) := lease toy_registry (World day1 20 []).
Definition day2 : worker unit := w_db leasing.2.
Definition exec2 : Executor := match ag_executor (wk_agent day2) with Some e => e | None => NewExecutor alice end.

Lemma day0_booted : Booted toy_config day0.
Proof.
  exists 1, [], empty_dir, booted_client, booting.2. split; [vm_compute; reflexivity|]. split; [reflexivity|].
  intros c Hc. vm_compute in Hc. discriminate.
Qed.
Lemma day2_reached : reached toy_config "1.0" toy_registry day0 (contents day2 ++ contents day1 ++ contents day0) day2.
Proof.
  eapply reached_step; [eapply reached_step; [apply reached_start|]|].
  - eapply (PS_tick toy_config "1.0" toy_registry day0 10 [] "5"). apply surjective_pairing.
  - eapply (PS_exec toy_config "1.0" toy_registry no_trail day1 no_trail day2); [vm_compute; reflexivity|].
    eapply (ES_lease toy_registry no_trail day1 20 []). apply surjective_pairing.
Qed.
End ToyAgent.

Section Witnesses.
Import ToySeed ToyExecutor ToyAgent.

Lemma probes_only_listed_witness : exists l c lst, ex_loops exec2 !! 0%nat = Some l /\
  vouched (Public bob) c /\ sqlite_targets c = Some lst /\ as_Target (lp_assignment l) ∈ lst.
Proof.
  set (l := Loop (toy_assignment 60) (Addr V4 3221225985) false Idle).
  assert (ex_loops exec2 !! 0%nat = Some l) as Hl by (vm_compute; reflexivity).
  assert (ag_executor (wk_agent day2) = Some exec2) as He by (vm_compute; reflexivity).
  destruct (probes_only_listed toy_config "1.0" toy_registry day0 _ day2 day0_booted day2_reached) as (_ & _ & H).
  destruct (H exec2 0%nat l He Hl) as (c & lst & _ & H1 & H2 & H3). exists l, c, lst. auto.
Defined.

(** The tick rotated the key: a restart comes up with the new one. *)
Definition restarted : result Client * world disk := NewAgent toy_config (World (wk_disk day2) 30 []).
Definition restarted_client : Client := match restarted.1 with Ok c => c | Err _ => booted_client end.
Lemma restart_same_key_witness :
  Public (c_Key (wk_client day2)) = draw "alice2" /\ c_Key restarted_client = c_Key (wk_client day2).
Proof.
  split; [vm_compute; reflexivity|].
  apply (restart_same_key toy_config "1.0" toy_registry day0 _ day2 30 [] restarted_client restarted.2 day0_booted day2_reached).
  vm_compute. reflexivity.
Defined.

Definition before_sync : world (worker unit) :=
  World (MkWorker (Disk (files (wk_disk day0)) [nonce; nonce]) (wk_client day0) (wk_agent day0) tt) 10 [].
Definition synced : result unit * world (worker unit) := SyncSnapshot toy_config "5" before_sync.
Lemma sync_verified_witness :
  synced.1 = Ok tt /\ snapshot_file before_sync = None /\ snapshot_file synced.2 = Some "snapshot"%string /\
  wk_client (w_db synced.2) = wk_client (w_db before_sync).
Proof.
  split; [vm_compute; reflexivity|]. split; [vm_compute; reflexivity|]. split; [vm_compute; reflexivity|].
  apply (sync_verified toy_config "5" before_sync synced.1 synced.2). apply surjective_pairing.
Defined.

Definition before_rotation : world (worker unit) :=
  World (MkWorker (Disk (files (wk_disk day0)) [draw "carol"; nonce]) (wk_client day0) (wk_agent day0) tt) 10 [].
Definition rotation : result unit * world (worker unit) := rotateKey before_rotation.
Lemma rotation_atomic_witness :
  rotation.1 = Ok tt /\ Public (c_Key (wk_client (w_db rotation.2))) = draw "carol" /\
  ag_executor (wk_agent (w_db rotation.2)) = ag_executor (wk_agent (w_db before_rotation)).
Proof.
  split; [vm_compute; reflexivity|]. split; [vm_compute; reflexivity|].
  apply (rotation_atomic before_rotation rotation.1 rotation.2). apply surjective_pairing.
Defined.

(** The snapshot was replaced by one that lists nothing; the goroutine goes on. *)
Definition other_snapshot : world (worker unit) :=
  World (MkWorker (Disk {[ SnapshotPath := "other"%string ]} [nonce]) (wk_client day2) (wk_agent day2) tt) 40 [].
Lemma running_not_rechecked_witness : sqlite_targets "other" = None /\
  exists w' e', lease toy_registry other_snapshot = (Ok tt, w') /\ exec_of w' = Some e' /\
    ex_running e' !! 7 = Some 0%nat /\ ex_loops e' !! 0%nat = ex_loops exec2 !! 0%nat.
Proof.
  split; [reflexivity|].
  assert (exec_of other_snapshot = Some exec2) as He by (vm_compute; reflexivity).
  apply (running_not_rechecked toy_registry other_snapshot exec2 7 0 [toy_assignment 60]
    (LeaseAssignments 64 other_snapshot).2 He).
  - split; [|split].
    + intros i g Hg. assert (ex_running exec2 = {[ 7 := 0%nat ]}) as Er by (vm_compute; reflexivity).
      rewrite Er in Hg. apply lookup_singleton_Some in Hg as [_ <-]. vm_compute. lia.
    + intros g Hg. assert (ex_loops exec2 = {[ 0%nat := Loop (toy_assignment 60) (Addr V4 3221225985) false Idle ]}) as Er
        by (vm_compute; reflexivity). rewrite Er in Hg. destruct Hg as [l Hl].
      apply lookup_singleton_Some in Hl as [<- _]. vm_compute. lia.
    + intros i j g Hi Hj. assert (ex_running exec2 = {[ 7 := 0%nat ]}) as Er by (vm_compute; reflexivity).
      rewrite Er in Hi, Hj. apply lookup_singleton_Some in Hi as [<- _]. apply lookup_singleton_Some in Hj as [<- _]. reflexivity.
  - vm_compute. reflexivity.
  - vm_compute. reflexivity.
  - vm_compute. eauto.
Defined.
End Witnesses.
