(* ===== verification/Fleet.v ===== *)
(** The worker against the coordinator: the client of [internal/worker] linked
    to the handlers of [internal/coordinator] over a faithful wire.

    The wire is the routing table of [New] and the JSON encodings of both
    sides; what is assumed of the encodings is that each side reads what the
    other wrote ([WireLaws]).  The coordinator's clock runs [skew] ahead of the
    worker's.  Failures of the coordinator or the wire are covered by the
    theorems of Executor and Agent, which hold for every network. *)
From stdpp Require Import base gmap strings list.
From Stdlib Require Import ZArith NArith QArith Lia.
From S2P Require Import Prelude Codec Netip Schema Wireauth Artifact Registry Leasing Upload Server.
From S2P Require Import StateDir Probe Client Executor.
From S2P Require Observation.
Import Observation(Observation, ObservationJSON).
Open Scope Z_scope.

(** The patterns of [New] that a worker calls. *)
Definition route (method path : string) : option endpoint :=
  let pat m p := bool_decide (method = m) && bool_decide (path = p) in
  if pat "POST" "/api/v1/workers/register" then Some EpRegister
  else if pat "POST" "/api/v1/workers/heartbeat" then Some EpHeartbeat
  else if pat "GET" "/api/v1/workers/me" then Some EpMe
  else if pat "GET" "/api/v1/artifacts/routing/current" then Some EpManifest
  else if pat "GET" "/api/v1/artifacts/routing/current/download" then Some EpDownload
  else if pat "POST" "/api/v1/assignments/lease" then Some EpLease
  else if pat "POST" "/api/v1/assignments/release" then Some EpRelease
  else if pat "POST" "/api/v1/observations" then Some EpObservations
  else if pat "POST" "/api/v1/workers/keys/rotate" then Some EpRotate
  else if pat "POST" "/api/v1/workers/retire" then Some EpRetire
  else None.

(** What [writeJSON] and the artifact download put on the wire, and the text
    form of an address column ([host(address)]). *)
Class BodyText : Type := {
  encode_body : body -> string;
  host_text : addr -> string
}.

Definition assignment_of (ht : addr -> string) (l : leasedAssignment) : Assignment :=
  MkAssignment (la_ID l) (ht (la_Target l)) (la_ProbeType l) (la_IntervalSeconds l) "".

Class WireLaws `{rj : RequestJSON} `{cj : ClientJSON} `{bt : BodyText} `{at_ : AddrText} : Prop := {
  wire_heartbeat : forall v, Server.decode_heartbeat (Client.encode_heartbeat v) = Some v;
  wire_lease : forall c, Server.decode_lease (Client.encode_lease c) = Some c;
  wire_upload : forall r s, Client.encode_upload r = Some s -> Server.decode_upload s = Some r;
  wire_heartbeat_answer : forall st c acts snap,
    Client.decode_heartbeat (encode_body (BHeartbeat st c acts snap)) = Some (MkHeartbeatResponse st acts snap);
  wire_lease_answer : forall l paused,
    Client.decode_assignments (encode_body (BLease l paused)) = Some (map (assignment_of host_text) l);
  wire_address : forall a, ParseAddr (host_text a) = Some a
}.

Section Fleet.
Context {cr : Crypto} {crl : CryptoLaws} {tm : TimeText} {tml : TimeTextLaws} {sc : SeedCrypto}
  {oj : ObservationJSON} {at_ : AddrText} {uu : UuidText} {hp : HostPort} {rj : RequestJSON} {cj : ClientJSON}
  {bt : BodyText} {wl : WireLaws} {ut : URLText} {sr : SQLiteReader} {mo : MapOrder} {mol : MapOrderLaws}.
Variable cfg : Config.
Variable out : outside.
(** The worker's address as the coordinator sees it, and the clock difference. *)
Variable remote : string.
Variable skew : Z.
Hypothesis skew_small : - MaxSkew <= skew <= MaxSkew - Second.

Definition answer (r : request) (now : Z) (s : sys) : option wire_response * sys :=
  match route (Method r) (Path r) with
  | None => (Some (WireResponse 404 "404 page not found"), s)
  | Some ep =>
      match serve cfg out ep (Request (Method r) (Path r) (Auth r) (Authorization r) remote (Body r))
              (World s (now + skew) []) with
      | (Ok resp, w) => (Some (WireResponse (status resp) (encode_body (content resp))), w_db w)
      | (Err _, w) => (None, w_db w)
      end
  end.
#[local] Instance linked : Network sys := {| round_trip := answer |}.

(** * An honest request passes the middleware *)
Lemma verify_keys_In method path h b now keys pub nonce :
  In pub keys -> Wireauth.Verify method path h b pub now = Ok nonce ->
  verify_keys method path h b now keys = Some nonce.
Proof.
  intros Hin Hv. assert (nonce = HeaderNonce h) as ->.
  { apply Wireauth.Verify_Ok in Hv as [(_ & ? & _) _]. done. }
  induction keys as [|k keys IH]; simpl; [done|]. destruct (Wireauth.Verify method path h b k now) as [n|] eqn:E.
  - apply Wireauth.Verify_Ok in E as [(_ & ? & _) _]. by subst.
  - destruct Hin as [->|Hin]; [congruence|auto].
Qed.

(** The registered worker [id] can sign: its row, and a state and a key the
    coordinator accepts at [now]. *)
Record Enrolled (id : string) (key : PrivateKey) (wr : worker_row) (now : Z) (d : database) : Prop := {
  enrolled_id : id <> ""%string;
  enrolled_row : db_worker d !! id = Some wr;
  enrolled_state : w_state wr <> Suspended /\ w_state wr <> Retired;
  enrolled_key : In (Public key) (active_keys_of now id d)
}.

Definition seen (id raw : string) (now : Z) (s : sys) : sys :=
  set_sys_db (set_nonce (<[(id, hex_encode raw) := now]>) (sys_db s)) s.

Lemma authenticate_complete id key wr raw method path b now s h :
  Enrolled id key wr (now + skew) (sys_db s) -> rfc3339_range now -> raw <> ""%string ->
  (N.of_nat (String.length b) <= N.shiftl 8 20)%N ->
  Wireauth.Sign method path id key b (Some raw) now = Ok h ->
  db_nonce (sys_db s) !! (id, hex_encode raw) = None ->
  authenticate (Request method path h "" remote (Some b)) (World s (now + skew) []) =
    (Ok (inr (Identity id (w_state wr), b)), World (seen id raw (now + skew) s) (now + skew) []).
Proof.
  intros [Hid Hrow [Hs1 Hs2] Hk] Hclock Hraw Hlen Hsign Hnonce. unfold authenticate. cbn [Auth Body Method Path].
  assert (HeaderWorkerID h = id) as -> by (unfold Wireauth.Sign in Hsign; by injection Hsign as <-).
  rewrite bool_decide_false, limit_reader_short by done. cbv zeta.
  assert (ActiveKeys id (World (sys_db s) (now + skew) []) =
    (Ok (active_keys_of (now + skew) id (sys_db s), w_state wr), World (sys_db s) (now + skew) [])) as Hak.
  { unfold ActiveKeys. rewrite stmt_nofault, Hrow. by destruct (active_keys_of _ _ _). }
  unfold bindM at 1, attempt at 1, lift at 1. cbn [w_db w_now w_faults]. rewrite Hak. cbn [w_db w_now w_faults].
  rewrite set_sys_db_id. unfold bindM at 1, clock. cbn [w_now].
  rewrite (verify_keys_In _ _ _ _ _ _ (Public key) (hex_encode raw)); [|done|].
  2: { eapply Sign_Verify_near; [exact Hsign|done|done|]. lia. }
  assert (SeenNonce id (hex_encode raw) (World (sys_db s) (now + skew) []) =
    (Ok false, World (set_nonce (<[(id, hex_encode raw) := now + skew]>) (sys_db s)) (now + skew) [])) as Hsn.
  { unfold SeenNonce. rewrite stmt_nofault, Hrow. unfold insert_nothing. by rewrite Hnonce. }
  unfold bindM at 1, attempt at 1, lift at 1. cbn [w_db w_now w_faults]. rewrite Hsn. cbn [w_db w_now w_faults].
  unfold seen. by destruct (w_state wr).
Qed.

(** * A signed call through the wire *)
(** The client [w] is connected: it is enrolled under its own key, its URL is
    well formed, and its next random draw is a fresh nonce. *)
Record Connected (w : world (worker sys)) (wr : worker_row) (raw : string) (ds : list string) : Prop := {
  conn_enrolled : Enrolled (c_WorkerID (wk_client (w_db w))) (c_Key (wk_client (w_db w))) wr (w_now w + skew)
    (sys_db (wk_net (w_db w)));
  conn_clock : rfc3339_range (w_now w);
  conn_url : forall method path ep, route method path = Some ep -> url_path (BaseURL (wk_client (w_db w)) +:+ path) = Some path;
  conn_draws : draws (wk_disk (w_db w)) = raw :: ds /\ String.length raw = 16%nat;
  conn_fresh : db_nonce (sys_db (wk_net (w_db w))) !! (c_WorkerID (wk_client (w_db w)), hex_encode raw) = None
}.

Definition after (w : world (worker sys)) (ds : list string) (s : sys) : world (worker sys) :=
  World (MkWorker (Disk (files (wk_disk (w_db w))) ds) (wk_client (w_db w)) (wk_agent (w_db w)) s) (w_now w) (w_faults w).

Lemma do_signed {A} method path payload (decode : string -> option A) ep next w wr raw ds resp s' n fs :
  Connected w wr raw ds -> route method path = Some ep -> (forall r, serve cfg out ep r = signed next r) ->
  (N.of_nat (String.length payload) <= N.shiftl 8 20)%N ->
  next (Identity (c_WorkerID (wk_client (w_db w))) (w_state wr)) payload
    (World (seen (c_WorkerID (wk_client (w_db w))) raw (w_now w + skew) (wk_net (w_db w))) (w_now w + skew) [])
    = (Ok resp, World s' n fs) ->
  status resp < 300 ->
  do method path (Some payload) decode w =
    (match decode (encode_body (content resp)) with Some a => Ok a | None => Err (EMsg "json") end, after w ds s').
Proof.
  intros [He Hck Hu [Hd Hl] Hf] Hr Hserve Hlen Hnext Hst. unfold do. unfold bindM at 1, look at 1. rewrite (Hu _ _ _ Hr).
  rewrite bool_decide_false by apply He.
  set (id := c_WorkerID (wk_client (w_db w))) in *. set (key := c_Key (wk_client (w_db w))) in *.
  destruct (Wireauth.Sign method path id key payload (Some raw) (w_now w)) as [h|e] eqn:Hs; [|by unfold Wireauth.Sign in Hs].
  assert (sign_request method path payload w = (Ok h, after w ds (wk_net (w_db w)))) as Hsg.
  { unfold sign_request, bindM, attempt, on_disk, rand_read, clock, look. cbn [w_db w_now w_faults]. rewrite Hd, Hl.
    cbn -[Wireauth.Sign]. fold id key. rewrite Hs. done. }
  assert (answer (Request method path h "" "" (Some payload)) (w_now w) (wk_net (w_db w)) =
    (Some (WireResponse (status resp) (encode_body (content resp))), s')) as Hans.
  { unfold answer. cbn [Method Path Auth Authorization Body]. rewrite Hr, Hserve. unfold signed. unfold bindM at 1.
    rewrite (authenticate_complete id key wr raw); [|done|done| |done|done|done]; [by rewrite Hnext|].
    intros ->. done. }
  unfold bindM at 1. rewrite Hsg. unfold bindM at 1, send. cbn [round_trip linked after w_db w_now w_faults wk_net].
  rewrite Hans. cbn [wr_status wr_text]. rewrite (proj2 (Z.leb_gt _ _)) by done. by destruct (decode _).
Qed.

(** * Heartbeats *)
Definition SameDB (_ : Z) (d d' : database) : Prop := d' = d.
#[local] Instance SameDB_preorder : PreOrderAt SameDB.
Proof. split; unfold SameDB; congruence. Qed.

Lemma manifest_cached_run (w : sysworld) : exists m w', currentManifestCached cfg w = (Ok m, w') /\ sys_db (w_db w') = sys_db (w_db w).
Proof.
  assert (Total (currentManifestCached cfg)) as HT by (unfold currentManifestCached; total).
  assert (Respects (OnDB SameDB) (currentManifestCached cfg)) as HR.
  { unfold currentManifestCached, Get. handler; repeat case_match; simplify_eq; done. }
  destruct (HT w) as (m & w' & E). exists m, w'. split; [done|]. by apply HR in E as [_ ?].
Qed.

(** A connected worker's heartbeat is answered with the worker's state, and
    the coordinator has recorded it. *)
Theorem heartbeat_reaches w wr raw ds version :
  Connected w wr raw ds -> (N.of_nat (String.length (encode_heartbeat version)) <= N.shiftl 8 20)%N ->
  exists hb s', Client.Heartbeat version w = (Ok hb, after w ds s') /\ hb_State hb = state_name (w_state wr) /\
    exists row, db_worker (sys_db s') !! c_WorkerID (wk_client (w_db w)) = Some row /\
      w_state row = w_state wr /\ w_version row = Some version /\ w_heartbeat_at row = Some (w_now w + skew).
Proof.
  intros HC Hlen. pose proof (enrolled_row _ _ _ _ _ (conn_enrolled _ _ _ _ HC)) as Hrow.
  set (id := c_WorkerID (wk_client (w_db w))) in *. set (s1 := seen id raw (w_now w + skew) (wk_net (w_db w))).
  set (row := with_version version (with_heartbeat (w_now w + skew) wr)).
  set (s2 := set_sys_db (set_worker (<[id := row]>) (sys_db s1)) s1).
  destruct (manifest_cached_run (World s2 (w_now w + skew) [])) as (m & [s3 n3 f3] & Hm & Hs3). cbn [w_db] in Hs3.
  assert (exists snap, heartbeat cfg (Identity id (w_state wr)) (encode_heartbeat version) (World s1 (w_now w + skew) []) =
    (Ok (Response 200 (BHeartbeat (state_name (w_state wr)) (w_config wr)
       (if rotate_requested (w_config wr) then ["rotate_key"%string] else []) snap)), World s3 n3 f3)) as (snap & Hb).
  { unfold heartbeat. rewrite wire_heartbeat. unfold handle. unfold bindM at 1, attempt, lift.
    cbn [w_db w_now w_faults id_ID]. unfold Registry.Heartbeat. rewrite stmt_nofault.
    change (db_worker (sys_db s1)) with (db_worker (sys_db (wk_net (w_db w)))). rewrite Hrow.
    cbn [w_db w_now w_faults]. fold row. change (set_sys_db _ s1) with s2. unfold bindM. rewrite Hm.
    cbn [Registry.Config State]. eexists. reflexivity. }
  eexists (MkHeartbeatResponse _ _ _), s3. split; [|split; [|exists row]].
  - unfold Client.Heartbeat. erewrite (do_signed _ _ _ _ EpHeartbeat (heartbeat cfg)); [|exact HC|done|done|done|exact Hb|done].
    cbn [content]. rewrite wire_heartbeat_answer. reflexivity.
  - done.
  - rewrite Hs3. subst s2. simpl. by rewrite lookup_insert_eq.
Qed.

(** * The kill switch reaches the workers *)
(** While assignment is paused, the next lease pass of a connected worker
    stops every measurement. *)
Theorem pause_stops_worker {E} (registry : Probe.Registry E) w wr raw ds e :
  Connected w wr raw ds -> exec_of w = Some e -> ExecWF e -> 0 < ex_capacity e ->
  (N.of_nat (String.length (encode_lease (ex_capacity e))) <= N.shiftl 8 20)%N ->
  sys_paused (wk_net (w_db w)) = true ->
  exists w' e', lease registry w = (Ok tt, w') /\ exec_of w' = Some e' /\ ex_running e' = ∅ /\
    forall i g, ex_running e !! i = Some g -> ex_loops e' !! g = cancel <$> ex_loops e !! g.
Proof.
  intros HC He Hwf Hcap Hlen Hp. destruct (lease_run registry w e He Hwf) as (w' & e' & Hrun & He' & _ & _ & H).
  exists w', e'. split; [done|]. split; [done|].
  set (id := c_WorkerID (wk_client (w_db w))) in *. set (s1 := seen id raw (w_now w + skew) (wk_net (w_db w))).
  assert (leaseAssignments cfg out (Identity id (w_state wr)) (encode_lease (ex_capacity e)) (World s1 (w_now w + skew) []) =
    (Ok (Response 200 (BLease [] true)), World s1 (w_now w + skew) [])) as Hb.
  { unfold leaseAssignments. rewrite wire_lease. rewrite (proj2 (Z.leb_gt _ _)) by done.
    unfold bindM, read. cbn [w_db w_now]. change (sys_paused s1) with (sys_paused (wk_net (w_db w))). by rewrite Hp. }
  assert ((LeaseAssignments (ex_capacity e) w).1 = Ok []) as Hl.
  { unfold LeaseAssignments. erewrite (do_signed _ _ _ _ EpLease (leaseAssignments cfg out)); [|exact HC|done|done|done|exact Hb|done].
    cbn [fst content]. by rewrite wire_lease_answer. }
  rewrite Hl in H. cbn in H. destruct H as (e1 & HS & Hgone & Hcan & HT & _).
  assert (forall i, ex_running e' !! i = None) as Hnone.
  { intros i. destruct (ex_running e' !! i) as [g|] eqn:Eg; [|done].
    apply (started_new _ _ _ _ HT) in Eg as [Eg|(_ & _ & a & Ha & _)]; [|by rewrite lookup_empty in Ha].
    rewrite Hgone in Eg; [done|]. apply lookup_empty. }
  split; [by apply map_empty|]. intros i g Hg.
  rewrite (started_old _ _ _ _ HT); [by apply (Hcan i); [apply lookup_empty|]|].
  destruct (stopped_kept _ _ _ HS) as (_&_&_&_&_&Hn&_). rewrite Hn. by eapply (proj1 Hwf).
Qed.

(** * Measurements reach the database *)
(** One upload by a connected worker: what the coordinator stores. *)
Lemma upload_through w wr raw ds uuid obs payload bid :
  let id := c_WorkerID (wk_client (w_db w)) in
  let d := sys_db (wk_net (w_db w)) in
  let rows := accepted_rows id (active_keys_of (w_now w + skew) id d) (held_map (held_rows id d)) obs in
  Connected w wr raw ds -> obs <> [] ->
  encode_upload (UploadRequest uuid obs) = Some payload -> (N.of_nat (String.length payload) <= N.shiftl 8 20)%N ->
  uuid <> ""%string -> uuid_of uuid = Some bid -> db_batch d !! bid = None ->
  Forall (fun r => fits_int32 (o_sent r) && fits_int32 (o_lost r) = true) rows ->
  exists s', UploadObservations uuid obs w = (Ok tt, after w ds s') /\
    db_observation (sys_db s') = db_observation d ++ rows.
Proof.
  intros id d rows HC Hobs Henc Hlen Huuid Hu Hb Hfit. pose proof (conn_enrolled _ _ _ _ HC) as HE.
  set (s1 := seen id raw (w_now w + skew) (wk_net (w_db w))).
  destruct (upload_tx_nofault id (active_keys_of (w_now w + skew) id d) (UploadRequest uuid obs) (sys_db s1) (w_now w + skew) bid)
    as (rejected & Htx); [done|done|done|].
  assert (exists s', uploadObservations (Identity id (w_state wr)) payload (World s1 (w_now w + skew) []) =
    (Ok (Response 202 (BUpload (Stored (Z.of_nat (length rows)) rejected))), World s' (w_now w + skew) []) /\
    db_observation (sys_db s') = db_observation d ++ rows) as (s' & Hrun & Hs').
  { unfold uploadObservations. rewrite limit_reader_short, (wire_upload _ _ Henc) by done. cbn [BatchID Observations].
    rewrite bool_decide_false by done. destruct obs as [|o obs]; [done|]. cbn [orb length Nat.eqb]. unfold handle.
    assert (ActiveKeys id (World (sys_db s1) (w_now w + skew) []) =
      (Ok (active_keys_of (w_now w + skew) id d, w_state wr), World (sys_db s1) (w_now w + skew) [])) as Hak.
    { unfold ActiveKeys. rewrite stmt_nofault. change (db_worker (sys_db s1)) with (db_worker d).
      pose proof (enrolled_row _ _ _ _ _ HE) as Hrow. fold id d in Hrow. rewrite Hrow. change (active_keys_of (w_now w + skew) id (sys_db s1))
        with (active_keys_of (w_now w + skew) id d). pose proof (enrolled_key _ _ _ _ _ HE) as Hin. fold id d in Hin.
      by destruct (active_keys_of _ _ _). }
    unfold bindM at 1, attempt at 1, lift at 1. cbn [w_db w_now w_faults id_ID]. rewrite Hak. cbn [w_db w_now w_faults fst].
    rewrite set_sys_db_id. unfold bindM at 1, attempt at 1, lift at 1. cbn [w_db w_now w_faults]. rewrite Htx.
    eexists. split; [reflexivity|]. done. }
  exists s'. split; [|done]. unfold UploadObservations. rewrite Henc.
  erewrite (do_signed _ _ _ _ EpObservations uploadObservations); [done|exact HC|done|done|done|exact Hrun|done].
Qed.

(** A flush of at most one batch, when the upload is acknowledged. *)
Lemma flush_once rounds w e w1 :
  exec_of w = Some e -> ex_pending e <> [] -> (length (ex_pending e) <= maxBatch)%nat ->
  UploadObservations (rd_uuid (rounds 0%nat)) (ex_pending e) w = (Ok tt, w1) -> exec_of w1 = Some e ->
  exists w', flush rounds w = (Ok true, w') /\ exec_of w' = Some (uploaded (length (ex_pending e)) (rounds 0%nat) e) /\
    wk_net (w_db w') = wk_net (w_db w1).
Proof.
  intros He Hne Hlen Hup He1. unfold flush. unfold bindM at 1. rewrite (look_exec_run _ _ He).
  destruct (ex_pending e) as [|o p] eqn:Ep; [done|]. cbn [length flush_loop]. unfold bindM at 1. rewrite (look_exec_run _ _ He), Ep.
  rewrite Nat.min_l, take_ge by (simpl in *; lia). unfold bindM at 1, attempt. rewrite Hup.
  destruct (mutate_exec_run (uploaded (length (o :: p)) (rounds 0%nat)) e w1 He1) as (w2 & Hm & He2 & _).
  assert (wk_net (w_db w2) = wk_net (w_db w1)) as Hn by (unfold mutate_exec, mutate in Hm; by injection Hm as <-).
  assert (ex_pending (uploaded (length (o :: p)) (rounds 0%nat) e) = []) as Hz.
  { cbn [ex_pending uploaded]. by rewrite Ep, drop_all. }
  unfold bindM at 1. rewrite Hm. exists w2. split; [|done].
  destruct (length p); cbn [flush_loop]; [done|]. unfold bindM at 1. by rewrite (look_exec_run _ _ He2), Hz.
Qed.

Lemma after_exec w ds s : exec_of (after w ds s) = exec_of w.
Proof. done. Qed.

(** What a flush needs to go through in one batch. *)
Record Deliverable (w : world (worker sys)) (e : Executor) (rd : round) : Prop := {
  dl_exec : exec_of w = Some e;
  dl_size : (1 <= length (ex_pending e) <= maxBatch)%nat;
  dl_payload : exists payload, encode_upload (UploadRequest (rd_uuid rd) (ex_pending e)) = Some payload /\
    (N.of_nat (String.length payload) <= N.shiftl 8 20)%N;
  dl_batch : rd_uuid rd <> ""%string /\ exists bid, uuid_of (rd_uuid rd) = Some bid /\
    db_batch (sys_db (wk_net (w_db w))) !! bid = None;
  dl_counts : Forall (fun o => fits_int32 (Observation.PacketsSent o) && fits_int32 (Observation.PacketsLost o) = true) (ex_pending e)
}.

Lemma delivered w wr raw ds e rounds :
  let id := c_WorkerID (wk_client (w_db w)) in
  let d := sys_db (wk_net (w_db w)) in
  Connected w wr raw ds -> Deliverable w e (rounds 0%nat) ->
  exists w', flush rounds w = (Ok true, w') /\
    exec_of w' = Some (uploaded (length (ex_pending e)) (rounds 0%nat) e) /\
    db_observation (sys_db (wk_net (w_db w'))) = db_observation d ++
      accepted_rows id (active_keys_of (w_now w + skew) id d) (held_map (held_rows id d)) (ex_pending e).
Proof.
  intros id d HC [He Hsz (payload & Henc & Hlen) (Hu & bid & Hb & Hn) Hfit].
  assert (ex_pending e <> []) as Hne by (destruct (ex_pending e); simpl in *; [lia|done]).
  destruct (upload_through w wr raw ds (rd_uuid (rounds 0%nat)) (ex_pending e) payload bid) as (s' & Hup & Hobs); try done.
  { apply Forall_forall. intros r Hr. apply list_elem_of_omap in Hr as (o & Ho & Hr).
    destruct (validate _ _ o) as [[a p]|]; simplify_eq/=. rewrite Forall_forall in Hfit. by apply Hfit in Ho. }
  destruct (flush_once rounds w e _ He Hne ltac:(lia) Hup ltac:(by rewrite after_exec)) as (w' & Hfl & He' & Hnet).
  exists w'. split; [done|]. split; [done|]. by rewrite Hnet.
Qed.


(** C36: When no key the coordinator accepts verifies what the executor signed (as
    happens once the overlap after a rotation is over, because the executor
    keeps the key it was built with), the same flush reports success, empties
    the queue and counts the measurements as submitted, and the database has
    none of them. *)
Theorem stale_key_loses_measurements w wr raw ds e rounds :
  let id := c_WorkerID (wk_client (w_db w)) in
  let d := sys_db (wk_net (w_db w)) in
  Connected w wr raw ds -> Deliverable w e (rounds 0%nat) -> 0 <= ex_submitted e < 2 ^ 63 ->
  Forall (fun o => forall pub, In pub (active_keys_of (w_now w + skew) id d) -> Observation.Verify o pub <> Ok tt) (ex_pending e) ->
  exists w' e', flush rounds w = (Ok true, w') /\ exec_of w' = Some e' /\ ex_pending e' = [] /\
    ex_submitted e' = ex_submitted e + Z.of_nat (length (ex_pending e)) /\
    db_observation (sys_db (wk_net (w_db w'))) = db_observation d.
Proof.
  intros id d HC HD Hsub Hall. destruct (delivered w wr raw ds e rounds HC HD) as (w' & Hfl & He' & Hobs).
  exists w'. eexists. split; [done|]. split; [done|]. split; [simpl; by rewrite drop_all|]. split.
  - pose proof (dl_size _ _ _ HD) as Hsz. unfold maxBatch in Hsz. cbn [ex_submitted uploaded]. rewrite Z.mod_small; lia.
  - fold id d in Hobs. rewrite Hobs. assert (accepted_rows id (active_keys_of (w_now w + skew) id d) (held_map (held_rows id d)) (ex_pending e) = []) as ->;
      [|by rewrite app_nil_r].
    revert Hall. generalize (ex_pending e) as l. intros l Hall. unfold accepted_rows.
    induction Hall as [|o l Ho _ IH]; [done|]. cbn [omap list_omap].
    assert (validate (active_keys_of (w_now w + skew) id d) (held_map (held_rows id d)) o = None) as ->; [|exact IH].
    unfold validate. destruct (verifyObs _ o) eqn:Ev; [|done].
    apply verifyObs_true in Ev as (pub & Hin & Hv). by apply Ho in Hin.
Qed.
End Fleet.

(** * Witnesses

    Texts are the bits of a countable encoding; worker [w2] of the scheduling
    example is registered with alice's key. *)
Module ToyFleet.
Import ToySeed.
#[export] Existing Instance Toy.toy_time.
#[export] Existing Instance Toy.toy_time_laws.
Fixpoint bits (p : positive) : string :=
  match p with
  | xH => ""
  | xO p => String (Ascii.ascii_of_nat 48) (bits p)
  | xI p => String (Ascii.ascii_of_nat 49) (bits p)
  end.
Fixpoint unbits (s : string) : positive :=
  match s with
  | EmptyString => xH
  | String c s => if bool_decide (c = Ascii.ascii_of_nat 48) then xO (unbits s) else xI (unbits s)
  end.
Lemma unbits_bits p : unbits (bits p) = p.
Proof. induction p as [p IH|p IH|]; cbn [bits unbits]; [rewrite bool_decide_false by done|rewrite bool_decide_true by done|done]; by rewrite IH. Qed.
Definition text {A} `{Countable A} (a : A) : string := bits (encode a).
Definition untext {A} `{Countable A} (s : string) : option A := decode (unbits s).
#[global] Arguments text : simpl never.
#[global] Arguments untext : simpl never.
Lemma untext_text {A} `{Countable A} (a : A) : untext (text a) = Some a.
Proof. unfold untext, text. by rewrite unbits_bits, decode_encode. Qed.

(** An unanswered probe's observation, as a tuple. *)
Definition flat : Type := Z * string * string * Z * bool * Z * Z * string.
Definition flatten (o : Observation) : option flat :=
  match Observation.RTTMillis o, Observation.Metrics o with
  | None, JObj [] => Some (Observation.AssignmentID o, Observation.Target o, Observation.ProbeType o, Observation.MeasuredAt o,
      Observation.OK o, Observation.PacketsSent o, Observation.PacketsLost o, Observation.Signature o)
  | _, _ => None
  end.
Definition unflatten (x : flat) : Observation :=
  let '(id, target, probe, at_, ok, sent, lost, sig) := x in
  Observation.MkObservation id target probe at_ ok None sent lost (JObj []) sig.
Lemma unflatten_flatten o x : flatten o = Some x -> unflatten x = o.
Proof.
  destruct o as [id target probe at_ ok [q|] sent lost metrics sig]; unfold flatten; simpl; [done|].
  destruct metrics as [| | | | |[]]; intros E; simplify_eq; done.
Qed.
Lemma unflatten_all l xs : mapM flatten l = Some xs -> map unflatten xs = l.
Proof.
  revert xs. induction l as [|o l IH]; intros xs H; [by injection H as <-|].
  apply mapM_Some in H. inversion H as [|? x ? xs' Ho Hl]; subst. simpl. f_equal; [by apply unflatten_flatten|].
  apply IH. by apply mapM_Some.
Qed.

#[export] Instance fleet_addr : AddrText := {| ParseAddr s := untext s |}.
#[export] Instance fleet_uuid : UuidText := {| uuid_of s := Some s |}.
#[export] Instance fleet_host : HostPort := {| SplitHostPort _ := None |}.
#[export] Instance fleet_observation : ObservationJSON := {| Observation.marshal_observation o := Some ("obs:" +:+ Observation.Target o) |}.
#[export] Instance fleet_url : URLText := {| url_path s := Some s |}.
#[export] Instance fleet_reader : SQLiteReader := {| sqlite_targets _ := None |}.
#[export] Instance fleet_order : MapOrder := {| shuffle A l := l |}.
#[export] Instance fleet_order_laws : MapOrderLaws.
Proof. by split. Qed.
#[export] Instance fleet_server : RequestJSON := {|
  Server.decode_register _ := None; Server.decode_heartbeat s := Some s; Server.decode_lease s := untext s;
  Server.decode_release _ := None;
  Server.decode_upload s := (fun '(b, l) => UploadRequest b (map unflatten l)) <$> untext (A := string * list flat) s;
  Server.decode_rotate _ := None; Server.decode_create _ := None; Server.decode_state _ := None
|}.
#[export] Instance fleet_body : BodyText := {|
  encode_body b := match b with
                   | BHeartbeat st _ acts snap => text (st, acts, snap)
                   | BLease l _ => text (map (fun x => (la_ID x, la_Target x, la_ProbeType x, la_IntervalSeconds x)) l)
                   | _ => ""%string
                   end;
  host_text a := text a
|}.
#[export] Instance fleet_client : ClientJSON := {|
  Client.encode_register _ := ""%string; Client.encode_heartbeat v := v; Client.encode_rotate p := p;
  Client.encode_lease c := text c;
  Client.encode_upload r := (fun l => text (BatchID r, l)) <$> mapM flatten (Observations r);
  Client.decode_register _ := None;
  Client.decode_heartbeat s := (fun '(st, acts, snap) => MkHeartbeatResponse st acts snap)
    <$> untext (A := string * list string * option string) s;
  Client.decode_manifest _ := None;
  Client.decode_assignments s := map (fun '(id, a, p, i) => MkAssignment id (text a) p i "")
    <$> untext (A := list (Z * addr * string * Z)) s
|}.
#[export] Instance fleet_wire : WireLaws.
Proof.
  split.
  - done.
  - intros c. apply untext_text.
  - intros [b obs] s. simpl. destruct (mapM flatten obs) as [l|] eqn:El; [|done]. intros [= <-].
    rewrite untext_text. simpl. by rewrite (unflatten_all _ _ El).
  - intros st c acts snap. simpl. by rewrite untext_text.
  - intros l p. simpl. rewrite untext_text. simpl. f_equal. rewrite map_map. done.
  - intros a. apply untext_text.
Qed.

Definition fleet_cfg : Config := MkConfig "" false "" 0 0 None 0.
Definition fleet_outside : outside := Outside None "u1" (fun _ => false).
Definition fleet_db (keys : list PrivateKey) : database :=
  set_worker_key (fun _ => map (fun k => KeyRow 1 "w2" (Public k) 0 None None None) keys) demo_leased.
Definition fleet_sys (paused : bool) : sys := Sys (fleet_db [bob]) ∅ paused None 0.
Definition nonce : string := "0123456789abcdef".
(** An observation of the leased assignment 1, signed by [k]. *)
Definition toy_obs (k : PrivateKey) : Observation :=
  let o := Observation.MkObservation 1 (text (Addr V4 1)) "icmp" 50 false None 4 4 (JObj []) "" in
  match Observation.Sign o k with Ok o => o | Err _ => o end.
(** The client signs with bob's key; the executor holds [k]. *)
Definition toy_exec (k : PrivateKey) : Executor :=
  set_pending [toy_obs k] (set_running (fun _ => {[ 1 := 0%nat ]})
    (set_loops (fun _ => {[ 0%nat := Loop (MkAssignment 1 "t" "icmp" 60 "") (Addr V4 1) false Client.Idle ]})
      (MkExecutor k 64 [] ∅ ∅ 1 [] 0 0 0 false))).
Definition toy_start (k : PrivateKey) (paused : bool) : world (worker sys) :=
  World (MkWorker (Disk ∅ [nonce]) (MkClient "" "w2" bob) (MkAgent "active" None None (Some (toy_exec k)) true) (fleet_sys paused))
    60 [].
Definition toy_rounds (_ : nat) : round := Round "b1" 60 60.
Definition toy_row : worker_row := demo_worker None.
Definition toy_skew : Z := 5 * Second.

Lemma toy_skew_small : - MaxSkew <= toy_skew <= MaxSkew - Second.
Proof. vm_compute. split; discriminate. Qed.
Lemma toy_connected k paused : Connected toy_skew (toy_start k paused) toy_row nonce [].
Proof.
  split; [split| | | |].
  - discriminate.
  - vm_compute. reflexivity.
  - split; discriminate.
  - vm_compute. by left.
  - unfold rfc3339_range, Second. simpl. lia.
  - reflexivity.
  - split; reflexivity.
  - vm_compute. reflexivity.
Qed.
Ltac deliver :=
  split;
  [ reflexivity
  | vm_compute; lia
  | eexists; split; [vm_compute; reflexivity | vm_compute; discriminate]
  | split; [discriminate|]; exists "b1"%string; split; [reflexivity | vm_compute; reflexivity]
  | repeat constructor ].
Lemma alice_deliverable : Deliverable (toy_start alice false) (toy_exec alice) (toy_rounds 0).
Proof. deliver. Qed.
Lemma bob_deliverable : Deliverable (toy_start bob false) (toy_exec bob) (toy_rounds 0).
Proof. deliver. Qed.
Lemma toy_exec_wf k : ExecWF (toy_exec k).
Proof.
  split; [|split]; simpl.
  - intros id g [_ <-]%lookup_singleton_Some. lia.
  - intros g [l [<- _]%lookup_singleton_Some]. lia.
  - intros i j g [<- _]%lookup_singleton_Some [<- _]%lookup_singleton_Some. done.
Qed.
End ToyFleet.

Section Witnesses.
Import ToySeed ToyFleet.

Lemma heartbeat_reaches_witness : w_state toy_row = Active /\ exists hb s',
  @Client.Heartbeat _ _ _ (linked fleet_cfg fleet_outside "" toy_skew) _ _ "1.0" (toy_start bob false) = (Ok hb, after (toy_start bob false) [] s') /\
  hb_State hb = "active"%string.
Proof.
  split; [reflexivity|].
  destruct (heartbeat_reaches fleet_cfg fleet_outside "" toy_skew toy_skew_small (toy_start bob false) toy_row nonce [] "1.0"
    (toy_connected bob false)) as (hb & s' & H1 & H2 & _); [vm_compute; discriminate|].
  exists hb, s'. split; [exact H1 | exact H2].
Defined.

Lemma pause_stops_worker_witness : ex_running (toy_exec bob) !! 1 = Some 0%nat /\ exists w' e',
  lease (nw := linked fleet_cfg fleet_outside "" toy_skew) (E := unit) ∅ (toy_start bob true) = (Ok tt, w') /\
  exec_of w' = Some e' /\ ex_running e' = ∅.
Proof.
  split; [reflexivity|].
  destruct (pause_stops_worker fleet_cfg fleet_outside "" toy_skew toy_skew_small (E := unit) ∅ (toy_start bob true) toy_row nonce []
    (toy_exec bob) (toy_connected bob true)) as (w' & e' & H1 & H2 & H3 & _);
    [reflexivity | apply toy_exec_wf | reflexivity | vm_compute; discriminate | reflexivity |].
  exists w', e'. auto.
Defined.


(** The client signs with bob's key, which is current; the executor still
    signs with alice's. *)
Lemma stale_key_loses_measurements_witness : length (ex_pending (toy_exec alice)) = 1%nat /\ exists w' e',
  flush (nw := linked fleet_cfg fleet_outside "" toy_skew) toy_rounds (toy_start alice false) = (Ok true, w') /\
  exec_of w' = Some e' /\ ex_submitted e' = 1 /\
  db_observation (sys_db (wk_net (w_db w'))) = db_observation (sys_db (wk_net (w_db (toy_start alice false)))).
Proof.
  split; [reflexivity|].
  destruct (stale_key_loses_measurements fleet_cfg fleet_outside "" toy_skew toy_skew_small (toy_start alice false) toy_row nonce []
    (toy_exec alice) toy_rounds (toy_connected alice false) alice_deliverable) as (w' & e' & H1 & H2 & _ & H4 & H5).
  - vm_compute. split; [discriminate | reflexivity].
  - constructor; [|constructor]. intros pub Hin.
    assert (active_keys_of (w_now (toy_start alice false) + toy_skew) "w2" (fleet_db [bob]) = [Public bob]) as Ek
      by (vm_compute; reflexivity).
    change (In pub (active_keys_of (w_now (toy_start alice false) + toy_skew) "w2" (fleet_db [bob]))) in Hin.
    rewrite Ek in Hin. destruct Hin as [<-|[]]. vm_compute. discriminate.
  - exists w', e'. split; [exact H1|]. split; [exact H2|]. split; [exact H4 | exact H5].
Defined.
End Witnesses.
