(* ===== verification/Vapn.v ===== *)
(** [cmd/vapn/main.go]: the operator's command line of a worker host.

    A host has the directory ~/.vapn (config.env, docker-compose.yml) and in
    it the worker's state directory of StateDir; writes land byte by byte as
    there.  The operator's answers are the lines of standard input.  Docker,
    the terminal's environment, the network checks of the doctor and what the
    worker container reports while a command waits for it are parameters:
    [Docker] with what the commands rely on of it, and [surroundings].
    Printing is not modelled. *)
From stdpp Require Import base gmap strings list pretty.
From Stdlib Require Import ZArith Lia Ascii String.
From S2P Require Import Prelude Codec Wireauth StateDir.
From S2P Require Artifact Client Agent Config.
Open Scope Z_scope.

(** * config.env *)
Abbreviation LF := "010"%char.
Abbreviation conf := (gmap string string).
(** Indexing a Go map: the empty string when the key is absent. *)
Definition get (c : conf) (k : string) : string := default ""%string (c !! k).

Definition is_comment (line : string) : bool :=
  match line with String ch _ => bool_decide (ch = "#"%char) | EmptyString => false end.
Definition parse_line (c : conf) (raw : string) : conf :=
  let line := TrimSpace raw in
  if bool_decide (line = ""%string) || is_comment line then c
  else match cut "="%char line with
       | Some (k, v) => <[k := v]> c
       | None => c
       end.
Definition parse_config (raw : string) : conf := foldl parse_line ∅ (split_on LF raw).

Definition managedKeys : list string :=
  ["VAPN_COORDINATOR_URL"; "VAPN_WORKER_NAME"; "VAPN_SNAPSHOT_PUBLIC_KEY"; "VAPN_WORKER_IMAGE"; "VAPN_ENROLLMENT_TOKEN"]%string.
Definition is_managed (k : string) : bool := bool_decide (k ∈ managedKeys).
Definition is_set (c : conf) (k : string) : bool := negb (bool_decide (get c k = ""%string)).

(** The lines of the file; each is written with a newline after it. *)
Definition setting (c : conf) (k : string) : string := k +:+ "=" +:+ get c k.
Definition extra_keys (c : conf) : list string :=
  sort_by string_leb (List.filter (fun k => negb (is_managed k) && is_set c k) (map fst (map_to_list c))).
Definition config_lines (c : conf) : list string :=
  ["# VAPN worker configuration (managed by `vapn`)"%string] ++
  map (setting c) (List.filter (is_set c) managedKeys) ++
  match extra_keys c with
  | [] => []
  | extra => [""; "# added by hand; preserved across vapn reconfigure"]%string ++ map (setting c) extra
  end.
Definition render_config (c : conf) : string := foldr (fun l s => l +:+ newline +:+ s) ""%string (config_lines c).

(** * Displaying secrets *)
Definition mask (v : string) : string :=
  let n := String.length v in
  if bool_decide (v = ""%string) then ""
  else if (n <=? 10)%nat then string_of_list_ascii (replicate n "*"%char)
  else String.substring 0 5 v +:+ "********" +:+ String.substring (n - 5) 5 v.

(** * Docker and the surroundings *)
(** The calls [vapn] makes; [compose] runs on the text of docker-compose.yml,
    when there is one.  [running] is the image the worker's container runs. *)
Class Docker (D : Type) : Type := {
  compose_pull : option string -> D -> bool * D;
  compose_up : bool -> option string -> D -> bool * D;
  compose_stop : option string -> D -> bool * D;
  compose_start : option string -> D -> bool * D;
  compose_down : option string -> D -> bool * D;
  docker_tag : string -> string -> D -> bool * D;
  image_inspect : string -> D -> option string;
  running : D -> option string
}.

Definition dq : string := String (byte_of 34) "".
(** [composeTemplate] with the image, the user and the group filled in. *)
Definition compose_text (image : string) (uid gid : Z) : string :=
  join newline
    ["# Generated by vapn — edit config.env, not this file."; "name: vapn-worker"; "services:"; "  worker:";
     "    image: " +:+ image; "    restart: unless-stopped"; "    user: " +:+ dq +:+ pretty uid +:+ ":" +:+ pretty gid +:+ dq;
     "    cap_add: [NET_RAW]"; "    sysctls:"; "      net.ipv4.ping_group_range: " +:+ dq +:+ "0 2147483647" +:+ dq;
     "    env_file: config.env"; "    environment:"; "      VAPN_STATE_DIR: /state"; "    extra_hosts:";
     "      - " +:+ dq +:+ "host.docker.internal:host-gateway" +:+ dq; "    volumes:"; "      - ./state:/state";
     "    logging:"; "      driver: json-file";
     "      options: { max-size: " +:+ dq +:+ "10m" +:+ dq +:+ ", max-file: " +:+ dq +:+ "3" +:+ dq +:+ " }"; ""]%string.

(** [docker tag] moves the tag; a pull that fails moves none, and no pull
    touches the container; starting a container moves no tag, and the container
    that [compose up] started runs the image its file names. *)
Class DockerLaws D `{Docker D} : Prop := {
  tag_moves : forall id image d d', docker_tag id image d = (true, d') -> image_inspect image d' = Some id;
  pull_keeps : forall file d d', compose_pull file d = (false, d') -> forall i, image_inspect i d' = image_inspect i d;
  pull_runs : forall file d, running (compose_pull file d).2 = running d;
  up_keeps_tags : forall force file d i, image_inspect i (compose_up force file d).2 = image_inspect i d;
  up_runs : forall force image uid gid d d', compose_up force (Some (compose_text image uid gid)) d = (true, d') ->
    running d' = image_inspect image d'
}.

(** What a command finds around it: the user, the environment, docker, the
    file system's free blocks and block size, which URLs [http.NewRequest]
    takes, what a GET answers (status and the [Date] header when it parses),
    the outcome of [tar], and what [ReadStatus] yields at each poll of the
    first and of the second wait. *)
Record surroundings : Type := Surroundings {
  uid : Z;
  gid : Z;
  hostname : string;
  env_image : string;
  docker_cli : bool;
  docker_daemon : bool;
  docker_compose : bool;
  statfs : option (Z * Z);
  valid_url : string -> bool;
  http_get : string -> option (Z * option Z);
  tar_ok : bool;
  polls : list (option Status);
  polls_again : list (option Status)
}.

Definition configPath : string := "config.env".
Definition composePath : string := "docker-compose.yml".

Section Vapn.
Context {N D : Type} {cr : Crypto} {sc : SeedCrypto} {tm : TimeText} {net : Client.Network N} {ut : Client.URLText} {dk : Docker D}.

Record host : Type := Host {
  h_home : disk;
  h_state : disk;
  h_docker : D;
  h_net : N;
  h_stdin : list string
}.
Abbreviation HM := (M host).

Definition on_home {A} (m : DM A) : HM A := fun w =>
  let h := w_db w in
  let (r, w') := m (World (h_home h) (w_now w) (w_faults w)) in
  (r, World (Host (w_db w') (h_state h) (h_docker h) (h_net h) (h_stdin h)) (w_now w') (w_faults w')).
Definition on_state {A} (m : DM A) : HM A := fun w =>
  let h := w_db w in
  let (r, w') := m (World (h_state h) (w_now w) (w_faults w)) in
  (r, World (Host (h_home h) (w_db w') (h_docker h) (h_net h) (h_stdin h)) (w_now w') (w_faults w')).
(** A call of docker: it fails or succeeds as docker decides. *)
Definition docker (f : D -> bool * D) : HM unit := fun w =>
  let h := w_db w in
  let (ok, d) := f (h_docker h) in
  (if ok then Ok tt else Err (EMsg "docker"),
   World (Host (h_home h) (h_state h) d (h_net h) (h_stdin h)) (w_now w) (w_faults w)).
Definition compose (f : option string -> D -> bool * D) : HM unit := fun w =>
  docker (f (files (h_home (w_db w)) !! composePath)) w.
(** [ReadString]: what is left when the input ends early. *)
Definition read_line : HM string := fun w =>
  let h := w_db w in
  match h_stdin h with
  | [] => (Ok ""%string, w)
  | l :: ls => (Ok (TrimSpace l), World (Host (h_home h) (h_state h) (h_docker h) (h_net h) ls) (w_now w) (w_faults w))
  end.
Definition imageID (image : string) : HM string := fun w =>
  (Ok (TrimSpace (default ""%string (image_inspect image (h_docker (w_db w))))), w).

(** * Configuration *)
Definition loadConfig (must : bool) : HM conf :=
  let! raw := attempt (on_home (ReadFile configPath)) in
  match raw with
  | Ok raw => ret (parse_config raw)
  | Err _ => if must then throw (EMsg "no worker installed here") else ret ∅
  end.
Definition save (c : conf) : HM unit :=
  do! on_home Ensure ;;
  on_home (WriteFile configPath (render_config c)).
Definition writeCompose (x : surroundings) (c : conf) : HM unit :=
  on_home (WriteFile composePath (compose_text (get c "VAPN_WORKER_IMAGE") (uid x) (gid x))).

Definition orDefault (v def : string) : string := if bool_decide (v = ""%string) then def else v.
Definition prompt (def : string) : HM string :=
  let! line := read_line in ret (orDefault line def).
(** The stored value is shown masked and kept on an empty answer. *)
Definition promptSecret (current : string) : HM string :=
  let! line := read_line in
  if bool_decide (line = ""%string) then ret current else ret line.

Definition promptConfig (x : surroundings) (c : conf) (askToken : bool) : HM conf :=
  let! url := prompt (orDefault (get c "VAPN_COORDINATOR_URL") "https://probes.vpsadvisor.com") in
  let c := <["VAPN_COORDINATOR_URL"%string := url]> c in
  let! name := prompt (orDefault (get c "VAPN_WORKER_NAME") (hostname x)) in
  let c := <["VAPN_WORKER_NAME"%string := name]> c in
  let! key := promptSecret (get c "VAPN_SNAPSHOT_PUBLIC_KEY") in
  let c := <["VAPN_SNAPSHOT_PUBLIC_KEY"%string := key]> c in
  let image := orDefault (env_image x) (orDefault (get c "VAPN_WORKER_IMAGE") "ghcr.io/hummingbytedev/vapn-worker:latest") in
  let c := <["VAPN_WORKER_IMAGE"%string := image]> c in
  if askToken then
    let! token := promptSecret (get c "VAPN_ENROLLMENT_TOKEN") in
    ret (<["VAPN_ENROLLMENT_TOKEN"%string := token]> c)
  else ret c.

(** [os.Stat] of worker.id; any error counts as not registered. *)
Definition registered : HM bool :=
  let! r := attempt (on_state (ReadFile idPath)) in ret (is_ok r).

(** * Doctor: every check runs, and all must pass. *)
Definition probePath : string := ".probe".
Definition state_writable : HM bool :=
  let! r := attempt (on_state (do! Ensure ;; do! WriteFile probePath "" ;; Remove probePath)) in ret (is_ok r).
Definition diskFree (x : surroundings) (need : Z) : bool :=
  match statfs x with Some (bavail, bsize) => negb ((bavail * bsize) mod 2 ^ 64 <? need) | None => false end.
Fixpoint drop_slashes (l : list ascii) : list ascii :=
  match l with c :: l' => if bool_decide (c = "/"%char) then drop_slashes l' else l | [] => [] end.
(** [strings.TrimRight(s, "/")]. *)
Definition trim_slashes (s : string) : string :=
  string_of_list_ascii (rev (drop_slashes (rev (list_ascii_of_string s)))).
Definition reachCoordinator (x : surroundings) (url : string) : bool :=
  if bool_decide (url = ""%string) then false
  else
    let target := (trim_slashes url +:+ "/api/v1/workers/me")%string in
    valid_url x target && match http_get x target with Some (code, _) => code <? 500 | None => false end.
(** [None] is the panic of [Do] on the missing request: the error of
    [http.NewRequest] is discarded. *)
Definition clockSkew (x : surroundings) (now : Z) (url : string) : option bool :=
  if bool_decide (url = ""%string) then Some false
  else if negb (valid_url x url) then None
  else match http_get x url with
       | None => Some false
       | Some (_, None) => Some true
       | Some (_, Some server) =>
           let skew := time_Sub now server in
           let skew := if skew <? 0 then neg_int64 skew else skew in
           Some (negb (90 * Second <? skew))
       end.
Definition runDoctor (x : surroundings) (c : conf) : HM bool :=
  let! writable := state_writable in
  let url := get c "VAPN_COORDINATOR_URL" in
  let! now := clock in
  match clockSkew x now url with
  | None => throw (EMsg "panic: nil pointer dereference")
  | Some synchronized =>
      ret (docker_cli x && docker_daemon x && docker_compose x && diskFree x (2 ^ 31) && writable
           && is_ok (Artifact.ParsePublicKey (get c "VAPN_SNAPSHOT_PUBLIC_KEY"))
           && reachCoordinator x url && synchronized)
  end.

(** * Waiting for the worker *)
Definition reports (newerThan : option Z) (st : Status) : bool :=
  negb (bool_decide (st_WorkerID st = ""%string)) &&
  match newerThan with None => true | Some t => t <? st_UpdatedAt st end.
Fixpoint waitStatus (newerThan : option Z) (ps : list (option Status)) : option Status :=
  match ps with
  | [] => None
  | Some st :: ps' => if reports newerThan st then Some st else waitStatus newerThan ps'
  | None :: ps' => waitStatus newerThan ps'
  end.

(** The token is spent once the worker has an identity; a failure to rewrite
    the file is ignored. *)
Definition forget_token (c : conf) (st : Status) : HM unit :=
  if negb (bool_decide (st_WorkerID st = ""%string)) && is_set c "VAPN_ENROLLMENT_TOKEN" then
    do! attempt (save (delete "VAPN_ENROLLMENT_TOKEN"%string c)) ;; ret tt
  else ret tt.

(** * Commands *)
Definition cmdInstall (x : surroundings) : HM unit :=
  let! c := loadConfig false in
  let! reg := registered in
  let! c := promptConfig x c (negb reg) in
  let! ok := runDoctor x c in
  if negb ok then throw (EMsg "system checks failed")
  else
    do! save c ;;
    do! on_state Ensure ;;
    do! writeCompose x c ;;
    do! attempt (compose compose_pull) ;;
    do! compose (compose_up false) ;;
    match waitStatus None (polls x) with
    | None => ret tt
    | Some st => forget_token c st
    end.

Definition cmdReconfigure (x : surroundings) : HM unit :=
  let! c := loadConfig true in
  do! attempt (on_state WorkerID) ;;
  let before := get c "VAPN_WORKER_IMAGE" in
  let! reg := registered in
  let! c := promptConfig x c (negb reg) in
  let! ok := runDoctor x c in
  if negb ok then throw (EMsg "system checks failed; nothing was changed")
  else
    do! save c ;;
    do! writeCompose x c ;;
    do! (if bool_decide (get c "VAPN_WORKER_IMAGE" = before) then ret tt
         else do! attempt (compose compose_pull) ;; ret tt) ;;
    let! restartedAt := clock in
    do! compose (compose_up false) ;;
    match waitStatus (Some restartedAt) (polls x) with
    | None => ret tt
    | Some st => forget_token c st
    end.

Definition healthy (st : option Status) : bool :=
  match st with
  | Some st => bool_decide (st_State st ∈ ["active"; "pending"; "quarantined"]%string)
  | None => false
  end.

Definition cmdUpdate (x : surroundings) : HM unit :=
  let! c := loadConfig true in
  let image := get c "VAPN_WORKER_IMAGE" in
  let! before := imageID image in
  let! pulled := attempt (compose compose_pull) in
  match pulled with
  | Err _ => if bool_decide (before = ""%string) then throw (EMsg "pull failed and no local image present") else ret tt
  | Ok _ =>
      let! after := imageID image in
      if bool_decide (before = after) && negb (bool_decide (before = ""%string)) then ret tt
      else
        let! restartedAt := clock in
        do! compose (compose_up false) ;;
        if healthy (waitStatus (Some restartedAt) (polls x)) then ret tt
        else if bool_decide (before = ""%string) then throw (EMsg "no previous image to roll back to")
        else
          do! docker (docker_tag before image) ;;
          do! compose (compose_up true) ;;
          let! again := clock in
          match waitStatus (Some again) (polls_again x) with
          | None => throw (EMsg "rollback started but worker still unhealthy")
          | Some _ => ret tt
          end
  end.

Definition cmdBackup (x : surroundings) : HM unit :=
  do! loadConfig true ;;
  if tar_ok x then ret tt else throw (EMsg "tar").

(** [client.Retire] with a client made from the stored identity. *)
Definition retire (url id : string) (key : PrivateKey) : HM unit := fun w =>
  let h := w_db w in
  let wk := Client.MkWorker (h_state h) (Client.WithID id (Client.NewClient url key)) Agent.fresh_agent (h_net h) in
  let (r, w') := Client.Retire (World wk (w_now w) (w_faults w)) in
  (r, World (Host (h_home h) (Client.wk_disk (w_db w')) (h_docker h) (Client.wk_net (w_db w')) (h_stdin h))
        (w_now w') (w_faults w')).

Definition cmdUnregister (confirm : bool) : HM unit :=
  let! c := loadConfig true in
  let! line := (if confirm then read_line else ret "retire"%string) in
  if negb (bool_decide (line = "retire"%string)) then throw (EMsg "aborted")
  else
    let! key := on_state Key in
    let! id := on_state WorkerID in
    if bool_decide (id = ""%string) then throw (EMsg "this worker never registered")
    else
      do! retire (get c "VAPN_COORDINATOR_URL") id key ;;
      do! attempt (compose compose_stop) ;;
      ret tt.

(** [strings.ToLower] of a trimmed answer, compared with "", "y" and "yes". *)
Definition lower (ch : ascii) : ascii :=
  let v := byte_val ch in if (65 <=? v) && (v <=? 90) then byte_of (v + 32) else ch.
Definition says_yes (line : string) : bool :=
  let a := string_of_list_ascii (map lower (list_ascii_of_string line)) in
  bool_decide (a ∈ [""; "y"; "yes"]%string).

(** [os.RemoveAll]: file after file, in any order. *)
Definition remove_all (d : disk) : DM unit := forM (map fst (map_to_list (files d))) Remove.
Definition RemoveHome : HM unit := fun w =>
  (do! on_state (remove_all (h_state (w_db w))) ;; on_home (remove_all (h_home (w_db w)))) w.

Definition cmdUninstall (x : surroundings) : HM unit :=
  do! loadConfig true ;;
  let! ans := read_line in
  do! (if says_yes ans then do! attempt (cmdUnregister false) ;; ret tt else ret tt) ;;
  let! ans := read_line in
  do! (if says_yes ans then cmdBackup x else ret tt) ;;
  do! attempt (compose compose_down) ;;
  RemoveHome.

Inductive command : Type :=
| Install | Reconfigure | RunDoctor | Pause | Resume | Update | Backup | Unregister | Uninstall.
Definition main (x : surroundings) (cmd : command) : HM unit :=
  match cmd with
  | Install => cmdInstall x
  | Reconfigure => cmdReconfigure x
  | RunDoctor => let! c := loadConfig false in do! runDoctor x c ;; ret tt
  | Pause => compose compose_stop
  | Resume => compose compose_start
  | Update => cmdUpdate x
  | Backup => cmdBackup x
  | Unregister => cmdUnregister true
  | Uninstall => cmdUninstall x
  end.

(** * The status command *)
Section StatusCommand.
Context {sj : StatusJSON} {dt : Config.DurationText}.

(** [Duration.Round]: to the nearest multiple, half away from zero,
    saturating. *)
Definition Round (d m : Z) : Z :=
  if m <=? 0 then d
  else
    let r := Z.rem d m in
    if d <? 0 then (if 2 * - r <? m then d - r else Z.max minDuration (d - m - r))
    else if 2 * r <? m then d - r else Z.min maxDuration (d + m - r).
Definition renderState (s : string) : string :=
  if bool_decide (s = "active"%string) then "Healthy"
  else if bool_decide (s = "pending"%string) then "Awaiting approval" else s.
(** [time.Since(t)], rounded and written out. *)
Definition ago (now t : Z) : string := (Config.DurationString (Round (time_Sub now t) Second) +:+ " ago")%string.
Definition stale (now : Z) (st : Status) : bool := 2 * Minute <? time_Sub now (st_UpdatedAt st).
Definition status_lines (now : Z) (st : Status) : list (string * string) :=
  [("Worker", if stale now st then "Unreachable (last report " +:+ ago now (st_UpdatedAt st) +:+ ")" else renderState (st_State st));
   ("Worker ID", st_WorkerID st); ("Software", st_SoftwareVersion st); ("Coordinator", st_CoordinatorURL st);
   ("Routing snapshot", orDefault (st_SnapshotVersion st) "not yet installed"); ("Last heartbeat", ago now (st_LastHeartbeatAt st));
   ("Assignments", Config.Itoa (st_Assignments st)); ("Measurements submitted", Config.Itoa (st_MeasurementsSubmitted st))]%string ++
  match st_LastUploadAt st with
  | Some t => [("Last upload"%string, (ago now t +:+ " (" +:+ Config.Itoa (st_LastUploadMillis st) +:+ " ms)")%string)]
  | None => []
  end.
(** The label and value of each line it prints; a missing or unreadable report
    is an error. *)
Definition cmdStatus : HM (list (string * string)) :=
  do! loadConfig true ;;
  let! r := attempt (on_state ReadStatus) in
  match r with
  | Err _ => throw (EMsg "no status report yet")
  | Ok st => let! now := clock in ret (status_lines now st)
  end.
End StatusCommand.
End Vapn.
Arguments host : clear implicits.

(** * The configuration file *)
Definition nonempty (c : conf) : conf := filter (fun kv => kv.2 <> ""%string) c.

(** What one line of the file can hold. *)
Definition good_entry (k v : string) : Prop :=
  let line := k +:+ "=" +:+ v in
  TrimSpace line = line /\ has_byte LF line = false /\ has_byte "="%char k = false /\ is_comment line = false.
Definition Good (c : conf) : Prop := map_Forall good_entry (nonempty c).

Lemma get_nonempty c k : get (nonempty c) k = get c k.
Proof.
  unfold get, nonempty. destruct (filter _ c !! k) as [v|] eqn:E.
  - by apply map_lookup_filter_Some in E as [-> _].
  - apply map_lookup_filter_None in E as [->|E]; [done|]. destruct (c !! k) as [v|] eqn:Ek; [|done].
    specialize (E v eq_refl). simpl in *. destruct (decide (v = ""%string)); [by subst|done].
Qed.

Lemma is_set_Some c k : is_set c k = true <-> exists v, nonempty c !! k = Some v /\ get c k = v.
Proof.
  unfold is_set, get, nonempty. rewrite negb_true_iff, bool_decide_eq_false. split.
  - destruct (c !! k) as [v|] eqn:E; simpl; [|done]. intros Hv. exists v. split; [|done]. by apply map_lookup_filter_Some.
  - intros (v & Hv & Hg). apply map_lookup_filter_Some in Hv as [-> Hv]. done.
Qed.

Lemma parse_setting c k c' : Good c -> is_set c k = true -> parse_line c' (setting c k) = <[k := get c k]> c'.
Proof.
  intros HG (v & Hv & Hg)%is_set_Some. destruct (HG _ _ Hv) as (Ht & _ & Hk & Hc). unfold parse_line, setting.
  rewrite Hg, Ht, Hc, bool_decide_eq_false_2 by (by destruct k). by rewrite (cut_app "="%char).
Qed.

(** What a list of settings reads as. *)
Definition settings_map (c : conf) (ks : list string) (m : conf) : conf := foldl (fun m k => <[k := get c k]> m) m ks.

Lemma settings_lookup c ks m k : settings_map c ks m !! k = if decide (k ∈ ks) then Some (get c k) else m !! k.
Proof.
  unfold settings_map. revert m. induction ks as [|x ks IH]; intros m; simpl; [done|]. rewrite IH.
  destruct (decide (k ∈ ks)) as [H|H], (decide (k ∈ x :: ks)) as [H'|H']; try done.
  - destruct H'. by right.
  - apply elem_of_cons in H' as [->|?]; [|done]. by rewrite lookup_insert_eq.
  - rewrite lookup_insert_ne; [done|]. intros ->. destruct H'. by left.
Qed.

Lemma parse_settings c ks m : Good c -> Forall (fun k => is_set c k = true) ks ->
  foldl parse_line m (map (setting c) ks) = settings_map c ks m.
Proof.
  intros HG Hks. revert m. induction Hks as [|k ks Hk Hks IH]; intros m; simpl; [done|]. rewrite IH.
  by rewrite parse_setting.
Qed.

Lemma split_render lines : Forall (fun l => has_byte LF l = false) lines ->
  split_on LF (foldr (fun l s => l +:+ newline +:+ s) ""%string lines) = lines ++ [""%string].
Proof.
  induction 1 as [|l lines Hl Hls IH]; [done|]. simpl foldr. change newline with (String LF "").
  rewrite split_on_app, split_on_plain by done. change (String LF "") with newline. by rewrite IH.
Qed.

Lemma extra_keys_elem c k : k ∈ extra_keys c <-> is_managed k = false /\ is_set c k = true.
Proof.
  unfold extra_keys. rewrite sort_by_perm. rewrite list_elem_of_In, filter_In, andb_true_iff, negb_true_iff, in_map_iff.
  split; [tauto|]. intros [Hm Hs]. split; [|done]. apply is_set_Some in Hs as (v & Hv & _).
  apply map_lookup_filter_Some in Hv as [Hv _]. exists (k, v). split; [done|]. by apply list_elem_of_In, elem_of_map_to_list.
Qed.

Lemma setting_lines c ks : Good c -> Forall (fun k => is_set c k = true) ks ->
  Forall (fun l => has_byte LF l = false) (map (setting c) ks).
Proof.
  intros HG Hks. apply Forall_map. eapply Forall_impl; [exact Hks|]. simpl. intros k (v & Hv & Hg)%is_set_Some.
  unfold setting. rewrite Hg. by apply (HG _ _ Hv).
Qed.

Lemma extra_set c : Forall (fun k => is_set c k = true) (extra_keys c).
Proof. apply Forall_forall. intros k Hk. by apply extra_keys_elem in Hk as [_ ?]. Qed.
Lemma managed_set c : Forall (fun k => is_set c k = true) (List.filter (is_set c) managedKeys).
Proof. apply Forall_forall. intros k Hk. apply list_elem_of_In, filter_In in Hk. tauto. Qed.

Lemma parse_comment m line : is_comment (TrimSpace line) = true -> parse_line m line = m.
Proof. intros H. unfold parse_line. rewrite H. by rewrite orb_true_r. Qed.

Lemma config_lines_parse c m : Good c -> foldl parse_line m (config_lines c) =
  settings_map c (List.filter (is_set c) managedKeys ++ extra_keys c) m.
Proof.
  intros HG. unfold config_lines, settings_map. rewrite !foldl_app. simpl foldl at 3.
  rewrite (parse_comment m) by (vm_compute; reflexivity). rewrite parse_settings by (done || apply managed_set).
  fold (settings_map c (List.filter (is_set c) managedKeys) m). set (m1 := settings_map _ _ m).
  pose proof (extra_set c) as He. destruct (extra_keys c) as [|k ks]; [done|].
  rewrite foldl_app. simpl foldl at 2. rewrite (parse_comment m1) by (vm_compute; reflexivity).
  by rewrite parse_settings.
Qed.

Lemma config_lines_plain c : Good c -> Forall (fun l => has_byte LF l = false) (config_lines c).
Proof.
  intros HG. unfold config_lines. apply Forall_app. split; [by repeat constructor|]. apply Forall_app.
  split; [apply setting_lines; [done|apply managed_set]|]. pose proof (setting_lines c _ HG (extra_set c)) as He.
  destruct (extra_keys c); [done|]. apply Forall_app. split; [by repeat constructor|done].
Qed.

Lemma parse_render c : Good c -> parse_config (render_config c) = nonempty c.
Proof.
  intros HG. unfold parse_config, render_config. rewrite split_render by (by apply config_lines_plain).
  rewrite foldl_app, config_lines_parse by done. change (foldl parse_line ?m [""%string]) with m.
  apply map_eq. intros k. rewrite settings_lookup, lookup_empty.
  destruct (decide _) as [Hk|Hk].
  - apply elem_of_app in Hk. assert (is_set c k = true) as (v & -> & ->)%is_set_Some; [|done].
    destruct Hk as [Hk|Hk]; [apply list_elem_of_In, filter_In in Hk; tauto|]. by apply extra_keys_elem in Hk as [_ ?].
  - destruct (nonempty c !! k) as [v|] eqn:Ev; [|done]. destruct Hk. apply elem_of_app.
    assert (is_set c k = true) as Hs.
    { apply is_set_Some. exists v. split; [done|]. unfold get. apply map_lookup_filter_Some in Ev as [-> _]. done. }
    destruct (is_managed k) eqn:Em; [left|right; by apply extra_keys_elem]. apply list_elem_of_In, filter_In.
    split; [|done]. unfold is_managed in Em. btrue. by apply list_elem_of_In.
Qed.

(** The file does not depend on settings that are empty. *)
Lemma render_nonempty c : render_config (nonempty c) = render_config c.
Proof.
  pose proof (get_nonempty c) as Hget.
  assert (forall k, is_set (nonempty c) k = is_set c k) as Hset by (intros k; unfold is_set; by rewrite Hget).
  assert (forall ks, map (setting (nonempty c)) ks = map (setting c) ks) as Hlines.
  { intros ks. apply map_ext. intros k. unfold setting. by rewrite Hget. }
  assert (extra_keys (nonempty c) = extra_keys c) as Hextra.
  { apply sort_strings_perm. apply NoDup_Permutation.
    - apply NoDup_ListNoDup, List.NoDup_filter, NoDup_ListNoDup, NoDup_fst_map_to_list.
    - apply NoDup_ListNoDup, List.NoDup_filter, NoDup_ListNoDup, NoDup_fst_map_to_list.
    - intros k. pose proof (extra_keys_elem (nonempty c) k) as H1. pose proof (extra_keys_elem c k) as H2.
      unfold extra_keys in H1, H2. rewrite sort_by_perm in H1, H2. rewrite H1, H2, Hset. done. }
  unfold render_config, config_lines. rewrite Hextra, Hlines.
  rewrite (filter_ext (is_set (nonempty c)) (is_set c)) by done.
  by destruct (extra_keys c); rewrite ?Hlines.
Qed.

Lemma good_insert c k v : Good c -> (v <> ""%string -> good_entry k v) -> Good (<[k := v]> c).
Proof.
  intros HG Hv k' v' (Hl & Hne)%map_lookup_filter_Some. simpl in Hne. destruct (decide (k' = k)) as [->|Hk].
  - rewrite lookup_insert_eq in Hl. injection Hl as <-. by apply Hv.
  - rewrite lookup_insert_ne in Hl by done. apply HG. by apply map_lookup_filter_Some.
Qed.

Lemma good_parse_line c line : Good c -> has_byte LF line = false -> Good (parse_line c line).
Proof.
  intros HG Hl. unfold parse_line. destruct (_ || _) eqn:E; [done|]. apply orb_false_iff in E as [_ Hc].
  destruct (cut _ _) as [[k v]|] eqn:Ec; [|done]. apply cut_Some in Ec as [Ec Hk]. apply good_insert; [done|]. intros _.
  unfold good_entry. change "="%string with (String "="%char ""). rewrite <- Ec. split_and!; [apply TrimSpace_idem| |done|done].
  by apply TrimSpace_has_byte.
Qed.

Lemma good_parse raw : Good (parse_config raw).
Proof.
  unfold parse_config. assert (Good ∅) as H0 by (intros k v [H _]%map_lookup_filter_Some; done).
  revert H0. generalize (∅ : conf) as c. induction (split_on_elems LF raw) as [|l ls Hl Hls IH]; intros c HG; simpl; [done|].
  apply IH. by apply good_parse_line.
Qed.

(** A value as the operator can type it. *)
Definition typed (v : string) : Prop := TrimSpace v = v /\ has_byte LF v = false.

Lemma trimmed_right_after v m : v <> ""%string ->
  trimmed_right (list_ascii_of_string v) = true -> trimmed_right (m ++ "="%char :: list_ascii_of_string v) = true.
Proof.
  intros Hv. rewrite rev_app_distr. simpl rev. rewrite <- app_assoc. simpl app.
  assert (rev (list_ascii_of_string v) <> []) as Hr.
  { destruct v; [done|]. simpl. intros H. by apply app_eq_nil in H as [_ ?]. }
  destruct (rev (list_ascii_of_string v)) as [|a [|b [|c r]]]; [done| | |done].
  - simpl. intros H. btrue. rewrite H. simpl. destruct (rev m) as [|x r]; [done|]. unfold space3. simpl.
    by rewrite !andb_false_r.
  - simpl. intros H. by btrue; rewrite H, H0.
Qed.

Lemma managed_good k v : k ∈ managedKeys -> typed v -> v <> ""%string -> good_entry k v.
Proof.
  intros Hk [Ht Hl] Hv. unfold good_entry.
  assert (has_byte LF k = false /\ has_byte "="%char k = false /\
    (forall s, is_comment (k +:+ s) = false) /\ (forall l, trimmed_left (list_ascii_of_string k ++ l) = true)) as (H1 & H2 & H3 & H4).
  { repeat (apply elem_of_cons in Hk as [->|Hk]; [done|]). by apply elem_of_nil in Hk. }
  split_and!; [|by rewrite !has_byte_app, H1, Hl|done|apply H3].
  apply TrimSpace_fixed in Ht as [_ Ht]. apply TrimSpace_fixed. rewrite !list_ascii_app. split; [apply H4|].
  by apply trimmed_right_after.
Qed.


(** * The commands *)
Section Commands.
Context {N D : Type} {cr : Crypto} {sc : SeedCrypto} {tm : TimeText} {net : Client.Network N} {ut : Client.URLText} {dk : Docker D}.
Implicit Types (h : host N D).

(** Files of the state directory that exist stay as they are, apart from the
    doctor's probe file, and only a key may appear. *)
Definition Kept (d d' : disk) : Prop := forall nm, nm <> probePath ->
  (forall c, files d !! nm = Some c -> files d' !! nm = Some c) /\ (nm <> keyPath -> files d' !! nm = files d !! nm).
Definition KeptD (_ : Z) (d d' : disk) : Prop := Kept d d'.
Definition KeptH (_ : Z) h h' : Prop := Kept (h_state h) (h_state h').
#[local] Instance KeptD_preorder : PreOrderAt KeptD.
Proof.
  split; unfold KeptD, Kept; [done|]. intros _ d1 d2 d3 H1 H2 nm Hnm. destruct (H1 nm Hnm) as [A1 B1], (H2 nm Hnm) as [A2 B2].
  split; [eauto|]. intros Hk. by rewrite B2, B1.
Qed.
#[local] Instance KeptH_preorder : PreOrderAt KeptH.
Proof. split; unfold KeptH; [intros n h; apply (at_refl (R := KeptD) n) | intros n h1 h2 h3; apply (at_trans (R := KeptD) n)]. Qed.

Lemma kept_same d d' : files d' = files d -> Kept d d'.
Proof. intros H nm _. by rewrite H. Qed.

Section Lifting.
Context (R : Z -> host N D -> host N D -> Prop) {po : PreOrderAt R}.

Lemma respects_home {A} (Q : Z -> disk -> disk -> Prop) (m : DM A) : Respects Q m ->
  (forall n h d, Q n (h_home h) d -> R n h (Host d (h_state h) (h_docker h) (h_net h) (h_stdin h))) -> Respects R (on_home m).
Proof.
  intros Hm HR w r w' E. unfold on_home in E. destruct (m _) as [r0 w0] eqn:Em. injection E as <- <-.
  apply Hm in Em as [Hn HQ]. simpl in *. split; [done|]. by apply HR.
Qed.
Lemma respects_state {A} (Q : Z -> disk -> disk -> Prop) (m : DM A) : Respects Q m ->
  (forall n h d, Q n (h_state h) d -> R n h (Host (h_home h) d (h_docker h) (h_net h) (h_stdin h))) -> Respects R (on_state m).
Proof.
  intros Hm HR w r w' E. unfold on_state in E. destruct (m _) as [r0 w0] eqn:Em. injection E as <- <-.
  apply Hm in Em as [Hn HQ]. simpl in *. split; [done|]. by apply HR.
Qed.
Lemma respects_docker f : (forall n h d, R n h (Host (h_home h) (h_state h) d (h_net h) (h_stdin h))) -> Respects R (docker f).
Proof. intros HR w r w' E. unfold docker in E. destruct (f _). injection E as <- <-. by split; [|apply HR]. Qed.
Lemma respects_compose f : (forall n h d, R n h (Host (h_home h) (h_state h) d (h_net h) (h_stdin h))) -> Respects R (compose f).
Proof. intros HR w r w' E. unfold compose in E. by apply (respects_docker _ HR) in E. Qed.
Lemma respects_line : (forall n h l, R n h (Host (h_home h) (h_state h) (h_docker h) (h_net h) l)) -> Respects R read_line.
Proof.
  intros HR w r w' E. unfold read_line in E. destruct (h_stdin _); injection E as <- <-; (split; [done|]); [apply at_refl|apply HR].
Qed.
Lemma respects_image i : Respects R (imageID i).
Proof. intros w r w' E. injection E as <- <-. split; [done|apply at_refl]. Qed.
End Lifting.

Lemma ensure_touches P : Respects (Touches P) Ensure.
Proof. unfold Ensure. respects. intros nm Hnm. done. Qed.
Hint Resolve ensure_touches : vapn.

Lemma kept_touches d d' : Touches (eq probePath) 0 d d' -> Kept d d'.
Proof. intros H nm Hnm. rewrite H by congruence. done. Qed.

Lemma kept_Key : Respects KeptD Key.
Proof.
  intros w r w' E.
  assert (Respects (Touches (eq keyPath)) Key) as HT by (unfold Key, GenerateKey; touches).
  apply HT in E as HE. destruct HE as [Hn HE]. split; [done|]. intros nm Hnm.
  destruct (decide (nm = keyPath)) as [->|Hk]; [|rewrite HE by congruence; done]. split; [|done]. intros c Hc.
  unfold Key in E. apply bind_cases in E as [(e & [? [? _]]%attempt_run & _)|(x & w1 & [? [[= <-] [Hd Hr]%ReadFile_run]]%attempt_run & E)]; [done|].
  assert (w_db w' = w_db w1 -> files (w_db w') !! keyPath = Some c) as Hsame by (intros ->; by rewrite Hd).
  destruct x as [raw|e].
  - apply Hsame. unfold throw, ret in E. repeat case_match; by simplify_eq.
  - destruct (bool_decide (e = ErrNotExist)) eqn:Ee; simpl in E.
    + btrue. rewrite (Hr Ee) in Hc. done.
    + apply Hsame. unfold throw in E. by simplify_eq.
Qed.

(** A request changes no file. *)
Lemma retire_run url id key w r w' : retire (N := N) (D := D) url id key w = (r, w') ->
  w_now w' = w_now w /\ h_home (w_db w') = h_home (w_db w) /\ h_stdin (w_db w') = h_stdin (w_db w) /\
  forall nm, files (h_state (w_db w')) !! nm = files (h_state (w_db w)) !! nm.
Proof.
  intros E. unfold retire in E. destruct (Client.Retire _) as [r0 w0] eqn:Er. injection E as <- <-.
  pose proof (Client.respects_do (Agent.TouchesW (N := N) (fun _ => False)) "POST" "/api/v1/workers/retire"
    (Some "{}"%string) Client.no_result) as HT.
  apply HT in Er as [Hn (_ & _ & Hf)]. simpl in *. split_and!; try done. intros nm. apply Hf. tauto.
Qed.
Lemma kept_retire url id key : Respects KeptH (retire (N := N) (D := D) url id key).
Proof. intros w r w' (Hn & _ & _ & Hf)%retire_run. split; [done|]. intros nm _. by rewrite Hf. Qed.

(** One step of [Respects KeptH]. *)
Ltac kept_step :=
  match goal with
  | |- Respects _ (on_home _) => apply (respects_home _ (Touches (fun _ => True))); [touches|intros; apply (at_refl (R := KeptD) 0)]
  | |- Respects _ (on_state Key) => apply (respects_state _ KeptD); [apply kept_Key|done]
  | |- Respects _ (on_state _) =>
      apply (respects_state _ (Touches (eq probePath))); [touches|intros; by apply kept_touches]
  | |- Respects _ (docker _) => apply respects_docker; intros; apply (at_refl (R := KeptD) 0)
  | |- Respects _ (compose _) => apply respects_compose; intros; apply (at_refl (R := KeptD) 0)
  | |- Respects _ read_line => apply respects_line; [apply _|]; intros; apply (at_refl (R := KeptD) 0)
  | |- Respects _ (imageID _) => apply respects_image; apply _
  | |- Respects _ clock => apply respects_clock; apply _
  | |- Respects _ (retire _ _ _) => apply kept_retire
  end.
Ltac kept := repeat first [ kept_step | progress respects ].

Lemma kept_prompt x c t : Respects KeptH (promptConfig (N := N) (D := D) x c t).
Proof. unfold promptConfig, prompt, promptSecret. kept. Qed.
Lemma kept_load must : Respects KeptH (loadConfig (N := N) (D := D) must).
Proof. unfold loadConfig. kept. Qed.
Lemma kept_save c : Respects KeptH (save (N := N) (D := D) c).
Proof. unfold save. kept. Qed.
Lemma kept_unregister confirm : Respects KeptH (cmdUnregister (N := N) (D := D) confirm).
Proof. unfold cmdUnregister, loadConfig, WorkerID. kept. Qed.
Lemma kept_backup x : Respects KeptH (cmdBackup (N := N) (D := D) x).
Proof. unfold cmdBackup, loadConfig. kept. Qed.
Hint Resolve kept_prompt kept_load kept_save kept_unregister kept_backup : vapn.

(** C29: No command but [uninstall] touches the worker's identity: whatever fails,
    every file of the state directory stays as it was (the doctor's probe file
    apart), and the only file that can appear is a key where there was none. *)
Theorem identity_preserved x cmd w r w' :
  cmd <> Uninstall -> main (N := N) (D := D) x cmd w = (r, w') ->
  forall nm, nm <> probePath ->
    (forall c, files (h_state (w_db w)) !! nm = Some c -> files (h_state (w_db w')) !! nm = Some c) /\
    (nm <> keyPath -> files (h_state (w_db w')) !! nm = files (h_state (w_db w)) !! nm).
Proof.
  intros Hcmd E. assert (Respects KeptH (main (N := N) (D := D) x cmd)) as HK; [|by apply HK in E as [_ E]].
  destruct cmd; unfold main; [unfold cmdInstall|unfold cmdReconfigure, WorkerID| | | |unfold cmdUpdate|..|done];
    unfold runDoctor, state_writable, registered, writeCompose, forget_token;
    repeat first [ kept_step | solve [eauto with vapn] | progress respects ].
Qed.

(** ** Nothing changes before the checks passed *)
Definition Untouched (_ : Z) h h' : Prop := files (h_home h') = files (h_home h) /\ h_docker h' = h_docker h.
#[local] Instance Untouched_preorder : PreOrderAt Untouched.
Proof. split; unfold Untouched; [done|]. intros ???? [? ?] [? ?]. split; congruence. Qed.

Lemma touches_nothing d d' : Touches (fun _ => False) 0 d d' -> files d' = files d.
Proof. intros H. apply map_eq. intros nm. apply H. tauto. Qed.
Ltac untouched_step :=
  match goal with
  | |- Respects _ (on_home _) => apply (respects_home _ (Touches (fun _ => False))); [touches|intros; split; [by apply touches_nothing|done]]
  | |- Respects _ (on_state _) => apply (respects_state _ (Touches (fun _ => True))); [touches|done]
  | |- Respects _ read_line => apply respects_line; [apply _|done]
  | |- Respects _ clock => apply respects_clock; apply _
  end.
Ltac untouched := repeat first [ untouched_step | progress respects ].

(** The checks of the doctor on the settings that would be written. *)
Definition passed (x : surroundings) (now : Z) (c : conf) : bool :=
  let url := get c "VAPN_COORDINATOR_URL" in
  docker_cli x && docker_daemon x && docker_compose x && diskFree x (2 ^ 31)
  && is_ok (Artifact.ParsePublicKey (get c "VAPN_SNAPSHOT_PUBLIC_KEY"))
  && reachCoordinator x url && bool_decide (clockSkew x now url = Some true).

Lemma runDoctor_run x c w r w' : runDoctor (N := N) (D := D) x c w = (r, w') ->
  Untouched 0 (w_db w) (w_db w') /\ (r = Ok true -> exists now, passed x now c = true).
Proof.
  intros E. split.
  - assert (Respects Untouched (runDoctor (N := N) (D := D) x c)) as HR by (unfold runDoctor, state_writable; untouched).
    by apply HR in E as [_ E].
  - intros ->. unfold runDoctor in E. apply bindM_Ok in E as (b & w1 & _ & E). apply bindM_Ok in E as (now & w2 & _ & E).
    exists now. unfold passed. destruct (clockSkew _ _ _) as [ok|]; [|done]. injection E as E _.
    btrue. subst ok. repeat match goal with H : _ = true |- _ => rewrite H end. by rewrite bool_decide_true.
Qed.

(** Installing or reconfiguring changes neither the files of ~/.vapn nor the
    container before every check passed on the settings about to be written. *)
Theorem checked_before_change x cmd w r w' :
  cmd = Install \/ cmd = Reconfigure -> main (N := N) (D := D) x cmd w = (r, w') ->
  Untouched 0 (w_db w) (w_db w') \/ exists now c, passed x now c = true.
Proof.
  intros Hcmd E.
  assert (forall c e0 (k : M (host N D) unit) w1, Untouched 0 (w_db w) (w_db w1) ->
    (let! ok := runDoctor x c in if negb ok then throw e0 else k) w1 = (r, w') ->
    Untouched 0 (w_db w) (w_db w') \/ exists now c, passed x now c = true) as Hdoc.
  { intros c e0 k w1 H1 E1. apply bind_cases in E1 as [(e & [E2 _]%runDoctor_run & _)|(b & w2 & [E2 Hb]%runDoctor_run & E1)].
    - left. by eapply (at_trans 0).
    - destruct b; [right; destruct (Hb eq_refl) as [now ?]; by exists now, c|]. injection E1 as _ <-. left. by eapply (at_trans 0). }
  assert (forall A (m : M (host N D) A) (k : A -> M (host N D) unit) w1, Respects Untouched m ->
    Untouched 0 (w_db w) (w_db w1) -> bindM m k w1 = (r, w') ->
    (forall a w2, Untouched 0 (w_db w) (w_db w2) -> k a w2 = (r, w') -> Untouched 0 (w_db w) (w_db w') \/ exists now c, passed x now c = true) ->
    Untouched 0 (w_db w) (w_db w') \/ exists now c, passed x now c = true) as Hstep.
  { intros A m k w1 Hm H1 E1 Hk. apply bind_cases in E1 as [(e & [_ E2]%Hm & _)|(a & w2 & [_ E2]%Hm & E1)].
    - left. by eapply (at_trans 0).
    - apply (Hk a w2); [by eapply (at_trans 0)|done]. }
  assert (forall must, Respects Untouched (loadConfig (N := N) (D := D) must)) as Hload by (intros; unfold loadConfig; untouched).
  assert (Respects Untouched (registered (N := N) (D := D))) as Hreg by (unfold registered; untouched).
  assert (forall c t, Respects Untouched (promptConfig (N := N) (D := D) x c t)) as Hprompt
    by (intros; unfold promptConfig, prompt, promptSecret; untouched).
  assert (Untouched 0 (w_db w) (w_db w)) as H0 by done.
  destruct Hcmd as [-> | ->]; simpl in E.
  - unfold cmdInstall in E. eapply (Hstep _ _ _ _ (Hload _) H0 E). intros c w1 H1 E1.
    eapply (Hstep _ _ _ _ Hreg H1 E1). intros reg w2 H2 E2. eapply (Hstep _ _ _ _ (Hprompt _ _) H2 E2).
    intros c' w3 H3 E3. exact (Hdoc _ _ _ _ H3 E3).
  - unfold cmdReconfigure in E. eapply (Hstep _ _ _ _ (Hload _) H0 E). intros c w1 H1 E1.
    eapply (Hstep _ _ _ _ _ H1 E1). intros id w2 H2 E2. eapply (Hstep _ _ _ _ Hreg H2 E2). intros reg w3 H3 E3.
    eapply (Hstep _ _ _ _ (Hprompt _ _) H3 E3). intros c' w4 H4 E4. exact (Hdoc _ _ _ _ H4 E4).
    Unshelve. unfold WorkerID. untouched.
Qed.

(** ** Updating *)
Lemma docker_Ok f w u w' : docker (N := N) (D := D) f w = (Ok u, w') ->
  f (h_docker (w_db w)) = (true, h_docker (w_db w')) /\ h_home (w_db w') = h_home (w_db w) /\
  h_state (w_db w') = h_state (w_db w) /\ w_now w' = w_now w.
Proof. unfold docker. destruct (f _) as [[] d]; intros E; by simplify_eq. Qed.
Lemma docker_Err f w e w' : docker (N := N) (D := D) f w = (Err e, w') ->
  f (h_docker (w_db w)) = (false, h_docker (w_db w')) /\ h_home (w_db w') = h_home (w_db w) /\
  h_state (w_db w') = h_state (w_db w) /\ w_now w' = w_now w.
Proof. unfold docker. destruct (f _) as [[] d]; intros E; by simplify_eq. Qed.

Lemma loadConfig_must w c w' : loadConfig (N := N) (D := D) true w = (Ok c, w') ->
  w_db w' = w_db w /\ w_now w' = w_now w /\ exists raw, files (h_home (w_db w)) !! configPath = Some raw /\ c = parse_config raw.
Proof.
  unfold loadConfig. intros (r & w1 & (r0 & [= ->] & E1)%attempt_run & E)%bindM_Ok. unfold on_home in E1.
  destruct (ReadFile _ _) as [r1 w2] eqn:Er. injection E1 as <- <-. destruct r1 as [raw|]; [|done]. injection E as <- <-.
  assert (Respects (Touches (fun _ => False)) (ReadFile configPath)) as HT by touches.
  apply HT in Er as Hn. destruct Hn as [Hn _]. apply ReadFile_run in Er as [Hd Hr]. simpl in *. rewrite Hd, Hn.
  split; [by destruct (w_db w)|]. split; [done|]. eauto.
Qed.

Definition tag_of (image : string) (d : D) : string := TrimSpace (default ""%string (image_inspect image d)).

(** An update that reports success ran into a healthy new version, or left the
    host on the image it had: the tag names the previous image again, and the
    container was not touched or runs that image. *)
Theorem update_gated {dl : DockerLaws D} x w w' raw u g :
  let image := get (parse_config raw) "VAPN_WORKER_IMAGE" in
  let before := tag_of image (h_docker (w_db w)) in
  files (h_home (w_db w)) !! configPath = Some raw ->
  files (h_home (w_db w)) !! composePath = Some (compose_text image u g) ->
  cmdUpdate (N := N) (D := D) x w = (Ok tt, w') ->
  h_home (w_db w') = h_home (w_db w) /\ h_state (w_db w') = h_state (w_db w) /\
  (healthy (waitStatus (Some (w_now w)) (polls x)) = true \/
   tag_of image (h_docker (w_db w')) = before /\
   (running (h_docker (w_db w')) = running (h_docker (w_db w)) \/ running (h_docker (w_db w')) = Some before)).
Proof.
  intros image before Hraw Hfile E. unfold cmdUpdate in E.
  apply bindM_Ok in E as (c & w1 & (H1 & Hn1 & raw' & Hraw' & ->)%loadConfig_must & E).
  rewrite Hraw in Hraw'. injection Hraw' as <-. fold image in E.
  apply bindM_Ok in E as (b & w2 & [= Hb <-] & E). rewrite H1 in Hb. fold (tag_of image (h_docker (w_db w))) in Hb. fold before in Hb.
  subst b. apply bindM_Ok in E as (p & w3 & (r & [= ->] & Ep)%attempt_run & E).
  unfold compose in Ep. rewrite H1, Hfile in Ep.
  destruct r as [[]|e].
  - apply docker_Ok in Ep as (Hp & Hh3 & Hs3 & Hn3). rewrite H1 in Hp, Hh3, Hs3.
    apply bindM_Ok in E as (after & w4 & [= Ha <-] & E). fold (tag_of image (h_docker (w_db w3))) in Ha. subst after.
    pose proof (pull_runs (Some (compose_text image u g)) (h_docker (w_db w))) as Hrun. rewrite Hp in Hrun. simpl in Hrun.
    destruct (_ && _) eqn:Esame.
    + injection E as <-. btrue. split_and!; try done. right. split; [congruence|by left].
    + apply bindM_Ok in E as (t & w5 & [= Ht <-] & E). rewrite Hn3, Hn1 in Ht. subst t.
      apply bindM_Ok in E as (? & w6 & Eu & E). unfold compose in Eu. rewrite Hh3, Hfile in Eu.
      apply docker_Ok in Eu as (_ & Hh6 & Hs6 & Hn6).
      destruct (healthy _) eqn:Hhealthy.
      { injection E as <-. split_and!; [congruence..|by left]. }
      destruct (bool_decide (before = ""%string)); [done|].
      apply bindM_Ok in E as (? & w7 & (Ht & Hh7 & Hs7 & Hn7)%docker_Ok & E).
      apply bindM_Ok in E as (? & w8 & Eu & E). unfold compose in Eu. rewrite Hh7, Hh6, Hh3, Hfile in Eu.
      apply docker_Ok in Eu as (Hup & Hh8 & Hs8 & _).
      apply bindM_Ok in E as (? & w9 & [= _ <-] & E). assert (w' = w8) as -> by (destruct (waitStatus _ (polls_again x)); [by injection E|done]).
      split_and!; [congruence..|]. right.
      assert (image_inspect image (h_docker (w_db w8)) = Some before) as Hi.
      { pose proof (up_keeps_tags true (Some (compose_text image u g)) (h_docker (w_db w7)) image) as Hk. rewrite Hup in Hk.
        simpl in Hk. rewrite Hk. by apply (tag_moves _ _ _ _ Ht). }
      split; [unfold tag_of; rewrite Hi; apply TrimSpace_idem|]. right. by rewrite (up_runs _ _ _ _ _ _ Hup).
  - apply docker_Err in Ep as (Hp & Hh3 & Hs3 & _). rewrite H1 in Hp, Hh3, Hs3.
    destruct (bool_decide _); [done|]. injection E as <-. split_and!; try done. right.
    split; [unfold before, tag_of; by rewrite (pull_keeps _ _ _ Hp)|]. left.
    pose proof (pull_runs (Some (compose_text image u g)) (h_docker (w_db w))) as Hrun. by rewrite Hp in Hrun.
Qed.

(** ** The enrollment token *)
Abbreviation token := "VAPN_ENROLLMENT_TOKEN"%string.

Lemma calm_home {A} (m : DM A) : Calm m -> Calm (on_home (N := N) (D := D) m).
Proof. intros Hm w r w' E H. unfold on_home in E. destruct (m _) as [r0 w0] eqn:Em. injection E as _ <-. by eapply Hm. Qed.
Lemma calm_state {A} (m : DM A) : Calm m -> Calm (on_state (N := N) (D := D) m).
Proof. intros Hm w r w' E H. unfold on_state in E. destruct (m _) as [r0 w0] eqn:Em. injection E as _ <-. by eapply Hm. Qed.
Lemma calm_docker f : Calm (docker (N := N) (D := D) f).
Proof. intros w r w' E. unfold docker in E. destruct (f _). by injection E as _ <-. Qed.
Lemma calm_compose f : Calm (compose (N := N) (D := D) f).
Proof. intros w r w' E. by apply calm_docker in E. Qed.
Lemma calm_line : Calm (read_line (N := N) (D := D)).
Proof. intros w r w' E. unfold read_line in E. by destruct (h_stdin _); injection E as _ <-. Qed.
Ltac calm := calm_with ltac:(first
  [apply calm_home | apply calm_state | apply calm_docker | apply calm_compose | apply calm_line]).

Lemma calm_WriteFile name content : Calm (WriteFile name content).
Proof. unfold WriteFile, append_byte, close_file, exec. calm. Qed.
Lemma calm_save c : Calm (save (N := N) (D := D) c).
Proof. unfold save, Ensure, exec. calm. Qed.

Lemma WriteFile_nofault name content d n : exists d', WriteFile name content (World d n []) = (Ok tt, World d' n []).
Proof.
  unfold WriteFile, exec. unfold bindM at 1. rewrite stmt_nofault. generalize (set_files (<[name := ""%string]>) d) as d0.
  induction (list_ascii_of_string content) as [|a l IH]; intros d0; simpl.
  - unfold bindM, ret, close_file, exec. rewrite stmt_nofault. eauto.
  - destruct (IH (set_files (alter (fun s => s +:+ String a "") name) d0)) as [d' E]. exists d'.
    unfold bindM in *. unfold append_byte, exec at 1. by rewrite stmt_nofault.
Qed.

Lemma save_Ok c w u w' : save (N := N) (D := D) c w = (Ok u, w') ->
  files (h_home (w_db w')) !! configPath = Some (render_config c).
Proof.
  unfold save. intros (? & w1 & _ & E)%bindM_Ok. unfold on_home in E. destruct (WriteFile _ _ _) as [r0 w0] eqn:Ew.
  injection E as -> <-. simpl. by apply WriteFile_Ok in Ew.
Qed.
Lemma save_nofault c w : w_faults w = [] -> exists w', save (N := N) (D := D) c w = (Ok tt, w').
Proof.
  destruct w as [h n fs]. cbn [w_faults]. intros ->.
  destruct (WriteFile_nofault configPath (render_config c) (h_home h) n) as [d' E].
  unfold save, bindM, on_home, Ensure, exec. cbn [w_db w_now w_faults]. rewrite stmt_nofault.
  cbn [w_db w_now w_faults h_home]. rewrite E. eauto.
Qed.

Lemma good_delete c k : Good c -> Good (delete k c).
Proof.
  intros HG k' v' [Hl Hv]%map_lookup_filter_Some. apply lookup_delete_Some in Hl as [_ Hl]. apply HG. by apply map_lookup_filter_Some.
Qed.

Lemma forget_run c st w w' : Good c -> st_WorkerID st <> ""%string -> w_faults w = [] ->
  files (h_home (w_db w)) !! configPath = Some (render_config c) ->
  forget_token (N := N) (D := D) c st w = (Ok tt, w') ->
  exists raw, files (h_home (w_db w')) !! configPath = Some raw /\ get (parse_config raw) token = ""%string.
Proof.
  intros HG Hid Hf Hc E. unfold forget_token in E. rewrite bool_decide_eq_false_2 in E by done. simpl in E.
  destruct (is_set c token) eqn:Es.
  - destruct (save_nofault (delete token c) w Hf) as [w1 E1]. unfold bindM, attempt, ret in E. rewrite E1 in E.
    injection E as <-. exists (render_config (delete token c)). split; [by apply save_Ok in E1|].
    rewrite parse_render, get_nonempty by (by apply good_delete). unfold get. by rewrite lookup_delete_eq.
  - injection E as <-. exists (render_config c). split; [done|]. rewrite parse_render, get_nonempty by done.
    unfold is_set in Es. by btrue.
Qed.

(** The answers an operator can give: lines of text. *)
Definition plain_input h : Prop := Forall (fun l => has_byte LF l = false) (h_stdin h).

Lemma read_line_run w v w' : read_line (N := N) (D := D) w = (Ok v, w') -> plain_input (w_db w) ->
  typed v /\ plain_input (w_db w').
Proof.
  unfold read_line, plain_input. destruct (h_stdin (w_db w)) as [|l ls] eqn:El; intros [= <- <-] H.
  - split; [by vm_compute|by rewrite El].
  - inversion H as [|?? Hl Hls]. split; [|done]. split; [apply TrimSpace_idem|by apply TrimSpace_has_byte].
Qed.

(** An answer, or the value that was there. *)
Lemma good_answer c k v : Good c -> k ∈ managedKeys -> typed v \/ v = get c k -> Good (<[k := v]> c).
Proof.
  intros HG Hk Hv. apply good_insert; [done|]. intros Hne. destruct Hv as [Hv|Hv]; [by apply managed_good|].
  assert (is_set c k = true) as (v' & Hv' & Hg)%is_set_Some by (unfold is_set; apply negb_true_iff, bool_decide_eq_false; congruence).
  rewrite Hv, Hg. by apply HG.
Qed.

Lemma prompt_run c k dflt w v w' : prompt (N := N) (D := D) (orDefault (get c k) dflt) w = (Ok v, w') ->
  plain_input (w_db w) -> typed dflt -> (typed v \/ v = get c k) /\ plain_input (w_db w').
Proof.
  unfold prompt. intros (l & w1 & E & [= <- <-])%bindM_Ok Hin Hd. apply read_line_run in E as [Hl Hin']; [|done].
  split; [|done]. unfold orDefault. case_bool_decide; [|by left]. case_bool_decide; [by left|by right].
Qed.
Lemma secret_run c k w v w' : promptSecret (N := N) (D := D) (get c k) w = (Ok v, w') ->
  plain_input (w_db w) -> (typed v \/ v = get c k) /\ plain_input (w_db w').
Proof.
  unfold promptSecret. intros (l & w1 & E & E2)%bindM_Ok Hin. apply read_line_run in E as [Hl Hin']; [|done].
  case_bool_decide; injection E2 as <- <-; auto.
Qed.

Lemma promptConfig_good x c t w c' w' :
  promptConfig (N := N) (D := D) x c t w = (Ok c', w') -> plain_input (w_db w) -> typed (hostname x) -> typed (env_image x) ->
  Good c -> Good c'.
Proof.
  intros E Hin Hh He HG. unfold promptConfig in E.
  apply bindM_Ok in E as (v1 & w1 & E1 & E). apply prompt_run in E1 as [H1 Hin1]; [|done|by vm_compute].
  apply (good_answer c _ v1 HG) in H1; [|set_solver]. revert E. set (c1 := <[_ := v1]> c) in *. intros E.
  apply bindM_Ok in E as (v2 & w2 & E2 & E). apply prompt_run in E2 as [H2 Hin2]; [|done|done].
  apply (good_answer c1 _ v2 H1) in H2; [|set_solver]. revert E. set (c2 := <[_ := v2]> c1) in *. intros E.
  apply bindM_Ok in E as (v3 & w3 & E3 & E). apply secret_run in E3 as [H3 Hin3]; [|done].
  apply (good_answer c2 _ v3 H2) in H3; [|set_solver]. revert E. set (c3 := <[_ := v3]> c2) in *.
  set (image := orDefault (env_image x) _). intros E.
  assert (typed image \/ image = get c3 "VAPN_WORKER_IMAGE") as H4.
  { unfold image, orDefault. case_bool_decide; [|by left]. case_bool_decide; [left; by vm_compute|by right]. }
  apply (good_answer c3 _ image H3) in H4; [|set_solver]. destruct t; [|by injection E as <- _].
  apply bindM_Ok in E as (v5 & w5 & E5 & E). apply secret_run in E5 as [H5 _]; [|done]. injection E as <- _.
  apply (good_answer _ _ v5 H4) in H5; [done|set_solver].
Qed.

Lemma load_good must w c w' : loadConfig (N := N) (D := D) must w = (Ok c, w') -> Good c.
Proof.
  unfold loadConfig. intros (r & w1 & _ & E)%bindM_Ok. destruct r; [injection E as <- _; apply good_parse|].
  destruct must; [done|]. injection E as <- _. intros k v [H _]%map_lookup_filter_Some. done.
Qed.

Definition SameInput (_ : Z) h h' : Prop := h_stdin h' = h_stdin h.
#[local] Instance SameInput_preorder : PreOrderAt SameInput.
Proof. split; unfold SameInput; congruence. Qed.
Definition SameConfig (_ : Z) h h' : Prop := files (h_home h') !! configPath = files (h_home h) !! configPath.
#[local] Instance SameConfig_preorder : PreOrderAt SameConfig.
Proof. split; unfold SameConfig; congruence. Qed.

Lemma load_input must : Respects SameInput (loadConfig (N := N) (D := D) must).
Proof. unfold loadConfig. respects. apply (respects_home _ (Touches (fun _ => True))); [touches|done]. Qed.
Lemma state_input {A} (m : DM A) : Respects (Touches (fun _ => True)) m -> Respects SameInput (on_state (N := N) (D := D) m).
Proof. intros Hm. by apply (respects_state _ (Touches (fun _ => True))). Qed.
Lemma compose_config f : Respects SameConfig (compose (N := N) (D := D) f).
Proof. by apply respects_compose. Qed.
Lemma state_config {A} (m : DM A) : Respects (Touches (fun _ => True)) m -> Respects SameConfig (on_state (N := N) (D := D) m).
Proof. intros Hm. by apply (respects_state _ (Touches (fun _ => True))). Qed.
Lemma writeCompose_config x c : Respects SameConfig (writeCompose (N := N) (D := D) x c).
Proof.
  unfold writeCompose. apply (respects_home _ (Touches (eq composePath))); [touches|]. intros n h d H. by apply H.
Qed.

(** The settings were saved and nothing failed since. *)
Definition saved (c : conf) (w : world (host N D)) : Prop :=
  w_faults w = [] /\ files (h_home (w_db w)) !! configPath = Some (render_config c).
Lemma saved_keeps {A} c (m : M (host N D) A) w r w' : saved c w -> Calm m -> Respects SameConfig m -> m w = (r, w') ->
  saved c w' /\ w_now w' = w_now w.
Proof. intros [Hf Hc] Hm HC E. pose proof (Hm _ _ _ E Hf). apply HC in E as [Hn E]. split; [|done]. split; [done|]. by rewrite E. Qed.

Lemma reports_id newer ps st : waitStatus newer ps = Some st -> st_WorkerID st <> ""%string.
Proof.
  induction ps as [|[s'|] ps IH]; simpl; [done| |done]. destruct (reports newer s') eqn:Er; [|done].
  intros [= <-]. unfold reports in Er. by btrue.
Qed.

(** One more step after the save. *)
Ltac saved_step c Hs E :=
  let w1 := fresh "w" in let E1 := fresh "E" in let Hs1 := fresh "Hs" in let Hn := fresh "Hn" in
  apply bindM_Ok in E as (? & w1 & E1 & E);
  apply (saved_keeps c _ _ _ _ Hs) in E1 as [Hs1 Hn];
  [ clear Hs; rename Hs1 into Hs
  | unfold writeCompose, Ensure, WriteFile, append_byte, close_file, exec; calm
  | repeat first [ apply writeCompose_config | apply compose_config | apply state_config; touches | progress respects ] ].

(** What install and reconfigure have in common up to the save: settings that
    a file can hold, still without a failure, at the clock of the start. *)
Lemma prepared must x w c0 w1 reg w2 c w3 b w4 :
  w_faults w = [] -> plain_input (w_db w) -> typed (hostname x) -> typed (env_image x) ->
  loadConfig (N := N) (D := D) must w = (Ok c0, w1) ->
  w_faults w2 = [] -> w_now w2 = w_now w1 -> h_stdin (w_db w2) = h_stdin (w_db w1) ->
  promptConfig (N := N) (D := D) x c0 reg w2 = (Ok c, w3) -> runDoctor (N := N) (D := D) x c w3 = (Ok b, w4) ->
  Good c /\ w_faults w4 = [] /\ w_now w4 = w_now w.
Proof.
  intros Hf Hin Hh He El Hf2 Hn2 Hi2 Ep Ed.
  assert (Good c) as HG.
  { eapply promptConfig_good; try done; [|by eapply load_good]. apply load_input in El as [_ El]. unfold plain_input, SameInput in *.
    by rewrite Hi2, El. }
  split; [done|]. apply kept_load in El as [Hn1 _]. apply kept_prompt in Ep as Hn3. destruct Hn3 as [Hn3 _].
  assert (Respects KeptH (runDoctor (N := N) (D := D) x c)) as HR by (unfold runDoctor, state_writable; kept).
  apply HR in Ed as Hn4. destruct Hn4 as [Hn4 _]. split; [|congruence].
  assert (Calm (runDoctor (N := N) (D := D) x c)) as HC.
  { unfold runDoctor, state_writable, Ensure, WriteFile, append_byte, close_file, Remove, exec. calm. }
  eapply HC; [exact Ed|]. assert (Calm (promptConfig (N := N) (D := D) x c0 reg)) as HP by (unfold promptConfig, prompt, promptSecret; calm).
  by eapply HP.
Qed.

Lemma calm_read name : Calm (ReadFile name).
Proof. apply calm_stmt. Qed.

(** The enrollment token is not left behind: once the worker has reported in
    and no call failed, config.env has no token. *)
Theorem token_forgotten x cmd w w' st :
  cmd = Install /\ waitStatus None (polls x) = Some st \/
  cmd = Reconfigure /\ waitStatus (Some (w_now w)) (polls x) = Some st ->
  w_faults w = [] -> plain_input (w_db w) -> typed (hostname x) -> typed (env_image x) ->
  main (N := N) (D := D) x cmd w = (Ok tt, w') ->
  exists raw, files (h_home (w_db w')) !! configPath = Some raw /\ get (parse_config raw) token = ""%string.
Proof.
  intros Hcmd Hf Hin Hh He E.
  assert (forall must w1 c0, loadConfig (N := N) (D := D) must w = (Ok c0, w1) -> w_faults w1 = []) as Hl.
  { intros must w1 c0 El. assert (Calm (loadConfig (N := N) (D := D) must)) as HC by (unfold loadConfig, ReadFile; calm). by eapply HC. }
  assert (Calm (registered (N := N) (D := D))) as HCr by (unfold registered, ReadFile; calm).
  assert (Respects SameInput (registered (N := N) (D := D))) as HRr by (unfold registered; respects; apply state_input; touches).
  destruct Hcmd as [[-> Hw]|[-> Hw]]; simpl in E; pose proof (reports_id _ _ _ Hw) as Hid.
  - unfold cmdInstall in E. apply bindM_Ok in E as (c0 & w1 & E1 & E). pose proof (Hl _ _ _ E1) as Hf1.
    apply bindM_Ok in E as (reg & w2 & E2 & E). pose proof (HCr _ _ _ E2 Hf1) as Hf2. apply HRr in E2 as [Hn2 Hi2].
    apply bindM_Ok in E as (c & w3 & E3 & E). apply bindM_Ok in E as (b & w4 & E4 & E).
    destruct (prepared false x w c0 w1 (negb reg) w2 c w3 b w4) as (HG & Hf4 & Hn4); try done. destruct b; [|done]. simpl in E.
    apply bindM_Ok in E as (? & w5 & E5 & E). assert (saved c w5) as Hs.
    { split; [by eapply calm_save|by eapply save_Ok]. }
    saved_step c Hs E. saved_step c Hs E. saved_step c Hs E. saved_step c Hs E.
    rewrite Hw in E. destruct Hs as [Hf9 Hc9]. exact (forget_run c st _ _ HG Hid Hf9 Hc9 E).
  - unfold cmdReconfigure in E. apply bindM_Ok in E as (c0 & w1 & E1 & E). pose proof (Hl _ _ _ E1) as Hf1.
    apply bindM_Ok in E as (id & w1' & E1' & E).
    assert (Calm (attempt (on_state (N := N) (D := D) WorkerID))) as HCi by (unfold WorkerID, ReadFile; calm).
    assert (Respects SameInput (attempt (on_state (N := N) (D := D) WorkerID))) as HRi.
    { apply respects_attempt, state_input. unfold WorkerID. touches. }
    pose proof (HCi _ _ _ E1' Hf1) as Hf1'. apply HRi in E1' as [Hn1 Hi1].
    apply bindM_Ok in E as (reg & w2 & E2 & E). pose proof (HCr _ _ _ E2 Hf1') as Hf2. apply HRr in E2 as [Hn2 Hi2].
    apply bindM_Ok in E as (c & w3 & E3 & E). apply bindM_Ok in E as (b & w4 & E4 & E).
    destruct (prepared true x w c0 w1 (negb reg) w2 c w3 b w4) as (HG & Hf4 & Hn4); try done; [congruence..|].
    destruct b; [|done]. simpl in E. apply bindM_Ok in E as (? & w5 & E5 & E). assert (saved c w5) as Hs.
    { split; [by eapply calm_save|by eapply save_Ok]. }
    apply kept_save in E5 as [Hn5 _]. rewrite <- Hn4, <- Hn5 in Hw.
    saved_step c Hs E. rewrite <- Hn in Hw. saved_step c Hs E. rewrite <- Hn0 in Hw.
    apply bindM_Ok in E as (t & ? & [= <- <-] & E). saved_step c Hs E.
    rewrite Hw in E. destruct Hs as [Hf9 Hc9]. exact (forget_run c st _ _ HG Hid Hf9 Hc9 E).
Qed.

(** ** Uninstalling *)
Lemma remove_loop l : forall w u w', forM l Remove w = (Ok u, w') ->
  forall nm, files (w_db w') !! nm = if decide (nm ∈ l) then None else files (w_db w) !! nm.
Proof.
  induction l as [|x l IH]; simpl; intros w u w' E nm; [by injection E as _ <-|].
  apply bindM_Ok in E as (? & w1 & [E1 _]%stmt_Ok & E). rewrite (IH _ _ _ E nm).
  destruct (files (w_db w) !! x); [|done]. injection E1 as _ <-. simpl.
  destruct (decide (nm ∈ l)) as [Hl|Hl], (decide (nm ∈ x :: l)) as [Hx|Hx]; try done.
  - destruct Hx. by right.
  - apply elem_of_cons in Hx as [->|?]; [by rewrite lookup_delete_eq|done].
  - rewrite lookup_delete_ne; [done|]. intros ->. destruct Hx. by left.
Qed.
Lemma remove_all_Ok d w u w' : remove_all d w = (Ok u, w') -> files (w_db w) = files d -> files (w_db w') = ∅.
Proof.
  intros E Hd. apply map_eq. intros nm. rewrite lookup_empty, (remove_loop _ _ _ _ E). destruct (decide _) as [|Hn]; [done|].
  destruct (files (w_db w) !! nm) as [c|] eqn:Ec; [|done]. destruct Hn. apply list_elem_of_In, in_map_iff.
  exists (nm, c). split; [done|]. apply list_elem_of_In, elem_of_map_to_list. by rewrite <- Hd.
Qed.

(** The part of the host that unregistering leaves alone. *)
Definition HomeKept (_ : Z) h h' : Prop := files (h_home h') = files (h_home h) /\ h_stdin h' = h_stdin h.
#[local] Instance HomeKept_preorder : PreOrderAt HomeKept.
Proof. split; unfold HomeKept; [done|]. intros ???? [? ?] [? ?]. split; congruence. Qed.
Lemma load_home must : Respects HomeKept (loadConfig (N := N) (D := D) must).
Proof.
  unfold loadConfig. respects. apply (respects_home _ (Touches (fun _ => False))); [touches|].
  intros. split; [by apply touches_nothing|done].
Qed.
Lemma unregister_home : Respects HomeKept (cmdUnregister (N := N) (D := D) false).
Proof.
  unfold cmdUnregister. respects; try apply load_home.
  - apply (respects_state _ (Touches (fun _ => True))); [unfold Key, GenerateKey; touches|done].
  - apply (respects_state _ (Touches (fun _ => True))); [unfold WorkerID; touches|done].
  - intros w r w' (Hn & Hh & Hs & _)%retire_run. split; [done|]. split; [by rewrite Hh|done].
  - by apply respects_compose.
Qed.

(** Uninstalling removes every file when it reports success; when the backup
    that was asked for fails, it stops with all of them in place. *)
Theorem uninstall_spec x w r w' :
  cmdUninstall (N := N) (D := D) x w = (r, w') ->
  (is_ok r = true -> files (h_home (w_db w')) = ∅ /\ files (h_state (w_db w')) = ∅) /\
  (forall a1 a2 more, h_stdin (w_db w) = a1 :: a2 :: more -> says_yes (TrimSpace a2) = true -> tar_ok x = false ->
     is_ok r = false /\ files (h_home (w_db w')) = files (h_home (w_db w)) /\ Kept (h_state (w_db w)) (h_state (w_db w'))).
Proof.
  intros E. unfold cmdUninstall in E. split.
  - destruct r as [[]|]; [intros _|done].
    apply bindM_Ok in E as (? & w1 & _ & E). apply bindM_Ok in E as (? & w2 & _ & E). apply bindM_Ok in E as (? & w3 & _ & E).
    apply bindM_Ok in E as (? & w4 & _ & E). apply bindM_Ok in E as (? & w5 & _ & E). apply bindM_Ok in E as (? & w6 & _ & E).
    unfold RemoveHome in E. apply bindM_Ok in E as (? & w7 & E7 & E). unfold on_state in E7. unfold on_home in E.
    destruct (remove_all _ _) as [r7 v7] eqn:R7 in E7. injection E7 as -> <-. simpl in E.
    destruct (remove_all _ _) as [r8 v8] eqn:R8 in E. injection E as -> <-. simpl.
    apply remove_all_Ok in R7; [|done]. apply remove_all_Ok in R8; [|done]. done.
  - intros a1 a2 more Hin Hyes Htar.
    apply bind_cases in E as [(e & E1 & ->)|(c & w1 & E1 & E)];
      [apply kept_load in E1 as K1; apply load_home in E1 as [_ [H1 _]]; by split_and!; [| |apply K1]|].
    apply kept_load in E1 as K1. destruct K1 as [_ K1]. apply load_home in E1 as [_ [H1 S1]]. rewrite Hin in S1.
    apply bind_cases in E as [(e & E2 & ->)|(l & w2 & E2 & E)]; [unfold read_line in E2; by rewrite S1 in E2|].
    unfold read_line in E2. rewrite S1 in E2. injection E2 as <- <-. simpl in E.
    apply bind_cases in E as [(e & E3 & ->)|([] & w3 & E3 & E)].
    { unfold bindM, attempt, ret in E3. destruct (says_yes _); [|done]. by destruct (cmdUnregister false _). }
    assert (files (h_home (w_db w3)) = files (h_home (w_db w1)) /\ h_stdin (w_db w3) = a2 :: more /\
      Kept (h_state (w_db w1)) (h_state (w_db w3))) as (H3 & S3 & K3).
    { unfold bindM, attempt, ret in E3. destruct (says_yes (TrimSpace a1)).
      - destruct (cmdUnregister false _) as [r3 v3] eqn:Eu. injection E3 as <-. apply kept_unregister in Eu as K3.
        destruct K3 as [_ K3]. apply unregister_home in Eu as [_ [H3 S3]]. done.
      - injection E3 as <-. done. }
    apply bind_cases in E as [(e & E4 & ->)|(l & w4 & E4 & E)]; unfold read_line in E4; rewrite S3 in E4; [done|].
    injection E4 as <- <-. rewrite Hyes in E. apply bind_cases in E as [(e & E5 & ->)|(u & w5 & E5 & E)].
    + assert (Respects HomeKept (cmdBackup (N := N) (D := D) x)) as HB by (unfold cmdBackup; respects; apply load_home).
      apply kept_backup in E5 as K5. destruct K5 as [_ K5]. apply HB in E5 as [_ [H5 _]]. simpl in *.
      split; [done|]. split; [congruence|]. eapply (at_trans (R := KeptD) 0); [exact K1|]. by eapply (at_trans (R := KeptD) 0).
    + unfold cmdBackup in E5. rewrite Htar in E5. by apply bindM_Ok in E5 as (? & ? & _ & ?).
Qed.

(** ** The status command *)
Section StatusHonest.
Context {sj : StatusJSON} {sjl : StatusJSONLaws} {dt : Config.DurationText}.

(** What the worker reported is what the operator reads: after a successful
    [WriteStatus] in the state directory the command shows exactly that report,
    and calls the worker unreachable exactly when the report is older than two
    minutes at the time of the command.  Looking changes nothing. *)
Theorem status_shows_report st d t fs u t' fs' h now :
  WriteStatus st (World d t fs) = (Ok u, World (h_state h) t' fs') -> is_Some (files (h_home h) !! configPath) ->
  cmdStatus (N := N) (D := D) (World h now []) = (Ok (status_lines now (with_updated t st)), World h now []) /\
  (stale now (with_updated t st) = true <-> 2 * Minute < time_Sub now t).
Proof using sjl.
  intros E [cfg Hcfg]. split; [|unfold stale; simpl; apply Z.ltb_lt].
  assert (exists raw, marshal_status (with_updated t st) = Some raw /\ files (h_state h) !! StatusPath = Some raw) as (raw & Hm & Hf).
  { unfold WriteStatus in E. apply bindM_Ok in E as (now' & w1 & Ec & E). unfold clock in Ec. injection Ec as <- <-. simpl in E.
    destruct (marshal_status _) as [raw|] eqn:Em; [|done]. exists raw. split; [done|].
    apply replace_atomic in E as [_ E]; [exact E | discriminate]. }
  unfold cmdStatus, loadConfig, bindM, attempt, on_home, on_state, ReadStatus, bindM. simpl.
  rewrite (ReadFile_found _ _ _ _ Hcfg). simpl. rewrite (ReadFile_found _ _ _ _ Hf), (status_roundtrip _ _ Hm).
  unfold ret, clock. simpl. by destruct h.
Qed.
End StatusHonest.
End Commands.

(** * A concrete host: docker with one image, a coordinator that answers *)
Module ToyVapn.
Export ToySeed.
#[export] Existing Instance Toy.toy_time.
Record toy_docker : Type := ToyDocker { td_tag : option string; td_latest : string; td_container : option string }.
#[export] Instance toy_docker_ops : Docker toy_docker := {|
  compose_pull _ d := (true, ToyDocker (Some (td_latest d)) (td_latest d) (td_container d));
  compose_up _ _ d := (true, ToyDocker (td_tag d) (td_latest d) (td_tag d));
  compose_stop _ d := (true, ToyDocker (td_tag d) (td_latest d) None);
  compose_start _ d := (true, ToyDocker (td_tag d) (td_latest d) (td_tag d));
  compose_down _ d := (true, ToyDocker None (td_latest d) None);
  docker_tag id _ d := (true, ToyDocker (Some id) (td_latest d) (td_container d));
  image_inspect _ d := td_tag d;
  running d := td_container d
|}.
#[export] Instance toy_docker_laws : DockerLaws toy_docker.
Proof. split; [by intros ???? [= <-]|done|done|done|by intros ?????? [= <-]]. Qed.
#[export] Instance toy_url : Client.URLText := {| Client.url_path s := Some s |}.
#[export] Instance toy_network : Client.Network unit := {| Client.round_trip _ _ n := (Some (Client.WireResponse 200 ""), n) |}.

Definition report (state : string) (at_ : Z) : Status := MkStatus "w1" state "1.0" "https://c" "v1" 5 1 2 None 0 0 at_.
Definition toy_x : surroundings :=
  Surroundings 1000 1000 "box" "" true true true (Some (2 ^ 20, 4096)) (fun _ => true) (fun _ => Some (401, Some 10)) false
    [None; Some (report "suspended" 20)] [Some (report "active" 30)].
Definition public_key : string := b64_encode (draw "bob").
Definition toy_config : string :=
  join newline ["# mine"; " VAPN_WORKER_NAME = my box "; "VAPN_WORKER_IMAGE=img"; "EXTRA=1"; "EMPTY="; "VAPN_ENROLLMENT_TOKEN=old"]%string.
Definition toy_files : gmap string string := {[ configPath := toy_config; composePath := compose_text "img" 1000 1000 ]}.
Definition toy_host (stdin : list string) : host unit toy_docker :=
  Host (Disk toy_files []) (Disk {[ idPath := ("w1" +:+ newline)%string ]} [draw "alice"; "0123456789abcdef"%string])
    (ToyDocker (Some "old"%string) "new" (Some "old"%string)) tt stdin.
Definition answers : list string := ["https://c"; ""; public_key]%string.
Definition toy_world (stdin : list string) : world (host unit toy_docker) := World (toy_host stdin) 10 [].
End ToyVapn.
Import ToyVapn.


Definition reconfigured := main toy_x Reconfigure (toy_world answers).
Lemma identity_preserved_witness : reconfigured.1 = Ok tt /\
  files (h_state (w_db reconfigured.2)) !! idPath = Some ("w1" +:+ newline)%string.
Proof.
  split; [by vm_compute|].
  assert (main toy_x Reconfigure (toy_world answers) = (reconfigured.1, reconfigured.2)) as E
    by (unfold reconfigured; by destruct (main toy_x Reconfigure (toy_world answers))).
  assert (Reconfigure <> Uninstall) as Hc by discriminate. assert (idPath <> probePath) as Hp by discriminate.
  exact (proj1 (identity_preserved toy_x Reconfigure (toy_world answers) reconfigured.1 reconfigured.2 Hc E idPath Hp) _ eq_refl).
Defined.

Lemma checked_before_change_witness : exists now c, passed toy_x now c = true.
Proof.
  destruct (checked_before_change toy_x Reconfigure (toy_world answers) reconfigured.1 reconfigured.2) as [[H _]|H];
    [by right|unfold reconfigured; by destruct (main toy_x Reconfigure (toy_world answers))| |exact H].
  exfalso. apply (f_equal (fun f => bool_decide (f !! configPath = Some toy_config))) in H. vm_compute in H. discriminate H.
Defined.

(** A coordinator URL that does not parse stops the doctor with a panic after
    it has reported the failed connection: nothing is written, but the command
    dies instead of reporting. *)
Definition bad_url : surroundings :=
  Surroundings 1000 1000 "box" "" true true true (Some (2 ^ 20, 4096)) (fun _ => false) (fun _ => None) false [] [].
Example doctor_panics : (main bad_url Reconfigure (toy_world answers)).1 = Err (EMsg "panic: nil pointer dereference").
Proof. vm_compute. reflexivity. Qed.

Lemma status_shows_report_witness :
  let h := Host (Disk toy_files []) (w_db (WriteStatus toy_status (World (Disk ∅ []) 5 [])).2)
             (ToyDocker None "new" None) tt [] in
  let dt := {| Config.ParseDuration := Config.Atoi; Config.DurationString := Config.Itoa |} in
  (cmdStatus (dt := dt) (World h 7 [])).1 = Ok (status_lines (dt := dt) 7 toy_status).
Proof.
  intros h dt.
  destruct (status_shows_report toy_status (Disk ∅ []) 5 [] tt 5 [] h 7) as [H _]; [vm_compute; reflexivity | eexists; reflexivity |].
  exact (f_equal fst H).
Defined.

Definition updated := cmdUpdate toy_x (toy_world []).
Lemma update_gated_witness : updated.1 = Ok tt /\ running (h_docker (w_db updated.2)) = Some "old"%string /\
  tag_of "img" (h_docker (w_db updated.2)) = "old"%string.
Proof.
  split; [by vm_compute|]. split; [by vm_compute|].
  assert (cmdUpdate toy_x (toy_world []) = (Ok tt, updated.2)) as E.
  { assert (updated.1 = Ok tt) as H1 by (by vm_compute). unfold updated in *. destruct (cmdUpdate toy_x (toy_world [])). by simpl in *; subst. }
  destruct (update_gated toy_x (toy_world []) updated.2 toy_config 1000 1000) as (_ & _ & [H|[H _]]);
    [reflexivity|reflexivity|exact E|vm_compute in H; discriminate H|exact H].
Defined.

Lemma token_forgotten_witness : exists raw,
  files (h_home (w_db reconfigured.2)) !! configPath = Some raw /\ get (parse_config raw) "VAPN_ENROLLMENT_TOKEN" = ""%string.
Proof.
  apply (token_forgotten toy_x Reconfigure (toy_world answers) reconfigured.2 (report "suspended" 20));
    [right; split; reflexivity|reflexivity|by repeat constructor|by vm_compute|by vm_compute|].
  assert (reconfigured.1 = Ok tt) as H1 by (by vm_compute). unfold reconfigured in *.
  destruct (main toy_x Reconfigure (toy_world answers)). by simpl in *; subst.
Defined.

Definition uninstalled := cmdUninstall toy_x (toy_world ["n"; "Yes"]%string).
Lemma uninstall_spec_witness : is_ok uninstalled.1 = false /\
  files (h_home (w_db uninstalled.2)) = toy_files.
Proof.
  destruct (uninstall_spec toy_x (toy_world ["n"; "Yes"]%string) uninstalled.1 uninstalled.2) as [_ H].
  - unfold uninstalled. by destruct (cmdUninstall _ _).
  - destruct (H "n"%string "Yes"%string [] eq_refl eq_refl eq_refl) as (H1 & H2 & _). split; [exact H1|exact H2].
Defined.

(** [vapn unregister] on a host that was never enrolled creates an identity
    key and then reports that the worker never registered. *)
Definition never_enrolled : world (host unit toy_docker) :=
  World (Host (Disk toy_files []) (Disk ∅ [draw "alice"]) (ToyDocker None "new" None) tt ["retire"%string]) 10 [].
Example unregister_creates_key :
  (main toy_x Unregister never_enrolled).1 = Err (EMsg "this worker never registered") /\
  files (h_state (w_db (main toy_x Unregister never_enrolled).2)) !! keyPath = Some (key_file alice).
Proof. split; vm_compute; reflexivity. Qed.

(** [mask] shows ten of the eleven characters of a secret that long. *)
Example mask_reveals : mask "abcdefghijk" = "abcde********ghijk"%string.
Proof. reflexivity. Qed.

(** The rewrite that drops the token is not atomic and its failure is ignored:
    a write that stops at once leaves an empty config.env behind a successful
    run. *)
Definition fault_at (n : nat) : list bool := replicate n false ++ [true].
Definition interrupted := main toy_x Reconfigure (World (toy_host answers) 10 (fault_at 816)).
Example config_lost_silently : interrupted.1 = Ok tt /\
  files (h_home (w_db interrupted.2)) !! configPath = Some ""%string.
Proof. split; vm_compute; reflexivity. Qed.
