(* ===== verification/Startup.v ===== *)
(** The processes around the components: waiting for the database
    ([internal/platform/db]), the shared HTTP scaffolding
    ([internal/platform/httpserver]), the download of the routing dump
    ([internal/builder/download.go]), the key generator ([cmd/keygen]) and the
    [main] functions of the services ([cmd/coordinator], [cmd/aggregator],
    [cmd/builder], [cmd/worker], [cmd/migrate], [cmd/mockadvisor]).

    A [main] is a function from the environment to what the process becomes:
    an exit code, a panic, or the configured service.  Times are nanoseconds.
    A killed process is one whose calls all fail from some point on, so the
    statements about arbitrary failures cover it. *)
From stdpp Require Import base gmap strings list.
From Stdlib Require Import ZArith QArith Lia Ascii String.
From S2P Require Import Prelude Codec Netip Schema Wireauth Artifact Leasing Server Consensus Rollup Advisor Routing Distribution Builder.
From S2P Require Import StateDir FSStore Website Agent.
From S2P Require Config Migrate.
Open Scope Z_scope.

(** * Waiting for the database *)
Section Wait.
(** [Connect]: an attempt that starts at an instant reaches the database or
    not, and takes a while.  When the timer and the deadline fire together,
    [select] picks one. *)
Variables (Connect : Z -> bool * Z) (timer_first : Z -> bool).

Definition retry_pause : Z := 2 * Second.

(** [None] is the loop still running; otherwise whether there is a pool, and
    when. *)
Fixpoint WaitAndConnect (fuel : nat) (deadline now : Z) : option (bool * Z) :=
  match fuel with
  | O => None
  | S fuel' =>
      let now' := now + (Connect now).2 in
      if (Connect now).1 then Some (true, now')
      else if deadline <=? now' then Some (false, now')
      else if (now' + retry_pause <? deadline) || ((now' + retry_pause =? deadline) && timer_first deadline)
      then WaitAndConnect fuel' deadline (now' + retry_pause)
      else Some (false, deadline)
  end.
(** The attempts a wait has room for. *)
Definition attempts (wait : Z) : nat := S (Z.to_nat (wait / retry_pause)).

Context (longest : Z) (Htook : forall t, 0 <= (Connect t).2 <= longest).

Lemma wait_ends fuel : forall deadline now, (Z.to_nat ((deadline - now) / retry_pause) < fuel)%nat ->
  exists ok t, WaitAndConnect fuel deadline now = Some (ok, t) /\ t <= Z.max now deadline + longest.
Proof using Htook.
  induction fuel as [|fuel IH]; intros deadline now Hf; [lia|]. simpl. specialize (Htook now) as Ht.
  destruct (Connect now).1; [eexists _, _; split; [done|lia]|].
  destruct (Z.leb_spec deadline (now + (Connect now).2)); [eexists _, _; split; [done|lia]|].
  case_match eqn:E; [|eexists _, _; split; [done|lia]].
  assert (now + (Connect now).2 + retry_pause <= deadline) as Hle.
  { apply orb_true_iff in E as [E|[E _]%andb_true_iff]; [apply Z.ltb_lt in E | apply Z.eqb_eq in E]; lia. }
  destruct (IH deadline (now + (Connect now).2 + retry_pause)) as (ok & t & -> & Hb).
  - assert ((deadline - (now + (Connect now).2 + retry_pause)) / retry_pause <= (deadline - now) / retry_pause - 1).
    { replace ((deadline - now) / retry_pause - 1) with ((deadline - now + (-1) * retry_pause) / retry_pause)
        by (rewrite Z_div_plus_full by done; lia). apply Z.div_le_mono; [done|lia]. }
    assert (0 <= (deadline - (now + (Connect now).2 + retry_pause)) / retry_pause) by (apply Z.div_pos; [lia|done]).
    lia.
  - eexists _, _. split; [done|]. unfold retry_pause, Second in *. lia.
Qed.

Lemma wait_connects up fuel : (forall t, up <= t -> (Connect t).1 = true) -> forall deadline now ok t,
  up + longest + retry_pause < deadline -> now < deadline ->
  WaitAndConnect fuel deadline now = Some (ok, t) ->
  ok = true /\ t <= Z.max now (up + longest + retry_pause) + longest.
Proof using Htook.
  intros Hup. induction fuel as [|fuel IH]; intros deadline now ok t Hd Hn; [done|]. simpl. specialize (Htook now) as Ht.
  destruct (Connect now).1 eqn:Ec; [intros [= <- <-]; split; [done|lia]|].
  assert (now < up) as Hlt. { destruct (Z.lt_ge_cases now up); [done|]. rewrite Hup in Ec by lia. done. }
  destruct (Z.leb_spec deadline (now + (Connect now).2)); [unfold retry_pause, Second in *; lia|].
  rewrite (proj2 (Z.ltb_lt _ _)) by lia. simpl. intros E. apply IH in E as [-> E]; [|lia|lia]. split; [done|]. lia.
Qed.

(** A service that starts before its database waits for it, and not for
    ever: the wait returns (the attempts that fit into it are enough), at most
    one attempt after its deadline; and when the database answers from some
    instant on that leaves room for one more attempt, the service gets its
    connection, at most a pause and two attempts after that instant. *)
Theorem database_wait start wait : 0 < wait ->
  (exists ok t, WaitAndConnect (attempts wait) (start + wait) start = Some (ok, t) /\ t <= start + wait + longest) /\
  forall up, (forall t, up <= t -> (Connect t).1 = true) -> up + longest + retry_pause < start + wait ->
    exists t, WaitAndConnect (attempts wait) (start + wait) start = Some (true, t) /\
      t <= Z.max start (up + longest + retry_pause) + longest.
Proof using Htook.
  intros Hw. destruct (wait_ends (attempts wait) (start + wait) start) as (ok & t & E & Hb).
  { unfold attempts. replace (start + wait - start) with wait by lia. lia. }
  split; [exists ok, t; split; [done|lia]|]. intros up Hup Hroom.
  apply (wait_connects up) in E as E'; [|done|lia|lia]. destruct E' as [-> Ht]. by exists t.
Qed.
End Wait.

(** * The HTTP scaffolding *)
(** A readiness check's answer, by name, in the order the map is walked. *)
Fixpoint readyz (checks : list (string * option string)) : Z * string :=
  match checks with
  | [] => (200, "ready"%string)
  | (_, None) :: checks' => readyz checks'
  | (name, Some e) :: _ => (503, (name +:+ ": " +:+ e)%string)
  end.
(** [AddReadyCheck]: a later check replaces one of the same name. *)
Definition AddReadyCheck {C} (name : string) (c : C) (checks : gmap string C) : gmap string C := <[name := c]> checks.

(** [SelfCheck]; [get] is the status a GET receives. *)
Definition SelfCheck (get : string -> option Z) (addr fallback : string) : Z :=
  let addr := if bool_decide (addr = ""%string) then fallback else addr in
  match get ("http://127.0.0.1" +:+ addr +:+ "/healthz")%string with
  | None => 1
  | Some st => if st =? 200 then 0 else 1
  end.

(** [logged]: the status the recorder holds after the handler's calls of
    [WriteHeader], and the request counter by route and code. *)
Definition recorded (calls : list Z) : Z := foldl (fun _ code => code) 200 calls.
Definition logged (pattern : string) (calls : list Z) (counters : gmap (string * Z) Z) : gmap (string * Z) Z :=
  let route := if bool_decide (pattern = ""%string) then "unmatched"%string else pattern in
  let key := (route, recorded calls) in
  <[key := default 0 (counters !! key) + 1]> counters.

(** Whichever order the checks are walked in, the service is ready exactly
    when all of them pass, and otherwise a failing one is named. *)
Lemma readyz_exact (checks : gmap string (option string)) l : l ≡ₚ map_to_list checks ->
  ((readyz l).1 = 200 <-> map_Forall (fun _ c => c = None) checks) /\
  ((readyz l).1 <> 200 -> (readyz l).1 = 503 /\
     exists name e, checks !! name = Some (Some e) /\ (readyz l).2 = (name +:+ ": " +:+ e)%string).
Proof.
  intros Hl.
  assert ((readyz l).1 = 200 <-> Forall (fun nc => nc.2 = None) l) as H200.
  { clear Hl. induction l as [|[n [e|]] l IH]; simpl; rewrite ?Forall_cons; [split; done | | rewrite IH; naive_solver].
    split; [done|]. by intros [? _]. }
  split.
  - rewrite H200, Hl, map_Forall_to_list. split; intros H; (eapply Forall_impl; [exact H|]); by intros [].
  - intros Hn. assert (exists name e, In (name, Some e) l /\ readyz l = (503, (name +:+ ": " +:+ e)%string)) as (n & e & Hin & E).
    { clear Hl H200. induction l as [|[n [e|]] l IH]; simpl in *; [done | eauto |].
      destruct (IH Hn) as (n' & e' & ? & ?). eauto. }
    rewrite E. split; [done|]. exists n, e. split; [|done].
    apply elem_of_map_to_list. rewrite <- Hl. by apply list_elem_of_In.
Qed.

(** * The routing dump *)
(** What a GET of the dump answers: nothing, or a status and a body that may
    break off. *)
Inductive reply : Type := NoReply | Reply (status : Z) (body : string) (complete : bool).

Section Bview.
(** Whether [http.NewRequest] takes the URL, the server, and what the file
    system holds besides contents: modification times, and the unused name
    [os.CreateTemp] picks. *)
Variables (valid_url : string -> bool) (fetch : string -> reply) (mtime : string -> Z) (tmp : string).

(** [os.Stat]: modification time and size. *)
Definition Stat (name : string) : DM (Z * Z) :=
  stmt (fun _ d => match files d !! name with
                   | Some c => Ok ((mtime name, Z.of_nat (String.length c)), d)
                   | None => Err ErrNotExist
                   end).
Definition fresh_file (now maxAge : Z) (st : result (Z * Z)) : bool :=
  match st with Ok (modified, size) => (time_Sub now modified <? maxAge) && (0 <? size) | Err _ => false end.

(** From the answer on; the temporary file is removed at the end in any
    case. *)
Definition save_body (path body : string) (complete : bool) : DM unit :=
  let! copied := attempt (do! Copy tmp body ;; if complete then ret tt else throw (EMsg "unexpected EOF")) in
  let! closed := attempt close_file in
  match copied, closed with
  | Err e, _ => throw e
  | Ok _, Err e => throw e
  | Ok _, Ok _ => Rename tmp path
  end.
Definition saved (path body : string) (complete : bool) : DM unit :=
  do! MkdirAll ;;
  do! Create tmp ;;
  let! r := attempt (save_body path body complete) in
  do! attempt (Remove tmp) ;;
  match r with Err e => throw e | Ok _ => ret tt end.
Definition EnsureBview (url path : string) (maxAge : Z) : DM unit :=
  if bool_decide (url = ""%string) then ret tt
  else
    let! st := attempt (Stat path) in
    let! now := clock in
    if fresh_file now maxAge st then ret tt
    else if negb (valid_url url) then throw (EMsg "invalid URL")
    else match fetch url with
         | NoReply => throw (EMsg "download bview")
         | Reply status body complete =>
             if negb (status =? 200) then throw (EMsg "download bview: status")
             else
               saved path body complete
         end.

Lemma save_body_run path body complete w r w' : tmp <> path -> files (w_db w) !! tmp = Some ""%string ->
  save_body path body complete w = (r, w') ->
  (forall nm, nm <> tmp -> nm <> path -> files (w_db w') !! nm = files (w_db w) !! nm) /\
  match r with
  | Ok _ => complete = true /\ files (w_db w') !! path = Some body /\ files (w_db w') !! tmp = None
  | Err _ => files (w_db w') !! path = files (w_db w) !! path
  end.
Proof.
  intros Hne Htmp E. unfold save_body in E.
  apply bind_cases in E as [(e & [? [? _]]%attempt_run & _)|(c & w1 & [? [[= <-] E1]]%attempt_run & E)]; [done|].
  apply bind_cases in E as [(e & [? [? _]]%attempt_run & _)|(cl & w2 & [? [[= <-] E2]]%attempt_run & E)]; [done|].
  assert (Respects (Touches (eq tmp)) (do! Copy tmp body ;; if complete then ret tt else throw (EMsg "unexpected EOF"))) as HT.
  { destruct complete; respects; eauto with vapn. }
  pose proof (HT _ _ _ E1) as [_ H1].
  assert (w_db w2 = w_db w1) as H2 by (destruct cl; [by apply exec_Ok in E2 as [? _]|by apply stmt_Err in E2 as [? _]]).
  assert (forall nm, nm <> tmp -> files (w_db w2) !! nm = files (w_db w) !! nm) as H3.
  { intros nm Hnm. rewrite H2. apply H1. congruence. }
  destruct c as [u|e]; [destruct cl as [u'|e]|]; [|unfold throw in E; simplify_eq; split; [auto | by apply H3]..].
  destruct r as [[]|e]; [|apply Rename_Err in E as E3; rewrite E3; split; [auto | by apply H3]].
  apply Rename_Ok in E as (content & Hc & Hf). rewrite Hf. split.
  { intros nm ??. by rewrite lookup_insert_ne, lookup_delete_ne, H3. }
  rewrite lookup_insert_eq, lookup_insert_ne, lookup_delete_eq by done. apply bindM_Ok in E1 as (? & w3 & E1 & E3).
  destruct complete; [|done]. injection E3 as _ <-. unfold Copy in E1. rewrite H2, (append_loop _ _ _ _ _ E1 ""%string) in Hc by done.
  injection Hc as <-. split_and!; [done | | done]. f_equal. apply string_of_list_ascii_of_string.
Qed.

Lemma Stat_run path w st w1 : Stat path w = (st, w1) ->
  w_db w1 = w_db w /\ w_now w1 = w_now w /\
  match st with
  | Ok (modified, size) => exists c, files (w_db w) !! path = Some c /\ modified = mtime path /\ size = Z.of_nat (String.length c)
  | Err _ => True
  end /\ (w_faults w = [] -> w_faults w1 = []).
Proof.
  destruct w as [d n fs]. unfold Stat, stmt. destruct fs as [|[] fs]; simpl;
    destruct (files d !! path) as [c|] eqn:Ec; intros E; simplify_eq; simpl; split_and!; eauto; done.
Qed.

(** A removal leaves no file, unless the call itself fails. *)
Lemma Remove_gone name w r w' : Remove name w = (r, w') -> files (w_db w) !! name = None \/ w_faults w = [] ->
  files (w_db w') !! name = None.
Proof.
  destruct w as [d n fs]. unfold Remove, stmt. destruct fs as [|[] fs]; simpl;
    destruct (files d !! name) as [c|] eqn:Ec; intros E [?|?]; simplify_eq; simpl; rewrite ?lookup_delete_eq; done.
Qed.
Lemma save_body_calm path body complete : Calm (save_body path body complete).
Proof.
  unfold save_body, Copy, append_byte, close_file, Rename, exec. calm_with fail.
Qed.

Lemma saved_run path body complete w r w' : saved path body complete w = (r, w') -> tmp <> path -> files (w_db w) !! tmp = None ->
  (forall nm, nm <> tmp -> nm <> path -> files (w_db w') !! nm = files (w_db w) !! nm) /\
  (is_ok r = false /\ files (w_db w') !! path = files (w_db w) !! path \/
   is_ok r = true /\ complete = true /\ files (w_db w') !! path = Some body) /\
  (w_faults w = [] -> files (w_db w') !! tmp = None).
Proof.
  intros E Hne Hnone. unfold saved in E.
  apply bind_cases in E as [(e & [Ed _]%stmt_Err & ->)|(? & w1 & E1 & E)]; [by rewrite Ed; auto|].
  pose proof E1 as [Ed1 _]%exec_Ok.
  apply bind_cases in E as [(e & [Ed _]%stmt_Err & ->)|(? & w2 & E2 & E)]; [by rewrite Ed, Ed1; auto|].
  pose proof E2 as [Ed2 _]%exec_Ok.
  apply bind_cases in E as [(e & [? [? _]]%attempt_run & _)|(rs & w3 & [? [[= <-] E3]]%attempt_run & E)]; [done|].
  apply bind_cases in E as [(e & [? [? _]]%attempt_run & _)|(rm & w4 & [? [[= <-] E4]]%attempt_run & E)]; [done|].
  destruct (save_body_run path body complete w2 rs w3 Hne) as [H1 H2]; [by rewrite Ed2; simpl; rewrite lookup_insert_eq|done|].
  assert (w4 = w' /\ is_ok rs = is_ok r) as [-> Hr] by (destruct rs; unfold ret, throw in E; by simplify_eq).
  assert (forall nm, nm <> tmp -> files (w_db w') !! nm = files (w_db w3) !! nm) as H4.
  { intros nm Hnm. apply (touches_Remove (eq tmp) tmp eq_refl) in E4 as [_ H4]. apply H4. congruence. }
  assert (forall nm, nm <> tmp -> files (w_db w2) !! nm = files (w_db w) !! nm) as H5.
  { intros nm Hnm. rewrite Ed2. simpl. by rewrite lookup_insert_ne, Ed1. }
  split; [intros nm ??; by rewrite H4, H1, H5|]. split.
  - rewrite H4, <- Hr by done. destruct rs as [[]|e]; [right; naive_solver | left; split; [done|]]. by rewrite H2, H5.
  - intros Hf. eapply Remove_gone; [exact E4|]. right. eapply save_body_calm; [exact E3|].
    eapply calm_stmt; [exact E2|]. by eapply calm_stmt; [exact E1|].
Qed.

(** C21: Refreshing the routing dump is all or nothing, whatever fails and
    wherever the process is killed: the file a build reads is either as it was
    before or the complete body of an answer 200, never a part of one, and no
    other file is touched.  A refresh that reports success without touching
    the file found one that is not empty and younger than the limit, or was
    asked not to download; one that reports an error has not touched it.  When
    no file call fails, no temporary file is left behind. *)
Theorem bview_all_or_nothing url path maxAge w r w' :
  EnsureBview url path maxAge w = (r, w') -> tmp <> path -> files (w_db w) !! tmp = None ->
  (forall nm, nm <> tmp -> nm <> path -> files (w_db w') !! nm = files (w_db w) !! nm) /\
  (files (w_db w') !! path = files (w_db w) !! path /\
     (is_ok r = true -> url = ""%string \/ exists c, files (w_db w) !! path = Some c /\ c <> ""%string /\ time_Sub (w_now w) (mtime path) < maxAge) \/
   is_ok r = true /\ exists body, fetch url = Reply 200 body true /\ files (w_db w') !! path = Some body) /\
  (w_faults w = [] -> files (w_db w') !! tmp = None).
Proof.
  intros E Hne Hnone. unfold EnsureBview in E. case_bool_decide as Hu; [unfold ret in E; simplify_eq; auto 10|].
  apply bind_cases in E as [(e & [? [? _]]%attempt_run & _)|(st & w1 & [? [[= <-] E1]]%attempt_run & E)]; [done|].
  apply bind_cases in E as [(e & E2 & _)|(now & w2 & E2 & E)]; [by unfold clock in E2|].
  assert (w2 = w1 /\ now = w_now w1) as [-> ->] by (unfold clock in E2; by simplify_eq). clear E2.
  destruct (Stat_run _ _ _ _ E1) as (Hd & Hn & Hst & Hfs).
  destruct (fresh_file (w_now w1) maxAge st) eqn:Ef.
  { unfold ret in E. simplify_eq. rewrite Hd. split; [done|]. split; [|done]. left. split; [done|]. intros _. right.
    destruct st as [[modified size]|e]; [|done]. destruct Hst as (c & Hc & -> & ->). simpl in Ef.
    apply andb_true_iff in Ef as [Ef1 Ef2]. exists c. split; [done|]. rewrite Hn in Ef1. btrue. split; [|lia]. by intros ->. }
  destruct (valid_url url); [|unfold throw in E; simpl in E; simplify_eq; by rewrite Hd; intuition done].
  simpl in E. destruct (fetch url) as [|status body complete] eqn:Eb; [unfold throw in E; simplify_eq; by rewrite Hd; intuition done|].
  destruct (Z.eqb_spec status 200) as [->|]; [|unfold throw in E; simpl in E; simplify_eq; by rewrite Hd; intuition done].
  simpl in E. rewrite <- Hd, <- Hn in *. destruct (saved_run _ _ _ _ _ _ E Hne Hnone) as (H1 & H2 & H3).
  split; [done|]. split; [|auto].
  destruct H2 as [[-> ?]|(? & -> & ?)]; [by left; split | right; eauto].
Qed.
End Bview.

(** * The snapshot signing key *)
Section Keys.
Context {cr : Crypto} {sc : SeedCrypto} {mj : ManifestJSON}.

Definition ParseSigningKey (b64seed : string) : result PrivateKey :=
  match b64_decode b64seed with
  | None => Err (EMsg "signing key is not valid base64")
  | Some seed =>
      if negb (Nat.eqb (String.length seed) SeedSize) then Err (EMsg "signing key seed must be 32 bytes")
      else Ok (NewKeyFromSeed seed)
  end.

(** [cmd/keygen]: the two lines it prints. *)
Definition keygen : DM (list string) :=
  let! priv := GenerateKey in
  ret ["VAPN_SNAPSHOT_SIGNING_KEY=" +:+ b64_encode (Seed priv);
       "VAPN_SNAPSHOT_PUBLIC_KEY=" +:+ b64_encode (Public priv)]%string.

(** The environment that lines of the form NAME=value give a process. *)
Definition env_of (lines : list string) (name : string) : option string :=
  snd <$> List.find (fun kv => bool_decide (kv.1 = name)) (omap (cut "="%char) lines).

Context {crl : CryptoLaws} {sl : SeedLaws}.

Lemma keygen_lines w lines w' : keygen w = (Ok lines, w') ->
  exists priv, env_of lines "VAPN_SNAPSHOT_SIGNING_KEY" = Some (b64_encode (Seed priv)) /\
    env_of lines "VAPN_SNAPSHOT_PUBLIC_KEY" = Some (b64_encode (Public priv)).
Proof. unfold keygen. intros (priv & w1 & _ & E)%bindM_Ok. exists priv. injection E as <- <-. done. Qed.

(** The keys the generator prints fit together: put into the builder's
    and the workers' environments, both parse, and every manifest the builder
    signs with its half passes the check the workers make with theirs. *)
Theorem generated_keys_fit w lines w' : keygen w = (Ok lines, w') ->
  exists seed pub key, env_of lines "VAPN_SNAPSHOT_SIGNING_KEY" = Some seed /\
    env_of lines "VAPN_SNAPSHOT_PUBLIC_KEY" = Some pub /\
    ParseSigningKey seed = Ok key /\ ParsePublicKey pub = Ok (Public key) /\ PublicKeyBase64 key = pub /\
    forall m m', Artifact.Sign m key = Ok m' -> Artifact.Verify m' (Public key) = Ok tt.
Proof using crl sl.
  intros (priv & E1 & E2)%keygen_lines. exists (b64_encode (Seed priv)), (b64_encode (Public priv)), priv.
  split_and!; [done | done | | | done | intros m m' Hm; by apply (Sign_Verify m priv)].
  - unfold ParseSigningKey. by rewrite b64_roundtrip, seed_size, key_of_seed.
  - unfold ParsePublicKey. by rewrite b64_roundtrip, public_size.
Qed.
End Keys.

(** * The services *)
(** What a [main] becomes. *)
Inductive ending (A : Type) : Type :=
| Exit (code : Z) (why : string)
| Panic (why : string)
| Running (a : A).
Arguments Exit {A} code why.
Arguments Panic {A} why.
Arguments Running {A} a.

Section Services.
Import Config.
Context {dt : DurationText} (Quote : string -> string) (LookupEnv : string -> option string).
(** The database by its DSN, the start of the process, the S3 client
    library's judgement of a configuration, the GeoIP files, the port, and
    what a GET of the process's own health page answers. *)
Variables (Connect : string -> Z -> bool * Z) (timer_first : Z -> bool) (start : Z).
Variables (new_s3 : S3Config -> bool) (open_asn : string -> option (addr -> option Z)) (listens : string -> bool)
  (get_self : string -> option Z).

#[local] Abbreviation String_ := (Config.String_ LookupEnv).
#[local] Abbreviation Require_ := (Config.Require_ LookupEnv).
#[local] Abbreviation Int_ := (Config.Int_ Quote LookupEnv).
#[local] Abbreviation Bool_ := (Config.Bool_ Quote LookupEnv).
#[local] Abbreviation Duration := (Config.Duration Quote LookupEnv).
#[local] Abbreviation StoreFromConfig := (Config.StoreFromConfig Quote LookupEnv).

Definition Getenv (name : string) : string := default ""%string (LookupEnv name).
Definition is_healthcheck (args : list string) : bool :=
  match args with a :: _ => bool_decide (a = "-healthcheck"%string) | [] => false end.

(** Whether the wait for the database ends with a pool. *)
Definition connected (dsn : string) (wait : Z) : bool :=
  match WaitAndConnect (Connect dsn) timer_first (attempts wait) (start + wait) start with
  | Some (ok, _) => ok
  | None => false
  end.
Definition store_error (c : StoreChoice) : bool :=
  match c with Exclusive => true | S3Store s3 => negb (new_s3 s3) | _ => false end.
Definition no_store (c : StoreChoice) : bool := match c with NoStore => true | _ => false end.

(** ** The coordinator *)
Record coordinator_settings : Type := MkCoordinatorSettings {
  c_addr : string; c_dsn : string; c_dbWait : Z; c_adminToken : string; c_devToken : string; c_schedInterval : Z;
  c_redundancy : Z; c_maxPerWorker : Z; c_asnMMDB : string; c_advisorURL : string; c_advisorToken : string;
  c_syncInterval : Z; c_store : StoreChoice
}.
Definition coordinator_config (s : Source) : coordinator_settings * Source :=
  let (addr, s) := String_ "HTTP_ADDR" ":8080" s in
  let (dsn, s) := Require_ "DB_DSN" s in
  let (dbWait, s) := Duration "DB_WAIT" (60 * Second) s in
  let (adminToken, s) := Require_ "ADMIN_TOKEN" s in
  let (devToken, s) := String_ "DEV_ENROLLMENT_TOKEN" "" s in
  let (schedInterval, s) := Duration "SCHEDULER_INTERVAL" (30 * Second) s in
  let (redundancy, s) := Int_ "REDUNDANCY" 3 s in
  let (maxPerWorker, s) := Int_ "MAX_ASSIGNMENTS_PER_WORKER" 64 s in
  let (asnMMDB, s) := String_ "GEOIP_ASN_MMDB" "" s in
  let (advisorURL, s) := String_ "ADVISOR_URL" "" s in
  let (advisorToken, s) := String_ "ADVISOR_TOKEN" "" s in
  let (syncInterval, s) := Duration "ADVISOR_SYNC_INTERVAL" (2 * Minute) s in
  let (store, s) := StoreFromConfig s in
  (MkCoordinatorSettings addr dsn dbWait adminToken devToken schedInterval redundancy maxPerWorker asnMMDB advisorURL
     advisorToken syncInterval store, s).

(** The running coordinator: the API's configuration, the scheduler's with its
    interval, and the site to synchronize with (address, credential,
    interval). *)
Record coordinator : Type := MkCoordinator {
  co_api : Server.Config; co_scheduler : SchedConfig; co_schedInterval : Z; co_advisor : option (string * string * Z)
}.
Definition coordinator_main (args : list string) : ending coordinator :=
  if is_healthcheck args then Exit (SelfCheck get_self (Getenv "VAPN_HTTP_ADDR") ":8080") "healthcheck"
  else
    let (c, s) := coordinator_config Config.New in
    match Err_ s with
    | Some _ => Exit 1 "bad configuration"
    | None =>
        if negb (connected (c_dsn c) (c_dbWait c)) then Exit 1 "database unavailable"
        else if store_error (c_store c) then Exit 1 "artifact store misconfigured"
        else if no_store (c_store c) then Exit 1 "artifact store required"
        else
          let resolver := if bool_decide (c_asnMMDB c = ""%string) then Some None else Some <$> open_asn (c_asnMMDB c) in
          match resolver with
          | None => Exit 1 "GeoLite2-ASN database unusable"
          | Some resolve =>
              let advisor := if bool_decide (c_advisorURL c = ""%string) then None
                             else Some (Website.New (c_advisorURL c), c_advisorToken c, c_syncInterval c) in
              (* [time.NewTicker] panics on an interval that is not positive. *)
              if match advisor with Some (_, _, i) => i <=? 0 | None => false end then Panic "advisor sync interval"
              else if c_schedInterval c <=? 0 then Panic "scheduler interval"
              else if negb (listens (c_addr c)) then Exit 1 "server error"
              else Running (MkCoordinator
                     (Server.MkConfig (c_adminToken c) true (c_devToken c) 0 0 resolve (c_maxPerWorker c))
                     (MkSchedConfig (c_redundancy c) 0 0 0 0) (c_schedInterval c) advisor)
          end
    end.

(** ** The aggregator *)
Record aggregator_settings : Type := MkAggregatorSettings {
  g_addr : string; g_dsn : string; g_dbWait : Z; g_trustInterval : Z; g_window : Z; g_minWorkers : Z; g_targetWindow : Z;
  g_advisorURL : string; g_advisorToken : string
}.
Definition aggregator_config (s : Source) : aggregator_settings * Source :=
  let (addr, s) := String_ "HTTP_ADDR" ":8082" s in
  let (dsn, s) := Require_ "DB_DSN" s in
  let (dbWait, s) := Duration "DB_WAIT" (60 * Second) s in
  let (trustInterval, s) := Duration "TRUST_INTERVAL" Minute s in
  let (window, s) := Int_ "WINDOW_SECONDS" 300 s in
  let (minWorkers, s) := Int_ "MIN_WORKERS" 3 s in
  let (targetWindow, s) := Duration "TARGET_HEALTH_WINDOW" (24 * Hour) s in
  let (advisorURL, s) := String_ "ADVISOR_URL" "" s in
  let (advisorToken, s) := String_ "ADVISOR_TOKEN" "" s in
  (MkAggregatorSettings addr dsn dbWait trustInterval window minWorkers targetWindow advisorURL advisorToken, s).

Record aggregator : Type := MkAggregator {
  ag_trustInterval : Z; ag_engine : AggConfig; ag_publisher : option (string * string)
}.
Definition aggregator_main (args : list string) : ending aggregator :=
  if is_healthcheck args then Exit (SelfCheck get_self (Getenv "VAPN_HTTP_ADDR") ":8082") "healthcheck"
  else
    let (c, s) := aggregator_config Config.New in
    match Err_ s with
    | Some _ => Exit 1 "bad configuration"
    | None =>
        if negb (connected (g_dsn c) (g_dbWait c)) then Exit 1 "database unavailable"
        else if g_trustInterval c <=? 0 then Panic "trust interval"
        else
          let engine := MkAggConfig (g_window c) (g_minWorkers c) 0 0 0 (g_targetWindow c) 0 0 in
          if window_duration engine <=? 0 then Panic "window"
          else if negb (listens (g_addr c)) then Exit 1 "server error"
          else Running (MkAggregator (g_trustInterval c) engine
                 (if bool_decide (g_advisorURL c = ""%string) then None
                  else Some (Website.New (g_advisorURL c), g_advisorToken c)))
    end.

(** ** The worker *)
Record worker_settings : Type := MkWorkerSettings {
  w_agent : string -> AgentConfig; w_stateDir : string; w_heartbeat : Z; w_publicKey : string
}.
Definition worker_config (s : Source) : worker_settings * Source :=
  let (coordinatorURL, s) := Require_ "COORDINATOR_URL" s in
  let (enrollmentToken, s) := String_ "ENROLLMENT_TOKEN" "" s in
  let (name, s) := String_ "WORKER_NAME" "" s in
  let (stateDir, s) := String_ "STATE_DIR" "/state" s in
  let (heartbeat, s) := Duration "HEARTBEAT_INTERVAL" (30 * Second) s in
  let (publicKey, s) := Require_ "SNAPSHOT_PUBLIC_KEY" s in
  (MkWorkerSettings (MkAgentConfig coordinatorURL enrollmentToken name) stateDir heartbeat publicKey, s).

(** The agent that [doctor] diagnoses or [Run] drives. *)
Inductive worker_mode : Type := Diagnose | Drive (heartbeat : Z).
Record worker_process {cr : Crypto} : Type := MkWorkerProcess {
  wp_config : AgentConfig; wp_client : Client.Client; wp_mode : worker_mode
}.
Definition worker_main {cr : Crypto} {sc : SeedCrypto} (args : list string) (w : world disk)
    : ending worker_process * world disk :=
  let (c, s) := worker_config Config.New in
  match Err_ s with
  | Some _ => (Exit 1 "bad configuration", w)
  | None =>
      match ParsePublicKey (w_publicKey c) with
      | Err _ => (Exit 1 "bad snapshot public key", w)
      | Ok pub =>
          let acfg := w_agent c pub in
          match NewAgent acfg w with
          | (Err _, w') => (Exit 1 "agent init failed", w')
          | (Ok client, w') =>
              if match args with a :: _ => bool_decide (a = "doctor"%string) | [] => false end
              then (Running (MkWorkerProcess _ acfg client Diagnose), w')
              else
                let interval := if w_heartbeat c =? 0 then 30 * Second else w_heartbeat c in
                (if interval <? 0 then Panic "heartbeat interval"
                 else Running (MkWorkerProcess _ acfg client (Drive interval)), w')
          end
      end
  end.

(** ** The migration command *)
Definition migrate_main {S} (run_sql : string -> S -> result S) (read_dir : string -> gmap string string)
    (w : world (Migrate.catalog S)) : Z * world (Migrate.catalog S) :=
  let (dsn, s) := Require_ "DB_DSN" Config.New in
  let (dir, s) := String_ "MIGRATIONS_DIR" "migrations" s in
  let (wait, s) := Duration "DB_WAIT" (60 * Second) s in
  match Err_ s with
  | Some _ => (1, w)
  | None =>
      if negb (connected dsn wait) then (1, w)
      else let (r, w') := Migrate.Apply run_sql (read_dir dir) w in (if is_ok r then 0 else 1, w')
  end.

(** ** The builder *)
Record builder_settings : Type := MkBuilderSettings {
  b_dsn : string; b_advisorURL : string; b_advisorToken : string; b_dbWait : Z; b_bviewURL : string; b_bviewMaxAge : Z;
  b_bviewPath : string; b_cityMMDB : string; b_cfg : BuilderConfig; b_store : StoreChoice; b_signingKey : string;
  b_minWorkerVersion : string
}.
Definition builder_config (s : Source) : builder_settings * Source :=
  let (dsn, s) := Require_ "DB_DSN" s in
  let (advisorURL, s) := String_ "ADVISOR_URL" "http://localhost:8081" s in
  let (advisorToken, s) := Require_ "ADVISOR_TOKEN" s in
  let (dbWait, s) := Duration "DB_WAIT" (60 * Second) s in
  let (bviewURL, s) := String_ "RIS_BVIEW_URL" "" s in
  let (bviewMaxAge, s) := Duration "RIS_BVIEW_MAX_AGE" (6 * Hour) s in
  let (bviewPath, s) := String_ "RIS_BVIEW_PATH" "data/ripe/latest-bview.gz" s in
  let (cityMMDB, s) := String_ "GEOIP_CITY_MMDB" "" s in
  let (perProvider, s) := Int_ "MAX_TARGETS_PER_PROVIDER" 100 s in
  let (perCountry, s) := Int_ "MAX_TARGETS_PER_COUNTRY" 10 s in
  let (maxDelta, s) := Int_ "SANITY_MAX_DELTA_PCT" 50 s in
  let (force, s) := Bool_ "SANITY_FORCE" false s in
  let (retain, s) := Int_ "RETAIN_SNAPSHOTS" 5 s in
  let (store, s) := StoreFromConfig s in
  let (signingKey, s) := String_ "SNAPSHOT_SIGNING_KEY" "" s in
  let (minWorkerVersion, s) := String_ "MIN_WORKER_VERSION" "0.1.0" s in
  (MkBuilderSettings dsn advisorURL advisorToken dbWait bviewURL bviewMaxAge bviewPath cityMMDB
     (MkBuilderConfig perProvider perCountry (inject_Z maxDelta / 100)%Q force retain) store signingKey minWorkerVersion, s).

Section BuilderMain.
Context {cr : Crypto} {sc : SeedCrypto} {mj : ManifestJSON} {sf : SQLiteFormat} {mo : MapOrder} {tm : TimeText} {nt : NanoText}.
(** Where the dump comes from (see [EnsureBview]), the site at a base URL, the
    MRT library's reading of a file, the GeoIP file, and the version text. *)
Variables (valid_url : string -> bool) (fetch : string -> reply) (mtime : string -> Z) (tmp : string).
Variables (site : string -> areq -> option aresp) (read_dump : option string -> result (list mrt_message * option error))
  (open_city : string -> result GeoSource) (versionOf : Z -> Z -> string).

(** The publisher of a store: the signing key, when there is a store. *)
Definition publisher_key (c : builder_settings) : result (option PrivateKey) :=
  if no_store (b_store c) then Ok None
  else match ParseSigningKey (b_signingKey c) with Ok key => Ok (Some key) | Err e => Err e end.
Definition city_source (c : builder_settings) : result (option GeoSource) :=
  if bool_decide (b_cityMMDB c = ""%string) then Ok None
  else match open_city (b_cityMMDB c) with Ok g => Ok (Some g) | Err e => Err e end.
(** The build itself; a publisher that is not there is not asked for its
    key. *)
Definition build (c : builder_settings) (key : option PrivateKey) (d : disk) : SM unit :=
  Run versionOf (b_cfg c) (default (NewKeyFromSeed "") key) (b_minWorkerVersion c) (is_some key)
    (ListProviders (site (Website.New (b_advisorURL c))) (b_advisorToken c) true)
    (read_dump (files d !! b_bviewPath c)) (city_source c).

(** The exit code, the disk and the system afterwards. *)
Definition builder_main (wd : world disk) (ws : sysworld) : Z * world disk * sysworld :=
  let (c, s) := builder_config Config.New in
  match Err_ s with
  | Some _ => (1, wd, ws)
  | None =>
      if negb (connected (b_dsn c) (b_dbWait c)) then (1, wd, ws)
      else if store_error (b_store c) then (1, wd, ws)
      else match publisher_key c with
           | Err _ => (1, wd, ws)
           | Ok key =>
               match EnsureBview valid_url fetch mtime tmp (b_bviewURL c) (b_bviewPath c) (b_bviewMaxAge c) wd with
               | (Err _, wd') => (1, wd', ws)
               | (Ok _, wd') =>
                   match build c key (w_db wd') ws with
                   | (Ok _, ws') => (0, wd', ws')
                   | (Err e, ws') => (if bool_decide (e = ErrSanityGate) then 2 else 1, wd', ws')
                   end
               end
           end
  end.

#[local] Ltac early_exit E := simpl in E; simplify_eq; right; right; split; [done|]; left; split.

(** C17: The builder's exit code tells the truth.  Code 0: a newly built
    snapshot that passed the gate is the one published, and with an artifact
    store its manifest and file are there, signed with the configured key, and
    the pointer names it.  Code 2: the published snapshot and the pointer are
    untouched.  Every other end has code 1, and then either nothing visible to
    workers changed or exactly the new snapshot is published. *)
Theorem builder_exit_code wd ws code wd' ws' : builder_main wd ws = (code, wd', ws') -> numbered (sys_db (w_db ws)) ->
  let c := (builder_config Config.New).1 in
  let untouched := published (w_db ws') = published (w_db ws) /\ pointer (w_db ws') = pointer (w_db ws) in
  let releases ok := exists key asns rows stats id version, publisher_key c = Ok key /\
    extract (dom asns) asns (read_dump (files (w_db wd') !! b_bviewPath c)) = Ok (rows, stats) /\
    gate_passes (b_cfg c) (total_prefixes <$> newest_published (sys_db (w_db ws))) (Z.of_nat (List.length rows)) /\
    (forall s, In s (db_snapshot (sys_db (w_db ws))) -> sn_version s <> version) /\
    Released (default (NewKeyFromSeed "") key) (is_some key) id version (w_db ws) ok (w_db ws') in
  code = 0 /\ releases true \/ code = 2 /\ untouched \/ code = 1 /\ (untouched \/ releases false).
Proof.
  intros E Hnum c untouched releases. unfold builder_main in E. destruct (builder_config _) as [c0 s] eqn:Ec.
  assert (c = c0) as Hc by done. rewrite <- Hc in *. clearbody c. clear Ec Hc c0.
  destruct (Err_ s); [by early_exit E|].
  destruct (connected _ _); [|by early_exit E]. simpl in E.
  destruct (store_error _); [by early_exit E|].
  destruct (publisher_key c) as [key|] eqn:Ek; [|by early_exit E].
  destruct (EnsureBview _ _ _ _ _ _ _ wd) as [[u|e] wd1]; [|by early_exit E].
  destruct (build c key (w_db wd1) ws) as [r ws1] eqn:Eb. pose proof Eb as Eb'. unfold build in Eb.
  apply Run_to_release in Eb as [[Hr Hh]|(asns & rows & stats & id & version & w2 & Hx & Hg & Hf & Hrow & Hh & H)]; [| |done].
  - destruct r as [|e]; [done|]. case_bool_decide; simplify_eq; [right; left; done | right; right; split; [done | by left]].
  - pose proof H as Hrel. apply release_safe in Hrel as [[Hr Hh2]|Hrel]; [| |done].
    + destruct r as [|e]; [done|]. assert (Held 0 (w_db ws) (w_db ws1)) as H3 by (by eapply at_trans).
      case_bool_decide; simplify_eq; [right; left; done | right; right; split; [done | by left]].
    + pose proof (released_since _ _ _ _ _ _ _ _ Hh Hrel) as Hsince. clear Hrel. destruct r as [[]|e]; simplify_eq.
      * left. split; [done|]. by exists key, asns, rows, stats, id, version.
      * right. right. apply release_throws in H. rewrite (bool_decide_false _ H). split; [done|]. right. by exists key, asns, rows, stats, id, version.
Qed.
End BuilderMain.

(** ** What starts *)
(** A variable's value, or its default. *)
Definition var (key def : string) : string := default def (LookupEnv (prefix +:+ key)).
Definition var_as {A} (parse : string -> option A) (key : string) (def : A) : A :=
  match LookupEnv (prefix +:+ key) with Some v => default def (parse v) | None => def end.
Definition is_set (key : string) : bool := negb (bool_decide (var key "" = ""%string)).

Context {dl : DurationLaws}.
#[local] Abbreviation after := (run_request Quote LookupEnv).
Lemma String_eq key def s : String_ key def s = (var key def, after s (QString key def)).
Proof. done. Qed.
Lemma Require_eq key s : Require_ key s = (var key "", after s (QRequire key)).
Proof. unfold run_request, Config.Require_, lookup_key, var. by case_bool_decide. Qed.
Lemma parsed_eq {A} (parse : string -> option A) print what key def s : parse (print def) = Some def ->
  parsed Quote LookupEnv parse print what key def s = (var_as parse key def, (parsed Quote LookupEnv parse print what key def s).2).
Proof.
  intros Hd. unfold parsed, lookup_key, var_as. destruct (LookupEnv _) as [v|]; simpl; [by destruct (parse v)|]. by rewrite Hd.
Qed.
Lemma Int_eq key def s : in_int64 def = true -> Int_ key def s = (var_as Atoi key def, after s (QInt key def)).
Proof. intros H. by apply parsed_eq, Atoi_Itoa. Qed.
Lemma Bool_eq key def s : Bool_ key def s = (var_as ParseBool key def, after s (QBool key def)).
Proof. by apply parsed_eq, ParseBool_FormatBool. Qed.
Lemma Duration_eq key def s : in_int64 def = true -> Duration key def s = (var_as ParseDuration key def, after s (QDuration key def)).
Proof using dl. intros H. by apply parsed_eq, duration_roundtrip. Qed.

Definition store_requests : list Config.request :=
  [QString "ARTIFACT_S3_ENDPOINT" ""; QString "ARTIFACT_DIR" ""; QString "ARTIFACT_S3_ACCESS_KEY" "";
   QString "ARTIFACT_S3_SECRET_KEY" ""; QString "ARTIFACT_S3_BUCKET" "vapn-artifacts"; QString "ARTIFACT_S3_REGION" "";
   QBool "ARTIFACT_S3_USE_SSL" true].
Definition coordinator_requests : list Config.request :=
  [QString "HTTP_ADDR" ":8080"; QRequire "DB_DSN"; QDuration "DB_WAIT" (60 * Second); QRequire "ADMIN_TOKEN";
   QString "DEV_ENROLLMENT_TOKEN" ""; QDuration "SCHEDULER_INTERVAL" (30 * Second); QInt "REDUNDANCY" 3;
   QInt "MAX_ASSIGNMENTS_PER_WORKER" 64; QString "GEOIP_ASN_MMDB" ""; QString "ADVISOR_URL" ""; QString "ADVISOR_TOKEN" "";
   QDuration "ADVISOR_SYNC_INTERVAL" (2 * Minute)] ++ store_requests.
Definition configured_s3 : S3Config :=
  MkS3Config (var "ARTIFACT_S3_ENDPOINT" "") (var "ARTIFACT_S3_ACCESS_KEY" "") (var "ARTIFACT_S3_SECRET_KEY" "")
    (var "ARTIFACT_S3_BUCKET" "vapn-artifacts") (var "ARTIFACT_S3_REGION" "") (var_as ParseBool "ARTIFACT_S3_USE_SSL" true).
Definition configured_store : StoreChoice :=
  if is_set "ARTIFACT_S3_ENDPOINT" then (if is_set "ARTIFACT_DIR" then Exclusive else S3Store configured_s3)
  else if is_set "ARTIFACT_DIR" then DirStore (var "ARTIFACT_DIR" "") else NoStore.
(** Exactly one store, and a usable one. *)
Definition one_store : bool := xorb (is_set "ARTIFACT_S3_ENDPOINT") (is_set "ARTIFACT_DIR") &&
  (negb (is_set "ARTIFACT_S3_ENDPOINT") || new_s3 configured_s3).

Ltac read_config := repeat first
  [ rewrite String_eq | rewrite Require_eq | rewrite Int_eq by done | rewrite Bool_eq | rewrite Duration_eq by done ].
Lemma StoreFromConfig_spec s : StoreFromConfig s = (configured_store, foldl after s store_requests).
Proof.
  unfold Config.StoreFromConfig. read_config. unfold configured_store, is_set. f_equal.
  by repeat case_bool_decide.
Qed.

Lemma coordinator_config_spec :
  coordinator_config Config.New =
  (MkCoordinatorSettings (var "HTTP_ADDR" ":8080") (var "DB_DSN" "") (var_as ParseDuration "DB_WAIT" (60 * Second))
     (var "ADMIN_TOKEN" "") (var "DEV_ENROLLMENT_TOKEN" "") (var_as ParseDuration "SCHEDULER_INTERVAL" (30 * Second))
     (var_as Atoi "REDUNDANCY" 3) (var_as Atoi "MAX_ASSIGNMENTS_PER_WORKER" 64) (var "GEOIP_ASN_MMDB" "")
     (var "ADVISOR_URL" "") (var "ADVISOR_TOKEN" "") (var_as ParseDuration "ADVISOR_SYNC_INTERVAL" (2 * Minute)) configured_store,
   foldl after Config.New coordinator_requests).
Proof using dl. unfold coordinator_config. read_config. rewrite StoreFromConfig_spec. done. Qed.

(** Every lookup is acceptable, exactly when there is no configuration
    error. *)
Lemma config_ok qs : Forall representable qs ->
  Err_ (foldl after Config.New qs) = None <-> forallb (acceptable LookupEnv) qs = true.
Proof using dl. intros H. apply (config_errors_exact Quote LookupEnv qs H). Qed.
Lemma coordinator_representable : Forall representable coordinator_requests.
Proof. repeat constructor. Qed.

(** What a coordinator needs in order to run. *)
Definition coordinator_startable : Prop :=
  forallb (acceptable LookupEnv) coordinator_requests = true /\
  connected (var "DB_DSN" "") (var_as ParseDuration "DB_WAIT" (60 * Second)) = true /\
  one_store = true /\
  (is_set "GEOIP_ASN_MMDB" = true -> is_Some (open_asn (var "GEOIP_ASN_MMDB" ""))) /\
  0 < var_as ParseDuration "SCHEDULER_INTERVAL" (30 * Second) /\
  (is_set "ADVISOR_URL" = true -> 0 < var_as ParseDuration "ADVISOR_SYNC_INTERVAL" (2 * Minute)) /\
  listens (var "HTTP_ADDR" ":8080") = true.

Lemma store_checks : negb (store_error configured_store) && negb (no_store configured_store) = one_store.
Proof.
  unfold configured_store, one_store. destruct (is_set "ARTIFACT_S3_ENDPOINT"), (is_set "ARTIFACT_DIR"); simpl; try done.
  by destruct (new_s3 _).
Qed.

Lemma acceptable_require qs key : forallb (acceptable LookupEnv) qs = true -> In (QRequire key) qs -> var key "" <> ""%string.
Proof.
  intros H Hin. rewrite forallb_forall in H. apply H in Hin. simpl in Hin. btrue. done.
Qed.

(** The coordinator an environment describes. *)
Definition configured_coordinator (resolve : option (addr -> option Z)) : coordinator :=
  MkCoordinator
    (Server.MkConfig (var "ADMIN_TOKEN" "") true (var "DEV_ENROLLMENT_TOKEN" "") 0 0 resolve
       (var_as Atoi "MAX_ASSIGNMENTS_PER_WORKER" 64))
    (MkSchedConfig (var_as Atoi "REDUNDANCY" 3) 0 0 0 0) (var_as ParseDuration "SCHEDULER_INTERVAL" (30 * Second))
    (if is_set "ADVISOR_URL" then Some (Website.New (var "ADVISOR_URL" ""), var "ADVISOR_TOKEN" "",
       var_as ParseDuration "ADVISOR_SYNC_INTERVAL" (2 * Minute)) else None).
Lemma coordinator_cases args : is_healthcheck args = false ->
  (coordinator_startable /\ exists resolve, coordinator_main args = Running (configured_coordinator resolve)) \/
  (~ coordinator_startable /\ forall c, coordinator_main args <> Running c).
Proof using dl.
  intros Ha. unfold coordinator_main. rewrite Ha, coordinator_config_spec. cbn [c_dsn c_dbWait c_store c_asnMMDB c_advisorURL c_advisorToken
    c_syncInterval c_schedInterval c_addr c_adminToken c_devToken c_maxPerWorker c_redundancy].
  pose proof (config_ok _ coordinator_representable) as Hcfg. pose proof store_checks as Hst.
  unfold coordinator_startable, configured_coordinator. rewrite <- Hcfg, <- Hst.
  assert (forall key, bool_decide (var key "" = ""%string) = negb (is_set key)) as Hset
    by (intros key; unfold is_set; by rewrite negb_involutive). rewrite !Hset. clear Hcfg Hst Hset.
  destruct (Err_ _); [right; split; [by intros [? _] | done]|].
  destruct (connected _ _); simpl; [|right; split; [by intros (_ & ? & _) | done]].
  destruct (store_error _); simpl; [right; split; [by intros (_ & _ & ? & _) | done]|].
  destruct (no_store _); simpl; [right; split; [by intros (_ & _ & ? & _) | done]|].
  destruct (if negb (is_set "GEOIP_ASN_MMDB") then _ else _) as [resolve|] eqn:Er.
  2:{ right. split; [|done]. intros (_ & _ & _ & H & _). destruct (is_set _); [|done]. destruct (H eq_refl) as [r Hr].
      simpl in Er. by rewrite Hr in Er. }
  set (advisor := if negb (is_set "ADVISOR_URL") then _ else _).
  destruct (match advisor with Some (_, _, i) => i <=? 0 | None => false end) eqn:Ei; unfold advisor in *.
  { right. split; [|done]. intros (_ & _ & _ & _ & _ & H & _). destruct (is_set "ADVISOR_URL"); [|done]. simpl in Ei. specialize (H eq_refl). lia. }
  destruct (Z.leb_spec (var_as ParseDuration "SCHEDULER_INTERVAL" (30 * Second)) 0); [right; split; [intros H0; lia | done]|].
  destruct (listens _); simpl; [|right; split; [by intros (_ & _ & _ & _ & _ & _ & ?) | done]].
  left. split; [|exists resolve; by destruct (is_set "ADVISOR_URL")]. split_and!; try done.
  - intros Hs. rewrite Hs in Er. simpl in Er. by destruct (open_asn _).
  - intros Hs. rewrite Hs in Ei. simpl in Ei. lia.
Qed.

(** C22: The coordinator runs exactly when it can: every variable it reads
    parses and the required ones are set, the database answers within the
    wait, exactly one artifact store is configured and usable, the ASN
    database opens if there is one, the intervals are positive, and the port
    can be bound.  A coordinator that runs has a non-empty admin token (so that
    no empty credential opens the admin API), audits, keeps at least one
    replica per target, runs its scheduler at a positive interval, and
    synchronizes with the site exactly when an address is configured. *)
Theorem coordinator_starts args : is_healthcheck args = false ->
  ((exists c, coordinator_main args = Running c) <-> coordinator_startable) /\
  forall c, coordinator_main args = Running c ->
    AdminToken (co_api c) = var "ADMIN_TOKEN" "" /\ AdminToken (co_api c) <> ""%string /\ HasAudit (co_api c) = true /\
    MaxAssignmentsPerWorker (co_api c) = var_as Atoi "MAX_ASSIGNMENTS_PER_WORKER" 64 /\
    1 <= Redundancy (Leasing.withDefaults (co_scheduler c)) /\ 0 < co_schedInterval c /\
    (co_advisor c = None <-> is_set "ADVISOR_URL" = false).
Proof using dl.
  intros Ha. pose proof (coordinator_cases args Ha) as Hc. split.
  - destruct Hc as [[Hs [r E]]|[Hs E]]; [split; eauto|]. split; [|done]. intros [c Hc]. by apply E in Hc.
  - intros c E. destruct Hc as [[Hs [r Er]]|[_ Hn]]; [|by apply Hn in E]. rewrite Er in E. injection E as <-.
    destruct Hs as (Hacc & _ & _ & _ & Hi & _). apply (acceptable_require _ "ADMIN_TOKEN") in Hacc; [|simpl; tauto].
    unfold configured_coordinator, Leasing.withDefaults. cbn [co_api co_scheduler co_schedInterval co_advisor AdminToken HasAudit MaxAssignmentsPerWorker Redundancy].
    split_and!; try done; [|by destruct (is_set "ADVISOR_URL")]. destruct (Z.leb_spec (var_as Atoi "REDUNDANCY" 3) 0); lia.
Qed.
End Services.

(** * Concrete instances *)
Module ToyStartup.
Import ToySeed ToyArtifact ToyGeo ToyBuilder.
(** Durations written as their nanoseconds. *)
#[export] Instance toy_duration : Config.DurationText := {| Config.ParseDuration := Config.Atoi; Config.DurationString := Config.Itoa |}.
#[export] Instance toy_duration_laws : Config.DurationLaws.
Proof. intros d. apply Config.Atoi_Itoa. Qed.
#[export] Existing Instance ToyWebsite.nano_time.
#[export] Existing Instance ToyWebsite.nano_text.

Definition env (vars : list (string * string)) (name : string) : option string :=
  snd <$> List.find (fun kv => bool_decide (kv.1 = name)) vars.

(** A database that answers from second 5 on; attempts take a second. *)
Definition slow_database (t : Z) : bool * Z := (5 * Second <=? t, Second).

(** A first download whose body breaks off, and a complete one. *)
Definition empty_disk : world disk := World (Disk ∅ []) 100 [].
Definition download (complete : bool) : result unit * world disk :=
  EnsureBview (fun _ => true) (fun _ => Reply 200 "dump" complete) (fun _ => 0) "data/.bview-1" "https://ris/bview" "data/bview.gz"
    Hour empty_disk.

(** The generator's two lines. *)
Definition generated : result (list string) * world disk := keygen (World (Disk ∅ [draw "alice"]) 1 []).
Definition key_lines : list string := match generated.1 with Ok l => l | Err _ => [] end.

(** A coordinator's environment. *)
Definition coordinator_vars : list (string * string) :=
  [("VAPN_DB_DSN", "postgres://db"); ("VAPN_ADMIN_TOKEN", "secret"); ("VAPN_ARTIFACT_DIR", "/srv/artifacts")]%string.
Definition start_coordinator (vars : list (string * string)) : ending coordinator :=
  coordinator_main (fun s => s) (env vars) (fun _ => slow_database) (fun _ => true) 0 (fun _ => true) (fun _ => None)
    (fun _ => true) (fun _ => None) [].

(** A builder's environment: the toy pipeline of Builder.v, its catalog served
    by the stand-in, its artifacts signed with alice's key. *)
Definition site (_ : string) : areq -> option aresp :=
  mock_server (MkFixtures (map (fun p => MkMock p 0) toy_feed) [] []) "token".
Definition builder_vars : list (string * string) :=
  [("VAPN_DB_DSN", "postgres://db"); ("VAPN_ADVISOR_TOKEN", "token"); ("VAPN_ARTIFACT_DIR", "/srv/artifacts");
   ("VAPN_SNAPSHOT_SIGNING_KEY", b64_encode (draw "alice")); ("VAPN_RIS_BVIEW_URL", "https://ris/bview")]%string.
Definition run_builder (vars : list (string * string)) : Z * world disk * sysworld :=
  builder_main (fun s => s) (env vars) (fun _ => slow_database) (fun _ => true) 0 (fun _ => true)
    (fun _ => true) (fun _ => Reply 200 "dump" true) (fun _ => 0) "data/.bview-1" site
    (fun c => match c with Some _ => Ok (toy_dump, None) | None => Err (EMsg "no such file") end)
    (fun _ => Ok toy_source) toy_version empty_disk toy_start.
End ToyStartup.
Import ToySeed ToyArtifact ToyGeo ToyStartup.

(** An interval of zero parses, and then stops the process. *)
Example zero_interval_panics :
  start_coordinator (("VAPN_SCHEDULER_INTERVAL"%string, "0"%string) :: coordinator_vars) = Panic "scheduler interval".
Proof. vm_compute. reflexivity. Qed.
(** Pruning fails on a negative retention after the snapshot is published. *)
Example negative_retention_reports_failure :
  let '(code, _, ws) := run_builder (("VAPN_RETAIN_SNAPSHOTS"%string, "-1"%string) :: builder_vars) in
  code = 1 /\ pointer (w_db ws) = Some (OPointer (MkPointer "v9" (ObjectKeyManifest "v9") 7)).
Proof. vm_compute. split; reflexivity. Qed.

Lemma database_wait_witness :
  exists t, WaitAndConnect slow_database (fun _ => true) (attempts (60 * Second)) (0 + 60 * Second) 0 = Some (true, t) /\ t <= 9 * Second.
Proof.
  destruct (database_wait slow_database (fun _ => true) Second) with (start := 0) (wait := 60 * Second) as [_ H].
  - intros t. simpl. unfold Second. lia.
  - reflexivity.
  - apply (H (5 * Second)).
    + intros t Ht. apply Z.leb_le. exact Ht.
    + reflexivity.
Defined.

Lemma bview_all_or_nothing_witness :
  (download false).1 = Err (EMsg "unexpected EOF") /\ files (w_db (download false).2) !! "data/bview.gz"%string = None /\
  files (w_db (download true).2) !! "data/bview.gz"%string = Some "dump"%string.
Proof.
  assert (forall r w' complete, download complete = (r, w') -> is_ok r = complete ->
    files (w_db w') !! "data/bview.gz"%string = if complete then Some "dump"%string else None) as H2.
  { intros r w' complete E Hr.
    destruct (bview_all_or_nothing (fun _ => true) (fun _ => Reply 200 "dump" complete) (fun _ => 0) "data/.bview-1" "https://ris/bview"
      "data/bview.gz" Hour empty_disk r w' E) as (_ & Hp & _); [discriminate | reflexivity |].
    destruct Hp as [[Hp Hok]|[Hok (body & Hb & Hp)]]; rewrite Hp.
    - destruct complete; [|reflexivity]. destruct (Hok Hr) as [He|(c & Hc & _)]; [discriminate He | discriminate Hc].
    - rewrite <- Hr, Hok. by injection Hb as ->. }
  split; [vm_compute; reflexivity|]. split.
  - apply (H2 (download false).1 (download false).2 false); [apply surjective_pairing | vm_compute; reflexivity].
  - apply (H2 (download true).1 (download true).2 true); [apply surjective_pairing | vm_compute; reflexivity].
Defined.

Lemma generated_keys_fit_witness :
  exists seed pub key, env_of key_lines "VAPN_SNAPSHOT_SIGNING_KEY" = Some seed /\
    env_of key_lines "VAPN_SNAPSHOT_PUBLIC_KEY" = Some pub /\
    ParseSigningKey seed = Ok key /\ ParsePublicKey pub = Ok (Public key).
Proof.
  destruct (generated_keys_fit (World (Disk ∅ [draw "alice"]) 1 []) key_lines generated.2)
    as (seed & pub & key & H1 & H2 & H3 & H4 & _).
  - reflexivity.
  - exists seed, pub, key. split; [exact H1|]. split; [exact H2|]. split; [exact H3 | exact H4].
Defined.

Lemma coordinator_starts_witness :
  exists c, start_coordinator coordinator_vars = Running c /\ AdminToken (co_api c) <> ""%string /\ 0 < co_schedInterval c.
Proof.
  destruct (coordinator_starts (fun s => s) (env coordinator_vars) (fun _ => slow_database) (fun _ => true) 0 (fun _ => true)
    (fun _ => None) (fun _ => true) (fun _ => None) [] eq_refl) as [[_ Hrun] Hc].
  destruct Hrun as [c E].
  - split; [vm_compute; reflexivity|]. split; [vm_compute; reflexivity|]. split; [vm_compute; reflexivity|].
    split; [intros H; vm_compute in H; discriminate H|]. split; [vm_compute; reflexivity|].
    split; [intros H; vm_compute in H; discriminate H | reflexivity].
  - exists c. split; [exact E|]. destruct (Hc c E) as (_ & H1 & _ & _ & _ & H2 & _). split; [exact H1 | exact H2].
Defined.

Lemma builder_exit_code_witness :
  (run_builder builder_vars).1.1 = 0 /\ exists version, points_to version (w_db (run_builder builder_vars).2).
Proof.
  assert ((run_builder builder_vars).1.1 = 0) as E by (vm_compute; reflexivity). split; [exact E|].
  destruct (builder_exit_code (fun s => s) (env builder_vars) (fun _ => slow_database) (fun _ => true) 0 (fun _ => true)
    (fun _ => true) (fun _ => Reply 200 "dump" true) (fun _ => 0) "data/.bview-1" site
    (fun c => match c with Some _ => Ok (toy_dump, None) | None => Err (EMsg "no such file") end)
    (fun _ => Ok ToyBuilder.toy_source) ToyBuilder.toy_version empty_disk ToyBuilder.toy_start
    0 (run_builder builder_vars).1.2 (run_builder builder_vars).2) as [[_ H]|[[H _]|[H _]]].
  - rewrite <- E. unfold run_builder. destruct (builder_main _ _ _ _ _ _ _ _ _ _ _ _ _ _ _ _) as [[? ?] ?]. reflexivity.
  - intros s Hs. repeat (destruct Hs as [<-|Hs]; [vm_compute; reflexivity|]). destruct Hs.
  - destruct H as (key & asns & rows & stats & id & version & Hk & _ & _ & _ & H). exists version.
    assert (is_some key = true) as Hs by (vm_compute in Hk; injection Hk as <-; reflexivity).
    exact (rl_current _ _ _ _ _ _ _ H eq_refl Hs).
  - discriminate H.
  - discriminate H.
Defined.
