(* ===== verification/Serving.v ===== *)
(** The HTTP side of the processes: the multiplexer of
    [internal/platform/httpserver] with its health pages, [Run] until
    cancellation, the container health check against it, and [cmd/mockadvisor]
    with [LoadFixtures] of [internal/mockadvisor].

    [net/http.ServeMux] is modelled for the patterns the program registers:
    exact paths with a method, and subtrees without one. *)
From stdpp Require Import base gmap strings list.
From Stdlib Require Import ZArith Lia Ascii String.
From S2P Require Import Prelude Codec Netip Schema Wireauth Advisor FSStore Ticker Website Startup.
From S2P Require Config.
Open Scope Z_scope.

(** * The multiplexer *)
Record pattern : Type := Pattern { pt_method : option string; pt_path : string; pt_tree : bool }.
Definition path_matches (path : string) (p : pattern) : bool :=
  if pt_tree p then String.prefix (pt_path p) path else bool_decide (path = pt_path p).
(** A GET pattern serves HEAD too. *)
Definition method_matches (method : string) (p : pattern) : bool :=
  match pt_method p with
  | None => true
  | Some m => bool_decide (method = m) || (bool_decide (m = "GET"%string) && bool_decide (method = "HEAD"%string))
  end.
Definition pattern_matches (method path : string) (p : pattern) : bool := path_matches path p && method_matches method p.

(** [cleanPath] of net/http: a rooted clean path that keeps a trailing
    slash. *)
Definition ends_with_slash (p : string) : bool := bool_decide (last (list_ascii_of_string p) = Some slash).
Definition cleanPath (p : string) : string :=
  if bool_decide (p = ""%string) then "/"%string
  else
    let p := if is_rooted p then p else ("/" +:+ p)%string in
    let np := Clean p in
    if ends_with_slash p && negb (bool_decide (np = "/"%string)) then (np +:+ "/")%string else np.

Inductive outcome (A : Type) : Type :=
| Handled (a : A)
| Moved (location : string)
| NotAllowed
| NotFound.
Arguments Handled {A} a.
Arguments Moved {A} location.
Arguments NotAllowed {A}.
Arguments NotFound {A}.

(** A request for a path that is not clean, or for a subtree's root without
    its slash, is redirected. *)
Definition dispatch {A} (mux : list (pattern * A)) (method path : string) : outcome A :=
  if negb (bool_decide (cleanPath path = path)) then Moved (cleanPath path)
  else match List.find (fun pa => pattern_matches method path pa.1) mux with
  | Some (_, a) => Handled a
  | None =>
      if existsb (fun pa => pattern_matches method (path +:+ "/")%string pa.1) mux then Moved (path +:+ "/")%string
      else if existsb (fun pa => path_matches path pa.1) mux then NotAllowed else NotFound
  end.

(** * The server *)
Inductive page (H : Type) : Type := Healthz | Readyz | Metrics | Mounted (h : H).
Arguments Healthz {H}.
Arguments Readyz {H}.
Arguments Metrics {H}.
Arguments Mounted {H} h.

(** [New] and [Handle]; the patterns mounted by the program are subtrees. *)
Definition New (H : Type) : list (pattern * page H) :=
  [(Pattern (Some "GET"%string) "/healthz" false, Healthz); (Pattern (Some "GET"%string) "/readyz" false, Readyz);
   (Pattern (Some "GET"%string) "/metrics" false, Metrics)].
Definition Handle {H} (path : string) (h : H) (mux : list (pattern * page H)) : list (pattern * page H) :=
  mux ++ [(Pattern None path true, Mounted h)].

(** The status of a page: the process's own ones, or what the mounted handler
    answers. *)
Definition status_of {H} (checks : list (string * option string)) (answer : H -> Z) (o : outcome (page H)) : Z :=
  match o with
  | Handled Healthz => 200
  | Handled Readyz => (readyz checks).1
  | Handled Metrics => 200
  | Handled (Mounted h) => answer h
  | Moved _ => 301
  | NotAllowed => 405
  | NotFound => 404
  end.

(** [Run]: [listen] is the error [ListenAndServe] ended with, if it has ended
    with one; [shutdown] is what [Shutdown] returns within its 15 s.  [None]:
    still serving.  When both are ready, [select] picks one. *)
Definition Run (listen : option error) (cancelled pick_error : bool) (shutdown : option error) : option (option error) :=
  match listen, cancelled with
  | None, false => None
  | Some e, false => Some (Some e)
  | None, true => Some shutdown
  | Some e, true => Some (if pick_error then Some e else shutdown)
  end.

(** * The health check of a container *)
(** What a GET from inside the container answers: the loopback address reaches
    the process that listens on that port; other hosts are [elsewhere]. *)
Section Loopback.
Context {H : Type} (mux : list (pattern * page H)) (checks : list (string * option string)) (answer : H -> Z).
(** The port the process listens on, if it runs. *)
Variables (listening : option string) (elsewhere : string -> option Z).

Definition loopback : string := "http://127.0.0.1:".
(** The port and the path of the rest of a URL. *)
Fixpoint cut_slash (s : string) : string * string :=
  match s with
  | EmptyString => (""%string, ""%string)
  | String c s' => if bool_decide (c = slash) then (""%string, s) else let (a, b) := cut_slash s' in (String c a, b)
  end.
Definition get_local (url : string) : option Z :=
  if String.prefix loopback url then
    let (port, path) := cut_slash (substring (String.length loopback) (String.length url) url) in
    if bool_decide (listening = Some port) then Some (status_of checks answer (dispatch mux "GET" path)) else None
  else elsewhere url.
End Loopback.

(** The coordinator's and the aggregator's servers. *)
Inductive handler : Type := API | Stub.
Definition coordinator_mux : list (pattern * page handler) := Handle "/admin/v1/" API (Handle "/api/v1/" API (New handler)).
Definition aggregator_mux : list (pattern * page handler) := New handler.
Definition mock_mux : list (pattern * page handler) := Handle "/api/" Stub (New handler).

(** * The stand-in's process *)
Section Fixtures.
Context {tm : TimeText} {nt : NanoText}.
(** [json.Unmarshal] into a tree, and the embedded fixtures. *)
Variables (parse_json : string -> option json) (defaultFixtures : string).

Definition decode_mock (v : json) : option mock_provider :=
  p ← decode_provider v;
  t ← match v with JObj l => as_time (field "updated_at" l) | _ => Some zero_time end;
  Some (MkMock p t).
Definition decode_fixtures (v : json) : option Fixtures :=
  match v with
  | JNull => Some (MkFixtures [] [] [])
  | JObj l =>
      ps ← as_list decode_mock (field "providers" l);
      es ← as_list decode_enrollment (field "enrollments" l);
      ds ← as_list decode_decision (field "decisions" l);
      Some (MkFixtures ps es ds)
  | _ => None
  end.
Definition LoadFixtures (raw : option string) : option Fixtures :=
  parse_json (default defaultFixtures raw) ≫= decode_fixtures.

(** [main]: the configuration, then the fixtures, then the server. *)
Context {dt : Config.DurationText} (Quote : string -> string) (LookupEnv : string -> option string)
  (ReadFile : string -> option string) (listens : string -> bool).
Record mock_process : Type := MkMockProcess { mk_addr : string; mk_token : string; mk_fixtures : Fixtures }.
Definition mockadvisor_main : ending mock_process :=
  let (addr, s) := Config.String_ LookupEnv "HTTP_ADDR" ":8081" Config.New in
  let (token, s) := Config.String_ LookupEnv "ADVISOR_TOKEN" "dev-advisor-token" s in
  let (path, s) := Config.String_ LookupEnv "MOCK_FIXTURES" "" s in
  match Config.Err_ s with
  | Some _ => Exit 1 "bad configuration"
  | None =>
      let raw := if bool_decide (path = ""%string) then Some None else Some <$> ReadFile path in
      match raw with
      | None => Exit 1 "read fixtures"
      | Some raw =>
          match LoadFixtures raw with
          | None => Exit 1 "load fixtures"
          | Some f => if negb (listens addr) then Exit 1 "server error" else Running (MkMockProcess addr token f)
          end
      end
  end.
End Fixtures.

(** * Lemmas *)
Lemma prefix_nil s : String.prefix "" s = true.
Proof. by destruct s. Qed.
Lemma prefix_app p s : String.prefix p (p +:+ s) = true.
Proof. induction p as [|c p IH]; simpl; [apply prefix_nil|]. by destruct (ascii_dec c c). Qed.
Lemma prefix_cons c p d s : String.prefix (String c p) (String d s) = bool_decide (c = d) && String.prefix p s.
Proof.
  simpl. destruct (ascii_dec c d) as [->|Hn]; [by rewrite bool_decide_true|by rewrite bool_decide_false].
Qed.
Lemma prefix_common p s t : String.prefix (p +:+ s) (p +:+ t) = String.prefix s t.
Proof. induction p as [|c p IH]; simpl; [done|]. by destruct (ascii_dec c c). Qed.
Lemma substring_app p s n : (String.length s <= n)%nat -> substring (String.length p) n (p +:+ s) = s.
Proof.
  induction p as [|c p IH]; intros Hn; simpl; [|by apply IH].
  revert n Hn. induction s as [|c s IH]; intros [|n] Hn; simpl in *; try done; try lia. by rewrite IH by lia.
Qed.
Lemma cut_slash_app port path : has_byte slash port = false -> cut_slash (port +:+ String slash path) = (port, String slash path).
Proof.
  induction port as [|c port IH]; intros Hp; [done|]. simpl in Hp. apply orb_false_iff in Hp as [Hc Hp].
  simpl. rewrite (IH Hp). apply bool_decide_eq_false in Hc. by rewrite bool_decide_false by congruence.
Qed.

(** Which pattern of a server serves a request does not depend on the order of
    registration. *)
Definition unambiguous {A} (mux : list (pattern * A)) : Prop :=
  forall method path i j x y, mux !! i = Some x -> mux !! j = Some y ->
    pattern_matches method path x.1 = true -> pattern_matches method path y.1 = true -> i = j.

Lemma exact_match method path m p : pattern_matches method path (Pattern m p false) = true -> path = p.
Proof. unfold pattern_matches, path_matches. simpl. intros [H _]%andb_true_iff. by apply bool_decide_eq_true in H. Qed.
Lemma tree_match method path p : pattern_matches method path (Pattern None p true) = true -> String.prefix p path = true.
Proof. unfold pattern_matches, path_matches. simpl. by rewrite andb_true_r. Qed.

(** Two different patterns of the coordinator's server, the largest one, never
    match the same request. *)
Lemma coordinator_unambiguous : unambiguous coordinator_mux.
Proof.
  intros method path i j x y Hi Hj Hx Hy.
  destruct i as [|[|[|[|[|i]]]]]; try discriminate Hi; destruct j as [|[|[|[|[|j]]]]]; try discriminate Hj;
    try reflexivity; exfalso; injection Hi as <-; injection Hj as <-; cbn [fst] in Hx, Hy;
    repeat match goal with
    | H : pattern_matches _ _ (Pattern _ _ false) = true |- _ => apply exact_match in H as ->
    | H : pattern_matches _ _ (Pattern None _ true) = true |- _ => apply tree_match in H
    end; try discriminate;
    destruct path as [|c1 [|c2 [|c3 path]]]; try discriminate; rewrite !prefix_cons in *;
    repeat match goal with H : (_ && _) = true |- _ => apply andb_true_iff in H as [?%bool_decide_eq_true ?] end;
    first [discriminate | congruence].
Qed.

(** Every method reaches the API below its two roots. *)
Lemma api_reached method path rest : In path ["/api/v1/"; "/admin/v1/"]%string -> cleanPath (path +:+ rest) = (path +:+ rest)%string ->
  dispatch coordinator_mux method (path +:+ rest) = Handled (Mounted API).
Proof.
  intros Hp Hc. unfold dispatch. rewrite Hc, bool_decide_true by done. cbn [negb].
  assert (forall p, In p ["/healthz"; "/readyz"; "/metrics"]%string -> (path +:+ rest)%string <> p) as Hn.
  { intros p Hin E. destruct Hp as [<-|[<-|[]]], Hin as [<-|[<-|[<-|[]]]]; discriminate E. }
  unfold coordinator_mux, Handle, New. cbn [app List.find fst]. unfold pattern_matches, path_matches. cbn [pt_tree pt_path pt_method].
  rewrite !bool_decide_false by (apply Hn; simpl; auto). cbn [andb]. unfold method_matches. cbn [pt_method]. rewrite !andb_true_r.
  destruct Hp as [<-|[<-|[]]]; [by rewrite prefix_app|].
  destruct (String.prefix "/api/v1/" ("/admin/v1/" +:+ rest)) eqn:E; [done|by rewrite prefix_app].
Qed.

Lemma health_page mux checks (answer : handler -> Z) : In mux [coordinator_mux; aggregator_mux; mock_mux] ->
  status_of checks answer (dispatch mux "GET" "/healthz") = 200.
Proof. intros [<-|[<-|[<-|[]]]]; vm_compute; reflexivity. Qed.

(** * Properties *)
(** The container's health check is exact for a listen address of the form
    [:port]: it exits 0 exactly when the process of that container listens on
    that port, whatever its dependencies do.  But it only works for that form:
    with a host in the address the check asks another host, so its answer does
    not depend on the process at all. *)
Theorem healthcheck_exact mux checks (answer : handler -> Z) listening elsewhere fallback :
  In mux [coordinator_mux; aggregator_mux; mock_mux] ->
  (forall port, has_byte slash port = false ->
     SelfCheck (get_local mux checks answer listening elsewhere) (":" +:+ port) fallback =
     if bool_decide (listening = Some port) then 0 else 1) /\
  (forall c host port, c <> ":"%char ->
     SelfCheck (get_local mux checks answer listening elsewhere) (String c host +:+ ":" +:+ port) fallback =
     SelfCheck elsewhere (String c host +:+ ":" +:+ port) fallback).
Proof.
  intros Hm. split.
  - intros port Hp. unfold SelfCheck. rewrite bool_decide_false by done. unfold get_local.
    change ("http://127.0.0.1" +:+ (":" +:+ port) +:+ "/healthz")%string with (loopback +:+ (port +:+ "/healthz"))%string.
    rewrite prefix_app, substring_app by (rewrite !str_app_length; lia).
    change (port +:+ "/healthz")%string with (port +:+ String slash "healthz")%string. rewrite cut_slash_app by done.
    destruct (bool_decide (listening = Some port)); [|done]. change (String slash "healthz") with "/healthz"%string.
    by rewrite (health_page mux checks answer Hm).
  - intros c host port Hc. unfold SelfCheck. rewrite bool_decide_false by done. unfold get_local at 1.
    assert (String.prefix loopback ("http://127.0.0.1" +:+ (String c host +:+ ":" +:+ port) +:+ "/healthz") = false) as ->; [|done].
    change ("http://127.0.0.1" +:+ (String c host +:+ ":" +:+ port) +:+ "/healthz")%string
      with ("http://127.0.0.1" +:+ String c ((host +:+ ":" +:+ port) +:+ "/healthz"))%string.
    change loopback with ("http://127.0.0.1" +:+ ":")%string. rewrite prefix_common, prefix_cons. by rewrite bool_decide_false by congruence.
Qed.

(** ** Fixtures *)
Section FixtureLaws.
Context {tm : TimeText} {nt : NanoText} {nl : NanoLaws}.
Variables (parse_json : string -> option json) (defaultFixtures : string).

(** The document a fixtures file holds. *)
Definition fixtures_json (f : Fixtures) : json :=
  JObj [("providers", JArr (map encode_provider (fx_Providers f)));
        ("enrollments", JArr (map encode_enrollment (fx_Enrollments f)));
        ("decisions", JArr (map encode_decision (fx_Decisions f)))]%string.
Definition fixtures_ok (f : Fixtures) : Prop :=
  Forall mock_ok (fx_Providers f) /\ Forall (fun e => rfc3339_range (ExpiresAt e)) (fx_Enrollments f) /\
  Forall (fun d => rfc3339_range (DecidedAt d)) (fx_Decisions f).

Lemma mock_roundtrip p : mock_ok p -> decode_mock (encode_provider p) = Some p.
Proof using nl.
  intros Hp. unfold decode_mock. rewrite provider_roundtrip by done. cbn [mbind option_bind].
  unfold encode_provider. set (l := [_; _; _; _; _; _]).
  assert (field "updated_at" l = JStr (Format_Nano (UpdatedAt p))) as -> by reflexivity.
  simpl. rewrite nano_roundtrip by apply Hp. simpl. by destruct p.
Qed.

Lemma decode_fixtures_json f : fixtures_ok f -> decode_fixtures (fixtures_json f) = Some f.
Proof using nl.
  intros (H1 & H2 & H3). rewrite Forall_forall in H1. rewrite Forall_forall in H2. rewrite Forall_forall in H3. unfold decode_fixtures, fixtures_json. set (l := [_; _; _]).
  assert (field "providers" l = JArr (map encode_provider (fx_Providers f))) as -> by reflexivity.
  assert (field "enrollments" l = JArr (map encode_enrollment (fx_Enrollments f))) as -> by reflexivity.
  assert (field "decisions" l = JArr (map encode_decision (fx_Decisions f))) as -> by reflexivity.
  cbn [as_list]. rewrite (mapM_map decode_mock encode_provider), (mapM_map decode_enrollment encode_enrollment),
    (mapM_map decode_decision encode_decision).
  - by destruct f.
  - intros x Hx. apply decision_roundtrip, H3. by apply list_elem_of_In.
  - intros x Hx. apply enrollment_roundtrip, H2. by apply list_elem_of_In.
  - intros x Hx. apply mock_roundtrip, H1. by apply list_elem_of_In.
Qed.

Context {dt : Config.DurationText} (LookupEnv : string -> option string) (ReadFile : string -> option string)
  (listens : string -> bool).
#[local] Abbreviation mock_main := (mockadvisor_main parse_json defaultFixtures LookupEnv ReadFile listens).

(** The stand-in serves what its fixtures file says, under the configured
    credential, and does not start on a file that is missing or is not one. *)
Theorem mock_starts : forall path, LookupEnv "VAPN_MOCK_FIXTURES" = Some path -> path <> ""%string ->
  (forall text f, ReadFile path = Some text -> parse_json text = Some (fixtures_json f) -> fixtures_ok f ->
     listens (default ":8081"%string (LookupEnv "VAPN_HTTP_ADDR")) = true ->
     exists addr token, mock_main = Running (MkMockProcess addr token f) /\
       token = default "dev-advisor-token"%string (LookupEnv "VAPN_ADVISOR_TOKEN")) /\
  ((ReadFile path = None \/ exists text, ReadFile path = Some text /\ (parse_json text ≫= decode_fixtures) = None) ->
     exists why, mock_main = Exit 1 why).
Proof using nl.
  intros path Hpath Hne. unfold mockadvisor_main, Config.String_, Config.lookup_key, Config.Err_. cbv zeta. cbn [Config.missing Config.New].
  change (LookupEnv (Config.prefix +:+ "MOCK_FIXTURES")%string) with (LookupEnv "VAPN_MOCK_FIXTURES"%string).
  rewrite Hpath. change (default ""%string (Some path)) with path. rewrite bool_decide_false by done. split.
  - intros text f Hr Hp Hok Hl. eexists _, _. split; [|reflexivity]. rewrite Hr. cbn [fmap option_fmap option_map]. unfold LoadFixtures.
    change (default defaultFixtures (Some text)) with text. rewrite Hp. cbn [mbind option_bind].
    rewrite decode_fixtures_json by done.
    change (LookupEnv (Config.prefix +:+ "HTTP_ADDR")%string) with (LookupEnv "VAPN_HTTP_ADDR"%string). by rewrite Hl.
  - intros [Hr|(text & Hr & Hp)]; simpl; rewrite Hr; simpl; [eauto|]. unfold LoadFixtures. simpl. rewrite Hp. eauto.
Qed.
End FixtureLaws.

(** * Witnesses *)
Lemma healthcheck_exact_witness :
  SelfCheck (get_local coordinator_mux [("postgres", Some "down")]%string (fun _ => 500) (Some "8080"%string) (fun _ => None)) ":8080" ":8080" = 0 /\
  SelfCheck (get_local coordinator_mux [] (fun _ => 200) (Some "8080"%string) (fun _ => None)) "127.0.0.1:8080" ":8080" = 1.
Proof.
  split.
  - exact (proj1 (healthcheck_exact coordinator_mux [("postgres", Some "down")]%string (fun _ => 500) (Some "8080"%string)
      (fun _ => None) ":8080" (or_introl eq_refl)) "8080"%string eq_refl).
  - exact (proj2 (healthcheck_exact coordinator_mux [] (fun _ => 200) (Some "8080"%string) (fun _ => None) ":8080"
      (or_introl eq_refl)) "1"%char "27.0.0.1"%string "8080"%string ltac:(discriminate)).
Defined.
