(* ===== verification/Loops.v ===== *)
(** The background loops of the coordinator and the aggregator over the shared
    database: [Scheduler.Run], [Scorer.Run], [Engine.Run], [Publisher.Run],
    [StartMaintenance] and [StartAdvisorSync], as started by the [main]
    functions of Startup and paced by the tickers of Ticker.

    A [deployment] is the shared state with the goroutines of both processes;
    an [event] is one call of one of them, a request, a build, or the start of
    a process (a restart when it was running).  Statements fail as the event's
    fault schedule says; when ticks are received and how long calls take is in
    the events.  [run] accepts exactly the sequences the loops can produce. *)
From stdpp Require Import base gmap strings list.
From Stdlib Require Import ZArith QArith Lia.
From S2P Require Import Prelude Netip Schema Codec Wireauth Artifact Registry Leasing Upload Server Trust.
From S2P Require Import Consensus Rollup Outbox Advisor Routing Distribution Builder WellFormed Ticker.
From S2P Require Startup Observation.
Import Observation(ObservationJSON).
Open Scope Z_scope.

(** The state of [StartAdvisorSync]'s goroutine: its cursor and the feeds'
    health. *)
Record syncer : Type := Syncer {
  sy_go : goroutine; sy_since : option Z; sy_health : gmap string feedHealth
}.
Record coordinator_loops : Type := CoordinatorLoops {
  cl_maintenance : goroutine; cl_sync : option syncer; cl_scheduler : goroutine
}.
(** [al_rolling]: [Engine.Run] is between [ComputeWindow] and
    [RollupStatus]. *)
Record aggregator_loops : Type := AggregatorLoops {
  al_scorer : goroutine; al_engine : goroutine; al_rolling : bool; al_publisher : option goroutine
}.
Record deployment : Type := Deployment {
  dp_sys : sys; dp_clock : Z; dp_coordinator : option coordinator_loops; dp_aggregator : option aggregator_loops
}.

Definition set_scorer (g : goroutine) (a : aggregator_loops) : aggregator_loops :=
  AggregatorLoops g (al_engine a) (al_rolling a) (al_publisher a).
Definition set_engine (g : goroutine) (rolling : bool) (a : aggregator_loops) : aggregator_loops :=
  AggregatorLoops (al_scorer a) g rolling (al_publisher a).
Definition set_publisher (g : goroutine) (a : aggregator_loops) : aggregator_loops :=
  AggregatorLoops (al_scorer a) (al_engine a) (al_rolling a) (Some g).

(** The window [Engine.Run] settles at [now]. *)
Definition window_start (W now : Z) : Z := Truncate (now - W) W.

(** * Who writes consensus windows *)
(** Only a settlement adds rows to the table of windows. *)
Definition NoNewWindows (_ : Z) (d d' : database) : Prop := forall x, In x (db_window d') -> In x (db_window d).
#[export] Instance NoNewWindows_preorder : PreOrderAt NoNewWindows.
Proof. split; unfold NoNewWindows; auto. Qed.

(** Reduce a call to its statements; none of them adds to the table. *)
Ltac no_new_windows :=
  repeat first [ apply respects_clock; apply _ | apply respects_lift | progress respects ];
  open_stmt; repeat case_match; simplify_eq; try (let y := fresh in let Hy := fresh in intros y Hy; exact Hy).

#[export] Instance NoNewWindows_store {cr : Crypto} : StorePromise NoNewWindows.
Proof. intros op. destruct op; store_stmts; no_new_windows. Qed.

#[export] Instance NoNewWindows_handlers {cr : Crypto} {oj : ObservationJSON} {at_ : AddrText} {ut : UuidText} :
  HandlerPromise NoNewWindows.
Proof.
  split; intros; unfold lease_tx, renew_leases, reap_expired, claim, release_stmt, upload_tx, begin_commit, insert_batch,
    copy_observations, flip; no_new_windows.
Qed.

Lemma SyncProviders_windows feed : Respects NoNewWindows (SyncProviders feed).
Proof. apply SyncProviders_respects; [apply _|]. intros n d f g. split; intros x Hx; exact Hx. Qed.

Lemma Run_windows {cr : Crypto} {mo : MapOrder} {mj : ManifestJSON} {sf : SQLiteFormat} versionOf bcfg key minv publisher feed dump src :
  Respects (OnDB NoNewWindows) (Run versionOf bcfg key minv publisher feed dump src).
Proof.
  unfold Run, release, load, insert_snapshot, copy_prefixes, loadDistribution, insert_geo, deriveTargets,
    countTargetsByCountry, sanityGate, Publish, ExportSQLite, verifyReadback, SetCurrent, Prune, prune_one, Put, Delete, flip.
  no_new_windows; [apply SyncProviders_windows | apply Get_respects; apply _ ..].
Qed.
Lemma RollupStatus_windows ms c : Respects NoNewWindows (RollupStatus ms c).
Proof.
  unfold RollupStatus, rollup_provider, refreshTargetStatus, upsert_status, handleTransition, checkLatencyAnomaly, ignore,
    insert_anomaly, resolve_anomalies, enqueue.
  no_new_windows; try apply document_respects; try apply _; intros x; by case_match.
Qed.

Definition PubWindows (n : Z) (p p' : pub) : Prop := NoNewWindows n (pub_db p) (pub_db p').
#[local] Instance PubWindows_preorder : PreOrderAt PubWindows.
Proof. split; unfold PubWindows, NoNewWindows; auto. Qed.
Lemma on_db_windows {A} (m : DB A) : Respects NoNewWindows m -> Respects PubWindows (on_db m).
Proof.
  intros Hm w r w' (dw & E & Ed & En & _)%on_db_run. apply Hm in E as [? H].
  split; [simpl in *; congruence|]. unfold PubWindows. rewrite Ed. exact H.
Qed.

Lemma DrainOnce_windows accepts locked s log now fs r w' :
  DrainOnce accepts locked (World (Pub (sys_db s) log) now fs) = (r, w') ->
  NoNewWindows now (sys_db s) (pub_db (w_db w')).
Proof.
  intros E. unfold DrainOnce, rollback_tables in E.
  assert (forall items n, Respects PubWindows (drain accepts items n)) as Hd.
  { induction items as [|it items IH]; intros n; simpl; respects; try apply IH;
      try (apply on_db_windows; unfold ack, retry; no_new_windows).
    intros w r0 w1 E0. unfold deliver in E0. simplify_eq. split; [done|]. intros x Hx. exact Hx. }
  match type of E with context [bindM ?m ?k ?w] =>
    assert (Respects PubWindows (bindM m k)) as HB by
      (unfold begin_commit; respects; try apply Hd; apply on_db_windows; no_new_windows) end.
  destruct (bindM _ _ _) as [[a|e] w1] eqn:E1; simplify_eq; apply HB in E1 as [_ H]; [exact H|].
  intros x Hx. exact Hx.
Qed.

(** The jobs other than [ComputeWindow]. *)
Definition settles (j : job) : bool := match j with JWindow _ _ => true | _ => false end.
Lemma job_windows {cr : Crypto} j : settles j = false -> Respects NoNewWindows (run_job j).
Proof.
  destruct j; simpl; intros Hj; try discriminate Hj.
  - unfold Reconcile, drain_mark, drain_release, drain_close, generate. no_new_windows.
  - unfold ComputeAll. no_new_windows.
  - apply RollupStatus_windows.
  - unfold Retention. no_new_windows. intros x [? _]%delete_where_In. done.
  - unfold EnqueueFleetTelemetry, enqueue. no_new_windows.
  - unfold done. respects. apply SyncAdvisor_respects_of; try apply _; [apply SyncProviders_windows | intros n d f x Hx; exact Hx].
Qed.
Section Loops.
Context {cr : Crypto} {tm : TimeText} {oj : ObservationJSON} {at_ : AddrText} {ut : UuidText}
  {rj : RequestJSON} {hp : HostPort} {mo : MapOrder} {mj : ManifestJSON} {sf : SQLiteFormat}.
(** The processes as their [main] configured them. *)
Variables (co : Startup.coordinator) (ag : Startup.aggregator).
(** [hashtext], the JSON of a status document and of a time. *)
Variables (md5 : string -> string) (marshal : statusDoc -> json) (time_json : Z -> json).

(** * Starting *)
(** [main] of the coordinator up to [srv.Run], at [now]; the [advisor] sync
    starts its ticker when the [Ping] before it returned, at [pinged]. *)
Definition start_coordinator (now pinged : Z) : option coordinator_loops :=
  m ← spawn false [Minute] now;
  y ← match Startup.co_advisor co with
      | None => Some None
      | Some (_, _, interval) => g ← spawn true [interval] pinged; Some (Some (Syncer g None ∅))
      end;
  s ← spawn true [Startup.co_schedInterval co] now;
  Some (CoordinatorLoops m y s).

Definition start_aggregator (now : Z) : option aggregator_loops :=
  s ← spawn true [Startup.ag_trustInterval ag] now;
  e ← spawn false [window_duration (Startup.ag_engine ag); 6 * Hour] now;
  p ← match Startup.ag_publisher ag with
      | None => Some None
      | Some _ => Some <$> spawn false [15 * Second; 5 * Minute] now
      end;
  Some (AggregatorLoops s e false p).

(** * Events *)
Inductive event : Type :=
| StartCoordinator (now pinged : Z)
| StartAggregator (now : Z)
| Request_ (now : Z) (faults : list bool) (o : outside) (e : endpoint) (r : request)
| Build (now : Z) (faults : list bool) (versionOf : Z -> Z -> string) (bcfg : BuilderConfig) (key : PrivateKey)
    (minv : string) (publisher : bool) (feed : result (list Provider))
    (dump : result (list mrt_message * option error)) (src : result (option GeoSource))
| Maintain (p : pass)
| Sync (p : pass) (ws : website)
| Schedule (p : pass)
| Score (p : pass)
(** The engine's tick is received at [p_at]; [now] is the [time.Now()] of its
    body. *)
| Window (p : pass) (now : Z)
| Rollup_ (p : pass)
| Retain (p : pass)
| Drain (p : pass) (accepts : Z -> string -> json -> bool) (locked : Z -> bool)
| Telemetry (p : pass).

(** * One event *)
(** A call on the shared state at [now]. *)
Definition call {A} (m : SM A) (now : Z) (fs : list bool) (d : deployment) : result A * sys :=
  let (r, w) := m (World (dp_sys d) now fs) in (r, w_db w).

Definition with_coordinator (s : sys) (now : Z) (c : coordinator_loops) (d : deployment) : deployment :=
  Deployment s now (Some c) (dp_aggregator d).
Definition with_aggregator (s : sys) (now : Z) (a : aggregator_loops) (d : deployment) : deployment :=
  Deployment s now (dp_coordinator d) (Some a).

(** Time does not run backwards. *)
Definition not_before (now : Z) (d : deployment) : option unit := if now <? dp_clock d then None else Some tt.

(** A pass of the aggregator's single-job loops. *)
Definition job_pass (j : job) (p : pass) (d : deployment) : sys := (call (lift (run_job j)) (p_at p) (p_faults p) d).2.

(** [StartMaintenance]: a tick. *)
Definition maintenance_event (p : pass) (c : coordinator_loops) (d : deployment) : option deployment :=
  g ← turn 0 (p_at p) (p_fin p) (cl_maintenance c);
  Some (with_coordinator (call maintenance (p_at p) (p_faults p) d).2 (p_at p)
          (CoordinatorLoops g (cl_sync c) (cl_scheduler c)) d).

(** [Scheduler.Run]: a pass; an error is logged. *)
Definition scheduler_event (p : pass) (c : coordinator_loops) (d : deployment) : option deployment :=
  g ← turn 0 (p_at p) (p_fin p) (cl_scheduler c);
  Some (with_coordinator (job_pass (JReconcile md5 (Startup.co_scheduler co)) p d) (p_at p)
          (CoordinatorLoops (cl_maintenance c) (cl_sync c) g) d).

(** [StartAdvisorSync]: a pass, from the cursor the last one returned. *)
Definition sync_event (p : pass) (ws : website) (c : coordinator_loops) (d : deployment) : option deployment :=
  y ← cl_sync c;
  g ← turn 0 (p_at p) (p_fin p) (sy_go y);
  let (r, s) := call (lift (SyncAdvisor (HasAudit (Startup.co_api co)) ws (sy_since y) (sy_health y)))
                  (p_at p) (p_faults p) d in
  let (since, health) := match r with Ok x => x | Err _ => (sy_since y, sy_health y) end in
  Some (with_coordinator s (p_at p)
          (CoordinatorLoops (cl_maintenance c) (Some (Syncer g since health)) (cl_scheduler c)) d).

Definition coordinator_event (ev : event) (c : coordinator_loops) (d : deployment) : option deployment :=
  match ev with
  | Request_ now fs o e r =>
      not_before now d ≫= fun _ =>
      Some (with_coordinator (call (serve (Startup.co_api co) o e r) now fs d).2 now c d)
  | Maintain p => not_before (p_at p) d ≫= fun _ => maintenance_event p c d
  | Schedule p => not_before (p_at p) d ≫= fun _ => scheduler_event p c d
  | Sync p ws => not_before (p_at p) d ≫= fun _ => sync_event p ws c d
  | _ => None
  end.

Definition engine : AggConfig := Startup.ag_engine ag.

(** [Scorer.Run]: a pass; an error is logged. *)
Definition scorer_event (p : pass) (a : aggregator_loops) (d : deployment) : option deployment :=
  g ← turn 0 (p_at p) (p_fin p) (al_scorer a);
  Some (with_aggregator (job_pass JTrust p d) (p_at p) (set_scorer g a) d).

(** [Engine.Run]: [case <-ticker.C] up to and after the roll-up, which is
    skipped when [ComputeWindow] fails, and [case <-retention.C]. *)
Definition engine_window (p : pass) (now : Z) (a : aggregator_loops) (d : deployment) : option deployment :=
  if al_rolling a || (now <? p_at p) || (p_fin p <? now) then None
  else
    g ← turn 0 (p_at p) (p_fin p) (al_engine a);
    let start := window_start (window_duration engine) now in
    let (r, s) := call (lift (ComputeWindow engine start)) now (p_faults p) d in
    Some (with_aggregator s now (set_engine g (is_ok r) a) d).
Definition engine_rollup (p : pass) (a : aggregator_loops) (d : deployment) : option deployment :=
  if negb (al_rolling a) || (p_at p <? g_free (al_engine a)) || (p_fin p <? p_at p) then None
  else
    Some (with_aggregator (job_pass (JRollup marshal engine) p d) (p_at p)
            (set_engine (Goroutine false (p_fin p) (g_tickers (al_engine a))) false a) d).
Definition engine_retention (p : pass) (a : aggregator_loops) (d : deployment) : option deployment :=
  if al_rolling a then None
  else
    g ← turn 1 (p_at p) (p_fin p) (al_engine a);
    Some (with_aggregator (job_pass (JRetention engine) p d) (p_at p) (set_engine g false a) d).

(** [Publisher.Run]: [case <-drain.C] and [case <-telemetry.C]. *)
Definition publisher_drain (p : pass) (accepts : Z -> string -> json -> bool) (locked : Z -> bool) (a : aggregator_loops)
    (d : deployment) : option deployment :=
  q ← al_publisher a;
  g ← turn 0 (p_at p) (p_fin p) q;
  let (_, w) := DrainOnce accepts locked (World (Pub (sys_db (dp_sys d)) []) (p_at p) (p_faults p)) in
  Some (with_aggregator (set_sys_db (pub_db (w_db w)) (dp_sys d)) (p_at p) (set_publisher g a) d).
Definition publisher_telemetry (p : pass) (a : aggregator_loops) (d : deployment) : option deployment :=
  q ← al_publisher a;
  g ← turn 1 (p_at p) (p_fin p) q;
  Some (with_aggregator (job_pass (JTelemetry time_json) p d) (p_at p) (set_publisher g a) d).

Definition aggregator_event (ev : event) (a : aggregator_loops) (d : deployment) : option deployment :=
  match ev with
  | Score p => not_before (p_at p) d ≫= fun _ => scorer_event p a d
  | Window p now => not_before (p_at p) d ≫= fun _ => engine_window p now a d
  | Rollup_ p => not_before (p_at p) d ≫= fun _ => engine_rollup p a d
  | Retain p => not_before (p_at p) d ≫= fun _ => engine_retention p a d
  | Drain p accepts locked => not_before (p_at p) d ≫= fun _ => publisher_drain p accepts locked a d
  | Telemetry p => not_before (p_at p) d ≫= fun _ => publisher_telemetry p a d
  | _ => None
  end.

Definition step (ev : event) (d : deployment) : option deployment :=
  match ev with
  | StartCoordinator now pinged =>
      not_before now d ≫= fun _ =>
      if pinged <? now then None
      else
        c ← start_coordinator now pinged;
        Some (with_coordinator (Sys (sys_db (dp_sys d)) (sys_store (dp_sys d)) false None 0) now c d)
  | StartAggregator now =>
      not_before now d ≫= fun _ =>
      a ← start_aggregator now; Some (with_aggregator (dp_sys d) now a d)
  | Build now fs versionOf bcfg key minv publisher feed dump src =>
      not_before now d ≫= fun _ =>
      Some (Deployment (call (Run versionOf bcfg key minv publisher feed dump src) now fs d).2 now
              (dp_coordinator d) (dp_aggregator d))
  | Request_ _ _ _ _ _ | Maintain _ | Sync _ _ | Schedule _ => c ← dp_coordinator d; coordinator_event ev c d
  | Score _ | Window _ _ | Rollup_ _ | Retain _ | Drain _ _ _ | Telemetry _ => a ← dp_aggregator d; aggregator_event ev a d
  end.

Fixpoint run (evs : list event) (d : deployment) : option deployment :=
  match evs with
  | [] => Some d
  | ev :: evs' => d' ← step ev d; run evs' d'
  end.

(** * Lemmas *)
Lemma not_before_Some now d u : not_before now d = Some u -> dp_clock d <= now.
Proof. unfold not_before. destruct (Z.ltb_spec now (dp_clock d)); [done|]. intros _. lia. Qed.

Lemma call_service {A} (m : SM A) now fs d :
  (forall w a w', m w = (a, w') -> service (w_db w) (w_db w')) -> service (dp_sys d) (call m now fs d).2.
Proof.
  intros Hm. unfold call. destruct (m _) as [r w] eqn:E. exact (Hm _ _ _ E).
Qed.

Lemma call_inv {A} (m : SM A) now fs d r s : call m now fs d = (r, s) ->
  exists w, m (World (dp_sys d) now fs) = (r, w) /\ s = w_db w.
Proof. unfold call. destruct (m _) as [r1 w1]. intros [= <- <-]. eauto. Qed.
Ltac called :=
  match goal with H : call _ _ _ _ = _ |- _ => apply call_inv in H as (? & Hm & ->) end.

Lemma job_service j p d : service (dp_sys d) (job_pass j p d).
Proof. apply call_service. intros w a w'. apply sv_job. Qed.

Lemma sync_call ws since h now fs (s : sys) :
  w_db (lift (SyncAdvisor (HasAudit (Startup.co_api co)) ws since h) (World s now fs)).2 =
  w_db (lift (run_job (JSync (HasAudit (Startup.co_api co)) ws since h)) (World s now fs)).2.
Proof.
  unfold lift. simpl. unfold done, bindM, ret. cbn [w_db w_now w_faults].
  destruct (SyncAdvisor _ ws since h _) as [[]]; done.
Qed.

(** Open a step down to the guards of its loop. *)
Ltac open_step H :=
  simpl in H; unfold maintenance_event, scheduler_event, sync_event, scorer_event, engine_window, engine_rollup,
    engine_retention, publisher_drain, publisher_telemetry in H; accepted H.

(** Every event is at most one step of some service. *)
Lemma step_service ev d d' : step ev d = Some d' -> dp_sys d' = dp_sys d \/ service (dp_sys d) (dp_sys d').
Proof.
  intros H. destruct ev; open_step H; simpl; try (by left); right.
  - apply sv_start.
  - apply call_service. intros w a w'. apply sv_request.
  - apply call_service. intros w a w'. apply sv_build.
  - apply call_service. intros w a w'. apply sv_maintenance.
  - called. pose proof (sync_call ws (sy_since x1) (sy_health x1) (p_at p) (p_faults p) (dp_sys d)) as Hw.
    rewrite Hm in Hw. cbn [snd] in Hw. rewrite Hw.
    exact (sv_job (JSync _ _ _ _) (World (dp_sys d) _ _) _ _ (surjective_pairing _)).
  - apply job_service.
  - apply job_service.
  - called. exact (sv_job (JWindow engine _) (World (dp_sys d) _ _) _ _ Hm).
  - apply job_service.
  - apply job_service.
  - eapply sv_drain. eassumption.
  - apply job_service.
Qed.

Lemma run_service evs : forall d d', run evs d = Some d' -> rtc service (dp_sys d) (dp_sys d').
Proof.
  induction evs as [|ev evs IH]; intros d d' H; simpl in H; [injection H as <-; apply rtc_refl|].
  apply bind_Some in H as (d1 & H1 & H). destruct (step_service _ _ _ H1) as [E|Hs].
  - rewrite <- E. by apply IH.
  - eapply rtc_l; [exact Hs|]. by apply IH.
Qed.

(** * Which windows are settled, and when *)
Lemma window_start_spec W now : 0 < W ->
  window_start W now + W <= now < window_start W now + 2 * W /\ (window_start W now - zero_time) mod W = 0.
Proof. intros HW. unfold window_start. destruct (Truncate_spec (now - W) W HW). lia. Qed.

Lemma ComputeWindow_rows c start w r w' : ComputeWindow c start w = (r, w') ->
  forall x, In x (db_window (w_db w')) -> In x (db_window (w_db w)) \/ cw_start x = start.
Proof.
  intros E. set (R := fun (_ : Z) (d d' : database) => forall x, In x (db_window d') -> In x (db_window d) \/ cw_start x = start).
  assert (PreOrderAt R) as HR.
  { split; [by left|]. intros n d1 d2 d3 H1 H2 x Hx. apply H2 in Hx as [Hx|]; [by apply H1 | by right]. }
  assert (Respects R (ComputeWindow c start)) as H; [|exact (proj2 (H _ _ _ E))].
  unfold ComputeWindow, settle_windows, settle_agreement. respects; [|by left].
  intros x Hx. simpl in Hx. edestruct insert_windows_app as (new & Ei & Hn). rewrite Ei in Hx.
  apply in_app_iff in Hx as [?|Hx]; [by left|right]. apply Hn, in_map_iff in Hx as (ro & <- & _). done.
Qed.

Definition windows_of (d : deployment) : list window_row := db_window (sys_db (dp_sys d)).

Lemma call_windows {A} (m : SM A) now fs d x : Respects (OnDB NoNewWindows) m ->
  In x (db_window (sys_db (call m now fs d).2)) -> In x (windows_of d).
Proof. intros Hm. unfold call. destruct (m _) as [r w] eqn:E. apply Hm in E as [_ E]. apply E. Qed.

Lemma pass_windows j p d x : settles j = false -> In x (db_window (sys_db (job_pass j p d))) -> In x (windows_of d).
Proof. intros Hj. apply call_windows, respects_lift, job_windows, Hj. Qed.

Lemma sync_windows a ws since h : Respects (OnDB NoNewWindows) (lift (SyncAdvisor a ws since h)).
Proof.
  apply respects_lift, SyncAdvisor_respects_of; try apply _; [apply SyncProviders_windows | intros n d f x Hx; exact Hx].
Qed.

(** A row of the table after an event was there before, or the event is a tick
    of the engine that settled its window. *)
Lemma step_windows ev d d' x : step ev d = Some d' -> In x (windows_of d') ->
  In x (windows_of d) \/ exists p now, ev = Window p now /\ cw_start x = window_start (window_duration engine) now.
Proof.
  intros H. destruct ev; open_step H; unfold windows_of at 1; simpl; intros Hx; try (by left);
    try (left; eapply pass_windows; [|exact Hx]; reflexivity).
  - left. eapply call_windows; [|exact Hx]. apply serve_respects; apply _.
  - left. eapply call_windows; [|exact Hx]. apply Run_windows.
  - left. eapply call_windows; [|exact Hx]. apply maintenance_respects; apply _.
  - left. eapply call_windows; [apply sync_windows|]. match goal with H : call _ _ _ _ = _ |- _ => by rewrite H end.
  - called. unfold lift in Hm. destruct (ComputeWindow _ _ _) as [r1 w1] eqn:EC. injection Hm as <- <-. simpl in Hx.
    apply (ComputeWindow_rows _ _ _ _ _ EC) in Hx as [Hx|Hx]; [by left|right]. eauto.
  - left. match goal with H : DrainOnce _ _ _ = _ |- _ => exact (DrainOnce_windows _ _ _ _ _ _ _ _ H _ Hx) end.
Qed.

Lemma run_windows evs x : forall d d', run evs d = Some d' -> In x (windows_of d') ->
  In x (windows_of d) \/ exists p now, In (Window p now) evs /\ cw_start x = window_start (window_duration engine) now.
Proof.
  induction evs as [|ev evs IH]; intros d d' H Hx; simpl in H; [injection H as <-; by left|].
  apply bind_Some in H as (d1 & H1 & H). destruct (IH _ _ H Hx) as [Hx1|(p & now & Hin & E)].
  - destruct (step_windows _ _ _ _ H1 Hx1) as [?|(p & now & -> & E)]; [by left|right]. exists p, now. split; [by left|done].
  - right. exists p, now. split; [by right|done].
Qed.

(** C13: A window is settled in time or never.  In any run of the deployment,
    whatever else its services do, however late ticks are received and whenever
    the processes are restarted, a consensus window appears only through a tick
    of the engine whose clock is at least the end of the window and less than a
    window's length later; so a window during whose successor the engine did
    not tick (because it was down, late, or its statement failed) has no
    verdict, then or ever after. *)
Theorem window_settled_in_time evs d d' :
  run evs d = Some d' -> 0 < window_duration engine ->
  (forall x, In x (windows_of d') -> In x (windows_of d) \/
     exists p now, In (Window p now) evs /\ (cw_start x - zero_time) mod window_duration engine = 0 /\
       cw_start x + window_duration engine <= now < cw_start x + 2 * window_duration engine) /\
  (forall start, (forall x, In x (windows_of d) -> cw_start x <> start) ->
     (forall p now, In (Window p now) evs ->
        ~ (start + window_duration engine <= now < start + 2 * window_duration engine)) ->
     forall x, In x (windows_of d') -> cw_start x <> start).
Proof.
  intros H HW.
  assert (forall x, In x (windows_of d') -> In x (windows_of d) \/
     exists p now, In (Window p now) evs /\ (cw_start x - zero_time) mod window_duration engine = 0 /\
       cw_start x + window_duration engine <= now < cw_start x + 2 * window_duration engine) as Hall.
  { intros x Hx. destruct (run_windows _ _ _ _ H Hx) as [?|(p & now & Hin & E)]; [by left|right].
    exists p, now. rewrite E. destruct (window_start_spec _ now HW). auto. }
  split; [done|]. intros start Hold Hno x Hx <-. destruct (Hall x Hx) as [Hin|(p & now & Hin & _ & Hb)].
  - by apply (Hold x).
  - by apply (Hno p now).
Qed.

(** ** No window is left out while the engine keeps up *)
(** The clocks of the engine's ticks. *)
Definition ticks (evs : list event) : list Z := omap (fun ev => match ev with Window _ now => Some now | _ => None end) evs.
Definition starts_aggregator (ev : event) : bool := match ev with StartAggregator _ => true | _ => false end.

(** The engine, started at [t0], has ticked [k] times. *)
Definition engine_at (t0 : Z) (k : nat) (d : deployment) : Prop :=
  exists a tk, dp_aggregator d = Some a /\ g_first (al_engine a) = false /\ g_tickers (al_engine a) !! 0%nat = Some tk /\
    tk_period tk = window_duration engine /\ t0 + (Z.of_nat k + 1) * window_duration engine <= tk_next tk.

Lemma start_engine t0 d d' : step (StartAggregator t0) d = Some d' -> 0 < window_duration engine /\ engine_at t0 0 d'.
Proof.
  intros H. simpl in H. accepted H. unfold start_aggregator in E0. accepted E0.
  unfold spawn, NewTicker in E2. simpl in E2. fold engine in E2.
  destruct (Z.leb_spec (window_duration engine) 0); [done|]. simpl in E2. injection E2 as <-.
  split; [done|]. eexists _, _. split_and!; simpl; try reflexivity. cbn [tk_next]. lia.
Qed.

Lemma step_engine t0 k ev d d' : 0 < window_duration engine -> starts_aggregator ev = false ->
  step ev d = Some d' -> engine_at t0 k d ->
  match ev with
  | Window _ now => t0 + (Z.of_nat k + 1) * window_duration engine <= now /\ engine_at t0 (S k) d'
  | _ => engine_at t0 k d'
  end.
Proof.
  intros HW Hev H (a & tk & Ha & Hf & Ht & HP & Hn). destruct ev; simpl in H, Hev; try done; rewrite ?Ha in H;
    open_step H; unfold engine_at; simpl; try (exists a, tk; done); try (eexists _, tk; done).
  - btrue. destruct (turn_tick _ _ _ _ _ E1 Hf Ht) as (Hat & Hf' & tk' & Ht' & HP' & Hn'); [lia|].
    assert (p_at p <= now) as Hnow by (destruct (al_rolling a); [done|]; destruct (Z.ltb_spec now (p_at p)); [done|lia]).
    split; [lia|]. eexists _, tk'. split_and!; simpl; try done; [congruence|]. rewrite HP in Hn'. lia.
  - destruct (turn_other _ _ _ _ _ E1 Hf) as [Hf' Ht']. eexists _, tk. split_and!; [reflexivity|done|by simpl; rewrite Ht'|done..].
Qed.

Lemma ticks_in_order t0 evs : 0 < window_duration engine -> forall k d d', engine_at t0 k d -> run evs d = Some d' ->
  forallb (fun ev => negb (starts_aggregator ev)) evs = true ->
  forall i now, ticks evs !! i = Some now -> t0 + (Z.of_nat (k + i) + 1) * window_duration engine <= now.
Proof.
  intros HW. induction evs as [|ev evs IH]; intros k d d' He H Hs i now Hi; [done|].
  simpl in H, Hs. apply bind_Some in H as (d1 & H1 & H). apply andb_true_iff in Hs as [Hs1%negb_true_iff Hs].
  pose proof (step_engine _ _ _ _ _ HW Hs1 H1 He) as Hst.
  destruct ev; try (exact (IH _ _ _ Hst H Hs i now Hi)).
  destruct Hst as [Hnow He1]. destruct i as [|i]; simpl in Hi.
  - injection Hi as <-. by rewrite Nat.add_0_r.
  - pose proof (IH _ _ _ He1 H Hs i now Hi). rewrite Nat.add_succ_r. exact H0.
Qed.


(** A tick whose statements succeed leaves a verdict for every provider and
    region that was measured in its window. *)
Theorem tick_settles p now d d' r :
  step (Window p now) d = Some d' -> p_faults p = [] ->
  let start := window_start (window_duration engine) now in
  In r (provider_rollup start (start + window_duration engine) (sys_db (dp_sys d))) ->
  exists x, In x (windows_of d') /\ cw_start x = start /\ cw_provider x = ro_provider r /\ cw_region x = ro_region r.
Proof.
  intros H Hf. cbv zeta. open_step H. set (start := window_start (window_duration engine) now) in *. intros Hr.
  match goal with E : call _ _ _ _ = _ |- _ => unfold call, lift, ComputeWindow, settle_windows, settle_agreement in E;
    rewrite Hf in E; injection E as <- <- end.
  unfold windows_of. simpl. set (f := window_of _ _ _ _).
  destruct (insert_windows_covers (map f (provider_rollup start (start + window_duration engine) (sys_db (dp_sys d))))
    (db_window (sys_db (dp_sys d))) (f r)) as (y & Hy & Hk).
  { apply in_map_iff. eauto. }
  exists y. split; [exact Hy|]. unfold window_key, f in Hk. simpl in Hk. injection Hk as -> -> _ -> _. done.
Qed.

(** * The loops of running processes *)
(** A process whose [main] reached its loops starts all of them. *)
Lemma spawn_positive first periods now : Forall (fun P => 0 < P) periods -> is_Some (spawn first periods now).
Proof.
  intros H. unfold spawn. assert (is_Some (mapM (fun d => NewTicker d now) periods)) as [l ->]; [|by eexists].
  apply mapM_is_Some, Forall_forall. intros P HP. rewrite Forall_forall in H. apply H in HP. unfold NewTicker. simpl.
  destruct (Z.leb_spec P 0); [lia|eauto].
Qed.

Lemma coordinator_loops_start now pinged :
  0 < Startup.co_schedInterval co -> (forall u t i, Startup.co_advisor co = Some (u, t, i) -> 0 < i) ->
  is_Some (start_coordinator now pinged).
Proof.
  intros Hs Hi. unfold start_coordinator. destruct (spawn_positive false [Minute] now) as [m ->]; [by repeat constructor|].
  simpl. destruct (spawn_positive true [Startup.co_schedInterval co] now) as [g ->]; [by repeat constructor|].
  destruct (Startup.co_advisor co) as [[[u t] i]|] eqn:E; simpl; [|eauto].
  destruct (spawn_positive true [i] pinged) as [y ->]; [constructor; [by eapply Hi|constructor]|]. simpl. eauto.
Qed.

Lemma aggregator_loops_start now :
  0 < Startup.ag_trustInterval ag -> 0 < window_duration engine -> is_Some (start_aggregator now).
Proof.
  intros Ht Hw. unfold start_aggregator. fold engine.
  destruct (spawn_positive true [Startup.ag_trustInterval ag] now) as [s ->]; [by repeat constructor|].
  destruct (spawn_positive false [window_duration engine; 6 * Hour] now) as [e ->]; [by repeat constructor|].
  destruct (spawn_positive false [15 * Second; 5 * Minute] now) as [q ->]; [by repeat constructor|].
  destruct (Startup.ag_publisher ag); by eexists.
Qed.

(** The synchronization's cursor. *)
Definition cursor_of (d : deployment) : option (option Z) := c ← dp_coordinator d; sy_since <$> cl_sync c.
Definition starts_coordinator (ev : event) : bool := match ev with StartCoordinator _ _ => true | _ => false end.

Lemma cursor_le_trans a b c : cursor_le a b -> cursor_le b c -> cursor_le a c.
Proof. destruct a, b, c; simpl; try done; lia. Qed.

Lemma step_cursor ev d d' c : step ev d = Some d' -> starts_coordinator ev = false -> cursor_of d = Some c ->
  exists c', cursor_of d' = Some c' /\ cursor_le c c'.
Proof.
  intros H Hev Hc. assert (cursor_le c c) as Hr by (destruct c; simpl; lia).
  destruct ev; simpl in Hev; try done; open_step H; unfold cursor_of in *; simpl; try (by exists c);
    match goal with E : dp_coordinator _ = Some _ |- _ => rewrite E in Hc; simpl in Hc | _ => idtac end;
    try (by exists c).
  match goal with E : cl_sync _ = Some _ |- _ => rewrite E in Hc end. injection Hc as <-. called.
  unfold lift in Hm. cbn [w_db w_now w_faults] in Hm.
  destruct (sync_cursor (HasAudit (Startup.co_api co)) ws (sy_since x1) (sy_health x1)
    (World (sys_db (dp_sys d)) (p_at p) (p_faults p))) as (cur & h & w' & Es & Hle & _).
  rewrite Es in Hm. injection Hm as <- _. simplify_eq/=. eauto.
Qed.

(** While the coordinator runs, the cursor of its decision feed only moves
    forward, through every pass and whatever the website answers. *)
Theorem cursor_advances evs : forall d d' c, run evs d = Some d' ->
  forallb (fun ev => negb (starts_coordinator ev)) evs = true -> cursor_of d = Some c ->
  exists c', cursor_of d' = Some c' /\ cursor_le c c'.
Proof.
  induction evs as [|ev evs IH]; intros d d' c H Hs Hc; simpl in H, Hs.
  { injection H as <-. exists c. split; [done|]. destruct c; simpl; lia. }
  apply bind_Some in H as (d1 & H1 & H). apply andb_true_iff in Hs as [Hs1%negb_true_iff Hs].
  destruct (step_cursor _ _ _ _ H1 Hs1 Hc) as (c1 & Hc1 & Hle). destruct (IH _ _ _ H Hs Hc1) as (c2 & Hc2 & Hle2).
  exists c2. split; [done|]. by eapply cursor_le_trans.
Qed.

End Loops.

(** * From the environment to the loops *)
Section Processes.
Context {dt : Config.DurationText} (Quote : string -> string) (LookupEnv : string -> option string)
  (Connect : string -> Z -> bool * Z) (timer_first : Z -> bool) (start : Z) (new_s3 : Config.S3Config -> bool)
  (open_asn : string -> option (addr -> option Z)) (listens : string -> bool) (get_self : string -> option Z).

(** Every loop of a process that [main] left running has a ticker: a period
    that is not positive has ended the process before. *)
Theorem running_loops_start args now pinged :
  (forall co, Startup.coordinator_main Quote LookupEnv Connect timer_first start new_s3 open_asn listens get_self args =
     Startup.Running co -> is_Some (start_coordinator co now pinged)) /\
  (forall ag, Startup.aggregator_main Quote LookupEnv Connect timer_first start listens get_self args =
     Startup.Running ag -> is_Some (start_aggregator ag now)).
Proof.
  split.
  - intros co H. unfold Startup.coordinator_main in H. repeat case_match; try discriminate H; injection H as <-.
    all: apply coordinator_loops_start; simpl; [lia|]; intros u t i [=]; lia.
  - intros ag H. unfold Startup.aggregator_main in H. repeat case_match; try discriminate H; injection H as <-.
    all: apply aggregator_loops_start; simpl; unfold engine; simpl; lia.
Qed.
End Processes.

(** * Concrete runs *)
Module ToyLoops.
Import Toy ToyUpload ToyServer ToyArtifact ToyGeo ToyBuilder.
Definition co : Startup.coordinator :=
  Startup.MkCoordinator (MkConfig "secret" true "" 0 0 None 0) (MkSchedConfig 2 0 0 0 0) (30 * Second) None.
Definition ag : Startup.aggregator := Startup.MkAggregator Minute sample_cfg (Some ("https://site", "token")).
(** Measurements in the windows that start at 0 and at 300 s. *)
Definition measured : database :=
  set_observation (fun t => t ++ [sample "w1" true (310 * Second); sample "w2" true (320 * Second)]) sampled_db.
Definition idle : deployment := Deployment (Sys measured ∅ false None 0) 0 None None.
Definition play (evs : list event) : option deployment :=
  run (cr := toy_crypto) co ag (fun s => s) plain_marshal (fun t => int_json t) evs idle.
Definition tick (at_ : Z) : event := Window (Pass (at_ * Second) ((at_ + 1) * Second) []) (at_ * Second).
Definition roll (at_ : Z) : event := Rollup_ (Pass (at_ * Second) ((at_ + 1) * Second) []).
(** The engine starts a second before a boundary and ticks on time. *)
Definition punctual : list event := [tick 599; roll 600; tick 899; roll 900].
(** The same with a second tick that is two seconds late. *)
Definition delayed : list event := [tick 599; roll 600; tick 901; roll 902].
Definition after_delay : option deployment := play (StartAggregator (299 * Second) :: delayed).
End ToyLoops.
Import Toy ToyUpload ToyServer ToyArtifact ToyGeo ToyBuilder.

Lemma window_settled_in_time_witness :
  (map cw_start ∘ windows_of <$> ToyLoops.after_delay) = Some [0; 0] /\
  match ToyLoops.after_delay with
  | Some d => forall x, In x (windows_of d) -> cw_start x <> 300 * Second
  | None => False
  end.
Proof.
  split; [vm_compute; reflexivity|].
  pose proof (window_settled_in_time (cr := toy_crypto) ToyLoops.co ToyLoops.ag (fun s => s) plain_marshal (fun t => int_json t)
    (StartAggregator (299 * Second) :: ToyLoops.delayed) ToyLoops.idle) as H.
  unfold ToyLoops.after_delay, ToyLoops.play. destruct (run _ _ _ _ _ _ _) as [d|] eqn:E; [|vm_compute in E; discriminate E].
  refine (proj2 (H d eq_refl _) (300 * Second) _ _); [vm_compute; reflexivity | intros x Hx; vm_compute in Hx; destruct Hx |].
  intros p now [Hx|[Hx|[Hx|[Hx|[Hx|[]]]]]]; try discriminate Hx; injection Hx as <- <-; vm_compute; intros [H1 H2];
    first [discriminate H2 | apply H1; reflexivity].
Defined.


