(* ===== verification/WorkerLoops.v ===== *)
(** The loops of the worker process: [Agent.Run] of [internal/worker/agent.go],
    [Executor.Run], [probeLoop] and [uploader] of
    [internal/worker/executor.go], paced by the tickers of Ticker.

    An [event] is one pass of one of the process's goroutines, its start, or
    its end; [run] accepts exactly the sequences the loops can produce.  A
    panic ends the process: after it only a new start follows. *)
From stdpp Require Import base gmap strings list.
From Stdlib Require Import ZArith QArith Lia.
From S2P Require Import Prelude Netip Schema Wireauth StateDir Probe Client Executor Agent Ticker.
From S2P Require Upload Observation Artifact.
Import Observation(ObservationJSON).
Import Artifact(ManifestJSON).
Open Scope Z_scope.

(** Where [Agent.Run] is: before its loop, in it, or returned. *)
Inductive agent_phase : Type := Starting | Ticking (g : goroutine) | Exited.

(** [pr_probes]: the measurement goroutines past their jitter. *)
Record process {cr : Crypto} (N : Type) : Type := Process {
  pr_worker : worker N; pr_clock : Z; pr_agent : agent_phase;
  pr_lease : option goroutine; pr_upload : option goroutine; pr_probes : gmap nat goroutine
}.
Arguments Process {cr N}.
Arguments pr_worker {cr N}.
Arguments pr_clock {cr N}.
Arguments pr_agent {cr N}.
Arguments pr_lease {cr N}.
Arguments pr_upload {cr N}.
Arguments pr_probes {cr N}.

(** [NewExecutor]: the intervals of the executor's loops. *)
Definition LeaseInterval : Z := 60 * Second.
Definition FlushInterval : Z := 30 * Second.

Section WorkerLoops.
Context {cr : Crypto} {tm : TimeText} {sc : SeedCrypto} {oj : ObservationJSON} {mj : ManifestJSON}
  {addr_text : Upload.AddrText} {sj : StatusJSON} {sr : SQLiteReader} {mo : MapOrder}
  {N : Type} {nw : Network N} {cj : ClientJSON} {ut : URLText}.
Variables (cfg : AgentConfig) (HeartbeatInterval : Z) (Version : string).
Context {E : Type} (registry : Probe.Registry E).

Inductive event : Type :=
| Boot (now : Z) (faults : list bool)
| Enroll (now : Z) (faults : list bool) (cancelled : nat -> bool)
| Begin (now : Z)
| Tick (p : pass) (rnd : string)
| StartExecutor (now : Z)
| Lease (p : pass)
| Jitter (g : nat) (now : Z)
| Execute (g : nat) (p : pass) (env : E) (measured : Z)
| DropOldest (g : nat) (now : Z)
| Resend_ (g : nat) (now : Z)
| Return (g : nat) (now : Z)
| Receive (p : pass) (rounds : nat -> round)
| FlushTick (p : pass) (rounds : nat -> round)
| Stop (p : pass) (rounds : nat -> round)
| Outside (n : N) (draws : list string).

Definition heartbeat_interval : Z := if HeartbeatInterval =? 0 then 30 * Second else HeartbeatInterval.
Definition probe_interval (a : Assignment) : Z := int64 (as_IntervalSeconds a * Second).

(** The executor of a process that has not panicked. *)
Definition alive (s : process N) : option Executor :=
  e ← ag_executor (wk_agent (pr_worker s)); if ex_crashed e then None else Some e.
Definition not_before (now : Z) (s : process N) : option unit := if now <? pr_clock s then None else Some tt.

Definition set_worker (d : worker N) (now : Z) (s : process N) : process N :=
  Process d now (pr_agent s) (pr_lease s) (pr_upload s) (pr_probes s).
Definition set_phase_of (a : agent_phase) (s : process N) : process N :=
  Process (pr_worker s) (pr_clock s) a (pr_lease s) (pr_upload s) (pr_probes s).
Definition set_executor_loops (l u : option goroutine) (s : process N) : process N :=
  Process (pr_worker s) (pr_clock s) (pr_agent s) l u (pr_probes s).
Definition set_probes (f : gmap nat goroutine -> gmap nat goroutine) (s : process N) : process N :=
  Process (pr_worker s) (pr_clock s) (pr_agent s) (pr_lease s) (pr_upload s) (f (pr_probes s)).

Definition on_worker {A} (m : M (worker N) A) (now : Z) (fs : list bool) (s : process N) : result A * worker N :=
  let (r, w) := m (World (pr_worker s) now fs) in (r, w_db w).

(** The goroutine is at its [select] and its context is cancelled. *)
Definition returns (g : nat) (e : Executor) : bool :=
  match ex_loops e !! g with Some (Loop _ _ true Idle) => true | _ => false end.

(** [Agent.Run]: the registration before the loop, the ticker, a tick, and
    [ctx.Done()] with what it makes the executor's loops do. *)
Definition agent_event (ev : event) (s : process N) : option (process N) :=
  match ev, pr_agent s with
  | Enroll now fs cancelled, Starting =>
      if negb (bool_decide (c_WorkerID (wk_client (pr_worker s)) = "")) then None
      else
        let (r, d) := on_worker (register cfg Version cancelled) now fs s in
        Some (set_phase_of (if is_ok r then Starting else Exited) (set_worker d now s))
  | Begin now, Starting =>
      if bool_decide (c_WorkerID (wk_client (pr_worker s)) = "") then None
      else g ← spawn true [heartbeat_interval] now; Some (set_phase_of (Ticking g) (set_worker (pr_worker s) now s))
  | Tick p rnd, Ticking g =>
      g' ← turn 0 (p_at p) (p_fin p) g;
      Some (set_phase_of (Ticking g') (set_worker (on_worker (tick cfg Version rnd) (p_at p) (p_faults p) s).2 (p_at p) s))
  | Stop p rounds, Ticking _ =>
      let d := if ag_started (wk_agent (pr_worker s))
               then (on_worker (do! stopAll ;; shutdown rounds) (p_at p) (p_faults p) s).2
               else pr_worker s in
      Some (set_executor_loops None None (set_phase_of Exited (set_worker d (p_at p) s)))
  | _, _ => None
  end.

(** [Executor.Run]: its start, which also starts the uploader, and a lease
    pass. *)
Definition executor_event (ev : event) (s : process N) : option (process N) :=
  match ev with
  | StartExecutor now =>
      if is_some (pr_lease s) then None
      else
        l ← spawn true [LeaseInterval] now;
        u ← spawn false [FlushInterval] now;
        Some (set_executor_loops (Some l) (Some u) (set_worker (pr_worker s) now s))
  | Lease p =>
      l ← pr_lease s;
      l' ← turn 0 (p_at p) (p_fin p) l;
      Some (set_executor_loops (Some l') (pr_upload s)
              (set_worker (on_worker (lease registry) (p_at p) (p_faults p) s).2 (p_at p) s))
  | _ => None
  end.

(** [probeLoop]: the end of the jitter, a measurement with the channel
    operations of a full queue, and the return of a cancelled goroutine. *)
Definition probe_event (ev : event) (e : Executor) (s : process N) : option (process N) :=
  match ev with
  | Jitter g now =>
      l ← ex_loops e !! g;
      if lp_cancelled l || is_some (pr_probes s !! g) then None
      else
        go ← spawn true [probe_interval (lp_assignment l)] now;
        Some (set_probes (<[g := go]>) (set_worker (pr_worker s) now s))
  | Execute g p env measured =>
      if (measured <? p_at p) || (p_fin p <? measured) then None
      else
        l ← ex_loops e !! g;
        match lp_phase l with
        | Idle =>
            go ← pr_probes s !! g;
            go' ← turn 0 (p_at p) (p_fin p) go;
            Some (set_probes (<[g := go']>)
                    (set_worker (with_exec (execute registry g env measured e) (pr_worker s)) (p_at p) s))
        | _ => None
        end
  | DropOldest g now => Some (set_worker (with_exec (drop_oldest g e) (pr_worker s)) now s)
  | Resend_ g now => Some (set_worker (with_exec (resend g e) (pr_worker s)) now s)
  | Return g now =>
      if negb (returns g e) then None
      else Some (set_probes (delete g) (set_worker (with_exec (finish g e) (pr_worker s)) now s))
  | _ => None
  end.

(** [uploader]: [case obs := <-e.queue] and [case <-ticker.C]. *)
Definition uploader_event (ev : event) (e : Executor) (s : process N) : option (process N) :=
  match ev with
  | Receive p rounds =>
      u ← pr_upload s;
      if (p_at p <? g_free u) || (p_fin p <? p_at p) || bool_decide (ex_queue e = []) then None
      else
        Some (set_executor_loops (pr_lease s) (Some (Goroutine false (p_fin p) (g_tickers u)))
                (set_worker (on_worker (Executor.receive rounds) (p_at p) (p_faults p) s).2 (p_at p) s))
  | FlushTick p rounds =>
      u ← pr_upload s;
      u' ← turn 0 (p_at p) (p_fin p) u;
      Some (set_executor_loops (pr_lease s) (Some u')
              (set_worker (on_worker (flush rounds) (p_at p) (p_faults p) s).2 (p_at p) s))
  | _ => None
  end.

(** The events of a process that has not panicked; those of the executor's
    goroutines come once the agent has started it. *)
Definition live_event (ev : event) (e : Executor) (s : process N) : option (process N) :=
  match ev with
  | Enroll _ _ _ | Begin _ | Tick _ _ | Stop _ _ => agent_event ev s
  | _ =>
      if negb (ag_started (wk_agent (pr_worker s))) then None
      else match ev with
      | StartExecutor _ | Lease _ => executor_event ev s
      | Receive _ _ | FlushTick _ _ => uploader_event ev e s
      | _ => probe_event ev e s
      end
  end.

Definition time_of (ev : event) (s : process N) : Z :=
  match ev with
  | Boot now _ | Enroll now _ _ | Begin now | StartExecutor now | Jitter _ now | DropOldest _ now | Resend_ _ now
  | Return _ now => now
  | Tick p _ | Lease p | Execute _ p _ _ | Receive p _ | FlushTick p _ | Stop p _ => p_at p
  | Outside _ _ => pr_clock s
  end.

(** [Boot] is a start that reaches [Agent.Run]: the directory stays, the
    goroutines of an earlier process are gone. *)
Definition step (ev : event) (s : process N) : option (process N) :=
  not_before (time_of ev s) s ≫= fun _ =>
  match ev with
  | Boot now fs =>
      match NewAgent cfg (World (wk_disk (pr_worker s)) now fs) with
      | (Ok c, w) => Some (Process (boot (w_db w) (wk_net (pr_worker s)) c) now Starting None None ∅)
      | (Err _, _) => None
      end
  | Outside n ds =>
      let d := pr_worker s in
      Some (set_worker (MkWorker (Disk (files (wk_disk d)) ds) (wk_client d) (wk_agent d) n) (pr_clock s) s)
  | _ => e ← alive s; live_event ev e s
  end.

Fixpoint run (evs : list event) (s : process N) : option (process N) :=
  match evs with
  | [] => Some s
  | ev :: evs' => s' ← step ev s; run evs' s'
  end.

(** * The loops refine the interleavings of Agent *)
#[local] Abbreviation pstep := (pstep cfg Version registry).

Lemma on_worker_inv {A} (m : M (worker N) A) now fs s r d : on_worker m now fs s = (r, d) ->
  exists w, m (World (pr_worker s) now fs) = (r, w) /\ d = w_db w.
Proof. unfold on_worker. destruct (m _) as [r1 w1]. intros [= <- <-]. eauto. Qed.

Lemma estep_pstep t d t' d' : ag_started (wk_agent d) = true -> estep registry (t, d) (t', d') -> rtc pstep d d'.
Proof. intros Hs H. apply rtc_once. by eapply PS_exec. Qed.

(** The executor's steps do not stop the executor. *)
Definition SameStarted (_ : Z) (d d' : worker N) : Prop := ag_started (wk_agent d') = ag_started (wk_agent d).
#[local] Instance SameStarted_preorder : PreOrderAt SameStarted.
Proof. split; unfold SameStarted; congruence. Qed.
#[local] Instance SameStarted_indifferent : Indifferent SameStarted.
Proof. intros n w w' _ _ H. unfold SameStarted. by rewrite H. Qed.

Lemma mutate_exec_started f : Respects SameStarted (mutate_exec (N := N) f).
Proof. unfold mutate_exec. process. done. Qed.
Lemma lease_started : Respects SameStarted (lease registry).
Proof.
  unfold lease, look_exec, LeaseAssignments, start_one, targetInSnapshot. process; try apply mutate_exec_started.
  unfold look_exec. process.
Qed.
Lemma stopAll_started : Respects SameStarted (stopAll (N := N)).
Proof. apply mutate_exec_started. Qed.
Lemma flush_started rounds : Respects SameStarted (flush (N := N) rounds).
Proof.
  assert (forall fuel rds, Respects SameStarted (flush_loop (N := N) fuel rds)) as HF.
  { induction fuel as [|fuel IH]; intros rds; cbn [flush_loop]; [process|].
    unfold look_exec, UploadObservations. process; auto using mutate_exec_started. }
  unfold flush, look_exec. process. apply HF.
Qed.

Lemma estep_started x y : estep registry x y -> ag_started (wk_agent y.2) = ag_started (wk_agent x.2).
Proof.
  destruct 1; simpl; try done.
  - by apply lease_started in H as [_ H].
  - by apply stopAll_started in H as [_ H].
  - by apply flush_started in H0 as [_ H0].
Qed.

Lemma esteps_psteps x y : rtc (estep registry) x y -> ag_started (wk_agent x.2) = true -> rtc pstep x.2 y.2.
Proof.
  induction 1 as [x|x y z H _ IH]; intros Hs; [apply rtc_refl|].
  etrans; [|apply IH; by rewrite (estep_started _ _ H)]. destruct x, y. by eapply estep_pstep.
Qed.

Lemma with_exec_run f e (d : worker N) now fs : ag_executor (wk_agent d) = Some e ->
  mutate_exec f (World d now fs) = (Ok tt, World (with_exec (f e) d) now fs).
Proof. intros He. by apply mutate_with. Qed.

Lemma alive_exec s e : alive s = Some e -> ag_executor (wk_agent (pr_worker s)) = Some e.
Proof. unfold alive. intros (e0 & He & H)%bind_Some. destruct (ex_crashed e0); congruence. Qed.

Lemma stop_steps rounds e d now fs r w' : ag_executor (wk_agent d) = Some e -> ag_started (wk_agent d) = true ->
  (do! stopAll ;; shutdown rounds) (World d now fs) = (r, w') -> rtc pstep d (w_db w').
Proof.
  intros He Hs H. unfold bindM in H. destruct (stopAll (World d now fs)) as [r1 w1] eqn:E1.
  assert (estep registry (no_trail, d) (no_trail, w_db w1)) as H1 by (by eapply ES_stop).
  assert (rtc pstep d (w_db w1)) as Hr1 by (by eapply estep_pstep).
  destruct r1 as [[]|]; [|by simplify_eq]. etrans; [exact Hr1|].
  unfold stopAll in E1. rewrite (with_exec_run _ e) in E1 by done. injection E1 as <-. simpl in *.
  edestruct (shutdown_steps registry no_trail) as (t' & Hsh); [by eapply with_exec_exec|exact H|].
  apply (esteps_psteps _ _ Hsh). done.
Qed.

Lemma live_refines ev e s s' : alive s = Some e -> live_event ev e s = Some s' -> rtc pstep (pr_worker s) (pr_worker s').
Proof.
  intros Ha H. pose proof (alive_exec _ _ Ha) as He.
  assert (forall A (m : M (worker N) A) now fs, (forall r w', m (World (pr_worker s) now fs) = (r, w') ->
    rtc pstep (pr_worker s) (w_db w')) -> rtc pstep (pr_worker s) (on_worker m now fs s).2) as Hon.
  { intros A m now fs Hm. unfold on_worker. destruct (m _) as [r w] eqn:E0. by eapply Hm. }
  destruct (ag_started (wk_agent (pr_worker s))) eqn:Hs;
    destruct ev; simpl in H; try done; repeat (accepted H; try (case_match; try discriminate H)); try discriminate H; simpl; try discriminate Hs; try (by apply rtc_refl);
    try (apply Hon; intros r w' Em; first [ by eapply rtc_once, PS_tick | by eapply (estep_pstep no_trail), ES_lease ]);
    try match goal with E : on_worker _ _ _ _ = _ |- _ => apply on_worker_inv in E as (? & Em & ->); by eapply rtc_once, PS_register end;
    try (exfalso; match goal with E : _ = false |- _ => rewrite Hs in E; discriminate E end).
  - by eapply (estep_pstep no_trail), ES_execute.
  - by eapply (estep_pstep no_trail), ES_drop.
  - by eapply (estep_pstep no_trail), ES_resend.
  - by eapply (estep_pstep no_trail), ES_finish.
  - apply Hon. intros r w' Em. destruct (receive_steps registry no_trail _ _ _ _ _ _ _ He Em) as (t & Hr). by apply (esteps_psteps _ _ Hr).
  - apply Hon. intros r w' Em. destruct (flush_steps registry no_trail (pr_worker s) (p_at p) (p_faults p) e rounds He) as (b & w1 & t' & Hf & Hst).
    rewrite Em in Hf. injection Hf as -> ->. by eapply estep_pstep.
  - apply Hon. intros r w' Em. by eapply stop_steps.
Qed.

Lemma step_refines ev s s' : step ev s = Some s' -> rtc pstep (pr_worker s) (pr_worker s').
Proof.
  intros H. unfold step in H. apply bind_Some in H as (u & _ & H).
  destruct ev; try (apply bind_Some in H as (e & Ha & H); by eapply live_refines).
  - destruct (NewAgent _ _) as [[c|] w] eqn:EN; [|done]. injection H as <-. simpl. by eapply rtc_once, PS_restart.
  - injection H as <-. simpl. apply rtc_once, PS_outside.
Qed.

Lemma run_refines evs : forall s s', run evs s = Some s' -> rtc pstep (pr_worker s) (pr_worker s').
Proof.
  induction evs as [|ev evs IH]; intros s s' H; simpl in H; [by injection H as <-|].
  apply bind_Some in H as (s1 & H1 & H). etrans; [by eapply step_refines|by apply IH].
Qed.

Lemma rtc_reached d0 h d d' : reached cfg Version registry d0 h d -> rtc pstep d d' ->
  exists h', reached cfg Version registry d0 h' d'.
Proof.
  intros Hr H. revert h Hr. induction H as [d|d d1 d' H1 _ IH]; intros h Hr; [eauto|].
  eapply IH. by eapply reached_step.
Qed.

(** * How often a target is probed *)
(** The measurements of goroutine [g]. *)
Definition passes_of (g : nat) (evs : list event) : list (Z * Z) :=
  omap (fun ev => match ev with
                  | Execute g' p _ _ => if Nat.eqb g' g then Some (p_at p, p_fin p) else None
                  | _ => None
                  end) evs.
(** Neither a restart nor a new goroutine under the same name. *)
Definition same_life (g : nat) (ev : event) : bool :=
  match ev with Boot _ _ => false | Jitter g' _ => negb (Nat.eqb g' g) | _ => true end.

Lemma step_probe g ev s s' : step ev s = Some s' -> same_life g ev = true ->
  match passes_of g [ev] with
  | [] => pr_probes s' !! g = pr_probes s !! g \/ pr_probes s' !! g = None
  | (at_, fin) :: _ => exists go go', pr_probes s !! g = Some go /\ turn 0 at_ fin go = Some go' /\ pr_probes s' !! g = Some go'
  end.
Proof.
  intros H Hl. unfold step in H. apply bind_Some in H as (u & _ & H).
  destruct ev; simpl in Hl; try discriminate Hl; try (injection H as <-; by left);
    apply bind_Some in H as (e & _ & H); simpl in H;
    repeat (progress (accepted H; try match type of H with
      | match ?x with _ => _ end = Some _ => destruct x eqn:?; try discriminate H end)); try discriminate H; simpl; try (by left).
  - apply negb_true_iff, Nat.eqb_neq in Hl. left. by rewrite lookup_insert_ne.
  - destruct (Nat.eqb_spec g0 g) as [->|Hn]; simpl; [|left; by rewrite lookup_insert_ne].
    eexists _, _. split; [eassumption|]. split; [eassumption|]. by rewrite lookup_insert_eq.
  - destruct (decide (g0 = g)) as [->|Hn]; [right; by rewrite lookup_delete_eq | left; by rewrite lookup_delete_ne].
Qed.

Lemma run_probe g evs : forall s s', run evs s = Some s' -> forallb (same_life g) evs = true ->
  match pr_probes s !! g with
  | Some go => exists go', turns (passes_of g evs) go = Some go'
  | None => passes_of g evs = []
  end.
Proof.
  induction evs as [|ev evs IH]; intros s s' H Hl; [destruct (_ !! _); simpl; eauto|].
  simpl in H, Hl. apply bind_Some in H as (s1 & H1 & H). apply andb_true_iff in Hl as [Hl1 Hl].
  pose proof (step_probe _ _ _ _ H1 Hl1) as Hst. specialize (IH _ _ H Hl).
  change (ev :: evs) with ([ev] ++ evs). unfold passes_of in *. rewrite omap_app. fold (passes_of g [ev]) in *.
  destruct (passes_of g [ev]) as [|[a f] l] eqn:Ep.
  - simpl. destruct Hst as [E0|E0]; rewrite E0 in IH; [done|]. rewrite IH. destruct (pr_probes s !! g); simpl; eauto.
  - assert (l = []) as -> by (destruct ev; simpl in Ep; try done; destruct (Nat.eqb _ _); by simplify_eq).
    destruct Hst as (go & go' & Hg & Ht & Hg'). rewrite Hg, Hg' in *. simpl. rewrite Ht. exact IH.
Qed.

Lemma passes_app g l1 l2 : passes_of g (l1 ++ l2) = passes_of g l1 ++ passes_of g l2.
Proof. apply omap_app. Qed.

Lemma passes_execute g p env m : passes_of g [Execute g p env m] = [(p_at p, p_fin p)].
Proof. unfold passes_of. simpl. by rewrite Nat.eqb_refl. Qed.

Lemma jitter_spawns g t0 s s' : step (Jitter g t0) s = Some s' -> exists e l go,
  alive s = Some e /\ ex_loops e !! g = Some l /\ spawn true [probe_interval (lp_assignment l)] t0 = Some go /\
  pr_probes s' !! g = Some go.
Proof.
  intros H. unfold step in H. apply bind_Some in H as (u & _ & H). apply bind_Some in H as (e & Ha & H).
  simpl in H. accepted H. exists e, x, x0. simpl. by rewrite lookup_insert_eq.
Qed.


(** What holds of every interleaving of the process's steps holds of its
    loops; in particular they only probe targets that a snapshot signed with
    the pinned key lists. *)
Theorem loops_probe_listed {sl : SeedLaws} {mol : MapOrderLaws} s s' evs e g l :
  Booted cfg (pr_worker s) -> run evs s = Some s' ->
  ag_executor (wk_agent (pr_worker s')) = Some e -> ex_loops e !! g = Some l ->
  exists c lst, vouched (SnapshotPubKey cfg) c /\ sqlite_targets c = Some lst /\ as_Target (lp_assignment l) ∈ lst.
Proof.
  intros HB H%run_refines He Hg.
  destruct (rtc_reached _ _ _ _ (reached_start cfg Version registry (pr_worker s)) H) as (h & Hr).
  destruct (reached_PInv cfg Version registry _ _ _ HB Hr) as (Hv & _ & _ & e' & He' & _ & Hl). simplify_eq.
  destruct (Hl g l Hg) as (c & lst & Hc & ? & ?). exists c, lst. auto.
Qed.
End WorkerLoops.

(** * A concrete run *)
Module ToyWorkerLoops.
Import ToySeed ToyExecutor ToyAgent.
Definition at_second (from to : Z) : pass := Pass (from * Second) (to * Second) [].
(** The first tick installs a snapshot and starts the executor, which leases
    an assignment of 60 s; its goroutine probes at 30 s, then on its ticks. *)
Definition opening : list (event (N := unit) (E := unit)) :=
  [Begin (1 * Second); Tick (at_second 1 2) "5"; StartExecutor (2 * Second); Lease (at_second 2 3)].
Definition first_probe : list (event (N := unit) (E := unit)) := [Execute 0 (at_second 30 31) tt (30 * Second)].
Definition booted : process unit := Process day0 0 Starting None None ∅.
Definition leased : process unit := default booted (run toy_config 0 "1.0" toy_registry opening booted).
Definition accepts (evs : list (event (N := unit) (E := unit))) : bool :=
  is_some (run toy_config 0 "1.0" toy_registry evs leased).
End ToyWorkerLoops.

Section Witnesses.
Import ToySeed ToyExecutor ToyAgent ToyWorkerLoops.

(** A probe delayed to 200 s is followed by one at 210 s, the next point of
    the goroutine's grid, and not before. *)
Definition delayed : event (N := unit) (E := unit) := Execute 0 (at_second 200 201) tt (200 * Second).
Definition next : event (N := unit) (E := unit) := Execute 0 (at_second 210 211) tt (210 * Second).
Definition after_next : event (N := unit) (E := unit) := Execute 0 (at_second 270 271) tt (270 * Second).
End Witnesses.
