(* ===== verification/LoadTest.v ===== *)
(** [cmd/loadtest]: a simulated fleet against a coordinator.  Each simulated
    worker registers, then beats, leases and uploads signed observations on
    its tickers; the outcome of every call goes into shared statistics.

    A simulated worker runs the client of Client over any network; the other
    workers of the fleet are part of that network, and their calls reach the
    statistics through [record]. *)
From stdpp Require Import base gmap strings list sorting.
From Stdlib Require Import ZArith QArith Qround Lia.
From S2P Require Import Prelude Codec Netip Schema Wireauth StateDir Client Ticker.
From S2P Require Observation Upload.
Import Observation(Observation, ObservationJSON, MkObservation).
Open Scope Z_scope.

(** * Statistics *)
Record op_stats : Type := OpStats { st_ok : Z; st_errors : Z; st_latencies : list Z }.
Abbreviation stats := (gmap string op_stats).
Definition ops : list string := ["register"; "heartbeat"; "lease"; "upload"]%string.
Definition newStats : stats := list_to_map (map (fun op => (op, OpStats 0 0 [])) ops).

Definition record (op : string) (d : Z) (err : option error) : stats -> stats :=
  alter (fun s => match err with
                  | Some _ => OpStats (st_ok s) (st_errors s + 1) (st_latencies s)
                  | None => OpStats (st_ok s + 1) (st_errors s) (st_latencies s ++ [d])
                  end) op.

(** [pct]: [i := int(float64(len(ds)-1) * p)].  For the percentiles the program
    asks for, the double product rounds to the exact one whenever that is an
    integer, and is otherwise at least a twentieth away from one, so its
    truncation is that of the rational product. *)
Definition pct (ds : list Z) (p : Q) : Z :=
  match ds with
  | [] => 0
  | _ => nth (Z.to_nat (Qfloor (inject_Z (Z.of_nat (length ds) - 1) * p))) (sort_by Z.leb ds) 0
  end.

Definition stats_of (op : string) (st : stats) : op_stats := default (OpStats 0 0 []) (st !! op).
(** The rows of the report, and the exit code. *)
Definition report (st : stats) : list (string * (Z * Z) * (Z * Z * Z)) :=
  map (fun op => let s := stats_of op st in
                 (op, (st_ok s, st_errors s), (pct (st_latencies s) (1 # 2), pct (st_latencies s) (95 # 100), pct (st_latencies s) 1))) ops.
Definition exit_code (st : stats) : Z :=
  if (0 <? st_errors (stats_of "register" st)) || (0 <? st_errors (stats_of "upload" st)) then 1 else 0.

(** * A simulated worker *)
Section Worker.
Context {cr : Crypto} {tm : TimeText} {sc : SeedCrypto} {oj : ObservationJSON}
  {N : Type} {nw : Network N} {cj : ClientJSON} {ut : URLText}.
(** The flags [-token], [-heartbeat], [-lease] and [-capacity]. *)
Variables (token : string) (hb lease : Z) (capacity : Z).

Record sim : Type := Sim {
  sm_worker : worker N; sm_held : list Assignment; sm_go : option goroutine; sm_stats : stats; sm_registered : Z
}.

(** A timed client call: its outcome goes into the statistics. *)
Definition timed {A} (op : string) (m : M (worker N) A) (p : pass) (s : sim) : result A * sim :=
  let (r, w) := m (World (sm_worker s) (p_at p) (p_faults p)) in
  (r, Sim (w_db w) (sm_held s) (sm_go s)
        (record op (p_fin p - p_at p) (match r with Ok _ => None | Err e => Some e end) (sm_stats s)) (sm_registered s)).

Definition set_held (l : list Assignment) (s : sim) : sim := Sim (sm_worker s) l (sm_go s) (sm_stats s) (sm_registered s).
Definition set_go (g : goroutine) (s : sim) : sim := Sim (sm_worker s) (sm_held s) (Some g) (sm_stats s) (sm_registered s).

Definition doLease (p : pass) (s : sim) : sim :=
  let (r, s) := timed "lease" (LeaseAssignments capacity) p s in
  match r with Ok l => set_held l s | Err _ => s end.

(** [interval + mrand.N(interval / 4)]: the draw is below a quarter, and a
    quarter that is not positive is a panic. *)
Definition jittered (interval draw : Z) : option Z :=
  if interval / 4 <=? 0 then None else if (0 <=? draw) && (draw <? interval / 4) then Some (interval + draw) else None.

(** The goroutine up to its loop: [None] is a panic, or times out of order; a
    registration that fails ends it. *)
Definition join (idx_name : string) (p first : pass) (r1 r2 : Z) (s : sim) : option sim :=
  let (r, s) := timed "register" (Register token idx_name "loadtest") p s in
  match r with
  | Err _ => Some s
  | Ok _ =>
      let s := Sim (sm_worker s) (sm_held s) (sm_go s) (sm_stats s) (sm_registered s + 1) in
      if p_at first <? p_fin p then None else
      a ← jittered hb r1;
      b ← jittered lease r2;
      g ← spawn false [a; b; 30 * Second] (p_at first);
      Some (set_go (Goroutine false (p_fin first) (g_tickers g)) (doLease first s))
  end.

(** The observations of the held assignments, made up and signed. *)
Definition made_up (now : Z) (a : Assignment) (rtt : Q) : Observation :=
  MkObservation (as_ID a) (as_Target a) "icmp" now true (Some rtt) 3 0 JNull "".
Definition observations (key : PrivateKey) (now : Z) (held : list Assignment) (rtts : list Q) : list Observation :=
  omap (fun '(a, rtt) => match Observation.Sign (made_up now a rtt) key with Ok o => Some o | Err _ => None end) (zip held rtts).

Inductive turn_of : Type :=
| Beat (p : pass)
| Renew (p : pass)
| Send (p : pass) (now : Z) (uuid : string) (rtts : list Q)
(** A call of another simulated worker, and what it changed at the other
    end. *)
| Elsewhere (n : N) (op : string) (d : Z) (err : option error).

(** One turn of the loop. *)
Definition sim_step (ev : turn_of) (s : sim) : option sim :=
  g ← sm_go s;
  match ev with
  | Elsewhere n op d err =>
      let w := sm_worker s in
      let joined := bool_decide (op = "register"%string) && bool_decide (err = None) in
      Some (Sim (MkWorker (wk_disk w) (wk_client w) (wk_agent w) n) (sm_held s) (sm_go s) (record op d err (sm_stats s))
              (sm_registered s + if joined then 1 else 0))
  | Beat p => g' ← turn 0 (p_at p) (p_fin p) g; Some (set_go g' (timed "heartbeat" (Heartbeat "loadtest") p s).2)
  | Renew p => g' ← turn 1 (p_at p) (p_fin p) g; Some (set_go g' (doLease p s))
  | Send p now uuid rtts =>
      g' ← turn 2 (p_at p) (p_fin p) g;
      match sm_held s with
      | [] => Some (set_go g' s)
      | held =>
          if negb (Nat.eqb (length rtts) (length held)) then None
          else
            let obs := observations (c_Key (wk_client (sm_worker s))) now held rtts in
            Some (set_go g' (timed "upload" (UploadObservations uuid obs) p s).2)
      end
  end.
End Worker.

(** * Lemmas *)
(** The outcomes of a run's calls, in the order they were recorded. *)
Definition outcome : Type := string * Z * option error.
Definition tally (calls : list outcome) : stats := foldl (fun st '(op, d, e) => record op d e st) newStats calls.
Definition of_op (op : string) (ok : bool) (calls : list outcome) : list outcome :=
  List.filter (fun '(o, _, e) => bool_decide (o = op) && Bool.eqb ok (is_none e)) calls.

Lemma tally_snoc calls op d e : tally (calls ++ [(op, d, e)]) = record op d e (tally calls).
Proof. unfold tally. by rewrite foldl_app. Qed.

Lemma tally_op calls op : In op ops ->
  tally calls !! op = Some (OpStats (Z.of_nat (length (of_op op true calls))) (Z.of_nat (length (of_op op false calls)))
    (map (fun '(_, d, _) => d) (of_op op true calls))).
Proof.
  intros Hop. induction calls as [|[[o d] e] calls IH] using rev_ind.
  { destruct Hop as [<-|[<-|[<-|[<-|[]]]]]; reflexivity. }
  rewrite tally_snoc. unfold record. unfold of_op in *. rewrite !List.filter_app. cbn [List.filter].
  destruct (decide (o = op)) as [->|Hn].
  - rewrite lookup_alter_eq, IH, bool_decide_true by done. destruct e; simpl; rewrite ?app_nil_r, ?length_app, ?map_app; simpl;
      rewrite ?Nat2Z.inj_add; done.
  - rewrite lookup_alter_ne, IH, bool_decide_false by congruence. simpl. by rewrite !app_nil_r.
Qed.

Lemma sorted_nth (s : list Z) i j : StronglySorted (fun x y => (x <=? y) = true) s -> (i <= j < length s)%nat ->
  nth i s 0 <= nth j s 0.
Proof.
  intros Hs. revert i j. induction Hs as [|x s Hs IH Hall]; intros i j Hij; simpl in *; [lia|].
  destruct i as [|i], j as [|j]; try lia.
  - rewrite Forall_forall in Hall. apply Z.leb_le, Hall, list_elem_of_In, nth_In. lia.
  - apply IH. lia.
Qed.

Lemma filter_length_all {A} (p : A -> bool) l : (forall x, In x l -> p x = true) -> length (List.filter p l) = length l.
Proof.
  induction l as [|x l IH]; intros Hp; [done|]. simpl. rewrite (Hp x) by (by left). simpl. f_equal. apply IH. intros y Hy. apply Hp. by right.
Qed.

Lemma filter_split_ge {A} (p : A -> bool) k l : (forall x, In x (take k l) -> p x = true) ->
  (k <= length l)%nat -> (k <= length (List.filter p l))%nat.
Proof.
  intros Hp Hk. rewrite <- (take_drop k l), List.filter_app, length_app, (filter_length_all p (take k l)) by done.
  rewrite length_take. lia.
Qed.

Lemma filter_perm {A} (p : A -> bool) l1 l2 : l1 ≡ₚ l2 -> length (List.filter p l1) = length (List.filter p l2).
Proof.
  induction 1 as [|x l1 l2 _ IH|x y l|l1 l2 l3 _ IH1 _ IH2]; simpl; [done| | |congruence].
  - destruct (p x); simpl; congruence.
  - by destruct (p x), (p y).
Qed.

Lemma In_take_nth (s : list Z) k x : In x (take k s) -> exists i, (i < k)%nat /\ (i < length s)%nat /\ nth i s 0 = x.
Proof.
  intros (i & Hi & E)%(In_nth _ _ 0). rewrite length_take in Hi. exists i. split_and!; [lia|lia|].
  rewrite <- E. rewrite <- (take_drop k s) at 1. rewrite app_nth1; [done|]. rewrite length_take. lia.
Qed.
Lemma In_drop_nth (s : list Z) k x : (k <= length s)%nat -> In x (drop k s) -> exists i, (k <= i < length s)%nat /\ nth i s 0 = x.
Proof.
  intros Hk (i & Hi & E)%(In_nth _ _ 0). rewrite length_drop in Hi. exists (k + i)%nat. split; [lia|].
  rewrite <- E. rewrite <- (take_drop k s) at 1. rewrite app_nth2; rewrite length_take; [f_equal; lia|lia].
Qed.

(** * Properties *)
(** The statistics are exact: per operation the numbers of successes and
    failures and the latencies of the successes in order; and the command
    exits 0 exactly when no registration and no upload failed. *)
Theorem statistics_exact calls :
  (forall op, In op ops ->
     stats_of op (tally calls) = OpStats (Z.of_nat (length (of_op op true calls))) (Z.of_nat (length (of_op op false calls)))
       (map (fun '(_, d, _) => d) (of_op op true calls))) /\
  (exit_code (tally calls) = 0 <-> of_op "register" false calls = [] /\ of_op "upload" false calls = []).
Proof.
  assert (forall op, In op ops -> stats_of op (tally calls) = OpStats (Z.of_nat (length (of_op op true calls)))
    (Z.of_nat (length (of_op op false calls))) (map (fun '(_, d, _) => d) (of_op op true calls))) as Ht.
  { intros op Hop. unfold stats_of. by rewrite (tally_op calls op Hop). }
  split; [done|]. unfold exit_code. rewrite !Ht by (simpl; auto). cbn [st_errors].
  destruct (of_op "register" false calls), (of_op "upload" false calls); simpl; split; try done; try (intros [? ?]; done).
Qed.

(** A percentile of the report is one of the measured latencies, by rank: with
    [k] the truncated product, more than [k] latencies are at most it and all
    but [k] are at least it; the last column is the maximum. *)
Theorem pct_rank ds p : ds <> [] -> (0 <= p)%Q -> (p <= 1)%Q ->
  let k := Z.to_nat (Qfloor (inject_Z (Z.of_nat (length ds) - 1) * p)) in
  In (pct ds p) ds /\ (S k <= length (List.filter (fun x => Z.leb x (pct ds p)) ds))%nat /\
  (length ds - k <= length (List.filter (fun x => Z.leb (pct ds p) x) ds))%nat.
Proof.
  intros Hne H0 H1 k. assert (1 <= length ds)%nat as Hlen by (destruct ds; simpl; [done|lia]).
  assert (k < length ds)%nat as Hk.
  { assert (Qfloor (inject_Z (Z.of_nat (length ds) - 1) * p) <= Z.of_nat (length ds) - 1) as Hf; [|lia].
    rewrite <- (Qfloor_Z (Z.of_nat (length ds) - 1)) at 2. apply Qfloor_resp_le.
    rewrite <- (Qmult_1_r (inject_Z (Z.of_nat (length ds) - 1))) at 2. rewrite !(Qmult_comm (inject_Z _)).
    apply Qmult_le_compat_r; [done|]. unfold Qle. simpl. lia. }
  set (s := sort_by Z.leb ds). assert (s ≡ₚ ds) as Hp by apply sort_by_perm.
  assert (length s = length ds) as Hl by (by rewrite Hp).
  assert (StronglySorted (fun x y => (x <=? y) = true) s) as Hs.
  { apply sort_by_sorted; [intros x y ?%Z.leb_gt; apply Z.leb_le; lia | intros x y z ?%Z.leb_le ?%Z.leb_le; apply Z.leb_le; lia]. }
  assert (pct ds p = nth k s 0) as Hv by (unfold pct; by destruct ds). rewrite Hv.
  split; [apply list_elem_of_In; rewrite <- Hp; apply list_elem_of_In, nth_In; lia|]. rewrite <- !(filter_perm _ _ _ Hp). split.
  - apply filter_split_ge; [|lia]. intros x (i & Hi & Hi2 & <-)%In_take_nth. apply Z.leb_le, sorted_nth; [done|lia].
  - rewrite <- Hl. set (f := fun x => Z.leb (nth k s 0) x).
    assert (length (List.filter f s) = (length (List.filter f (take k s)) + length (List.filter f (drop k s)))%nat) as ->
      by (by rewrite <- length_app, <- List.filter_app, take_drop).
    rewrite (filter_length_all f (drop k s)); [rewrite length_drop; lia|]. intros x (i & Hi & <-)%In_drop_nth; [|lia].
    apply Z.leb_le, sorted_nth; [done|lia].
Qed.

(** What a simulated worker uploads are observations it signed: each verifies
    under its key and names an assignment it holds. *)
Theorem observations_signed {cr : Crypto} {crl : CryptoLaws} {oj : ObservationJSON} key now held rtts o :
  In o (observations key now held rtts) ->
  Observation.Verify o (Public key) = Ok tt /\ exists a, In a held /\ Observation.AssignmentID o = as_ID a.
Proof.
  intros H. apply list_elem_of_In, list_elem_of_omap in H as ([a rtt] & Hin & Ho).
  destruct (Observation.Sign (made_up now a rtt) key) as [o'|] eqn:E; [|done]. injection Ho as <-.
  split; [by eapply Observation.observation_sign_verify|]. exists a. split.
  - apply elem_of_zip_l in Hin. by apply list_elem_of_In.
  - unfold Observation.Sign in E. destruct (Observation.payload _); [|done]. by injection E as <-.
Qed.

Example pct_sample : map (pct [30; 10; 50; 20; 40]) [1 # 2; 95 # 100; 1]%Q = [30; 40; 50].
Proof. reflexivity. Qed.
